(** * PVF-Analyzer-DB: RFQ spreadsheet parser, subset-award optimiser and
      historical estimator

    A shallow embedding of [rfq_parser.py], of the tables and the loader
    of [rfq_db.py], and of [rfq_app.py]: its two analyses ([subset_enum],
    [estimate_rfq]), the route that loads a workbook and the metadata read
    from a file name; followed by the properties of the specification that
    were checked against it and by further properties of the code.

    Conventions of the embedding.
    - Python [str] is [string]; text is ASCII (bytes above 127 are caseless
      and never white space).
    - Python [float] is the carrier of the class [PyFloat]: the operations the
      code uses are its fields, the order facts some proofs need are the
      separate class [PyFloatOrder].
    - A Python [dict] is a [gmap]; a [dict] whose key set is fixed by the code
      is a record of options.  Iteration over a [set] of strings, whose order
      Python does not fix, goes through an explicit order function. *)

From Stdlib Require Import ZArith Ascii String.
From Stdlib Require QArith Qcanon Qround.
From stdpp Require Import gmap strings list sorting pretty.

Local Open Scope Z_scope.
Local Open Scope nat_scope.

(* ===================================================================== *)
(** * Python strings *)
(* ===================================================================== *)

Module PyStr.

Definition chars (s : string) : list ascii := list_ascii_of_string s.
Definition of_chars (l : list ascii) : string := string_of_list_ascii l.

Definition code (c : ascii) : nat := nat_of_ascii c.

(** [str.isspace] on the ASCII range: TAB..CR, FS..US and the space. *)
Definition is_space (c : ascii) : bool :=
  let n := code c in
  ((9 <=? n) && (n <=? 13)) || ((28 <=? n) && (n <=? 32)).

Definition is_digit (c : ascii) : bool :=
  let n := code c in (48 <=? n) && (n <=? 57).

Definition is_upper (c : ascii) : bool :=
  let n := code c in (65 <=? n) && (n <=? 90).

Definition is_lower (c : ascii) : bool :=
  let n := code c in (97 <=? n) && (n <=? 122).

Definition lower_char (c : ascii) : ascii :=
  if is_upper c then ascii_of_nat (code c + 32) else c.

Definition upper_char (c : ascii) : ascii :=
  if is_lower c then ascii_of_nat (code c - 32) else c.

Definition ceqb (a b : ascii) : bool := Ascii.eqb a b.

Fixpoint lstrip_by (p : ascii → bool) (l : list ascii) : list ascii :=
  match l with
  | [] => []
  | c :: t => if p c then lstrip_by p t else l
  end.

Fixpoint take_until (p : ascii → bool) (l : list ascii) : list ascii :=
  match l with
  | [] => []
  | c :: t => if p c then [] else c :: take_until p t
  end.

Fixpoint drop_until (p : ascii → bool) (l : list ascii) : list ascii :=
  match l with
  | [] => []
  | c :: t => if p c then l else drop_until p t
  end.

Definition rstrip_by (p : ascii → bool) (l : list ascii) : list ascii :=
  rev (lstrip_by p (rev l)).

Definition strip_chars (l : list ascii) : list ascii :=
  rstrip_by is_space (lstrip_by is_space l).

(** [s.split()]: the maximal runs of characters that are not white space. *)
Fixpoint words_go (cur : list ascii) (l : list ascii) : list (list ascii) :=
  match l with
  | [] => match cur with [] => [] | _ => [rev cur] end
  | c :: t =>
      if is_space c
      then match cur with [] => words_go [] t | _ => rev cur :: words_go [] t end
      else words_go (c :: cur) t
  end.

(** [re.split(r"[...]+", s)]: the pieces between maximal runs of delimiters;
    a delimiter at either end leaves an empty piece there. *)
Fixpoint split_runs (p : ascii → bool) (cur : list ascii) (skipping : bool)
    (l : list ascii) : list (list ascii) :=
  match l with
  | [] => [rev cur]
  | c :: t =>
      if p c
      then if skipping then split_runs p cur true t
           else rev cur :: split_runs p [] true t
      else split_runs p (c :: cur) false t
  end.

Fixpoint is_prefix (p l : list ascii) : bool :=
  match p, l with
  | [], _ => true
  | _ :: _, [] => false
  | a :: p', b :: l' => ceqb a b && is_prefix p' l'
  end.

Fixpoint is_infix (p l : list ascii) : bool :=
  is_prefix p l || match l with [] => false | _ :: t => is_infix p t end.

(** [s.split(sep, 1)] for a one-character [sep]. *)
Fixpoint split1_chars (sep : ascii) (l : list ascii)
    : list ascii * option (list ascii) :=
  match l with
  | [] => ([], None)
  | c :: t =>
      if ceqb c sep then ([], Some t)
      else let '(a, b) := split1_chars sep t in (c :: a, b)
  end.

(** The Python methods, on [string]. *)

Definition len (s : string) : nat := length (chars s).
Definition nonempty (s : string) : bool :=
  match s with EmptyString => false | _ => true end.

(** [s.lower()] and [s.upper()] of an ASCII text: the letters a to z and A
    to Z change, every other character stays. *)
Definition lower (s : string) : string := of_chars (map lower_char (chars s)).
Definition upper (s : string) : string := of_chars (map upper_char (chars s)).
Definition strip (s : string) : string := of_chars (strip_chars (chars s)).

(** [s.rstrip(c)] for a one-character argument. *)
Definition rstrip_char (c : ascii) (s : string) : string :=
  of_chars (rstrip_by (ceqb c) (chars s)).

(** [s.replace(a, b)] for one-character [a] and [b]. *)
Definition replace_char (a b : ascii) (s : string) : string :=
  of_chars (map (λ c, if ceqb c a then b else c) (chars s)).

(** [s.replace(a, "")] for a one-character [a]. *)
Definition remove_char (a : ascii) (s : string) : string :=
  of_chars (List.filter (λ c, negb (ceqb c a)) (chars s)).

Definition split (s : string) : list string :=
  map of_chars (words_go [] (chars s)).

(** [s.split(None, 1)]: the first word and, when there is more, the rest
    with its leading white space removed. *)
Definition split_ws1 (s : string) : list string :=
  let l := lstrip_by is_space (chars s) in
  let w := take_until is_space l in
  let r := lstrip_by is_space (drop_until is_space l) in
  match w, r with
  | [], _ => []
  | _, [] => [of_chars w]
  | _, _ => [of_chars w; of_chars r]
  end.

(** [s.split(sep, 1)]. *)
Definition split1 (sep : ascii) (s : string) : list string :=
  match split1_chars sep (chars s) with
  | (a, None) => [of_chars a]
  | (a, Some b) => [of_chars a; of_chars b]
  end.

(** [s.rsplit(sep, 1)]. *)
Definition rsplit1 (sep : ascii) (s : string) : list string :=
  match split1_chars sep (rev (chars s)) with
  | (a, None) => [of_chars (rev a)]
  | (a, Some b) => [of_chars (rev b); of_chars (rev a)]
  end.

Definition endswith (s suffix : string) : bool :=
  is_prefix (rev (chars suffix)) (rev (chars s)).

(** [sub in s]. *)
Definition contains (sub s : string) : bool := is_infix (chars sub) (chars s).

(** [s[:-k]] for [k >= 1]. *)
Definition drop_last (k : nat) (s : string) : string :=
  of_chars (take (length (chars s) - k) (chars s)).

(** [l[-2:]]. *)
Definition last_two {A} (l : list A) : list A := drop (length l - 2) l.

(** [sep.join(l)]. *)
Fixpoint join (sep : string) (l : list string) : string :=
  match l with
  | [] => ""
  | [x] => x
  | x :: t => x +:+ sep +:+ join sep t
  end.

(** [x in S] for a set literal of strings. *)
Definition mem (x : string) (S : list string) : bool :=
  existsb (String.eqb x) S.

End PyStr.

(* ===================================================================== *)
(** * Regular expressions of the [re] module, matched by derivatives *)
(* ===================================================================== *)

Module Re.

Inductive regex : Type :=
| Void
| Eps
| Cls (p : ascii → bool)
| Cat (r s : regex)
| Alt (r s : regex)
| Star (r : regex).

Fixpoint nullable (r : regex) : bool :=
  match r with
  | Void => false
  | Eps => true
  | Cls _ => false
  | Cat r s => nullable r && nullable s
  | Alt r s => nullable r || nullable s
  | Star _ => true
  end.

Fixpoint deriv (c : ascii) (r : regex) : regex :=
  match r with
  | Void => Void
  | Eps => Void
  | Cls p => if p c then Eps else Void
  | Cat r s =>
      if nullable r then Alt (Cat (deriv c r) s) (deriv c s)
      else Cat (deriv c r) s
  | Alt r s => Alt (deriv c r) (deriv c s)
  | Star r => Cat (deriv c r) (Star r)
  end.

Fixpoint matches_chars (r : regex) (l : list ascii) : bool :=
  match l with
  | [] => nullable r
  | c :: t => matches_chars (deriv c r) t
  end.

(** The whole of [s] matches [r]. *)
Definition fullmatch (r : regex) (s : string) : bool :=
  matches_chars r (PyStr.chars s).

Definition any : regex := Cls (λ _, true).
(** [.] matches everything but a line feed. *)
Definition dot : regex := Cls (λ c, negb (PyStr.ceqb c "010")).
Definition opt (r : regex) : regex := Alt Eps r.
Definition plus (r : regex) : regex := Cat r (Star r).

Fixpoint seq (l : list regex) : regex :=
  match l with
  | [] => Eps
  | [r] => r
  | r :: t => Cat r (seq t)
  end.

Fixpoint alts (l : list regex) : regex :=
  match l with
  | [] => Void
  | [r] => r
  | r :: t => Alt r (alts t)
  end.

(** A literal, case-sensitive or under [re.IGNORECASE]. *)
Definition lit (s : string) : regex :=
  seq (map (λ c, Cls (PyStr.ceqb c)) (PyStr.chars s)).
Definition lit_i (s : string) : regex :=
  seq (map (λ c, Cls (λ x, PyStr.ceqb (PyStr.lower_char x) (PyStr.lower_char c)))
           (PyStr.chars s)).

(** [re.search(r, s)]: some substring matches. *)
Definition search (r : regex) (s : string) : bool :=
  fullmatch (seq [Star any; r; Star any]) s.

(** [re.match(r, s)] for a pattern without [$]: some prefix matches. *)
Definition match_prefix (r : regex) (s : string) : bool :=
  fullmatch (Cat r (Star any)) s.

(** [$] matches at the end and before a final line feed. *)
Definition eol : regex := opt (Cls (PyStr.ceqb "010")).

End Re.

(* ===================================================================== *)
(** * Python values *)
(* ===================================================================== *)

(** The operations on [float] that the program uses.  [float_lit m e] is the
    literal [m * 10^-e] ([0.25] is [float_lit 25 2]); [float_of_str] is
    [float(s)] on a [str], [None] where Python raises [ValueError];
    [fround n x] is [round(x, n)]. *)
Class PyFloat : Type := {
  float : Type;
  float_of_Z : Z → float;
  float_lit : Z → nat → float;
  float_of_str : string → option float;
  float_str : float → string;
  fadd : float → float → float;
  fsub : float → float → float;
  fmul : float → float → float;
  fdiv : float → float → float;
  feqb : float → float → bool;
  fltb : float → float → bool;
  fleb : float → float → bool;
  fround : nat → float → float
}.

(** What the proofs about costs and scores assume of the order: [<] is a
    strict total order, [<=] is its reflexive closure, and [+] is monotone
    in both arguments.  Floats other than NaN satisfy this, the two zeros
    taken as one (rounding to nearest is monotone). *)
Class PyFloatOrder (F : PyFloat) : Prop := {
  fltb_irrefl : ∀ x : float, fltb x x = false;
  fltb_trans : ∀ x y z : float, fltb x y = true → fltb y z = true → fltb x z = true;
  fltb_connex : ∀ x y : float, fltb x y = false → fltb y x = false → x = y;
  fleb_spec : ∀ x y : float, fleb x y = negb (fltb y x);
  fadd_mono : ∀ a b c d : float,
    fleb a b = true → fleb c d = true → fleb (fadd a c) (fadd b d) = true
}.

Inductive pyval {F : PyFloat} : Type :=
| PNone
| PStr (s : string)
| PInt (z : Z)
| PFloat (x : float)
| PBool (b : bool).

Section Values.
Context {F : PyFloat}.

(** [str(v)]. *)
Definition py_str (v : pyval) : string :=
  match v with
  | PNone => "None"
  | PStr s => s
  | PInt z => pretty z
  | PFloat x => float_str x
  | PBool true => "True"
  | PBool false => "False"
  end.

(** [bool(v)]. *)
Definition truthy (v : pyval) : bool :=
  match v with
  | PNone => false
  | PStr s => PyStr.nonempty s
  | PInt z => negb (z =? 0)%Z
  | PFloat x => negb (feqb x (float_of_Z 0))
  | PBool b => b
  end.

Definition is_none (v : pyval) : bool :=
  match v with PNone => true | _ => false end.

(** The ints that [float] converts are those that round to a finite double,
    [abs(z) < 2**1024 - 2**970]; on the others it raises [OverflowError]. *)
Definition fits_float (z : Z) : bool := (Z.abs z <? 2 ^ 1024 - 2 ^ 970)%Z.

(** What [float(v)] does: it returns a float, or raises [ValueError] or
    [TypeError] (a text that is no number, [None]), or raises
    [OverflowError] (an int too large). *)
Inductive conversion : Type :=
| Float (x : float)
| ValueOrTypeError
| OverflowError.

Definition py_float (v : pyval) : conversion :=
  match v with
  | PNone => ValueOrTypeError
  | PStr s =>
      match float_of_str s with
      | Some x => Float x
      | None => ValueOrTypeError
      end
  | PInt z => if fits_float z then Float (float_of_Z z) else OverflowError
  | PFloat x => Float x
  | PBool b => Float (float_of_Z (if b then 1 else 0))
  end.

End Values.

(* ===================================================================== *)
(** * rfq_parser.py *)
(* ===================================================================== *)

Definition UNIT_PRICE_SYNONYMS : list string :=
  ["unit price"; "unit cost"; "unit_price"; "unit_cost"; "unitprice"].
Definition EXT_PRICE_SYNONYMS : list string :=
  ["total price"; "ext. price"; "ext price"; "extended price";
   "ext. cost"; "ext cost"; "extended cost"; "total_price";
   "ext_price"; "ext_cost"; "totalprice"; "extprice"].
Definition ITEM_NUM_SYNONYMS : list string :=
  ["item #"; "item#"; "item no"; "item no."; "item number"; "line no"; "line no."].
Definition DESC_SYNONYMS : list string := ["description"; "desc"].
Definition UNIT_SYNONYMS : list string := ["unit"; "units"; "unit of measure"; "uom"].
Definition QTY_SYNONYMS : list string :=
  ["qty quoted"; "qty"; "quantity"; "units quoted"; "qty quoted"].
Definition SIZE_SYNONYMS : list string := ["size"].

(** The two keys of a bidder's column dict and of a bid. *)
Inductive price_field : Type := unit_price | ext_price.

Global Instance price_field_eq_dec : EqDecision price_field.
Proof. solve_decision. Defined.

(** [rfq_map]: the keys are fixed by the code. *)
Record rfq_cols : Type := {
  col_item_num : option nat;
  col_description : option nat;
  col_unit : option nat;
  col_quantity : option nat;
  col_size : option nat
}.

Definition rfq_empty : rfq_cols :=
  {| col_item_num := None; col_description := None; col_unit := None;
     col_quantity := None; col_size := None |}.

Definition set_item_num (i : nat) (m : rfq_cols) : rfq_cols :=
  {| col_item_num := Some i; col_description := col_description m;
     col_unit := col_unit m; col_quantity := col_quantity m; col_size := col_size m |}.
Definition set_description (i : nat) (m : rfq_cols) : rfq_cols :=
  {| col_item_num := col_item_num m; col_description := Some i;
     col_unit := col_unit m; col_quantity := col_quantity m; col_size := col_size m |}.
Definition set_unit (i : nat) (m : rfq_cols) : rfq_cols :=
  {| col_item_num := col_item_num m; col_description := col_description m;
     col_unit := Some i; col_quantity := col_quantity m; col_size := col_size m |}.
Definition set_quantity (i : nat) (m : rfq_cols) : rfq_cols :=
  {| col_item_num := col_item_num m; col_description := col_description m;
     col_unit := col_unit m; col_quantity := Some i; col_size := col_size m |}.
Definition set_size (i : nat) (m : rfq_cols) : rfq_cols :=
  {| col_item_num := col_item_num m; col_description := col_description m;
     col_unit := col_unit m; col_quantity := col_quantity m; col_size := Some i |}.

(** [enumerate(l)], counting from [i]. *)
Fixpoint enumerate_from {A} (i : nat) (l : list A) : list (nat * A) :=
  match l with
  | [] => []
  | x :: t => (i, x) :: enumerate_from (S i) t
  end.
Definition enumerate {A} (l : list A) : list (nat * A) := enumerate_from 0 l.

(** A bidder's entry of [bidder_map]. *)
Record bidder_cols : Type := {
  unit_price_col : option nat;
  ext_price_col : option nat
}.

Definition cols_empty : bidder_cols :=
  {| unit_price_col := None; ext_price_col := None |}.

Definition cols_get (f : price_field) (c : bidder_cols) : option nat :=
  match f with unit_price => unit_price_col c | ext_price => ext_price_col c end.

Definition cols_set (f : price_field) (i : nat) (c : bidder_cols) : bidder_cols :=
  match f with
  | unit_price => {| unit_price_col := Some i; ext_price_col := ext_price_col c |}
  | ext_price => {| unit_price_col := unit_price_col c; ext_price_col := Some i |}
  end.

(** [if name not in bidder_map: bidder_map[name] = {}] followed by
    [bidder_map[name][field] = col_i]. *)
Definition bidder_map_set (name : string) (f : price_field) (i : nat)
    (m : gmap string bidder_cols) : gmap string bidder_cols :=
  <[name := cols_set f i (default cols_empty (m !! name))]> m.

Section Parser.
Context {F : PyFloat}.

Definition _norm (val : pyval) : string :=
  match val with
  | PNone => ""
  | _ => PyStr.lower (PyStr.strip (py_str val))
  end.

Definition _matches (val : pyval) (synonyms : list string) : bool :=
  PyStr.mem (_norm val) synonyms.

(** The test of one row in [_find_header_row]. *)
Definition is_header_row (row : list pyval) : bool :=
  let has_item := existsb (λ c, _matches c ITEM_NUM_SYNONYMS) row in
  let has_desc := existsb (λ c, _matches c DESC_SYNONYMS) row in
  has_item && has_desc.

(** [for i, row in enumerate(...)], from index [i] on. *)
Fixpoint find_header_from (i : nat) (rows : list (list pyval))
    : option (nat * list pyval) :=
  match rows with
  | [] => None
  | row :: rest =>
      if is_header_row row then Some (i, row)
      else find_header_from (S i) rest
  end.

Definition _find_header_row (rows : list (list pyval))
    : option (nat * list pyval) :=
  find_header_from 0 (take 15 rows).

(** ** Format detection *)

(** [(unit.?price|unit.?cost|total.?price|ext.?price|ext.?cost)] *)
Definition price_words (mk : string → Re.regex) : Re.regex :=
  Re.alts [ Re.seq [mk "unit"; Re.opt Re.dot; mk "price"];
            Re.seq [mk "unit"; Re.opt Re.dot; mk "cost"];
            Re.seq [mk "total"; Re.opt Re.dot; mk "price"];
            Re.seq [mk "ext"; Re.opt Re.dot; mk "price"];
            Re.seq [mk "ext"; Re.opt Re.dot; mk "cost"] ].

Definition is_letter (c : ascii) : bool := PyStr.is_upper c || PyStr.is_lower c.

(** [[A-Z][A-Z0-9\-]+_(UNIT_PRICE|TOTAL_PRICE|UNIT_COST|EXT_COST|EXT_PRICE)]
    under [re.IGNORECASE]. *)
Definition underscore_header : Re.regex :=
  Re.seq [ Re.Cls is_letter;
           Re.plus (Re.Cls (λ c, is_letter c || PyStr.is_digit c || PyStr.ceqb c "-"));
           Re.lit "_";
           Re.alts [Re.lit_i "UNIT_PRICE"; Re.lit_i "TOTAL_PRICE";
                    Re.lit_i "UNIT_COST"; Re.lit_i "EXT_COST";
                    Re.lit_i "EXT_PRICE"] ].

Definition _PRICE_ENDINGS_2W : list string :=
  ["unit price"; "unit cost"; "total price";
   "ext price"; "ext. price"; "extended price";
   "ext cost"; "ext. cost"; "extended cost"].

(** The body of the first loop of [_detect_format_b]. *)
Definition detect_underscore (h : pyval) : bool :=
  let s := _norm h in
  PyStr.nonempty s && PyStr.contains "_" s &&
  (PyStr.mem (default "" (last (PyStr.rsplit1 "_" s)))
     ["unit_price"; "unit price"; "total_price"; "total price";
      "unit_cost"; "ext_price"; "ext_cost"; "unit cost"; "ext cost"]
   || Re.search (price_words Re.lit) s).

(** The body of the second loop. *)
Definition detect_pattern (h : pyval) : bool :=
  let s := if truthy h then PyStr.strip (py_str h) else "" in
  Re.match_prefix underscore_header s.

(** The body of the third loop. *)
Definition detect_spaced (h : pyval) : bool :=
  truthy h &&
  let words :=
    PyStr.split (PyStr.replace_char ">" "." (PyStr.lower (PyStr.strip (py_str h)))) in
  (3 <=? length words) &&
  PyStr.mem (PyStr.join " " (PyStr.last_two words)) _PRICE_ENDINGS_2W.

Definition _detect_format_b (header_cols : list pyval) : bool :=
  existsb detect_underscore header_cols
  || existsb detect_pattern header_cols
  || existsb detect_spaced header_cols.

(** ** Compound headers (format B) *)

(** The elif chain over the RFQ column synonyms; [None] when none applies. *)
Definition rfq_role (h : pyval) (col_i : nat) (m : rfq_cols) : option rfq_cols :=
  if _matches h ITEM_NUM_SYNONYMS then Some (set_item_num col_i m)
  else if _matches h DESC_SYNONYMS then Some (set_description col_i m)
  else if _matches h UNIT_SYNONYMS then Some (set_unit col_i m)
  else if _matches h QTY_SYNONYMS then Some (set_quantity col_i m)
  else if _matches h SIZE_SYNONYMS then Some (set_size col_i m)
  else None.

(** [matched_bidder] and [matched_field] of [_parse_format_b]. *)
Definition matched : Type := option string * option price_field.

(** [not matched_bidder]. *)
Definition no_bidder (m : matched) : bool :=
  match fst m with
  | None => true
  | Some b => negb (PyStr.nonempty b)
  end.

(** The loop over [UNIT_PRICE_SYNONYMS]: the first synonym that is a
    suffix decides.  The synonyms are a Python set; they are taken here in
    the order of the set literal. *)
Fixpoint match_unit_suffix (s s_low : string) (syns : list string) (m : matched)
    : matched :=
  match syns with
  | [] => m
  | syn :: rest =>
      let syn_under := PyStr.replace_char " " "_" syn in
      if PyStr.endswith s_low ("_" +:+ syn_under) || PyStr.endswith s_low ("_" +:+ syn)
      then
        let candidate :=
          PyStr.rstrip_char "_" (PyStr.drop_last (PyStr.len syn_under + 1) s) in
        (Some (PyStr.upper candidate), Some unit_price)
      else match_unit_suffix s s_low rest m
  end.

(** The loop over [EXT_PRICE_SYNONYMS]. *)
Fixpoint match_ext_suffix (s s_low : string) (syns : list string) (m : matched)
    : matched :=
  match syns with
  | [] => m
  | syn :: rest =>
      let syn_under := PyStr.remove_char "." (PyStr.replace_char " " "_" syn) in
      let s_test := PyStr.replace_char " " "_" (PyStr.remove_char "." s_low) in
      let syn_test := PyStr.remove_char "." syn_under in
      if PyStr.endswith s_test ("_" +:+ syn_test)
      then
        let candidate :=
          PyStr.rstrip_char "_" (PyStr.drop_last (PyStr.len syn_under + 1) s) in
        (Some (PyStr.upper candidate), Some ext_price)
      else match_ext_suffix s s_low rest m
  end.

(** [_(UNIT.?PRICE|UNIT.?COST|TOTAL.?PRICE|EXT.?PRICE|EXT.?COST)$] under
    [re.IGNORECASE]: what must follow group 1. *)
Definition after_prefix : Re.regex :=
  Re.seq [Re.lit "_"; price_words Re.lit_i; Re.eol].

(** [re.match(r"^(.+?)_(...)$", s, re.IGNORECASE)]: the lazy group 1 is
    the shortest non-empty prefix without a line feed after which the rest
    matches; the result is that prefix and the rest.  [pre] is the prefix
    read so far, reversed. *)
Fixpoint lazy_prefix (pre rest : list ascii) : option (list ascii * list ascii) :=
  match rest with
  | [] => None
  | c :: t =>
      if match pre with [] => false | _ => Re.matches_chars after_prefix rest end
      then Some (rev pre, rest)
      else if PyStr.ceqb c "010" then None
      else lazy_prefix (c :: pre) t
  end.

(** Groups 1 and 2 of that match. *)
Definition match_underscore_regex (s : string) : option (string * string) :=
  match lazy_prefix [] (PyStr.chars s) with
  | None => None
  | Some (g1, rest) =>
      let g2 := PyStr.rstrip_by (PyStr.ceqb "010") (drop 1 rest) in
      Some (PyStr.of_chars g1, PyStr.of_chars g2)
  end.

Definition match_regex (s : string) (m : matched) : matched :=
  match match_underscore_regex s with
  | None => m
  | Some (g1, g2) =>
      let field_raw := PyStr.lower g2 in
      let fld :=
        if (PyStr.contains "unit" field_raw || PyStr.contains "cost" field_raw)
           && negb (PyStr.contains "total" field_raw)
           && negb (PyStr.contains "ext" field_raw)
        then unit_price else ext_price in
      (Some (PyStr.upper g1), Some fld)
  end.

Definition match_spaced (s : string) (m : matched) : matched :=
  let words := PyStr.split (PyStr.replace_char ">" "." s) in
  if 3 <=? length words then
    let last_two := PyStr.lower (PyStr.join " " (PyStr.last_two words)) in
    if PyStr.mem last_two ["unit price"; "unit cost"]
    then (Some (PyStr.upper (default "" (head words))), Some unit_price)
    else if PyStr.mem last_two
              ["total price"; "ext price"; "ext. price"; "extended price";
               "ext cost"; "ext. cost"; "extended cost"]
    then (Some (PyStr.upper (default "" (head words))), Some ext_price)
    else m
  else m.

(** The four attempts on one header cell, in the order of the code. *)
Definition match_compound (s : string) : matched :=
  let s_low := PyStr.lower s in
  let m0 : matched := (None, None) in
  let m1 := match_unit_suffix s s_low UNIT_PRICE_SYNONYMS m0 in
  let m2 := if no_bidder m1 then match_ext_suffix s s_low EXT_PRICE_SYNONYMS m1 else m1 in
  let m3 := if no_bidder m2 then match_regex s m2 else m2 in
  if no_bidder m3 then match_spaced s m3 else m3.

(** One iteration of the loop of [_parse_format_b]. *)
Definition format_b_step (st : rfq_cols * gmap string bidder_cols)
    (c : nat * pyval) : rfq_cols * gmap string bidder_cols :=
  let '(rfq_map, bidder_map) := st in
  let '(col_i, h) := c in
  if is_none h then st
  else
    let s := PyStr.strip (py_str h) in
    match match_compound s with
    | (Some b, Some fld) =>
        if PyStr.nonempty b
        then (rfq_map, bidder_map_set b fld col_i bidder_map)
        else (default rfq_map (rfq_role h col_i rfq_map), bidder_map)
    | _ => (default rfq_map (rfq_role h col_i rfq_map), bidder_map)
    end.

Definition _parse_format_b (header_cols : list pyval)
    : rfq_cols * gmap string bidder_cols :=
  foldl format_b_step (rfq_empty, ∅) (enumerate header_cols).

(** ** Bidder names in a row above the header (formats A and C) *)

Definition SKIP_WORDS : list string :=
  ["rfq"; "none"; "delivery"; "weeks"; "manufacturer";
   "comments"; "vendor comments"; "unit price"; "total price"].

(** [^[\d\s\.\-\(\)\+]+$] *)
Definition phone_like : Re.regex :=
  Re.Cat
    (Re.plus (Re.Cls (λ c, PyStr.is_digit c || PyStr.is_space c
                           || PyStr.ceqb c "." || PyStr.ceqb c "-"
                           || PyStr.ceqb c "(" || PyStr.ceqb c ")"
                           || PyStr.ceqb c "+")))
    Re.eol.

(** The tests on one cell: its upper-cased text when it may be a bidder
    name. *)
Definition bidder_candidate (val : pyval) : option string :=
  if is_none val then None
  else
    let s := PyStr.strip (py_str val) in
    if negb (PyStr.nonempty s) || (50 <? PyStr.len s) then None
    else if PyStr.mem (_norm (PStr s)) SKIP_WORDS then None
    else if Re.fullmatch phone_like s then None
    else if PyStr.contains "@" s then None
    else if 4 <? length (PyStr.split s) then None
    else Some (PyStr.upper s).

Definition row_candidates (row : list pyval) : gmap nat string :=
  foldl (λ (acc : gmap nat string) (c : nat * pyval),
           match bidder_candidate c.2 with
           | Some name => <[c.1 := name]> acc
           | None => acc
           end)
        ∅ (enumerate row).

(** [sum(len(v) for v in candidates.values())] *)
Definition total_len (candidates : gmap nat string) : nat :=
  map_fold (λ _ v acc, PyStr.len v + acc) 0 candidates.

Definition names_step (st : gmap nat string * float) (row : list pyval)
    : gmap nat string * float :=
  let '(best_row, best_score) := st in
  let candidates := row_candidates row in
  if 2 <=? size candidates then
    let avg_len :=
      fdiv (float_of_Z (Z.of_nat (total_len candidates)))
           (float_of_Z (Z.of_nat (size candidates))) in
    let score := fdiv (float_lit 10 1) avg_len in
    if fltb best_score score then (candidates, score) else st
  else st.

Definition _find_bidder_names_above (rows : list (list pyval)) (header_idx : nat)
    : gmap nat string :=
  (foldl names_step (∅, float_of_Z 0) (take header_idx rows)).1.

(** [sorted(d.keys())] for a dict with integer keys. *)
Definition sorted_keys (d : gmap nat string) : list nat :=
  merge_sort Nat.le (map fst (map_to_list d)).

(** The loop of [_bidder_for_col]: the last start column not after
    [col_i], reading the sorted start columns from the left. *)
Fixpoint owner_scan (owner : option nat) (bidder_start_cols : list nat)
    (col_i : nat) : option nat :=
  match bidder_start_cols with
  | [] => owner
  | bc :: rest =>
      if bc <=? col_i then owner_scan (Some bc) rest col_i else owner
  end.

Definition _bidder_for_col (bidder_names_at_col : gmap nat string) (col_i : nat)
    : option string :=
  match owner_scan None (sorted_keys bidder_names_at_col) col_i with
  | Some owner => bidder_names_at_col !! owner
  | None => None
  end.

(** Step 2 of [_parse_format_ac] on one header cell: the RFQ roles first,
    then the two price roles. *)
Definition format_ac_step (st : rfq_cols * list (nat * price_field))
    (c : nat * pyval) : rfq_cols * list (nat * price_field) :=
  let '(rfq_map, col_roles) := st in
  let '(col_i, h) := c in
  if is_none h then st
  else match rfq_role h col_i rfq_map with
       | Some rfq_map' => (rfq_map', col_roles)
       | None =>
           if PyStr.mem (_norm h) UNIT_PRICE_SYNONYMS
           then (rfq_map, col_roles ++ [(col_i, unit_price)])
           else if PyStr.mem (_norm h) EXT_PRICE_SYNONYMS
           then (rfq_map, col_roles ++ [(col_i, ext_price)])
           else st
       end.

Definition header_roles (header_cols : list pyval)
    : rfq_cols * list (nat * price_field) :=
  foldl format_ac_step (rfq_empty, []) (enumerate header_cols).

(** Step 3 on one price column. *)
Definition assign_step (bidder_names_at_col : gmap nat string)
    (bidder_map : gmap string bidder_cols) (c : nat * price_field)
    : gmap string bidder_cols :=
  match _bidder_for_col bidder_names_at_col c.1 with
  | Some name =>
      if PyStr.nonempty name then bidder_map_set name c.2 c.1 bidder_map
      else bidder_map
  | None => bidder_map
  end.

Definition assign_columns (bidder_names_at_col : gmap nat string)
    (col_roles : list (nat * price_field)) : gmap string bidder_cols :=
  foldl (assign_step bidder_names_at_col) ∅ col_roles.

Definition _parse_format_ac (rows : list (list pyval)) (header_idx : nat)
    (header_cols : list pyval) : rfq_cols * gmap string bidder_cols :=
  let bidder_names_at_col := _find_bidder_names_above rows header_idx in
  let '(rfq_map, col_roles) := header_roles header_cols in
  (rfq_map, assign_columns bidder_names_at_col col_roles).

(** ** Item rows *)

(** [parts[0].strip().upper()] and [parts[1].strip()] of the two splits. *)
Definition _extract_type_spec (description : pyval) : string * string :=
  if negb (truthy description) then ("", "")
  else
    let d := PyStr.strip (py_str description) in
    if PyStr.contains "," d then
      match PyStr.split1 "," d with
      | [a; b] => (PyStr.upper (PyStr.strip a), PyStr.strip b)
      | _ => ("", "")
      end
    else
      match PyStr.split_ws1 d with
      | [] => ("", "")
      | [a] => (PyStr.upper (PyStr.strip a), "")
      | a :: b :: _ => (PyStr.upper (PyStr.strip a), PyStr.strip b)
      end.

Definition _is_data_row (row : list pyval) (rfq_map : rfq_cols) : bool :=
  match col_item_num rfq_map with
  | None => false
  | Some item_col =>
      if length row <=? item_col then false
      else
        let val := default PNone (row !! item_col) in
        if is_none val then false
        else
          let s := PyStr.strip (py_str val) in
          PyStr.nonempty s && (PyStr.len s <? 20)
  end.

(** [_safe_float(val)].  Its [except (ValueError, TypeError)] does not
    catch the [OverflowError] of [float(val)]: the outer [None] stands for
    that exception, [Some None] for the [None] that the function returns.
    The second attempt converts a text, which never overflows. *)
Definition _safe_float (val : pyval) : option (option float) :=
  if is_none val then Some None
  else match py_float val with
       | Float x => Some (Some x)
       | OverflowError => None
       | ValueOrTypeError =>
           let s := PyStr.strip
                      (PyStr.remove_char "$" (PyStr.remove_char "," (py_str val))) in
           Some (float_of_str s)
       end.

(** A value of the [bids] dict of an item. *)
Record bid_value : Type := {
  bid_unit_price : option float;
  bid_ext_price : option float
}.

Record item : Type := {
  item_number : string;
  item_type : string;
  specification : string;
  item_size : option string;
  item_unit : option string;
  item_quantity : option float;
  bids : gmap string bid_value
}.

(** [_cell]: the cell under a mapped column, [None] when the column is
    not mapped or lies beyond the row. *)
Definition _cell (col : option nat) (row : list pyval) : pyval :=
  match col with
  | Some c => if c <? length row then default PNone (row !! c) else PNone
  | None => PNone
  end.

(** [_safe_float(row[col]) if (col is not None and col < len(row)) else None];
    the outer [None] is the exception of [_safe_float]. *)
Definition price_at (col : option nat) (row : list pyval) : option (option float) :=
  match col with
  | Some c =>
      if c <? length row then _safe_float (default PNone (row !! c)) else Some None
  | None => Some None
  end.

(** The two prices of one bidder, the unit price read first; [None] when
    reading one of them raises. *)
Definition bid_of_row (row : list pyval) (cols : bidder_cols) : option bid_value :=
  up_val ← price_at (unit_price_col cols) row;
  ep_val ← price_at (ext_price_col cols) row;
  Some {| bid_unit_price := up_val; bid_ext_price := ep_val |}.

(** The loop over [bidder_map.items()] that fills [bids]; [None] when it
    raises. *)
Definition bids_of_row (row : list pyval) (bidder_map : gmap string bidder_cols)
    : option (gmap string bid_value) :=
  list_to_map
    <$> mapM (λ bc : string * bidder_cols, v ← bid_of_row row bc.2; Some (bc.1, v))
             (map_to_list bidder_map).

(** The body of the loop over data rows: the item appended, or [None] when
    the body raises.  The bids are read before the quantity. *)
Definition item_of_row (rfq_map : rfq_cols) (bidder_map : gmap string bidder_cols)
    (row : list pyval) : option item :=
  let raw_desc := _cell (col_description rfq_map) row in
  let raw_size := _cell (col_size rfq_map) row in
  let raw_unit := _cell (col_unit rfq_map) row in
  let raw_qty := _cell (col_quantity rfq_map) row in
  let raw_item := _cell (col_item_num rfq_map) row in
  let '(ty, spec) := _extract_type_spec raw_desc in
  row_bids ← bids_of_row row bidder_map;
  quantity ← _safe_float raw_qty;
  Some {| item_number := if truthy raw_item then PyStr.strip (py_str raw_item) else "";
          item_type := ty;
          specification := spec;
          item_size :=
            if truthy raw_size then Some (PyStr.strip (py_str raw_size)) else None;
          item_unit :=
            if truthy raw_unit then Some (PyStr.upper (PyStr.strip (py_str raw_unit)))
            else None;
          item_quantity := quantity;
          bids := row_bids |}.

(** The loop over the rows after the header: the items, or [None] when the
    body raises at one of the data rows. *)
Definition parse_items (rfq_map : rfq_cols) (bidder_map : gmap string bidder_cols)
    (rows : list (list pyval)) : option (list item) :=
  mapM (item_of_row rfq_map bidder_map)
       (List.filter (λ row, _is_data_row row rfq_map) rows).

(** ** The workbook and [parse_excel] *)

Record sheet : Type := {
  title : string;
  max_row : nat;
  sheet_rows : list (list pyval)
}.

Definition skip_keywords : list string :=
  ["dashboard"; "terms"; "condition"; "sheet2"; "alternative"].

(** [any(k in sn.lower() for k in skip_keywords)] *)
Definition skipped (sn : string) : bool :=
  existsb (λ k, PyStr.contains k (PyStr.lower sn)) skip_keywords.

(** One iteration of the loop over [wb.sheetnames]. *)
Definition pick_step (st : option string * nat) (s : sheet) : option string * nat :=
  let '(best, best_rows) := st in
  if skipped (title s) then st
  else if best_rows <? max_row s then (Some (title s), max_row s)
  else st.

(** The sheet chosen when no name is given; [None] stands for the
    [IndexError] of [wb.sheetnames[0]] on a workbook without sheets. *)
Definition pick_sheet (wb : list sheet) : option string :=
  match (foldl pick_step (None, 0) wb).1 with
  | Some best => Some best
  | None => title <$> head wb
  end.

(** [wb[name]] *)
Definition get_sheet (wb : list sheet) (name : string) : option sheet :=
  List.find (λ s, String.eqb (title s) name) wb.

Inductive sheet_format : Type := FormatB | FormatAC.

Record parsed : Type := {
  format : sheet_format;
  parsed_sheet : string;
  bidders : list string;
  items : list item;
  ambiguities : list string;
  parsed_rfq_map : rfq_cols
}.

(** What [parse_excel] does: it returns the dict with an ["error"] key or
    the parsed workbook, or it raises (the lookup of a sheet, the
    [OverflowError] of a conversion). *)
Inductive outcome : Type :=
| Raised
| ErrorDict (error : string) (error_sheet : string)
| Parsed (r : parsed).

(** [sorted(bidder_map.keys())] *)
Definition sorted_names (m : gmap string bidder_cols) : list string :=
  merge_sort String.le (map fst (map_to_list m)).

Definition has_key (o : option nat) : bool :=
  match o with Some _ => true | None => false end.

(** [parse_excel] from the rows of the chosen sheet on. *)
Definition parse_rows (rows : list (list pyval)) (sheet_name : string) : outcome :=
  match rows with
  | [] => ErrorDict "Sheet is empty" sheet_name
  | _ =>
      match _find_header_row rows with
      | None => ErrorDict "Could not locate column header row" sheet_name
      | Some (header_idx, header_cols) =>
          let '(fmt, (rfq_map, bidder_map)) :=
            if _detect_format_b header_cols
            then (FormatB, _parse_format_b header_cols)
            else (FormatAC, _parse_format_ac rows header_idx header_cols) in
          let ambiguities :=
            (if decide (bidder_map = ∅) then ["No bidders detected automatically."] else [])
            ++ (if has_key (col_item_num rfq_map) then []
                else ["Could not locate Item # column."])
            ++ (if has_key (col_description rfq_map) then []
                else ["Could not locate Description column."]) in
          match parse_items rfq_map bidder_map (drop (S header_idx) rows) with
          | None => Raised
          | Some items =>
              Parsed {| format := fmt;
                        parsed_sheet := sheet_name;
                        bidders := sorted_names bidder_map;
                        items := items;
                        ambiguities := ambiguities;
                        parsed_rfq_map := rfq_map |}
          end
      end
  end.

Definition parse_excel (wb : list sheet) (sheet_name : option string) : outcome :=
  let chosen :=
    match sheet_name with
    | Some sn => if PyStr.nonempty sn then Some sn else pick_sheet wb
    | None => pick_sheet wb
    end in
  match chosen with
  | None => Raised
  | Some sn =>
      match get_sheet wb sn with
      | None => Raised
      | Some ws => parse_rows (sheet_rows ws) sn
      end
  end.

(** ** rfq_db.py: the bids of one item in [load_parsed_rfq] *)

(** A row of the [bids] table as the loader inserts it, the bidder given
    by name. *)
Record bid_record : Type := {
  rec_item_id : nat;
  rec_bidder : string;
  rec_unit_price : option float;
  rec_ext_price : option float
}.

(** The inner loop: a bidder whose two prices are both [None] is passed
    over, every other one gets a row. *)
Definition load_bid (item_id : nat) (tbl : list bid_record)
    (b : string * bid_value) : list bid_record :=
  let up := bid_unit_price b.2 in
  let ep := bid_ext_price b.2 in
  match up, ep with
  | None, None => tbl
  | _, _ =>
      tbl ++ [{| rec_item_id := item_id; rec_bidder := b.1;
                 rec_unit_price := up; rec_ext_price := ep |}]
  end.

Definition load_item_bids (item_id : nat) (it : item) (tbl : list bid_record)
    : list bid_record :=
  foldl (load_bid item_id) tbl (map_to_list (bids it)).

(** The loop over the items, the ids of [rfq_items] counted from
    [next_id]. *)
Fixpoint load_items (next_id : nat) (its : list item) (tbl : list bid_record)
    : list bid_record :=
  match its with
  | [] => tbl
  | it :: rest => load_items (S next_id) rest (load_item_bids next_id it tbl)
  end.

End Parser.

(* ===================================================================== *)
(** * rfq_app.py: the subset-award optimiser *)
(* ===================================================================== *)

(** [itertools.combinations(l, k)]: the sublists of length [k], in the
    order of the positions they take. *)
Fixpoint combinations {A} (l : list A) (k : nat) {struct l} : list (list A) :=
  match k, l with
  | O, _ => [[]]
  | S _, [] => []
  | S k', x :: t => map (cons x) (combinations t k') ++ combinations t k
  end.

(** [sorted(S)] for a set of strings. *)
Definition sorted_set (S : gset string) : list string :=
  merge_sort String.le (elements S).

Section Optimizer.
Context {F : PyFloat}.

(** A row of [rfq_items]. *)
Record db_item : Type := {
  db_id : nat;
  db_item_number : option string;
  db_item_type : option string;
  db_specification : option string;
  db_size : option string;
  db_unit : option string;
  db_quantity : option float
}.

(** A row of the join of [bids], [bidders] and [rfq_items]. *)
Record bid_row : Type := {
  b_item_id : nat;
  b_bidder : string;
  b_unit_price : option float;
  b_ext_price : option float;
  b_quantity : option float
}.

(** [x or d] for an optional float: [d] when [x] is [None] or zero. *)
Definition float_or (x : option float) (d : float) : float :=
  match x with
  | Some q => if feqb q (float_of_Z 0) then d else q
  | None => d
  end.

(** [min(l)] and [max(l)] of a non-empty sequence [x :: l]: the first
    least, the first greatest. *)
Definition py_min (x : float) (l : list float) : float :=
  foldl (λ m y, if fltb y m then y else m) x l.
Definition py_max (x : float) (l : list float) : float :=
  foldl (λ m y, if fltb m y then y else m) x l.

(** [sum(l)] *)
Definition py_sum (l : list float) : float := foldl fadd (float_of_Z 0) l.

Definition effective_cost (b : bid_row) : option float :=
  match b_ext_price b with
  | Some c => Some c
  | None =>
      match b_unit_price b with
      | Some up => Some (fmul up (float_or (b_quantity b) (float_of_Z 1)))
      | None => None
      end
  end.

(** Step 3, one bid row. *)
Definition cost_step (item_costs : gmap nat (gmap string float)) (b : bid_row)
    : gmap nat (gmap string float) :=
  let iid := b_item_id b in
  let here := default ∅ (item_costs !! iid) in
  match effective_cost b with
  | Some cost =>
      if fleb (float_of_Z 0) cost
      then <[iid := <[b_bidder b := cost]> here]> item_costs
      else <[iid := here]> item_costs
  | None => <[iid := here]> item_costs
  end.

Definition build_item_costs (bids : list bid_row) : gmap nat (gmap string float) :=
  foldl cost_step ∅ bids.

Definition all_bidders_of (bids : list bid_row) : list string :=
  sorted_set (list_to_set (map b_bidder bids)).

(** The cost of item [iid] with bidder [bd], when quoted. *)
Definition quote (item_costs : gmap nat (gmap string float)) (iid : nat)
    (bd : string) : option float :=
  match item_costs !! iid with
  | Some m => m !! bd
  | None => None
  end.

(** [costs_here]: the quotes of the bidders of a sequence, in its order. *)
Definition costs_here (item_costs : gmap nat (gmap string float)) (iid : nat)
    (bidder_seq : list string) : list (string * float) :=
  omap (λ bd, pair bd <$> quote item_costs iid bd) bidder_seq.

(** The state of the loop of [eval_subset]. *)
Definition eval_step (item_costs : gmap nat (gmap string float))
    (bidder_seq : list string) (st : float * nat * list nat) (iid : nat)
    : float * nat * list nat :=
  let '(total, covered, uncovered) := st in
  match map snd (costs_here item_costs iid bidder_seq) with
  | c :: cs => (fadd total (py_min c cs), S covered, uncovered)
  | [] => (total, covered, uncovered ++ [iid])
  end.

Section Enumeration.
(** The order in which [set(combo)] is iterated.  Python fixes none; it
    may change with the hash seed of the run. *)
Variable set_iter : list string → list string.
Variable item_costs : gmap nat (gmap string float).
Variable item_ids : list nat.

Definition eval_subset (combo : list string) : float * nat * list nat :=
  foldl (eval_step item_costs (set_iter combo)) (float_of_Z 0, 0, []) item_ids.

Record best_state : Type := {
  best_cost : option float;
  best_subset : option (list string);
  best_covered : nat;
  best_uncovered : list nat
}.

Definition best_init : best_state :=
  {| best_cost := None; best_subset := None;
     best_covered := 0; best_uncovered := [] |}.

(** One combination in the loop over [combinations(all_bidders, k)]. *)
Definition best_step (st : best_state) (combo : list string) : best_state :=
  let '(cost, covered, uncovered) := eval_subset combo in
  let better :=
    match best_cost st with
    | None => true
    | Some bc => fltb cost bc
    end in
  if better
  then {| best_cost := Some cost; best_subset := Some combo;
          best_covered := covered; best_uncovered := uncovered |}
  else st.

Definition best_of_k (all_bidders : list string) (k : nat) : best_state :=
  foldl best_step best_init (combinations all_bidders k).

(** The per-item breakdown for the best subset. *)
Record award : Type := {
  award_item : db_item;
  awarded_to : option string;
  awarded_cost : option float;
  all_quotes : list (string * float);
  award_covered : bool
}.

(** [min(costs_here, key=costs_here.get)]: the first key of least cost. *)
Definition first_cheapest (x : string * float) (l : list (string * float))
    : string * float :=
  foldl (λ m y, if fltb y.2 m.2 then y else m) x l.

Definition award_of (subset : list string) (it : db_item) : award :=
  match costs_here item_costs (db_id it) subset with
  | q :: qs =>
      let w := first_cheapest q qs in
      {| award_item := it;
         awarded_to := Some w.1;
         awarded_cost := Some (fround 4 w.2);
         all_quotes := map (λ p, (p.1, fround 4 p.2)) (q :: qs);
         award_covered := true |}
  | [] =>
      {| award_item := it; awarded_to := None; awarded_cost := None;
         all_quotes := []; award_covered := false |}
  end.

Record size_result : Type := {
  res_k : nat;
  res_best_subset : option (list string);
  res_total_cost : option float;
  res_items_covered : nat;
  res_items_total : nat;
  res_uncovered_count : nat;
  res_savings_vs_k1_pct : option float;
  res_savings_vs_prev_pct : option float;
  res_per_item : list award
}.

(** [x and x > 0] for an optional float. *)
Definition positive_cost (x : option float) : bool :=
  match x with
  | Some q => negb (feqb q (float_of_Z 0)) && fltb (float_of_Z 0) q
  | None => false
  end.

(** [round((a - b) / a * 100, 2)] *)
Definition pct_saved (a b : float) : float :=
  fround 2 (fmul (fdiv (fsub a b) a) (float_of_Z 100)).

(** The body of the loop over [k]; the state is [results] and
    [baseline_cost]. *)
Definition size_step (all_bidders : list string) (items : list db_item)
    (st : list size_result * option float) (k : nat)
    : list size_result * option float :=
  let '(results, baseline0) := st in
  let b := best_of_k all_bidders k in
  let baseline := if k =? 1 then best_cost b else baseline0 in
  let savings_vs_single :=
    if positive_cost baseline && (1 <? k)
    then match baseline, best_cost b with
         | Some bl, Some bc => Some (pct_saved bl bc)
         | _, _ => None
         end
    else None in
  let savings_vs_prev :=
    match last results with
    | Some prev =>
        match res_total_cost prev, best_cost b with
        | Some pt, Some bc =>
            if negb (feqb pt (float_of_Z 0)) then Some (pct_saved pt bc) else None
        | _, _ => None
        end
    | None => None
    end in
  (results ++
     [{| res_k := k;
         res_best_subset := best_subset b;
         res_total_cost := fround 2 <$> best_cost b;
         res_items_covered := best_covered b;
         res_items_total := length item_ids;
         res_uncovered_count := length (best_uncovered b);
         res_savings_vs_k1_pct := savings_vs_single;
         res_savings_vs_prev_pct := savings_vs_prev;
         res_per_item := map (award_of (default [] (best_subset b))) items |}],
   baseline).

End Enumeration.

(** [subset_enum] from the two query results on: [None] is the 404 answer
    for an RFQ without items, otherwise the bidders and the results for
    [k = 1 .. n]. *)
Definition subset_enum (set_iter : list string → list string)
    (items : list db_item) (bids : list bid_row)
    : option (list string * list size_result) :=
  match items with
  | [] => None
  | _ =>
      let item_costs := build_item_costs bids in
      let all_bidders := all_bidders_of bids in
      let n := length all_bidders in
      let item_ids := map db_id items in
      Some (all_bidders,
            (foldl (size_step set_iter item_costs item_ids all_bidders items)
                   ([], None) (seq 1 n)).1)
  end.

End Optimizer.

(* ===================================================================== *)
(** * rfq_app.py: the historical estimator *)
(* ===================================================================== *)

(** [[\s,/\(\)\-]] *)
Definition spec_delimiter (c : ascii) : bool :=
  PyStr.is_space c || PyStr.ceqb c "," || PyStr.ceqb c "/"
  || PyStr.ceqb c "(" || PyStr.ceqb c ")" || PyStr.ceqb c "-".

Definition _tokenise_spec (spec : string) : gset string :=
  if negb (PyStr.nonempty spec) then ∅
  else
    let tokens :=
      map PyStr.of_chars
          (PyStr.split_runs spec_delimiter [] false (PyStr.chars (PyStr.upper spec))) in
    let skip := ["AND"; "OR"; "THE"; "TO"; "OF"; "IN"; "WITH"] in
    list_to_set
      (List.filter (λ t, (2 <=? PyStr.len t) && negb (PyStr.mem t skip)) tokens).

Inductive confidence : Type := HIGH | MEDIUM | LOW | NONE.

Section Estimator.
Context {F : PyFloat}.

Definition _jaccard (a b : gset string) : float :=
  if decide (a = ∅) then float_of_Z 0
  else if decide (b = ∅) then float_of_Z 0
  else
    let inter := size (a ∩ b) in
    let union := size (a ∪ b) in
    if union =? 0 then float_of_Z 0
    else fdiv (float_of_Z (Z.of_nat inter)) (float_of_Z (Z.of_nat union)).

(** A row of the historical query: the bids of the other, non-potential
    RFQs with a positive unit price. *)
Record hist_row : Type := {
  h_item_type : option string;
  h_specification : option string;
  h_size : option string;
  h_rfq_id : string;
  h_rfq_date : option string;
  h_bidder : string;
  h_unit_price : float
}.

(** [hist_by_type.setdefault(row["item_type"], []).append(row)] *)
Definition group_step (m : gmap (option string) (list hist_row)) (row : hist_row)
    : gmap (option string) (list hist_row) :=
  <[h_item_type row := default [] (m !! h_item_type row) ++ [row]]> m.

Definition hist_by_type (hist_bids : list hist_row)
    : gmap (option string) (list hist_row) :=
  foldl group_step ∅ hist_bids.

(** [(x or "").strip().upper()] *)
Definition norm_size (x : option string) : string :=
  PyStr.upper (PyStr.strip (default "" x)).

(** The score of a candidate against the target's tokens and size. *)
Definition score_of (ttoks : gset string) (tsize : string) (c : hist_row) : float :=
  let ctoks := _tokenise_spec (default "" (h_specification c)) in
  let score := _jaccard ttoks ctoks in
  let csize := norm_size (h_size c) in
  if PyStr.nonempty tsize && PyStr.nonempty csize && String.eqb tsize csize
  then py_min (float_lit 10 1) [fadd score (float_lit 20 2)]
  else score.

(** The loop that builds [scored]. *)
Definition scored_of (ttoks : gset string) (tsize : string)
    (candidates : list hist_row) : list (float * hist_row) :=
  List.filter (λ sc, fleb (float_lit 25 2) sc.1)
              (map (λ c, (score_of ttoks tsize c, c)) candidates).

(** [scored.sort(key=lambda x: x[0], reverse=True)]: stable, the greater
    score first. *)
Fixpoint insert_desc (x : float * hist_row) (l : list (float * hist_row))
    : list (float * hist_row) :=
  match l with
  | [] => [x]
  | y :: t => if fltb y.1 x.1 then x :: l else y :: insert_desc x t
  end.

Definition sort_desc (l : list (float * hist_row)) : list (float * hist_row) :=
  foldl (λ acc x, insert_desc x acc) [] l.

Definition confidence_of (best_score : float) : confidence :=
  if fleb (float_lit 55 2) best_score then HIGH
  else if fleb (float_lit 30 2) best_score then MEDIUM
  else LOW.

Record match_detail : Type := {
  md_rfq_id : string;
  md_rfq_date : option string;
  md_bidder : string;
  md_specification : option string;
  md_size : option string;
  md_unit_price : float;
  md_match_score : float
}.

(** The de-duplication loop: its state is [seen_keys] and the matches
    kept so far, each with its raw score. *)
Definition dedup_step
    (st : list (string * string * option string) * list (float * hist_row))
    (sc : float * hist_row)
    : list (string * string * option string) * list (float * hist_row) :=
  let '(seen_keys, kept) := st in
  let key := (h_rfq_id sc.2, h_bidder sc.2, h_specification sc.2) in
  if decide (key ∈ seen_keys) then st
  else (seen_keys ++ [key], kept ++ [sc]).

Definition dedup (scored : list (float * hist_row)) : list (float * hist_row) :=
  (foldl dedup_step ([], []) scored).2.

Definition detail_of (sc : float * hist_row) : match_detail :=
  {| md_rfq_id := h_rfq_id sc.2;
     md_rfq_date := h_rfq_date sc.2;
     md_bidder := h_bidder sc.2;
     md_specification := h_specification sc.2;
     md_size := h_size sc.2;
     md_unit_price := fround 4 (h_unit_price sc.2);
     md_match_score := fround 3 sc.1 |}.

Record estimate : Type := {
  est_item : db_item;
  est_quantity : option float;
  est_confidence : confidence;
  est_match_score : float;
  est_matches : list match_detail;
  est_unit_min : option float;
  est_unit_mean : option float;
  est_unit_max : option float;
  est_ext_mean : option float;
  est_bidders_seen : list string;
  est_source_rfqs : list string
}.

(** The entry appended when nothing matches. *)
Definition no_estimate (titem : db_item) : estimate :=
  {| est_item := titem;
     est_quantity := db_quantity titem;
     est_confidence := NONE;
     est_match_score := float_of_Z 0;
     est_matches := [];
     est_unit_min := None;
     est_unit_mean := None;
     est_unit_max := None;
     est_ext_mean := None;
     est_bidders_seen := [];
     est_source_rfqs := [] |}.

(** The candidates kept for a target item, before sorting. *)
Definition retained (hist : gmap (option string) (list hist_row)) (titem : db_item)
    : list (float * hist_row) :=
  let tspec := default "" (db_specification titem) in
  scored_of (_tokenise_spec tspec) (norm_size (db_size titem))
            (default [] (hist !! db_item_type titem)).

(** The body of the loop over the target items: the entry appended to
    [estimates], if any. *)
Definition estimate_item (hist : gmap (option string) (list hist_row))
    (titem : db_item) : option estimate :=
  match default [] (hist !! db_item_type titem) with
  | [] => Some (no_estimate titem)
  | _ =>
      match sort_desc (retained hist titem) with
      | [] => Some (no_estimate titem)
      | best :: rest =>
          let scored := best :: rest in
          let best_score := best.1 in
          let kept := dedup scored in
          match map (λ sc, h_unit_price sc.2) kept with
          | [] => None
          | p :: ps =>
              let total_w := py_sum (map fst kept) in
              let wmean :=
                fdiv (py_sum (map (λ sc, fmul (h_unit_price sc.2) sc.1) kept)) total_w in
              let qty := float_or (db_quantity titem) (float_of_Z 0) in
              let has_qty := negb (feqb qty (float_of_Z 0)) in
              Some {| est_item := titem;
                      est_quantity := Some qty;
                      est_confidence := confidence_of best_score;
                      est_match_score := fround 3 best_score;
                      est_matches := take 8 (map detail_of kept);
                      est_unit_min := Some (fround 4 (py_min p ps));
                      est_unit_mean := Some (fround 4 wmean);
                      est_unit_max := Some (fround 4 (py_max p ps));
                      est_ext_mean :=
                        if has_qty then Some (fround 2 (fmul wmean qty)) else None;
                      est_bidders_seen :=
                        sorted_set (list_to_set (map (λ sc, h_bidder sc.2) kept));
                      est_source_rfqs :=
                        sorted_set (list_to_set (map (λ sc, h_rfq_id sc.2) kept)) |}
          end
      end
  end.

(** [estimate_rfq] from the two query results on: [None] is the 404 answer
    for an RFQ without items, otherwise the list [estimates] of the
    response. *)
Definition estimate_rfq (target_items : list db_item) (hist_bids : list hist_row)
    : option (list estimate) :=
  match target_items with
  | [] => None
  | _ => Some (omap (estimate_item (hist_by_type hist_bids)) target_items)
  end.

End Estimator.

(* ===================================================================== *)
(** * An instance of the float interface: exact rationals *)
(* ===================================================================== *)

(** Canonical rationals with exact arithmetic.  It is used to run the model
    on concrete workbooks and cost tables; on the numbers met there (small
    integers and short decimals) it agrees with the doubles of Python.
    [float_of_str] reads an optional sign, digits and an optional fraction;
    [float_str] prints whole numbers the way Python prints them. *)
Module Exact.

Definition of_Z (z : Z) : Qcanon.Qc := Qcanon.Q2Qc (QArith_base.inject_Z z).

Definition pow10 (e : nat) : positive := Nat.iter e (Pos.mul 10) 1%positive.

Definition lit (m : Z) (e : nat) : Qcanon.Qc :=
  Qcanon.Q2Qc (QArith_base.Qmake m (pow10 e)).

Definition digit_val (c : ascii) : Z := Z.of_nat (PyStr.code c - 48).

Definition digits_val (l : list ascii) : Z :=
  foldl (λ acc c, acc * 10 + digit_val c)%Z 0%Z l.

Definition unsigned (l : list ascii) : option Qcanon.Qc :=
  let '(ip, rest) := (PyStr.take_until (PyStr.ceqb ".") l,
                      PyStr.drop_until (PyStr.ceqb ".") l) in
  let fp := drop 1 rest in
  if forallb PyStr.is_digit ip && forallb PyStr.is_digit fp
     && negb (Nat.eqb (length ip + length fp) 0)
  then Some (lit (digits_val (ip ++ fp)) (length fp))
  else None.

Definition of_str (s : string) : option Qcanon.Qc :=
  match PyStr.strip_chars (PyStr.chars s) with
  | "-"%char :: l => Qcanon.Qcopp <$> unsigned l
  | "+"%char :: l => unsigned l
  | l => unsigned l
  end.

Definition to_str (x : Qcanon.Qc) : string :=
  let q := Qcanon.this x in
  match QArith_base.Qden q with
  | 1%positive => pretty (QArith_base.Qnum q) +:+ ".0"
  | d => pretty (QArith_base.Qnum q) +:+ "/" +:+ pretty (Z.pos d)
  end.

Definition eqb (x y : Qcanon.Qc) : bool :=
  QArith_base.Qeq_bool (Qcanon.this x) (Qcanon.this y).

Definition ltb (x y : Qcanon.Qc) : bool :=
  match Qcanon.Qccompare x y with Lt => true | _ => false end.

Definition leb (x y : Qcanon.Qc) : bool := negb (ltb y x).

(** Rounding to [n] decimals, halves to the even neighbour. *)
Definition round (n : nat) (x : Qcanon.Qc) : Qcanon.Qc :=
  let y := Qcanon.Qcmult x (of_Z (Z.pos (pow10 n))) in
  let fl := Qround.Qfloor (Qcanon.this y) in
  let half := lit 5 1 in
  let d := Qcanon.Qcminus y (of_Z fl) in
  let r := if ltb d half then fl
           else if ltb half d then (fl + 1)%Z
           else if Z.even fl then fl else (fl + 1)%Z in
  lit r n.

End Exact.

Definition exact_float : PyFloat :=
  {| float := Qcanon.Qc;
     float_of_Z := Exact.of_Z;
     float_lit := Exact.lit;
     float_of_str := Exact.of_str;
     float_str := Exact.to_str;
     fadd := Qcanon.Qcplus;
     fsub := Qcanon.Qcminus;
     fmul := Qcanon.Qcmult;
     fdiv := Qcanon.Qcdiv;
     feqb := Exact.eqb;
     fltb := Exact.ltb;
     fleb := Exact.leb;
     fround := Exact.round |}.

(** The numbers of a concrete workbook, as cells and as prices. *)
Definition num (m : Z) (e : nat) : @float exact_float := Exact.lit m e.

(* ===================================================================== *)
(** * Notions used to state the properties *)
(* ===================================================================== *)

(** The price role that step 2 of [_parse_format_ac] gives a header cell:
    none for an empty cell or for a cell that matches an RFQ column synonym,
    else the unit-price role before the extended-price role. *)
Definition price_role {F : PyFloat} (h : pyval) : option price_field :=
  if is_none h then None
  else match rfq_role h 0 rfq_empty with
       | Some _ => None
       | None =>
           if PyStr.mem (_norm h) UNIT_PRICE_SYNONYMS then Some unit_price
           else if PyStr.mem (_norm h) EXT_PRICE_SYNONYMS then Some ext_price
           else None
       end.

(** A bid value with a price: not both of its fields are [None]. *)
Definition quoted {F : PyFloat} (v : bid_value) : Prop :=
  ¬ (bid_unit_price v = None ∧ bid_ext_price v = None).

(** The row of the [bids] table for an item, a bidder and a bid value. *)
Definition record_of {F : PyFloat} (item_id : nat) (b : string) (v : bid_value)
    : bid_record :=
  {| rec_item_id := item_id; rec_bidder := b;
     rec_unit_price := bid_unit_price v; rec_ext_price := bid_ext_price v |}.

(** From the words of the specification (4.2): the text of a header cell,
    its separators normalised (underscore to space, [>] to [.]), ends in one
    of the recognised two-word price endings and has a token before it. *)
Definition spec_compound_header {F : PyFloat} (h : pyval) : bool :=
  let words :=
    PyStr.split (PyStr.replace_char ">" "." (PyStr.replace_char "_" " " (_norm h))) in
  (3 <=? length words)
  && PyStr.mem (PyStr.join " " (PyStr.last_two words)) _PRICE_ENDINGS_2W.

(** Iterating over [set(l)] visits the elements of [l] and nothing else. *)
Definition iterates_elements (set_iter : list string → list string) : Prop :=
  ∀ l x, x ∈ set_iter l ↔ x ∈ l.

(** The lexicographic order on sequences of names, names compared as
    Python compares strings. *)
Inductive lex_lt : list string → list string → Prop :=
| lex_lt_nil y l : lex_lt [] (y :: l)
| lex_lt_head x y l l' : strict String.le x y → lex_lt (x :: l) (y :: l')
| lex_lt_tail x l l' : lex_lt l l' → lex_lt (x :: l) (x :: l').

(** [min(l)] when [l] is not empty. *)
Definition list_min {F : PyFloat} (l : list float) : option float :=
  match l with
  | c :: cs => Some (py_min c cs)
  | [] => None
  end.

(** The least quote for an item among the bidders of a sequence, if any. *)
Definition item_min {F : PyFloat} (item_costs : gmap nat (gmap string float))
    (iid : nat) (bidder_seq : list string) : option float :=
  list_min (map snd (costs_here item_costs iid bidder_seq)).

(** Whether some bidder of a sequence quotes the item. *)
Definition covers {F : PyFloat} (item_costs : gmap nat (gmap string float))
    (bidder_seq : list string) (iid : nat) : bool :=
  match item_min item_costs iid bidder_seq with
  | Some _ => true
  | None => false
  end.

(** The total cost and the number of covered items of a combination. *)
Definition subset_cost {F : PyFloat} (set_iter : list string → list string)
    (item_costs : gmap nat (gmap string float)) (item_ids : list nat)
    (combo : list string) : float :=
  (eval_subset set_iter item_costs item_ids combo).1.1.

Definition subset_covered {F : PyFloat} (set_iter : list string → list string)
    (item_costs : gmap nat (gmap string float)) (item_ids : list nat)
    (combo : list string) : nat :=
  (eval_subset set_iter item_costs item_ids combo).1.2.

(** The state of the selection loop after a combination has been taken. *)
Definition state_of {F : PyFloat} (set_iter : list string → list string)
    (item_costs : gmap nat (gmap string float)) (item_ids : list nat)
    (combo : list string) : best_state :=
  {| best_cost := Some (subset_cost set_iter item_costs item_ids combo);
     best_subset := Some combo;
     best_covered := subset_covered set_iter item_costs item_ids combo;
     best_uncovered := (eval_subset set_iter item_costs item_ids combo).2 |}.

(** The order of [sort_desc]: a score is not below the scores after it. *)
Definition not_below {F : PyFloat} (a b : float * hist_row) : Prop :=
  fltb a.1 b.1 = false.

(** The items of an outcome, none for an error. *)
Definition items_of {F : PyFloat} (o : outcome) : list item :=
  match o with
  | Parsed r => items r
  | _ => []
  end.

(** The two prices of a bid value of the exact instance, as fractions. *)
Definition prices_of (v : @bid_value exact_float)
    : option QArith_base.Q * option QArith_base.Q :=
  (Qcanon.this <$> bid_unit_price v, Qcanon.this <$> bid_ext_price v).

(* ===================================================================== *)
(** * Concrete workbooks and tables *)
(* ===================================================================== *)

Definition compound_header : list (@pyval exact_float) :=
  [PStr "ITEM #"; PStr "DESCRIPTION"; PStr "WHITCO_UNIT_PRICE"; PStr "WHITCO_TOTAL_PRICE"].

(** The one bidder leaves the one item without a price. *)
Definition unquoted_rows : list (list (@pyval exact_float)) :=
  [ compound_header;
    [PStr "1"; PStr "GASKET, 2IN"; PNone; PNone] ].

(** The item is numbered with the number 0. *)
Definition zero_item_rows : list (list (@pyval exact_float)) :=
  [ compound_header;
    [PInt 0; PStr "GASKET, 2IN"; PFloat (num 105 1); PFloat (num 21 0)] ].

(** A price column named by a bare synonym, without a bidder. *)
Definition bare_price_header : list (@pyval exact_float) :=
  [PStr "ITEM #"; PStr "DESCRIPTION"; PStr "UNIT_PRICE"].

(** A bidder's column with the word EXTENDED. *)
Definition extended_header : list (@pyval exact_float) :=
  [PStr "ITEM #"; PStr "DESCRIPTION"; PStr "WHITCO_EXTENDED_PRICE"].

(** Space-separated compound headers, the second with a dot. *)
Definition dotted_header : list (@pyval exact_float) :=
  [PStr "ITEM #"; PStr "DESCRIPTION"; PStr "WHITCO UNIT PRICE"; PStr "WHITCO EXT. PRICE"].

(** A workbook with a dashboard, two bid sheets and a sheet of terms. *)
Definition four_sheets : list (@sheet exact_float) :=
  [ {| title := "Dashboard"; max_row := 40; sheet_rows := [] |};
    {| title := "Bids"; max_row := 2; sheet_rows := unquoted_rows |};
    {| title := "Rebid"; max_row := 2; sheet_rows := zero_item_rows |};
    {| title := "Terms and Conditions"; max_row := 90; sheet_rows := [] |} ].

(** An item of the [rfq_items] table with nothing but its id and number. *)
Definition plain_item (id : nat) (number : string) : @db_item exact_float :=
  {| db_id := id; db_item_number := Some number; db_item_type := None;
     db_specification := None; db_size := None; db_unit := None;
     db_quantity := None |}.

(** A bid row with an extended price only. *)
Definition ext_bid (iid : nat) (bidder : string) (cost : Z) : @bid_row exact_float :=
  {| b_item_id := iid; b_bidder := bidder; b_unit_price := None;
     b_ext_price := Some (num cost 0); b_quantity := None |}.

Definition two_items : list (@db_item exact_float) :=
  [plain_item 1 "1"; plain_item 2 "2"].

(** Each of the two bidders quotes one of the two items only. *)
Definition disjoint_bids : list (@bid_row exact_float) :=
  [ext_bid 1 "A" 10; ext_bid 2 "B" 100].

(** Both bidders quote both items. *)
Definition full_bids : list (@bid_row exact_float) :=
  [ext_bid 1 "A" 10; ext_bid 1 "B" 8; ext_bid 2 "A" 5; ext_bid 2 "B" 6].

(** Two orders of iteration over a set. *)
Definition in_order (l : list string) : list string := l.
Definition reversed (l : list string) : list string := rev l.

(** Historical bids: two pipes and a valve, and a pipe to estimate. *)
Definition hist_pipe_close : @hist_row exact_float :=
  {| h_item_type := Some "PIPE";
     h_specification := Some "SMLS, NPS 2, SCH 80, BARE";
     h_size := Some "2"; h_rfq_id := "R1"; h_rfq_date := Some "2024-01-15";
     h_bidder := "SMP"; h_unit_price := num 1050 2 |}.

Definition hist_pipe_far : @hist_row exact_float :=
  {| h_item_type := Some "PIPE";
     h_specification := Some "ERW, NPS 4, SCH 40";
     h_size := Some "4"; h_rfq_id := "R1"; h_rfq_date := Some "2024-01-15";
     h_bidder := "EDGEN"; h_unit_price := num 2200 2 |}.

Definition hist_valve : @hist_row exact_float :=
  {| h_item_type := Some "VALVE";
     h_specification := Some "GATE, NPS 2, CL 150";
     h_size := Some "2"; h_rfq_id := "R2"; h_rfq_date := None;
     h_bidder := "SMP"; h_unit_price := num 9900 2 |}.

Definition history : list (@hist_row exact_float) :=
  [hist_pipe_close; hist_pipe_far; hist_valve].

Definition target_pipe : @db_item exact_float :=
  {| db_id := 7; db_item_number := Some "1"; db_item_type := Some "PIPE";
     db_specification := Some "SMLS, NPS 2, SCH 80";
     db_size := Some "2"; db_unit := Some "FT";
     db_quantity := Some (num 100 0) |}.

(** The compound-header scenario of the specification. *)
Definition gasket_rows : list (list (@pyval exact_float)) :=
  [ compound_header;
    [PStr "1"; PStr "GASKET, 2IN"; PFloat (num 1050 2); PFloat (num 2100 2)] ].

(** The bidder-row scenario of the specification: names above the header. *)
Definition bidder_row_header : list (@pyval exact_float) :=
  [PStr "ITEM #"; PStr "DESC"; PStr "UNIT PRICE"; PStr "UNIT PRICE"].

Definition bidder_row_rows : list (list (@pyval exact_float)) :=
  [ [PStr "SMP"; PStr ""; PStr "EDGEN"; PStr ""]; bidder_row_header ].
(** The number of combinations of [k] out of [n], by the rule of Pascal. *)
Fixpoint choose (n k : nat) : nat :=
  match k, n with
  | O, _ => 1
  | S _, O => 0
  | S k', S n' => choose n' k' + choose n' k
  end.


(** The cost that a bid row sets for an item and a bidder in step 3 of
    [subset_enum]: that of a row of the item and the bidder whose effective
    cost exists and is not negative. *)
Definition sets_cost {F : PyFloat} (iid : nat) (bd : string) (b : bid_row)
    : option float :=
  if decide (iid = b_item_id b ∧ bd = b_bidder b)
  then match effective_cost b with
       | Some cost => if fleb (float_of_Z 0) cost then Some cost else None
       | None => None
       end
  else None.

(** ** Notions for the column maps *)

(** The keys of [rfq_map]. *)
Inductive rfq_key : Type := k_item_num | k_description | k_unit | k_quantity | k_size.

Global Instance rfq_key_eq_dec : EqDecision rfq_key.
Proof. solve_decision. Defined.

(** [rfq_map.get(key)] and [rfq_map[key] = i]. *)
Definition rfq_get (k : rfq_key) (m : rfq_cols) : option nat :=
  match k with
  | k_item_num => col_item_num m
  | k_description => col_description m
  | k_unit => col_unit m
  | k_quantity => col_quantity m
  | k_size => col_size m
  end.

Definition rfq_set (k : rfq_key) (i : nat) (m : rfq_cols) : rfq_cols :=
  match k with
  | k_item_num => set_item_num i m
  | k_description => set_description i m
  | k_unit => set_unit i m
  | k_quantity => set_quantity i m
  | k_size => set_size i m
  end.

(** The key that the elif chain over the RFQ column synonyms gives a
    header cell. *)
Definition rfq_key_of {F : PyFloat} (h : pyval) : option rfq_key :=
  if _matches h ITEM_NUM_SYNONYMS then Some k_item_num
  else if _matches h DESC_SYNONYMS then Some k_description
  else if _matches h UNIT_SYNONYMS then Some k_unit
  else if _matches h QTY_SYNONYMS then Some k_quantity
  else if _matches h SIZE_SYNONYMS then Some k_size
  else None.

(** The bidder and the price field that [_parse_format_b] reads off a
    header cell: those of the four attempts, when the cell is not [None]
    and the bidder's name is not empty. *)
Definition compound_cell {F : PyFloat} (h : pyval) : option (string * price_field) :=
  if is_none h then None
  else match match_compound (PyStr.strip (py_str h)) with
       | (Some b, Some fld) => if PyStr.nonempty b then Some (b, fld) else None
       | _ => None
       end.

(** The column of an enumerated header cell when the cell is the price
    column [f] of the bidder [name] in format B. *)
Definition compound_col {F : PyFloat} (name : string) (f : price_field)
    (c : nat * pyval) : option nat :=
  match compound_cell c.2 with
  | Some (b, g) => if decide (b = name ∧ g = f) then Some c.1 else None
  | None => None
  end.

(** The column of an enumerated header cell when the cell is the RFQ
    column [k]: in format B a cell that is no compound price column, in
    formats A and C any cell. *)
Definition rfq_col_b {F : PyFloat} (k : rfq_key) (c : nat * pyval) : option nat :=
  if is_none c.2 then None
  else match compound_cell c.2 with
       | Some _ => None
       | None => if decide (rfq_key_of c.2 = Some k) then Some c.1 else None
       end.

Definition rfq_col_ac {F : PyFloat} (k : rfq_key) (c : nat * pyval) : option nat :=
  if is_none c.2 then None
  else if decide (rfq_key_of c.2 = Some k) then Some c.1 else None.

(** ** Notions for the row of bidder names *)

(** A row qualifies with two candidates or more; its score is
    [1.0 / avg_len]. *)
Definition qualifies {F : PyFloat} (row : list pyval) : bool :=
  2 <=? size (row_candidates row).

Definition row_score {F : PyFloat} (row : list pyval) : float :=
  let candidates := row_candidates row in
  fdiv (float_lit 10 1)
       (fdiv (float_of_Z (Z.of_nat (total_len candidates)))
             (float_of_Z (Z.of_nat (size candidates)))).

(** ** Notions for the exception of [_safe_float] *)




(* ===================================================================== *)
(** * rfq_db.py: the tables and the statements run on them *)
(* ===================================================================== *)

Section Database.
Context {F : PyFloat}.

(** A row of [rfqs]. *)
Record rfq_row : Type := {
  r_rfq_id : string;
  r_creator : option string;
  r_station : option string;
  r_project : option string;
  r_rfq_date : option string;
  r_source_file : option string;
  r_sheet_name : option string;
  r_is_potential : nat;
  r_notes : option string;
  r_loaded_at : string
}.

(** A row of [rfq_items]: its RFQ and the other columns. *)
Record item_row : Type := {
  i_rfq_id : string;
  i_item : db_item
}.

Definition item_id (i : item_row) : nat := db_id (i_item i).

(** A row of [bidders]. *)
Record bidder_row : Type := {
  d_id : nat;
  d_name : string
}.

(** A row of [bids]. *)
Record bids_row : Type := {
  bid_id : nat;
  bid_rfq_id : string;
  bid_item_id : nat;
  bid_bidder_id : nat;
  bid_unit : option float;
  bid_ext : option float
}.

(** The database: the four tables, rows in the order of insertion, and
    the [sqlite_sequence] entries of the three AUTOINCREMENT keys. *)
Record database : Type := {
  t_rfqs : list rfq_row;
  t_items : list item_row;
  t_bidders : list bidder_row;
  t_bids : list bids_row;
  seq_items : nat;
  seq_bidders : nat;
  seq_bids : nat
}.

(** The tables after [init_db] on a new file. *)
Definition empty_db : database :=
  {| t_rfqs := []; t_items := []; t_bidders := []; t_bids := [];
     seq_items := 0; seq_bidders := 0; seq_bids := 0 |}.

(** The key of a row inserted into an AUTOINCREMENT table: one more than
    the largest key the table holds or ever held. *)
Definition next_rowid (seq : nat) (ids : list nat) : nat :=
  S (Nat.max seq (max_list ids)).

(** [SELECT 1 FROM rfqs WHERE rfq_id=?] has a row. *)
Definition rfq_exists (rfq_id : string) (db : database) : bool :=
  existsb (λ r, String.eqb (r_rfq_id r) rfq_id) (t_rfqs db).

(** [DELETE FROM rfqs WHERE rfq_id=?] with foreign keys enforced: when
    the row exists, the items and the bids that refer to it go with it,
    and so do the bids that refer to one of these items. *)
Definition delete_rfq (rfq_id : string) (db : database) : database :=
  if rfq_exists rfq_id db then
    let gone_items :=
      map item_id (List.filter (λ i, String.eqb (i_rfq_id i) rfq_id) (t_items db)) in
    {| t_rfqs := List.filter (λ r, negb (String.eqb (r_rfq_id r) rfq_id)) (t_rfqs db);
       t_items := List.filter (λ i, negb (String.eqb (i_rfq_id i) rfq_id)) (t_items db);
       t_bidders := t_bidders db;
       t_bids :=
         List.filter (λ b, negb (String.eqb (bid_rfq_id b) rfq_id)
                           && negb (bool_decide (bid_item_id b ∈ gone_items)))
                     (t_bids db);
       seq_items := seq_items db;
       seq_bidders := seq_bidders db;
       seq_bids := seq_bids db |}
  else db.

(** The row that the INSERT into [rfqs] writes; [now] is the value of
    [datetime('now')]. *)
Definition rfq_row_of (rfq_id : string)
    (creator station project rfq_date source_file sheet_name : option string)
    (is_potential : bool) (notes : option string) (now : string) : rfq_row :=
  {| r_rfq_id := rfq_id; r_creator := creator; r_station := station;
     r_project := project; r_rfq_date := rfq_date; r_source_file := source_file;
     r_sheet_name := sheet_name;
     r_is_potential := if is_potential then 1 else 0;
     r_notes := notes; r_loaded_at := now |}.

(** The INSERT into [rfqs]; [None] is the [IntegrityError] of a primary
    key that is already there. *)
Definition insert_rfq (row : rfq_row) (db : database) : option database :=
  if rfq_exists (r_rfq_id row) db then None
  else Some {| t_rfqs := t_rfqs db ++ [row];
               t_items := t_items db; t_bidders := t_bidders db;
               t_bids := t_bids db; seq_items := seq_items db;
               seq_bidders := seq_bidders db; seq_bids := seq_bids db |}.

(** What a REAL column gives back of a float bound to it: NULL for NaN
    (the float that differs from itself), 0.0 for either zero (a whole
    number is kept as an integer, which has no sign of zero), and the float
    itself otherwise. *)
Definition sqlite_real (x : float) : option float :=
  if feqb x x
  then Some (if feqb x (float_of_Z 0) then float_of_Z 0 else x)
  else None.

(** The columns of [rfq_items] from a parsed item, as the table gives
    them back. *)
Definition db_item_of (id : nat) (it : item) : db_item :=
  {| db_id := id;
     db_item_number := Some (item_number it);
     db_item_type := Some (item_type it);
     db_specification := Some (specification it);
     db_size := item_size it;
     db_unit := item_unit it;
     db_quantity := item_quantity it ≫= sqlite_real |}.

(** The INSERT into [rfq_items] and its [lastrowid]; [None] is the
    [IntegrityError] of an RFQ that does not exist. *)
Definition insert_item (rfq_id : string) (it : item) (db : database)
    : option (nat * database) :=
  if rfq_exists rfq_id db then
    let id := next_rowid (seq_items db) (map item_id (t_items db)) in
    Some (id,
          {| t_rfqs := t_rfqs db;
             t_items := t_items db ++ [{| i_rfq_id := rfq_id; i_item := db_item_of id it |}];
             t_bidders := t_bidders db; t_bids := t_bids db;
             seq_items := id;
             seq_bidders := seq_bidders db; seq_bids := seq_bids db |})
  else None.

(** The INSERT into [bidders] and its [lastrowid]; [None] is the
    [IntegrityError] of a name that is already there. *)
Definition insert_bidder (name : string) (db : database) : option (nat * database) :=
  if existsb (λ d, String.eqb (d_name d) name) (t_bidders db) then None
  else
    let id := next_rowid (seq_bidders db) (map d_id (t_bidders db)) in
    Some (id,
          {| t_rfqs := t_rfqs db; t_items := t_items db;
             t_bidders := t_bidders db ++ [{| d_id := id; d_name := name |}];
             t_bids := t_bids db; seq_items := seq_items db;
             seq_bidders := id; seq_bids := seq_bids db |}).

Definition get_or_create_bidder (name : string) (db : database)
    : option (nat * database) :=
  match List.find (λ d, String.eqb (d_name d) name) (t_bidders db) with
  | Some row => Some (d_id row, db)
  | None => insert_bidder name db
  end.

(** [SELECT name FROM bidders ORDER BY name] *)
Definition get_all_bidders (db : database) : list string :=
  merge_sort String.le (map d_name (t_bidders db)).

(** The INSERT into [bids]; [None] is the [IntegrityError] of a
    reference to an RFQ, an item or a bidder that does not exist. *)
Definition insert_bid (rfq_id : string) (item : nat) (bidder : nat)
    (up ep : option float) (db : database) : option database :=
  if rfq_exists rfq_id db
     && bool_decide (item ∈ map item_id (t_items db))
     && bool_decide (bidder ∈ map d_id (t_bidders db))
  then
    let id := next_rowid (seq_bids db) (map bid_id (t_bids db)) in
    Some {| t_rfqs := t_rfqs db; t_items := t_items db; t_bidders := t_bidders db;
            t_bids := t_bids db ++
                      [{| bid_id := id; bid_rfq_id := rfq_id; bid_item_id := item;
                          bid_bidder_id := bidder;
                          bid_unit := up ≫= sqlite_real;
                          bid_ext := ep ≫= sqlite_real |}];
            seq_items := seq_items db; seq_bidders := seq_bidders db;
            seq_bids := id |}
  else None.

Section Loader.
(** The order in which [dict.items()] yields the bids of an item. *)
Variable dict_items : gmap string bid_value → list (string * bid_value).

(** The body of the loop over the bids of an item. *)
Definition db_load_bid (rfq_id : string) (item : nat) (st : option database)
    (b : string * bid_value) : option database :=
  db ← st;
  match bid_unit_price b.2, bid_ext_price b.2 with
  | None, None => Some db
  | up, ep =>
      '(bidder, db1) ← get_or_create_bidder b.1 db;
      insert_bid rfq_id item bidder up ep db1
  end.

(** The body of the loop over the items. *)
Definition db_load_item (rfq_id : string) (st : option database) (it : item)
    : option database :=
  db ← st;
  '(item, db1) ← insert_item rfq_id it db;
  foldl (db_load_bid rfq_id item) (Some db1) (dict_items (bids it)).

(** [load_parsed_rfq]: [None] stands for an exception, after which the
    transaction is rolled back and the tables are as before. *)
Definition load_parsed_rfq (rfq_id : string)
    (creator station project rfq_date source_file sheet_name : option string)
    (parsed_items : list item) (is_potential : bool) (notes : option string)
    (now : string) (db : database) : option database :=
  let db1 := delete_rfq rfq_id db in
  db2 ← insert_rfq (rfq_row_of rfq_id creator station project rfq_date source_file
                               sheet_name is_potential notes now) db1;
  foldl (db_load_item rfq_id) (Some db2) parsed_items.

End Loader.

(** The name of the bidder of a bid, by the join with [bidders]. *)
Definition bidder_name (db : database) (b : bids_row) : option string :=
  d_name <$> List.find (λ d, d_id d =? bid_bidder_id b) (t_bidders db).

(** [SELECT b.item_id, d.name AS bidder, b.unit_price, b.ext_price
     FROM bids b JOIN bidders d ON d.id=b.bidder_id] for the bids of an
    RFQ. *)
Definition bids_with_names (rfq_id : string) (db : database) : list bid_record :=
  omap (λ b, (λ name, {| rec_item_id := bid_item_id b; rec_bidder := name;
                         rec_unit_price := bid_unit b; rec_ext_price := bid_ext b |})
             <$> bidder_name db b)
       (List.filter (λ b, String.eqb (bid_rfq_id b) rfq_id) (t_bids db)).

(** The items of an RFQ, in the order of their insertion. *)
Definition items_of_rfq (rfq_id : string) (db : database) : list db_item :=
  map i_item (List.filter (λ i, String.eqb (i_rfq_id i) rfq_id) (t_items db)).

(** What the schema and the loader keep true of the tables: the keys
    are unique, a bidder's name is unique, every reference has its target,
    a bid belongs to the RFQ of its item, and no key exceeds the sequence
    of its table. *)
Record db_wf (db : database) : Prop := {
  wf_rfq_key : NoDup (map r_rfq_id (t_rfqs db));
  wf_item_key : NoDup (map item_id (t_items db));
  wf_bidder_key : NoDup (map d_id (t_bidders db));
  wf_bidder_name : NoDup (map d_name (t_bidders db));
  wf_bid_key : NoDup (map bid_id (t_bids db));
  wf_item_rfq : ∀ i, i ∈ t_items db → rfq_exists (i_rfq_id i) db = true;
  wf_bid_rfq : ∀ b, b ∈ t_bids db → rfq_exists (bid_rfq_id b) db = true;
  wf_bid_item : ∀ b, b ∈ t_bids db →
      ∃ i, i ∈ t_items db ∧ item_id i = bid_item_id b ∧ i_rfq_id i = bid_rfq_id b;
  wf_bid_bidder : ∀ b, b ∈ t_bids db → bid_bidder_id b ∈ map d_id (t_bidders db);
  wf_seq_items : ∀ i, i ∈ t_items db → item_id i ≤ seq_items db;
  wf_seq_bidders : ∀ d, d ∈ t_bidders db → d_id d ≤ seq_bidders db;
  wf_seq_bids : ∀ b, b ∈ t_bids db → bid_id b ≤ seq_bids db
}.

End Database.

(** Every order of [dict.items()] yields the entries of the dict, each
    once. *)
Definition yields_entries {F : PyFloat}
    (dict_items : gmap string bid_value → list (string * bid_value)) : Prop :=
  ∀ m, dict_items m ≡ₚ map_to_list m.

(** One table after some INSERTs: the rows of before, then the new rows. *)
Definition appended {A} (old new : list A) (P : A → Prop) : Prop :=
  ∃ rows, new = old ++ rows ∧ Forall P rows.

(** What the loader does to the tables while it loads the items of an
    RFQ: no row of [rfqs] changes, the other tables get new rows at the
    end, those of [rfq_items] and [bids] for this RFQ only, and no sequence
    goes down. *)
Record loads_into {F : PyFloat} (rfq_id : string) (db db' : database) : Prop := {
  li_rfqs : t_rfqs db' = t_rfqs db;
  li_items : appended (t_items db) (t_items db') (λ i, i_rfq_id i = rfq_id);
  li_bidders : appended (t_bidders db) (t_bidders db') (λ _, True);
  li_bids : appended (t_bids db) (t_bids db') (λ b, bid_rfq_id b = rfq_id);
  li_seq_items : seq_items db ≤ seq_items db';
  li_seq_bidders : seq_bidders db ≤ seq_bidders db';
  li_seq_bids : seq_bids db ≤ seq_bids db'
}.

(** The two prices of a bid as the [bids] table gives them back. *)
Definition stored_bid {F : PyFloat} (v : bid_value) : bid_value :=
  {| bid_unit_price := bid_unit_price v ≫= sqlite_real;
     bid_ext_price := bid_ext_price v ≫= sqlite_real |}.

(** A row that the loader inserts into [bids], as the table gives it
    back. *)
Definition stored_record {F : PyFloat} (rec : bid_record) : bid_record :=
  {| rec_item_id := rec_item_id rec;
     rec_bidder := rec_bidder rec;
     rec_unit_price := rec_unit_price rec ≫= sqlite_real;
     rec_ext_price := rec_ext_price rec ≫= sqlite_real |}.

(** The rows of [bids] that the loader writes for an item: one for each
    entry of its bids of which a price is not [None], in the order of the
    entries, with the prices as the table gives them back. *)
Definition quoted_records {F : PyFloat} (item : nat)
    (entries : list (string * bid_value)) : list bid_record :=
  omap (λ b, match bid_unit_price b.2, bid_ext_price b.2 with
             | None, None => None
             | _, _ => Some (record_of item b.1 (stored_bid b.2))
             end) entries.

(** The key under which [estimate_rfq] de-duplicates the matches. *)
Definition match_key {F : PyFloat} (sc : float * hist_row)
    : string * string * option string :=
  (h_rfq_id sc.2, h_bidder sc.2, h_specification sc.2).

(** A piece of [l] for [re.split] on runs of delimiters [p]: characters
    that are no delimiters, from the start of [l] or a delimiter to the end
    of [l] or the next delimiter. *)
Definition maximal_run (p : ascii → bool) (l r : list ascii) : Prop :=
  ∃ pre post,
    l = pre ++ r ++ post
    ∧ Forall (λ c, p c = false) r
    ∧ (pre = [] ∨ ∃ pre' c, pre = pre' ++ [c] ∧ p c = true)
    ∧ (post = [] ∨ ∃ c post', post = c :: post' ∧ p c = true).

(** The words that [_tokenise_spec] drops. *)
Definition stop_words : list string := ["AND"; "OR"; "THE"; "TO"; "OF"; "IN"; "WITH"].

(** A text of ASCII characters: on such a text the case maps of the model
    are those of Python ([str.lower] and [str.upper] change other
    characters too). *)
Definition ascii_text (s : string) : Prop :=
  Forall (λ c, PyStr.code c < 128) (PyStr.chars s).

(* ===================================================================== *)
(** * rfq_app.py: the route that loads a workbook *)
(* ===================================================================== *)

Section Routes.
Context {F : PyFloat}.

(** The JSON body of [/api/load-rfq]; a field is [None] when the key is
    missing.  The values are strings, as the page sends them. *)
Record load_request : Type := {
  q_rfq_id : option string;
  q_creator : option string;
  q_station : option string;
  q_project : option string;
  q_rfq_date : option string;
  q_filepath : option string;
  q_sheet_name : option string;
  q_is_potential : bool;
  q_notes : option string
}.

(** What there is at a path: nothing, a file that openpyxl cannot load, or
    a workbook. *)
Inductive file_at : Type :=
| NoFile
| NotAWorkbook
| Workbook (wb : list sheet).

(** The answers of the route: 200, 400, 422 and 500. *)
Inductive response : Type :=
| Loaded (rfq_id : string) (n_items : nat) (bidder_names : list string)
| BadRequest (error : string)
| Unprocessable (error : string)
| ServerError.

(** [os.path.basename] *)
Definition basename (p : string) : string :=
  default "" (last (PyStr.rsplit1 "/" p)).

(** [data.get(key, "").strip()] *)
Definition stripped (field : option string) : string :=
  PyStr.strip (default "" field).

(** [x or None] *)
Definition or_none (s : string) : option string :=
  if PyStr.nonempty s then Some s else None.

Definition load_rfq
    (dict_items : gmap string bid_value → list (string * bid_value))
    (fs : string → file_at) (now : string)
    (req : load_request) (db : database) : response * database :=
  let rfq_id := stripped (q_rfq_id req) in
  let creator := stripped (q_creator req) in
  let station := stripped (q_station req) in
  let project := or_none (stripped (q_project req)) in
  let rfq_date := stripped (q_rfq_date req) in
  let filepath := stripped (q_filepath req) in
  let sheet_name := q_sheet_name req ≫= or_none in
  let notes := default "" (q_notes req) in
  if negb (PyStr.nonempty rfq_id) then (BadRequest "rfq_id is required", db)
  else
    match fs filepath with
    | NoFile => (BadRequest ("File not found: " +:+ filepath), db)
    | NotAWorkbook => (ServerError, db)
    | Workbook wb =>
        match parse_excel wb sheet_name with
        | Raised => (ServerError, db)
        | ErrorDict error _ => (Unprocessable error, db)
        | Parsed parsed =>
            match load_parsed_rfq dict_items rfq_id (Some creator) (Some station)
                                  project (Some rfq_date) (Some (basename filepath))
                                  (Some (parsed_sheet parsed)) (items parsed)
                                  (q_is_potential req) (Some notes) now db with
            | None => (ServerError, db)
            | Some db' => (Loaded rfq_id (length (items parsed)) (bidders parsed), db')
            end
        end
    end.

End Routes.

(* ===================================================================== *)
(** * rfq_app.py: the metadata in a file name *)
(* ===================================================================== *)

(** [\w] on the ASCII range. *)
Definition is_word (c : ascii) : bool :=
  is_letter c || PyStr.is_digit c || PyStr.ceqb c "_".

(** The pieces of the pattern
    [^[Ss][Tt](\w+)\s*_\s*(\w+)\s*_\s*(\w+)\s*_\s*(\d{1,2}-\d{1,2}-\d{4})$]. *)
Definition word_re : Re.regex := Re.plus (Re.Cls is_word).
Definition spaces_re : Re.regex := Re.Star (Re.Cls PyStr.is_space).
Definition sep_re : Re.regex := Re.seq [spaces_re; Re.lit "_"; spaces_re].
Definition digit_re : Re.regex := Re.Cls PyStr.is_digit.
Definition digits12_re : Re.regex := Re.Cat digit_re (Re.opt digit_re).
Definition date_re : Re.regex :=
  Re.seq [digits12_re; Re.lit "-"; digits12_re; Re.lit "-";
          digit_re; digit_re; digit_re; digit_re].

(** What must follow group 3, group 2 and group 1. *)
Definition after_creator : Re.regex := Re.seq [sep_re; date_re; Re.eol].
Definition after_rfq_id : Re.regex := Re.seq [sep_re; word_re; after_creator].
Definition after_station : Re.regex := Re.seq [sep_re; word_re; after_rfq_id].

(** A greedy group [([p]+)]: the longest non-empty prefix of characters of
    [p] after which the rest matches; the result is that prefix and the
    rest.  [pre] is the prefix read so far, reversed. *)
Fixpoint greedy_prefix (p : ascii → bool) (after : Re.regex)
    (pre rest : list ascii) : option (list ascii * list ascii) :=
  let here :=
    if match pre with [] => false | _ => Re.matches_chars after rest end
    then Some (rev pre, rest) else None in
  match rest with
  | [] => here
  | c :: t =>
      if p c
      then match greedy_prefix p after (c :: pre) t with
           | Some r => Some r
           | None => here
           end
      else here
  end.

(** [\s*_\s*] at the head of a text: what is left after it. *)
Definition skip_sep (l : list ascii) : option (list ascii) :=
  match PyStr.lstrip_by PyStr.is_space l with
  | c :: t => if PyStr.ceqb c "_" then Some (PyStr.lstrip_by PyStr.is_space t) else None
  | [] => None
  end.

(** [s.split(sep)] for a one-character [sep]. *)
Fixpoint split_char (sep : ascii) (cur : list ascii) (l : list ascii)
    : list (list ascii) :=
  match l with
  | [] => [rev cur]
  | c :: t =>
      if PyStr.ceqb c sep then rev cur :: split_char sep [] t
      else split_char sep (c :: cur) t
  end.

(** [int(s)] for a text of decimal digits; [None] stands for the
    [ValueError] of any other text (the pattern lets only digits through). *)
Definition digits_nat (l : list ascii) : nat :=
  foldl (λ acc c, acc * 10 + (PyStr.code c - 48)) 0 l.

Definition int_of_digits (l : list ascii) : option nat :=
  match l with
  | [] => None
  | _ => if forallb PyStr.is_digit l then Some (digits_nat l) else None
  end.

(** [f"{n:0{w}d}"] *)
Definition zero_pad (w : nat) (n : nat) : string :=
  let s := pretty n in
  PyStr.of_chars (replicate (w - PyStr.len s) "0"%char) +:+ s.

(** [os.path.splitext(p)[0]]: [p] without its extension.  The extension
    starts at the last dot, when that dot comes after the last slash and
    after a character of the last component that is no dot. *)
Definition splitext_root (p : string) : string :=
  match PyStr.split1_chars "." (rev (PyStr.chars p)) with
  | (ext, Some before) =>
      if existsb (PyStr.ceqb "/") ext then p
      else if forallb (PyStr.ceqb ".") (PyStr.take_until (PyStr.ceqb "/") before) then p
      else PyStr.of_chars (rev before)
  | (_, None) => p
  end.

Record filename_metadata : Type := {
  m_station : string;
  m_project : string;
  m_creator : string;
  m_rfq_date : string;
  m_rfq_id : string
}.

Definition _parse_filename_metadata (filename : string) : option filename_metadata :=
  let name := splitext_root filename in
  match PyStr.chars name with
  | s :: t :: rest =>
      if (PyStr.ceqb s "S" || PyStr.ceqb s "s") && (PyStr.ceqb t "T" || PyStr.ceqb t "t")
      then
        '(station_raw, rest1) ← greedy_prefix is_word after_station [] rest;
        rest1' ← skip_sep rest1;
        '(rfq_id, rest2) ← greedy_prefix is_word after_rfq_id [] rest1';
        rest2' ← skip_sep rest2;
        '(creator, rest3) ← greedy_prefix is_word after_creator [] rest2';
        date_nl ← skip_sep rest3;
        let date_raw := PyStr.rstrip_by (PyStr.ceqb "010") date_nl in
        match split_char "-" [] date_raw with
        | [m; d; y] =>
            month ← int_of_digits m;
            day ← int_of_digits d;
            year ← int_of_digits y;
            Some {| m_station := "St" +:+ PyStr.of_chars station_raw;
                    m_project := PyStr.of_chars rfq_id;
                    m_creator := PyStr.of_chars creator;
                    m_rfq_date := zero_pad 4 year +:+ "-" +:+ zero_pad 2 month
                                  +:+ "-" +:+ zero_pad 2 day;
                    m_rfq_id := PyStr.of_chars rfq_id |}
        | _ => None
        end
      else None
  | _ => None
  end.

(** A name part without underscore: letters and digits, one at least. *)
Definition plain_word (l : list ascii) : Prop :=
  l ≠ [] ∧ Forall (λ c, is_letter c || PyStr.is_digit c = true) l.

(** A run of [lo] to [hi] decimal digits. *)
Definition digit_run (lo hi : nat) (l : list ascii) : Prop :=
  lo ≤ length l ≤ hi ∧ Forall (λ c, PyStr.is_digit c = true) l.

(** The number of underscores of a text. *)
Definition underscores (l : list ascii) : nat :=
  length (List.filter (PyStr.ceqb "_") l).

(** The tables of a new database, for the exact instance. *)
Definition fresh_db : @database exact_float := empty_db.

(** The tables after the gasket workbook has been loaded as RFQ ME0003. *)
Definition loaded_db : @database exact_float :=
  default fresh_db
    (load_parsed_rfq map_to_list "ME0003" (Some "AUDUBON") (Some "St105") None
                     (Some "2025-11-10") (Some "bids.xlsx") (Some "Bids")
                     (items_of (parse_rows gasket_rows "Bids")) false None
                     "2025-11-11 08:00:00" fresh_db).

(** A directory with the one workbook of four sheets, and a request to load
    it. *)
Definition one_workbook (path : string) : @file_at exact_float :=
  if String.eqb path "uploads/bids.xlsx" then Workbook four_sheets else NoFile.

Definition load_me0003 : load_request :=
  {| q_rfq_id := Some " ME0003 "; q_creator := Some "AUDUBON";
     q_station := Some "St105"; q_project := None;
     q_rfq_date := Some "2025-11-10"; q_filepath := Some "uploads/bids.xlsx";
     q_sheet_name := None; q_is_potential := false; q_notes := None |}.

(** A sheet whose one data row has an int of 401 digits for its quantity. *)
Definition huge_quantity_rows : list (list (@pyval exact_float)) :=
  [ [PStr "ITEM #"; PStr "DESCRIPTION"; PStr "QTY"; PStr "WHITCO_UNIT_PRICE"];
    [PStr "1"; PStr "GASKET, 2IN"; PInt (10 ^ 400); PFloat (num 1050 2)] ].

(* ===================================================================== *)
(** * Properties *)
(* ===================================================================== *)

(** ** The header locator *)

Section HeaderLocator.
Context {F : PyFloat}.

Lemma find_header_from_Some (rows : list (list pyval)) (k i : nat) (row : list pyval) :
  find_header_from k rows = Some (i, row) ↔
  ∃ j, i = k + j ∧ rows !! j = Some row ∧ is_header_row row = true
       ∧ ∀ j' r, j' < j → rows !! j' = Some r → is_header_row r = false.
Proof.
  revert k. induction rows as [|r0 rest IH]; intros k; simpl.
  - split; [discriminate | intros (j & _ & H & _); discriminate].
  - destruct (is_header_row r0) eqn:Hr0.
    + split.
      * intros [= <- <-]. exists 0. repeat split; auto with lia.
      * intros (j & -> & Hj & Hrow & Hmin). destruct j as [|j].
        -- simpl in Hj. injection Hj as <-. f_equal. f_equal. lia.
        -- specialize (Hmin 0 r0 ltac:(lia) eq_refl). congruence.
    + rewrite IH. split.
      * intros (j & -> & Hj & Hrow & Hmin). exists (S j).
        repeat split; auto with lia.
        intros [|j'] r Hlt Hr; simpl in Hr.
        -- congruence.
        -- apply (Hmin j'); [lia | done].
      * intros (j & -> & Hj & Hrow & Hmin). destruct j as [|j].
        -- simpl in Hj. congruence.
        -- exists j. repeat split; auto with lia.
           intros j' r Hlt Hr. apply (Hmin (S j')); [lia | done].
Qed.

Lemma find_header_from_None (rows : list (list pyval)) (k : nat) :
  find_header_from k rows = None ↔ ∀ r, r ∈ rows → is_header_row r = false.
Proof.
  revert k. induction rows as [|r0 rest IH]; intros k; simpl.
  - split; [intros _ r Hr; inversion Hr | done].
  - destruct (is_header_row r0) eqn:Hr0.
    + split; [discriminate |].
      intros H. specialize (H r0 ltac:(left)). congruence.
    + rewrite IH. split.
      * intros H r Hr. inversion Hr; subst; auto.
      * intros H r Hr. apply H. by right.
Qed.

Lemma is_header_row_spec (row : list pyval) :
  is_header_row row = true ↔
  (∃ c, c ∈ row ∧ _matches c ITEM_NUM_SYNONYMS = true)
  ∧ (∃ c, c ∈ row ∧ _matches c DESC_SYNONYMS = true).
Proof.
  unfold is_header_row. rewrite andb_true_iff, !existsb_exists.
  split; intros [(c & Hc & Hm) (d & Hd & Hn)].
  - split; [exists c | exists d]; split; auto; by apply list_elem_of_In.
  - split; [exists c | exists d]; split; auto; by apply list_elem_of_In.
Qed.

End HeaderLocator.

(** C5.  [_find_header_row] answers with row [i] exactly when [i] is the
    least index below 15 of a row holding a cell that matches an item-number
    synonym and a cell that matches a description synonym; it answers with
    nothing exactly when no row among the first 15 is such a row; on an
    empty sheet, and when no header row is found, [parse_excel] returns the
    error dict, which names the sheet and carries no items, and it returns
    an error dict in these two cases only. *)
Theorem header_row_is_first_qualifying_or_error :
  ∀ (F : PyFloat) (rows : list (list pyval)) (sheet_name : string),
    (∀ i row,
        _find_header_row rows = Some (i, row) ↔
        i < 15 ∧ rows !! i = Some row
        ∧ ((∃ c, c ∈ row ∧ _matches c ITEM_NUM_SYNONYMS = true)
           ∧ (∃ c, c ∈ row ∧ _matches c DESC_SYNONYMS = true))
        ∧ ∀ j r, j < i → rows !! j = Some r → is_header_row r = false)
    ∧ (_find_header_row rows = None ↔
       ∀ j r, j < 15 → rows !! j = Some r →
         ¬ ((∃ c, c ∈ r ∧ _matches c ITEM_NUM_SYNONYMS = true)
            ∧ (∃ c, c ∈ r ∧ _matches c DESC_SYNONYMS = true)))
    ∧ (rows = [] → parse_rows rows sheet_name = ErrorDict "Sheet is empty" sheet_name)
    ∧ (rows ≠ [] → _find_header_row rows = None →
       parse_rows rows sheet_name
       = ErrorDict "Could not locate column header row" sheet_name)
    ∧ (∀ msg sn, parse_rows rows sheet_name = ErrorDict msg sn →
       sn = sheet_name ∧ (rows = [] ∨ _find_header_row rows = None)).
Proof.
  intros F rows sheet_name. split; [| split; [| split; [| split]]].
  - intros i row. unfold _find_header_row.
    rewrite find_header_from_Some, <- is_header_row_spec. split.
    + intros (j & -> & Hj & Hrow & Hmin). simpl.
      apply lookup_take_Some in Hj as [Hj Hlt].
      repeat split; auto.
      intros j' r Hlt' Hr. apply (Hmin j'); [done |].
      apply lookup_take_Some. split; [done | lia].
    + intros (Hlt & Hi & Hrow & Hmin). exists i. repeat split; auto.
      * apply lookup_take_Some. split; done.
      * intros j' r Hlt' Hr. apply lookup_take_Some in Hr as [Hr _].
        by apply (Hmin j').
  - unfold _find_header_row. rewrite find_header_from_None. split.
    + intros H j r Hlt Hr. rewrite <- is_header_row_spec.
      rewrite (H r); [discriminate |].
      apply list_elem_of_lookup. exists j. apply lookup_take_Some. done.
    + intros H r Hr. apply list_elem_of_lookup in Hr as [j Hj].
      apply lookup_take_Some in Hj as [Hj Hlt].
      specialize (H j r Hlt Hj). rewrite <- is_header_row_spec in H.
      by destruct (is_header_row r).
  - by intros ->.
  - intros Hne Hnone. unfold parse_rows. rewrite Hnone. by destruct rows.
  - intros msg sn. unfold parse_rows. destruct rows as [|row0 rows'].
    + intros [= <- <-]. split; [done | by left].
    + destruct (_find_header_row (row0 :: rows')) as [[header_idx header_cols]|].
      * destruct (_detect_format_b header_cols).
        -- destruct (_parse_format_b header_cols) as [rfq_map bidder_map].
           by destruct (parse_items rfq_map bidder_map _).
        -- destruct (_parse_format_ac (row0 :: rows') header_idx header_cols)
             as [rfq_map bidder_map].
           by destruct (parse_items rfq_map bidder_map _).
      * intros [= <- <-]. split; [done | by right].
Qed.

(** ** The choice of the sheet *)

Section SheetChoice.
Context {F : PyFloat}.

Lemma pick_fold (wb : list sheet) (best : option string) (r : nat) :
  (foldl pick_step (best, r) wb = (best, r)
   ∧ ∀ s, s ∈ wb → skipped (title s) = false → max_row s ≤ r)
  ∨ (∃ i s, wb !! i = Some s ∧ skipped (title s) = false
       ∧ foldl pick_step (best, r) wb = (Some (title s), max_row s)
       ∧ r < max_row s
       ∧ (∀ s', s' ∈ wb → skipped (title s') = false → max_row s' ≤ max_row s)
       ∧ (∀ j s', j < i → wb !! j = Some s' → skipped (title s') = false →
            max_row s' < max_row s)).
Proof.
  revert best r. induction wb as [|s t IH]; intros best r.
  - left. split; [done |]. intros s Hs. inversion Hs.
  - simpl. unfold pick_step at 2.
    destruct (skipped (title s)) eqn:Hskip;
      [| destruct (r <? max_row s) eqn:Hlt;
         [apply Nat.ltb_lt in Hlt | apply Nat.ltb_ge in Hlt]].
    + destruct (IH best r) as [[Heq Hall] | (i & s0 & Hi & Hs0 & Heq & Hr & Hall & Hmin)].
      * left. split; [done |]. intros s' Hs' Hns.
        apply elem_of_cons in Hs' as [-> | Hs']; [congruence | auto].
      * right. exists (S i), s0. repeat split; auto.
        -- intros s' Hs' Hns.
           apply elem_of_cons in Hs' as [-> | Hs']; [congruence | auto].
        -- intros [|j] s' Hj Hs' Hns; simpl in Hs'; [congruence |].
           apply (Hmin j); auto with lia.
    + destruct (IH (Some (title s)) (max_row s))
        as [[Heq Hall] | (i & s0 & Hi & Hs0 & Heq & Hr & Hall & Hmin)].
      * right. exists 0, s. repeat split; auto.
        -- intros s' Hs' Hns.
           apply elem_of_cons in Hs' as [-> | Hs']; [lia | auto].
        -- intros j s' Hj. lia.
      * right. exists (S i), s0. repeat split; auto with lia.
        -- intros s' Hs' Hns.
           apply elem_of_cons in Hs' as [-> | Hs']; [lia | auto].
        -- intros [|j] s' Hj Hs' Hns; simpl in Hs'.
           ++ injection Hs' as <-. lia.
           ++ apply (Hmin j); auto with lia.
    + destruct (IH best r) as [[Heq Hall] | (i & s0 & Hi & Hs0 & Heq & Hr & Hall & Hmin)].
      * left. split; [done |]. intros s' Hs' Hns.
        apply elem_of_cons in Hs' as [-> | Hs']; [lia | auto].
      * right. exists (S i), s0. repeat split; auto.
        -- intros s' Hs' Hns.
           apply elem_of_cons in Hs' as [-> | Hs']; [lia | auto].
        -- intros [|j] s' Hj Hs' Hns; simpl in Hs'.
           ++ injection Hs' as <-. lia.
           ++ apply (Hmin j); auto with lia.
Qed.

Lemma skipped_spec (sn : string) :
  skipped sn = true ↔
  ∃ k, k ∈ ["dashboard"; "terms"; "condition"; "sheet2"; "alternative"]
       ∧ PyStr.contains k (PyStr.lower sn) = true.
Proof.
  unfold skipped, skip_keywords. rewrite existsb_exists.
  split; intros (k & Hk & Hc); exists k; split; auto; by apply list_elem_of_In.
Qed.

End SheetChoice.

(** C10.  Without a sheet name [parse_excel] reads the sheet chosen by
    [pick_sheet].  On a workbook as openpyxl presents it (every sheet has
    [max_row >= 1]): when some sheet name contains none of the five keywords,
    the chosen sheet is such a sheet, no such sheet has more rows, and the
    ones before it have strictly fewer; when every sheet name contains a
    keyword, the chosen sheet is the first of the workbook. *)
Theorem default_sheet_is_largest_unskipped :
  ∀ (F : PyFloat) (wb : list sheet),
    Forall (λ s, 1 ≤ max_row s) wb →
    ((∃ s, s ∈ wb ∧ skipped (title s) = false) →
     ∃ i s, wb !! i = Some s ∧ skipped (title s) = false
       ∧ pick_sheet wb = Some (title s)
       ∧ (∀ s', s' ∈ wb → skipped (title s') = false → max_row s' ≤ max_row s)
       ∧ (∀ j s', j < i → wb !! j = Some s' → skipped (title s') = false →
            max_row s' < max_row s))
    ∧ ((∀ s, s ∈ wb → skipped (title s) = true) →
       pick_sheet wb = title <$> head wb)
    ∧ (∀ sn, skipped sn = true ↔
         ∃ k, k ∈ ["dashboard"; "terms"; "condition"; "sheet2"; "alternative"]
              ∧ PyStr.contains k (PyStr.lower sn) = true)
    ∧ parse_excel wb None =
        match pick_sheet wb with
        | Some sn =>
            match get_sheet wb sn with
            | Some ws => parse_rows (sheet_rows ws) sn
            | None => Raised
            end
        | None => Raised
        end.
Proof.
  intros F wb Hrows. rewrite Forall_forall in Hrows.
  split; [| split; [| split]].
  - intros (s1 & Hs1 & Hns1). unfold pick_sheet.
    destruct (pick_fold wb None 0)
      as [[Heq Hall] | (i & s0 & Hi & Hs0 & Heq & Hr & Hall & Hmin)].
    + specialize (Hall s1 Hs1 Hns1). specialize (Hrows s1 Hs1). simpl in Hrows. lia.
    + exists i, s0. rewrite Heq. simpl. repeat split; auto.
  - intros Hall. unfold pick_sheet.
    destruct (pick_fold wb None 0)
      as [[Heq _] | (i & s0 & Hi & Hs0 & _)].
    + by rewrite Heq.
    + rewrite Hall in Hs0; [discriminate |].
      apply list_elem_of_lookup. by exists i.
  - apply skipped_spec.
  - reflexivity.
Qed.

(** ** Generic facts about loops and maps *)

Lemma foldl_invariant {A B} (P : B → Prop) (f : B → A → B) (l : list A) (b : B) :
  P b → (∀ b x, x ∈ l → P b → P (f b x)) → P (foldl f b l).
Proof.
  revert b. induction l as [|x l IH]; intros b Hb Hstep; simpl; [done |].
  apply IH.
  - apply Hstep; [left | done].
  - intros b' y Hy. apply Hstep. by right.
Qed.

Lemma nonempty_upper (s : string) : PyStr.nonempty (PyStr.upper s) = PyStr.nonempty s.
Proof. by destruct s. Qed.

Lemma cols_get_set_same (f : price_field) (i : nat) (c : bidder_cols) :
  cols_get f (cols_set f i c) = Some i.
Proof. by destruct f. Qed.

Lemma cols_get_set_other (f g : price_field) (i : nat) (c : bidder_cols) :
  f ≠ g → cols_get g (cols_set f i c) = cols_get g c.
Proof. by destruct f, g. Qed.

Lemma cols_get_empty (f : price_field) : cols_get f cols_empty = None.
Proof. by destruct f. Qed.

Lemma bidder_map_set_same (name : string) (f : price_field) (i : nat)
    (m : gmap string bidder_cols) :
  ∃ cols, bidder_map_set name f i m !! name = Some cols ∧ cols_get f cols = Some i.
Proof.
  unfold bidder_map_set. rewrite lookup_insert_eq. eexists. split; [done |].
  apply cols_get_set_same.
Qed.

(** What an update of [bidder_map] leaves in a slot: the new column in the
    slot written, the old content everywhere else. *)
Lemma bidder_map_set_lookup (name n : string) (f g : price_field) (i c : nat)
    (m : gmap string bidder_cols) (cols : bidder_cols) :
  bidder_map_set name f i m !! n = Some cols → cols_get g cols = Some c →
  (n = name ∧ g = f ∧ c = i)
  ∨ (∃ cols', m !! n = Some cols' ∧ cols_get g cols' = Some c).
Proof.
  unfold bidder_map_set. intros Hl Hg.
  destruct (decide (name = n)) as [-> | Hne].
  - rewrite lookup_insert_eq in Hl. injection Hl as <-.
    destruct (decide (f = g)) as [-> | Hfg].
    + rewrite cols_get_set_same in Hg. injection Hg as <-. by left.
    + rewrite cols_get_set_other in Hg by done. right.
      destruct (m !! n) as [cols' |]; simpl in Hg.
      * by exists cols'.
      * by rewrite cols_get_empty in Hg.
  - rewrite lookup_insert_ne in Hl by done. right. by exists cols.
Qed.

Lemma bidder_map_set_keeps (name n : string) (f g : price_field) (i c : nat)
    (m : gmap string bidder_cols) (cols : bidder_cols) :
  m !! n = Some cols → cols_get g cols = Some c → ¬ (n = name ∧ g = f) →
  ∃ cols', bidder_map_set name f i m !! n = Some cols' ∧ cols_get g cols' = Some c.
Proof.
  unfold bidder_map_set. intros Hl Hg Hne.
  destruct (decide (name = n)) as [-> | Hn].
  - rewrite lookup_insert_eq, Hl. simpl. eexists. split; [done |].
    rewrite cols_get_set_other; [done |]. intros ->. by apply Hne.
  - rewrite lookup_insert_ne by done. by exists cols.
Qed.

(** ** Bidder names above the header and the owner of a price column *)

Section BidderRow.
Context {F : PyFloat}.

Lemma elem_of_sorted_keys (d : gmap nat string) (k : nat) :
  k ∈ sorted_keys d ↔ is_Some (d !! k).
Proof.
  unfold sorted_keys. rewrite merge_sort_Permutation.
  rewrite list_elem_of_In, in_map_iff. split.
  - intros ([k' v] & <- & Hin). apply list_elem_of_In, elem_of_map_to_list in Hin.
    by exists v.
  - intros [v Hv]. exists (k, v). split; [done |].
    by apply list_elem_of_In, elem_of_map_to_list.
Qed.

Lemma sorted_keys_sorted (d : gmap nat string) : StronglySorted Nat.le (sorted_keys d).
Proof. unfold sorted_keys. apply StronglySorted_merge_sort; apply _. Qed.

Lemma owner_scan_spec (l : list nat) (col : nat) :
  StronglySorted Nat.le l → ∀ o,
  (∀ x, o = Some x → x ≤ col ∧ ∀ y, y ∈ l → x ≤ y) →
  match owner_scan o l col with
  | Some x => (o = Some x ∨ x ∈ l) ∧ x ≤ col ∧ ∀ y, y ∈ l → y ≤ col → y ≤ x
  | None => o = None ∧ ∀ y, y ∈ l → col < y
  end.
Proof.
  induction 1 as [|bc rest Hsorted IH Hall]; intros o Ho; simpl.
  - destruct o as [x|].
    + destruct (Ho x eq_refl) as [Hx _]. repeat split; auto.
      intros y Hy. inversion Hy.
    + split; [done |]. intros y Hy. inversion Hy.
  - rewrite Forall_forall in Hall.
    destruct (bc <=? col) eqn:Hle;
      [apply Nat.leb_le in Hle | apply Nat.leb_gt in Hle].
    + specialize (IH (Some bc)).
      destruct (owner_scan (Some bc) rest col) as [x|].
      * destruct IH as ([Hx | Hx] & Hxc & Hmax).
        -- intros x' [= <-]. split; [done |]. intros y Hy. by apply Hall.
        -- injection Hx as <-. repeat split; auto.
           ++ right. left.
           ++ intros y Hy Hyc. apply elem_of_cons in Hy as [-> | Hy]; auto.
        -- repeat split; auto.
           ++ right. by right.
           ++ intros y Hy Hyc. apply elem_of_cons in Hy as [-> | Hy]; auto.
              by apply Hall.
      * destruct IH as [Hcontra _]; [| discriminate].
        intros x' [= <-]. split; [done |]. intros y Hy. by apply Hall.
    + destruct o as [x|].
      * destruct (Ho x eq_refl) as [Hx Hmin]. repeat split; auto.
        intros y Hy Hyc. apply elem_of_cons in Hy as [-> | Hy]; [lia |].
        specialize (Hall y Hy). unfold Nat.le in Hall. lia.
      * split; [done |]. intros y Hy.
        apply elem_of_cons in Hy as [-> | Hy]; [lia |].
        specialize (Hall y Hy). unfold Nat.le in Hall. lia.
Qed.

Lemma bidder_for_col_spec (names : gmap nat string) (col : nat) :
  match _bidder_for_col names col with
  | Some name =>
      ∃ owner, names !! owner = Some name ∧ owner ≤ col
               ∧ ∀ bc, is_Some (names !! bc) → bc ≤ col → bc ≤ owner
  | None => ∀ bc, is_Some (names !! bc) → col < bc
  end.
Proof.
  unfold _bidder_for_col.
  pose proof (owner_scan_spec (sorted_keys names) col (sorted_keys_sorted names) None)
    as Hscan.
  destruct (owner_scan None (sorted_keys names) col) as [x|].
  - destruct Hscan as ([Hx | Hx] & Hxc & Hmax); [discriminate.. |].
    apply elem_of_sorted_keys in Hx as [name Hname]. rewrite Hname.
    exists x. repeat split; auto.
    intros bc Hbc. apply Hmax. by apply elem_of_sorted_keys.
  - destruct Hscan as [_ Hall]; [discriminate |].
    intros bc Hbc. apply Hall. by apply elem_of_sorted_keys.
Qed.

Lemma bidder_candidate_nonempty (val : pyval) (name : string) :
  bidder_candidate val = Some name → PyStr.nonempty name = true.
Proof.
  unfold bidder_candidate. intros H.
  repeat match type of H with
         | (if ?b then _ else _) = _ => destruct b eqn:?; [try discriminate H|]
         | (if ?b then _ else _) = _ => destruct b eqn:?; [|try discriminate H]
         end; try discriminate.
  injection H as <-. rewrite nonempty_upper.
  match goal with
  | Hb : negb ?x || _ = false |- _ => apply orb_false_iff in Hb as [Hb _];
      by apply negb_false_iff in Hb
  end.
Qed.

Lemma row_candidates_nonempty (row : list pyval) :
  map_Forall (λ _ name, PyStr.nonempty name = true) (row_candidates row).
Proof.
  unfold row_candidates. apply foldl_invariant.
  - apply map_Forall_empty.
  - intros acc [i v] _ Hacc. simpl.
    destruct (bidder_candidate v) as [name|] eqn:Hc; [| done].
    apply map_Forall_insert_2; [| done]. by eapply bidder_candidate_nonempty.
Qed.

Lemma bidder_names_nonempty (rows : list (list pyval)) (header_idx k : nat)
    (name : string) :
  _find_bidder_names_above rows header_idx !! k = Some name →
  PyStr.nonempty name = true.
Proof.
  unfold _find_bidder_names_above.
  assert (map_Forall (λ _ n, PyStr.nonempty n = true)
            (foldl names_step (∅, float_of_Z 0) (take header_idx rows)).1) as Hall.
  { apply (foldl_invariant (λ st, map_Forall (λ _ n, PyStr.nonempty n = true) st.1)).
    - apply map_Forall_empty.
    - intros [best score] row _ Hst. unfold names_step. simpl in Hst.
      destruct (2 <=? size (row_candidates row)); [| done].
      match goal with |- context [if ?b then _ else _] => destruct b end; [| done].
      apply row_candidates_nonempty. }
  intros Hk. by apply (Hall k name).
Qed.

End BidderRow.

Section PriceColumns.
Context {F : PyFloat}.

Lemma rfq_role_None (h : pyval) (i j : nat) (m m' : rfq_cols) :
  rfq_role h i m = None → rfq_role h j m' = None.
Proof.
  unfold rfq_role.
  repeat match goal with
         | |- context [if ?b then _ else _] => destruct b; [discriminate |]
         end.
  done.
Qed.

Lemma elem_of_enumerate_from {A} (l : list A) (k i : nat) (x : A) :
  (i, x) ∈ enumerate_from k l ↔ ∃ j, i = k + j ∧ l !! j = Some x.
Proof.
  revert k. induction l as [|y l IH]; intros k; simpl.
  - split; [intros H; inversion H | intros (j & _ & H); discriminate].
  - rewrite elem_of_cons, IH. split.
    + intros [[= -> ->] | (j & -> & Hj)].
      * exists 0. split; [lia | done].
      * exists (S j). split; [lia | done].
    + intros ([|j] & -> & Hj); simpl in Hj.
      * left. injection Hj as <-. f_equal. lia.
      * right. exists j. split; [lia | done].
Qed.

Lemma format_ac_step_roles (m : rfq_cols) (acc : list (nat * price_field))
    (k : nat) (h : pyval) :
  ∃ m', format_ac_step (m, acc) (k, h) =
        (m', acc ++ option_list (pair k <$> price_role h)).
Proof.
  unfold format_ac_step, price_role.
  destruct (is_none h); [exists m; by rewrite app_nil_r |].
  destruct (rfq_role h k m) as [m'|] eqn:Hrole.
  - exists m'. destruct (rfq_role h 0 rfq_empty) eqn:Hrole0.
    + by rewrite app_nil_r.
    + apply (rfq_role_None _ _ k _ m) in Hrole0. congruence.
  - rewrite (rfq_role_None _ _ 0 _ rfq_empty Hrole). exists m.
    destruct (PyStr.mem (_norm h) UNIT_PRICE_SYNONYMS); [done |].
    destruct (PyStr.mem (_norm h) EXT_PRICE_SYNONYMS); [done |].
    by rewrite app_nil_r.
Qed.

Lemma header_roles_from (l : list pyval) (k : nat) (m : rfq_cols)
    (acc : list (nat * price_field)) :
  (foldl format_ac_step (m, acc) (enumerate_from k l)).2 =
  acc ++ omap (λ c, pair c.1 <$> price_role c.2) (enumerate_from k l).
Proof.
  revert k m acc. induction l as [|h l IH]; intros k m acc.
  - simpl. by rewrite app_nil_r.
  - cbn [enumerate_from foldl].
    destruct (format_ac_step_roles m acc k h) as [m' ->].
    rewrite IH, <- app_assoc. f_equal.
    cbn [omap list_omap fst snd]. by destruct (price_role h).
Qed.

(** The price columns of the header: the cells with a price role, each
    with its index. *)
Lemma elem_of_header_roles (header_cols : list pyval) (c : nat) (role : price_field) :
  (c, role) ∈ (header_roles header_cols).2 ↔
  ∃ h, header_cols !! c = Some h ∧ price_role h = Some role.
Proof.
  unfold header_roles, enumerate. rewrite header_roles_from. simpl.
  rewrite list_elem_of_omap. split.
  - intros ([i h] & Hin & Hrole). simpl in Hrole.
    apply elem_of_enumerate_from in Hin as (j & -> & Hj). simpl in *.
    destruct (price_role h) as [r|] eqn:Hr; [| discriminate].
    injection Hrole as <- <-. by exists h.
  - intros (h & Hc & Hrole). exists (c, h). split.
    + apply elem_of_enumerate_from. by exists c.
    + simpl. by rewrite Hrole.
Qed.

Lemma assign_columns_sound (names : gmap nat string)
    (col_roles : list (nat * price_field)) (name : string) (cols : bidder_cols)
    (role : price_field) (c : nat) :
  assign_columns names col_roles !! name = Some cols →
  cols_get role cols = Some c →
  (c, role) ∈ col_roles ∧ _bidder_for_col names c = Some name.
Proof.
  unfold assign_columns. revert name cols role c.
  apply (foldl_invariant
           (λ M, ∀ name cols role c, M !! name = Some cols →
                  cols_get role cols = Some c →
                  (c, role) ∈ col_roles ∧ _bidder_for_col names c = Some name)).
  - intros name cols role c Hl. by rewrite lookup_empty in Hl.
  - intros M [c0 r0] Hin HM name cols role c Hl Hg. unfold assign_step in Hl.
    simpl in Hl.
    destruct (_bidder_for_col names c0) as [n0|] eqn:Hown; [| by eapply HM].
    destruct (PyStr.nonempty n0); [| by eapply HM].
    destruct (bidder_map_set_lookup _ _ _ _ _ _ _ _ Hl Hg)
      as [(-> & -> & ->) | (cols' & Hl' & Hg')].
    + done.
    + by eapply HM.
Qed.

Lemma assign_columns_last (names : gmap nat string)
    (pre post : list (nat * price_field)) (c : nat) (role : price_field)
    (name : string) :
  _bidder_for_col names c = Some name → PyStr.nonempty name = true →
  (∀ c', (c', role) ∈ post → _bidder_for_col names c' ≠ Some name) →
  ∃ cols, assign_columns names (pre ++ (c, role) :: post) !! name = Some cols
          ∧ cols_get role cols = Some c.
Proof.
  intros Hown Hne Hpost. unfold assign_columns. rewrite foldl_app. simpl.
  apply (foldl_invariant
           (λ M, ∃ cols, M !! name = Some cols ∧ cols_get role cols = Some c)).
  - unfold assign_step at 1. simpl. rewrite Hown, Hne. apply bidder_map_set_same.
  - intros M [c' r'] Hin (cols & Hl & Hg). unfold assign_step. simpl.
    destruct (_bidder_for_col names c') as [n'|] eqn:Hown'; [| by exists cols].
    destruct (PyStr.nonempty n'); [| by exists cols].
    eapply bidder_map_set_keeps; eauto.
    intros [-> ->]. by apply (Hpost c').
Qed.

End PriceColumns.

(** C7, as stated, fails: not every recognised price column is assigned.
    In the bidder-row scenario column 2 is a recognised unit-price column
    and EDGEN is the bidder at the greatest name column not after it, yet
    no bidder has column 2: [bidder_map[name][role] = col_i] keeps one
    column for a bidder and a role, and the later unit-price column 3, also
    EDGEN's, has replaced it. *)
Lemma earlier_price_column_is_replaced_by_a_later_one :
  (2, unit_price) ∈ (header_roles bidder_row_header).2
  ∧ _bidder_for_col (_find_bidder_names_above bidder_row_rows 1) 2 = Some "EDGEN"
  ∧ (∀ name cols role,
       (_parse_format_ac bidder_row_rows 1 bidder_row_header).2 !! name = Some cols →
       cols_get role cols ≠ Some 2)
  ∧ (_parse_format_ac bidder_row_rows 1 bidder_row_header).2 !! "EDGEN"
    = Some {| unit_price_col := Some 3; ext_price_col := None |}.
Proof.
  assert ((header_roles bidder_row_header).2 = [(2, unit_price); (3, unit_price)])
    as -> by (vm_compute; reflexivity).
  assert ((_parse_format_ac bidder_row_rows 1 bidder_row_header).2
          = {[ "EDGEN" := {| unit_price_col := Some 3; ext_price_col := None |} ]})
    as -> by (vm_compute; reflexivity).
  split; [by left |]. split; [vm_compute; reflexivity |]. split.
  - intros name cols role Hl. apply lookup_singleton_Some in Hl as [_ <-].
    by destruct role.
  - apply lookup_singleton_eq.
Qed.

(** C7, amended.  In the bidder-row format, with [names] the bidder names
    found above the header and [col_roles] the price columns of the header:
    the bidder of a column is the name at the greatest name column not
    after it, and there is none when every name column lies after it; every
    column recorded in [bidder_map] is a price column of that role whose
    bidder, so determined, is that entry's bidder; a price column that has
    such a bidder is recorded under it, and stays unless a later price
    column of the same role has the same bidder; and a price column left of
    every name column is recorded nowhere. *)
Theorem price_column_goes_to_nearest_bidder_on_the_left :
  ∀ (F : PyFloat) (rows : list (list pyval)) (header_idx : nat)
    (header_cols : list pyval),
    let names := _find_bidder_names_above rows header_idx in
    let col_roles := (header_roles header_cols).2 in
    let bidder_map := (_parse_format_ac rows header_idx header_cols).2 in
    (∀ c role, (c, role) ∈ col_roles ↔
       ∃ h, header_cols !! c = Some h ∧ price_role h = Some role)
    ∧ (∀ c, match _bidder_for_col names c with
            | Some name =>
                ∃ owner, names !! owner = Some name ∧ owner ≤ c
                         ∧ ∀ bc, is_Some (names !! bc) → bc ≤ c → bc ≤ owner
            | None => ∀ bc, is_Some (names !! bc) → c < bc
            end)
    ∧ (∀ name cols role c,
         bidder_map !! name = Some cols → cols_get role cols = Some c →
         (c, role) ∈ col_roles ∧ _bidder_for_col names c = Some name)
    ∧ (∀ pre c role post name,
         col_roles = pre ++ (c, role) :: post →
         _bidder_for_col names c = Some name →
         (∀ c', (c', role) ∈ post → _bidder_for_col names c' ≠ Some name) →
         ∃ cols, bidder_map !! name = Some cols ∧ cols_get role cols = Some c)
    ∧ (∀ c, (∀ bc, is_Some (names !! bc) → c < bc) →
         ∀ name cols role, bidder_map !! name = Some cols →
           cols_get role cols ≠ Some c).
Proof.
  intros F rows header_idx header_cols names col_roles bidder_map.
  assert (bidder_map = assign_columns names col_roles) as Hmap.
  { unfold bidder_map, col_roles, _parse_format_ac.
    by destruct (header_roles header_cols). }
  split; [| split; [| split; [| split]]].
  - apply elem_of_header_roles.
  - intros c. apply bidder_for_col_spec.
  - intros name cols role c. rewrite Hmap. apply assign_columns_sound.
  - intros pre c role post name Hsplit Hown Hpost. rewrite Hmap, Hsplit.
    apply assign_columns_last; auto.
    pose proof (bidder_for_col_spec names c) as Hspec. rewrite Hown in Hspec.
    destruct Hspec as (owner & Hname & _).
    by eapply bidder_names_nonempty.
  - intros c Hleft name cols role Hl Hg. rewrite Hmap in Hl.
    destruct (assign_columns_sound _ _ _ _ _ _ Hl Hg) as [_ Hown].
    pose proof (bidder_for_col_spec names c) as Hspec. rewrite Hown in Hspec.
    destruct Hspec as (owner & Hname & Hle & _).
    specialize (Hleft owner (mk_is_Some _ _ Hname)). lia.
Qed.

(** The bidder-row scenario of the specification: the names are at columns
    0 and 2 and the price columns are columns 2 and 3 (column 1 is the
    description), so that both price columns belong to EDGEN, the later one
    replacing the earlier one, and SMP has none. *)
Example bidder_row_scenario :
  _find_bidder_names_above bidder_row_rows 1 = {[ 0 := "SMP"; 2 := "EDGEN" ]}
  ∧ (header_roles bidder_row_header).2
    = [(2, unit_price); (3, unit_price)]
  ∧ _bidder_for_col (_find_bidder_names_above bidder_row_rows 1) 1 = Some "SMP"
  ∧ _bidder_for_col (_find_bidder_names_above bidder_row_rows 1) 3 = Some "EDGEN"
  ∧ (_parse_format_ac bidder_row_rows 1 bidder_row_header).2
    = {[ "EDGEN" := {| unit_price_col := Some 3; ext_price_col := None |} ]}.
Proof. repeat split; vm_compute; reflexivity. Qed.

(** ** The bids of an item, in the parser and in the loader *)

Section Bids.
Context {F : PyFloat}.

Lemma elem_of_sorted_names (m : gmap string bidder_cols) (b : string) :
  b ∈ sorted_names m ↔ is_Some (m !! b).
Proof.
  unfold sorted_names. rewrite merge_sort_Permutation.
  rewrite list_elem_of_In, in_map_iff. split.
  - intros ([k v] & <- & Hin). apply list_elem_of_In, elem_of_map_to_list in Hin.
    by exists v.
  - intros [v Hv]. exists (b, v). split; [done |].
    by apply list_elem_of_In, elem_of_map_to_list.
Qed.

(** What a successful parse is made of. *)
Lemma parse_rows_Parsed (rows : list (list pyval)) (sheet_name : string) (r : parsed) :
  parse_rows rows sheet_name = Parsed r →
  ∃ header_idx header_cols rfq_map bidder_map,
    _find_header_row rows = Some (header_idx, header_cols)
    ∧ (rfq_map, bidder_map) =
        (if _detect_format_b header_cols then _parse_format_b header_cols
         else _parse_format_ac rows header_idx header_cols)
    ∧ parsed_sheet r = sheet_name
    ∧ bidders r = sorted_names bidder_map
    ∧ parse_items rfq_map bidder_map (drop (S header_idx) rows) = Some (items r)
    ∧ parsed_rfq_map r = rfq_map.
Proof.
  unfold parse_rows. destruct rows as [|row0 rows']; [discriminate |].
  destruct (_find_header_row (row0 :: rows')) as [[header_idx header_cols]|];
    [| discriminate].
  destruct (_detect_format_b header_cols) eqn:Hdet.
  - destruct (_parse_format_b header_cols) as [rfq_map bidder_map] eqn:Hp.
    destruct (parse_items rfq_map bidder_map _) as [its|] eqn:Hits; [| discriminate].
    intros [= <-]. exists header_idx, header_cols, rfq_map, bidder_map.
    by rewrite Hdet, Hp.
  - destruct (_parse_format_ac (row0 :: rows') header_idx header_cols)
      as [rfq_map bidder_map] eqn:Hp.
    destruct (parse_items rfq_map bidder_map _) as [its|] eqn:Hits; [| discriminate].
    intros [= <-]. exists header_idx, header_cols, rfq_map, bidder_map.
    by rewrite Hdet, Hp.
Qed.

Lemma elem_of_parse_items (rfq_map : rfq_cols) (bidder_map : gmap string bidder_cols)
    (rows : list (list pyval)) (its : list item) (it : item) :
  parse_items rfq_map bidder_map rows = Some its →
  it ∈ its ↔
  ∃ row, row ∈ rows ∧ _is_data_row row rfq_map = true
         ∧ item_of_row rfq_map bidder_map row = Some it.
Proof.
  unfold parse_items. intros Hits. apply mapM_Some in Hits. split.
  - intros Hit. apply list_elem_of_lookup in Hit as [i Hi].
    destruct (Forall2_lookup_r _ _ _ _ _ Hits Hi) as (row & Hrow & Heq).
    apply list_elem_of_lookup_2, list_elem_of_In, filter_In in Hrow as [Hin Hdata].
    exists row. by rewrite list_elem_of_In.
  - intros (row & Hin & Hdata & Heq).
    assert (row ∈ List.filter (λ row, _is_data_row row rfq_map) rows) as Hrow.
    { apply list_elem_of_In, filter_In. by rewrite <- list_elem_of_In. }
    apply list_elem_of_lookup in Hrow as [i Hi].
    destruct (Forall2_lookup_l _ _ _ _ _ Hits Hi) as (it' & Hit' & Heq').
    rewrite Heq in Heq'. injection Heq' as <-. by eapply list_elem_of_lookup_2.
Qed.

(** The bids read from a row: one entry per bidder of the map, each read
    without an exception. *)
Lemma bids_of_row_Some (row : list pyval) (bidder_map : gmap string bidder_cols)
    (m : gmap string bid_value) (b : string) (v : bid_value) :
  bids_of_row row bidder_map = Some m →
  m !! b = Some v ↔
  ∃ cols, bidder_map !! b = Some cols ∧ bid_of_row row cols = Some v.
Proof.
  unfold bids_of_row. intros Hm. apply fmap_Some in Hm as (l & Hl & ->).
  apply mapM_Some in Hl.
  assert (map fst l = map fst (map_to_list bidder_map)) as Hkeys.
  { clear -Hl. induction Hl as [|[b' cols] [b'' v'] ml l Hhd _ IH]; [done |].
    simpl in Hhd. destruct (bid_of_row row cols); [| discriminate].
    injection Hhd as -> <-. simpl. by rewrite IH. }
  assert (NoDup (map fst l)) as Hnd.
  { rewrite Hkeys. apply NoDup_fst_map_to_list. }
  rewrite <- elem_of_list_to_map by done. split.
  - intros Hin. apply list_elem_of_lookup in Hin as [i Hi].
    destruct (Forall2_lookup_r _ _ _ _ _ Hl Hi) as ([b' cols] & Hbc & Heq).
    simpl in Heq. destruct (bid_of_row row cols) as [v'|] eqn:Hv; [| discriminate].
    injection Heq as -> ->. exists cols. split; [| done].
    by apply list_elem_of_lookup_2, elem_of_map_to_list in Hbc.
  - intros (cols & Hcols & Hv). apply elem_of_map_to_list in Hcols.
    apply list_elem_of_lookup in Hcols as [i Hi].
    destruct (Forall2_lookup_l _ _ _ _ _ Hl Hi) as ([b' v'] & Hbv & Heq).
    simpl in Heq. rewrite Hv in Heq. injection Heq as <- <-.
    by eapply list_elem_of_lookup_2.
Qed.

Lemma bids_item_of_row (rfq_map : rfq_cols) (bidder_map : gmap string bidder_cols)
    (row : list pyval) (it : item) :
  item_of_row rfq_map bidder_map row = Some it →
  bids_of_row row bidder_map = Some (bids it).
Proof.
  unfold item_of_row. destruct (_extract_type_spec _).
  destruct (bids_of_row row bidder_map) as [row_bids|]; [| discriminate].
  simpl. destruct (_safe_float _); [| discriminate]. by intros [= <-].
Qed.

Lemma load_bid_spec (item_id : nat) (tbl : list bid_record) (b : string * bid_value)
    (rec : bid_record) :
  rec ∈ load_bid item_id tbl b ↔
  rec ∈ tbl ∨ (rec = record_of item_id b.1 b.2 ∧ quoted b.2).
Proof.
  unfold load_bid, quoted, record_of. destruct b as [name [up ep]]. simpl.
  destruct up as [u|], ep as [e|]; rewrite ?elem_of_app, ?list_elem_of_singleton;
    [split; [intros [H | H]; [by left | right; split; [done | by intros [? ?]]]
            | intros [H | [H _]]; [by left | by right]] ..|].
  split; [by left | intros [H | [_ H]]; [done | by destruct H]].
Qed.

Lemma load_bids_spec (item_id : nat) (l : list (string * bid_value))
    (tbl : list bid_record) (rec : bid_record) :
  rec ∈ foldl (load_bid item_id) tbl l ↔
  rec ∈ tbl ∨ ∃ b v, (b, v) ∈ l ∧ rec = record_of item_id b v ∧ quoted v.
Proof.
  revert tbl. induction l as [|[b v] l IH]; intros tbl; simpl.
  - split; [by left | intros [H | (b & v & H & _)]; [done | inversion H]].
  - rewrite IH, load_bid_spec. simpl. split.
    + intros [[H | [-> Hq]] | (b' & v' & Hin & -> & Hq)].
      * by left.
      * right. exists b, v. split; [left | done].
      * right. exists b', v'. split; [by right | done].
    + intros [H | (b' & v' & Hin & -> & Hq)]; [by left; left |].
      apply elem_of_cons in Hin as [[= -> ->] | Hin].
      * left. by right.
      * right. by exists b', v'.
Qed.

Lemma load_item_bids_spec (item_id : nat) (it : item) (tbl : list bid_record)
    (rec : bid_record) :
  rec ∈ load_item_bids item_id it tbl ↔
  rec ∈ tbl ∨ ∃ v, bids it !! rec_bidder rec = Some v
                   ∧ rec = record_of item_id (rec_bidder rec) v ∧ quoted v.
Proof.
  unfold load_item_bids. rewrite load_bids_spec. split.
  - intros [H | (b & v & Hin & -> & Hq)]; [by left |].
    right. exists v. simpl. by apply elem_of_map_to_list in Hin.
  - intros [H | (v & Hl & Hrec & Hq)]; [by left |].
    right. exists (rec_bidder rec), v. by rewrite elem_of_map_to_list.
Qed.

Lemma load_items_spec (its : list item) (next_id : nat) (tbl : list bid_record)
    (rec : bid_record) :
  rec ∈ load_items next_id its tbl ↔
  rec ∈ tbl ∨ ∃ i it v, its !! i = Some it
                        ∧ bids it !! rec_bidder rec = Some v
                        ∧ rec = record_of (next_id + i) (rec_bidder rec) v
                        ∧ quoted v.
Proof.
  revert next_id tbl. induction its as [|it its IH]; intros next_id tbl; simpl.
  - split; [by left | intros [H | (i & it & v & H & _)]; [done | discriminate]].
  - rewrite IH, load_item_bids_spec. split.
    + intros [[H | (v & Hl & Hrec & Hq)] | (i & it' & v & Hi & Hl & Hrec & Hq)].
      * by left.
      * right. exists 0, it, v. by rewrite Nat.add_0_r.
      * right. exists (S i), it', v. by rewrite Nat.add_succ_r.
    + intros [H | (i & it' & v & Hi & Hl & Hrec & Hq)]; [by left; left |].
      destruct i as [|i]; simpl in Hi.
      * injection Hi as <-. left. right. exists v. by rewrite Nat.add_0_r in Hrec.
      * right. exists i, it', v. by rewrite Nat.add_succ_r in Hrec.
Qed.

End Bids.

(** C1, as stated, fails: the parser keeps a bidder whose two prices are
    both [None] in the [bids] of the item. *)
Lemma parser_keeps_unquoted_bidder :
  ∃ r it, parse_rows unquoted_rows "Bids" = Parsed r
          ∧ items r = [it]
          ∧ bids it !! "WHITCO"
            = Some {| bid_unit_price := None; bid_ext_price := None |}.
Proof. do 2 eexists. repeat split; reflexivity. Qed.

(** C1, amended.  In a parsed workbook the [bids] of every item have an
    entry for every bidder of the workbook, with or without prices, read
    from the item's row; it is the loader that passes over the bidders
    without a price: the rows it adds to the [bids] table are those of the
    bidders of an item of which at least one price is not [None]. *)
Theorem bids_keep_every_bidder_and_loader_skips_unquoted :
  ∀ (F : PyFloat) (rows : list (list pyval)) (sheet_name : string) (r : parsed),
    parse_rows rows sheet_name = Parsed r →
    (∀ it, it ∈ items r →
       (∀ b, b ∈ bidders r ↔ is_Some (bids it !! b))
       ∧ ∃ row, row ∈ rows
                ∧ ∀ b v, bids it !! b = Some v → ∃ cols, bid_of_row row cols = Some v)
    ∧ (∀ next_id rec,
         rec ∈ load_items next_id (items r) [] ↔
         ∃ i it v, items r !! i = Some it
                   ∧ bids it !! rec_bidder rec = Some v
                   ∧ rec = record_of (next_id + i) (rec_bidder rec) v
                   ∧ ¬ (bid_unit_price v = None ∧ bid_ext_price v = None)).
Proof.
  intros F rows sheet_name r Hparse.
  destruct (parse_rows_Parsed _ _ _ Hparse)
    as (header_idx & header_cols & rfq_map & bidder_map & _ & _ & _ & Hb & Hi & _).
  split.
  - intros it Hit.
    apply (elem_of_parse_items _ _ _ _ _ Hi) in Hit as (row & Hrow & _ & Hitem).
    apply bids_item_of_row in Hitem as Hbids. split.
    + intros b. rewrite Hb, elem_of_sorted_names. split.
      * intros [cols Hcols]. apply elem_of_map_to_list in Hcols.
        unfold bids_of_row in Hbids. apply fmap_Some in Hbids as (l & Hl & Heq).
        apply mapM_Some in Hl. apply list_elem_of_lookup in Hcols as [i Hcols].
        destruct (Forall2_lookup_l _ _ _ _ _ Hl Hcols) as ([b' v] & Hbv & Hv).
        simpl in Hv. destruct (bid_of_row row cols) as [v'|] eqn:Hread; [| discriminate].
        injection Hv as <- <-. exists v'.
        apply (bids_of_row_Some row bidder_map (bids it) b v').
        -- unfold bids_of_row. apply fmap_Some. exists l.
           split; [by apply mapM_Some | done].
        -- exists cols. split; [| done].
           by apply list_elem_of_lookup_2, elem_of_map_to_list in Hcols.
      * intros [v Hv]. apply (bids_of_row_Some _ _ _ _ _ Hbids) in Hv as (cols & Hcols & _).
        by exists cols.
    + exists row. split.
      * by apply (subseteq_drop (S header_idx)).
      * intros b v Hv. apply (bids_of_row_Some _ _ _ _ _ Hbids) in Hv as (cols & _ & Hv).
        by exists cols.
  - intros next_id rec. rewrite load_items_spec. split.
    + intros [H | H]; [inversion H | done].
    + intros H. by right.
Qed.

Lemma bids_keep_every_bidder_witness :
  ∃ r, parse_rows unquoted_rows "Bids" = Parsed r
       ∧ ((∀ it, it ∈ items r →
             (∀ b, b ∈ bidders r ↔ is_Some (bids it !! b))
             ∧ ∃ row, row ∈ unquoted_rows
                      ∧ ∀ b v, bids it !! b = Some v → ∃ cols, bid_of_row row cols = Some v)
          ∧ (∀ next_id rec,
               rec ∈ load_items next_id (items r) [] ↔
               ∃ i it v, items r !! i = Some it
                         ∧ bids it !! rec_bidder rec = Some v
                         ∧ rec = record_of (next_id + i) (rec_bidder rec) v
                         ∧ ¬ (bid_unit_price v = None ∧ bid_ext_price v = None))).
Proof.
  eexists. split; [reflexivity |].
  apply (bids_keep_every_bidder_and_loader_skips_unquoted
           exact_float unquoted_rows "Bids").
  reflexivity.
Defined.

(** The compound-header scenario of the specification: one item of type
    GASKET with specification 2IN, quoted by WHITCO at 10.50 a unit and 21.00
    in total; the loader stores that one bid. *)
Example gasket_scenario :
  map (λ it, (item_number it, item_type it, specification it))
      (items_of (parse_rows gasket_rows "Bids"))
  = [("1", "GASKET", "2IN")]
  ∧ map (λ it, map_to_list (prices_of <$> bids it))
        (items_of (parse_rows gasket_rows "Bids"))
    = [[("WHITCO", (Some (QArith_base.Qmake 21 2), Some (QArith_base.Qmake 21 1)))]]
  ∧ map (@rec_bidder exact_float)
        (load_items 1 (items_of (parse_rows gasket_rows "Bids")) [])
    = ["WHITCO"].
Proof. repeat split; vm_compute; reflexivity. Qed.

(** The loader stores no bid for the item that its only bidder left
    without a price. *)
Example unquoted_item_is_not_stored :
  length (items_of (parse_rows unquoted_rows "Bids")) = 1
  ∧ load_items 1 (items_of (parse_rows unquoted_rows "Bids")) [] = [].
Proof. repeat split; vm_compute; reflexivity. Qed.

(** ** Items and their numbers *)

Section ItemNumbers.
Context {F : PyFloat}.

Lemma is_data_row_spec (row : list pyval) (rfq_map : rfq_cols) :
  _is_data_row row rfq_map = true ↔
  ∃ c val, col_item_num rfq_map = Some c ∧ row !! c = Some val
           ∧ is_none val = false
           ∧ PyStr.nonempty (PyStr.strip (py_str val)) = true
           ∧ PyStr.len (PyStr.strip (py_str val)) < 20.
Proof.
  unfold _is_data_row. destruct (col_item_num rfq_map) as [c|].
  - destruct (length row <=? c) eqn:Hlen;
      [apply Nat.leb_le in Hlen | apply Nat.leb_gt in Hlen].
    + split; [discriminate |]. intros (c' & val & [= <-] & Hc & _).
      apply lookup_lt_Some in Hc. lia.
    + destruct (lookup_lt_is_Some_2 row c Hlen) as [val Hval]. rewrite Hval. simpl.
      destruct (is_none val) eqn:Hnone.
      * split; [discriminate |]. intros (c' & val' & [= <-] & Hc & Hn & _).
        congruence.
      * rewrite andb_true_iff, Nat.ltb_lt. split.
        -- intros [Hne Hlt]. by exists c, val.
        -- intros (c' & val' & [= <-] & Hc & _ & Hne & Hlt).
           rewrite Hval in Hc. injection Hc as <-. done.
  - split; [discriminate |]. intros (c & val & H & _). discriminate.
Qed.

(** The part of the invariant of item numbers that holds: an item comes
    from a row after the header whose item-number cell is there, is not
    [None], and has a stripped text that is not empty and shorter than 20
    characters; its number is that text when the cell is truthy, and the
    empty string otherwise. *)
Lemma item_number_of_data_row (rows : list (list pyval)) (sheet_name : string)
    (r : parsed) (it : item) :
  parse_rows rows sheet_name = Parsed r → it ∈ items r →
  ∃ row c val,
    row ∈ rows ∧ col_item_num (parsed_rfq_map r) = Some c ∧ row !! c = Some val
    ∧ is_none val = false
    ∧ PyStr.nonempty (PyStr.strip (py_str val)) = true
    ∧ PyStr.len (PyStr.strip (py_str val)) < 20
    ∧ item_number it = (if truthy val then PyStr.strip (py_str val) else "").
Proof.
  intros Hparse Hit.
  destruct (parse_rows_Parsed _ _ _ Hparse)
    as (header_idx & header_cols & rfq_map & bidder_map & _ & _ & _ & _ & Hi & Hm).
  destruct (proj1 (elem_of_parse_items _ _ _ _ _ Hi) Hit) as (row & Hrow & Hdata & Hitem).
  apply is_data_row_spec in Hdata as (c & val & Hc & Hval & Hn & Hne & Hlt).
  exists row, c, val. rewrite Hm. repeat split; auto.
  - by apply (subseteq_drop (S header_idx)).
  - unfold item_of_row in Hitem. destruct (_extract_type_spec _).
    destruct (bids_of_row row bidder_map); [| discriminate]. simpl in Hitem.
    destruct (_safe_float _); [| discriminate]. injection Hitem as <-. simpl.
    unfold _cell. rewrite Hc. apply lookup_lt_Some in Hval as Hlen.
    apply Nat.ltb_lt in Hlen. by rewrite Hlen, Hval.
Qed.

End ItemNumbers.

(** C6, at the failing input: the row whose item-number cell holds the
    number 0 passes [_is_data_row], and the item it yields has the empty
    string for its [item_number]. *)
Theorem item_numbered_zero_is_emitted_without_number :
  ∃ r it, parse_rows zero_item_rows "Bids" = Parsed r
          ∧ _is_data_row
              [PInt 0; PStr "GASKET, 2IN"; PFloat (num 105 1); PFloat (num 21 0)]
              (parsed_rfq_map r) = true
          ∧ items r = [it]
          ∧ item_number it = "".
Proof. do 2 eexists. repeat split; reflexivity. Qed.

(** C3, at two failing inputs.  A header with the bare synonym UNIT_PRICE,
    where no cell has a prefix before the price words, is classified as
    compound; the compound extractor then finds no bidder in it, while step
    2 of the bidder-row extractor would have taken the column as a unit
    price.  A header with WHITCO_EXTENDED_PRICE, a prefix before a
    recognised ending, is not classified as compound, although the compound
    extractor reads WHITCO and the extended-price role from it. *)
Theorem format_detection_disagrees_with_extraction :
  (_detect_format_b bare_price_header = true
   ∧ existsb spec_compound_header bare_price_header = false
   ∧ (_parse_format_b bare_price_header).2 = ∅
   ∧ (header_roles bare_price_header).2 = [(2, unit_price)])
  ∧ (_detect_format_b extended_header = false
     ∧ existsb spec_compound_header extended_header = true
     ∧ (_parse_format_b extended_header).2
       = {[ "WHITCO" := {| unit_price_col := None; ext_price_col := Some 2 |} ]}).
Proof. repeat split; vm_compute; reflexivity. Qed.

(** C4, at the failing input.  For the header cell WHITCO EXT. PRICE the
    suffix loop over the extended-price synonyms comes first and cuts the
    text by the length of the synonym without its dot, so that the bidder
    is WHITCO followed by a space; the attempt on the last two words, which
    the code has for this very form, would have given WHITCO.  The two
    columns of the one bidder end under two names. *)
Theorem dotted_suffix_leaves_separator_in_bidder_name :
  match_compound "WHITCO EXT. PRICE" = (Some "WHITCO ", Some ext_price)
  ∧ match_spaced "WHITCO EXT. PRICE" (None, None) = (Some "WHITCO", Some ext_price)
  ∧ _detect_format_b dotted_header = true
  ∧ (_parse_format_b dotted_header).2
    = {[ "WHITCO" := {| unit_price_col := Some 2; ext_price_col := None |};
         "WHITCO " := {| unit_price_col := None; ext_price_col := Some 3 |} ]}.
Proof. repeat split; vm_compute; reflexivity. Qed.

Lemma default_sheet_witness :
  Forall (λ s, 1 ≤ max_row s) four_sheets
  ∧ (((∃ s, s ∈ four_sheets ∧ skipped (title s) = false) →
      ∃ i s, four_sheets !! i = Some s ∧ skipped (title s) = false
        ∧ pick_sheet four_sheets = Some (title s)
        ∧ (∀ s', s' ∈ four_sheets → skipped (title s') = false →
             max_row s' ≤ max_row s)
        ∧ (∀ j s', j < i → four_sheets !! j = Some s' →
             skipped (title s') = false → max_row s' < max_row s))
     ∧ ((∀ s, s ∈ four_sheets → skipped (title s) = true) →
        pick_sheet four_sheets = title <$> head four_sheets)
     ∧ (∀ sn, skipped sn = true ↔
          ∃ k, k ∈ ["dashboard"; "terms"; "condition"; "sheet2"; "alternative"]
               ∧ PyStr.contains k (PyStr.lower sn) = true)
     ∧ parse_excel four_sheets None =
         match pick_sheet four_sheets with
         | Some sn =>
             match get_sheet four_sheets sn with
             | Some ws => parse_rows (sheet_rows ws) sn
             | None => Raised
             end
         | None => Raised
         end).
Proof.
  assert (Forall (λ s : @sheet exact_float, 1 ≤ max_row s) four_sheets) as H.
  { repeat constructor; simpl; lia. }
  split; [exact H |].
  exact (default_sheet_is_largest_unskipped exact_float four_sheets H).
Defined.

Example default_sheet_of_four : pick_sheet four_sheets = Some "Bids".
Proof. reflexivity. Qed.

(** ** The order on floats *)

Lemma exact_ltb_lt (x y : Qcanon.Qc) : Exact.ltb x y = true ↔ Qcanon.Qclt x y.
Proof.
  unfold Exact.ltb. rewrite Qcanon.Qclt_alt.
  destruct (Qcanon.Qccompare x y); split; congruence.
Qed.

Lemma exact_ltb_ge (x y : Qcanon.Qc) : Exact.ltb x y = false ↔ Qcanon.Qcle y x.
Proof.
  split.
  - intros H. apply Qcanon.Qcnot_lt_le. intros Hlt.
    apply exact_ltb_lt in Hlt. congruence.
  - intros H. destruct (Exact.ltb x y) eqn:Hlt; [| done].
    apply exact_ltb_lt in Hlt. by apply Qcanon.Qcle_not_lt in H.
Qed.

(** The exact rationals satisfy what is assumed of the order on floats. *)
Lemma exact_float_order : PyFloatOrder exact_float.
Proof.
  split; simpl.
  - intros x. apply exact_ltb_ge. apply Qcanon.Qcle_refl.
  - intros x y z. rewrite !exact_ltb_lt. apply Qcanon.Qclt_trans.
  - intros x y. rewrite !exact_ltb_ge. intros H1 H2. by apply Qcanon.Qcle_antisym.
  - reflexivity.
  - intros a b c d. unfold Exact.leb. rewrite !negb_true_iff, !exact_ltb_ge.
    apply Qcanon.Qcplus_le_compat.
Qed.

Section FloatOrder.
Context {F : PyFloat} {Hord : PyFloatOrder F}.

Lemma fleb_refl (x : float) : fleb x x = true.
Proof. by rewrite fleb_spec, fltb_irrefl. Qed.

Lemma fltb_asym (x y : float) : fltb x y = true → fltb y x = false.
Proof.
  intros Hxy. destruct (fltb y x) eqn:Hyx; [| done].
  by rewrite <- (fltb_irrefl x), (fltb_trans x y x).
Qed.

Lemma fltb_fleb (x y : float) : fltb x y = true → fleb x y = true.
Proof. intros H. by rewrite fleb_spec, (fltb_asym x y). Qed.

Lemma fltb_le_trans (x y z : float) :
  fltb x y = true → fltb z y = false → fltb x z = true.
Proof.
  intros Hxy Hzy. destruct (fltb x z) eqn:Hxz; [done |].
  destruct (fltb z x) eqn:Hzx.
  - by rewrite (fltb_trans z x y) in Hzy.
  - rewrite (fltb_connex x z Hxz Hzx) in Hxy. congruence.
Qed.

Lemma fle_lt_trans (x y z : float) :
  fltb y x = false → fltb y z = true → fltb x z = true.
Proof.
  intros Hyx Hyz. destruct (fltb x z) eqn:Hxz; [done |].
  destruct (fltb z x) eqn:Hzx.
  - by rewrite (fltb_trans y z x) in Hyx.
  - rewrite (fltb_connex x z Hxz Hzx) in Hyx. congruence.
Qed.

Lemma fleb_trans (x y z : float) :
  fleb x y = true → fleb y z = true → fleb x z = true.
Proof.
  rewrite !fleb_spec, !negb_true_iff. intros Hyx Hzy.
  destruct (fltb z x) eqn:Hzx; [| done].
  by rewrite (fltb_le_trans z x y) in Hzy.
Qed.

Lemma fleb_antisym (x y : float) : fleb x y = true → fleb y x = true → x = y.
Proof. rewrite !fleb_spec, !negb_true_iff. intros H1 H2. by apply fltb_connex. Qed.

(** [min] of a non-empty sequence is one of its elements and is below all
    of them. *)
Lemma py_min_spec (l : list float) (x : float) :
  (py_min x l = x ∨ py_min x l ∈ l)
  ∧ fleb (py_min x l) x = true
  ∧ ∀ y, y ∈ l → fleb (py_min x l) y = true.
Proof.
  unfold py_min. revert x. induction l as [|y l IH]; intros x; simpl.
  - repeat split; [by left | apply fleb_refl |]. intros y Hy. inversion Hy.
  - destruct (IH (if fltb y x then y else x)) as (Hin & Hle & Hall).
    destruct (fltb y x) eqn:Hyx.
    + repeat split.
      * right. destruct Hin as [-> | Hin]; [left | by right].
      * eapply fleb_trans; [exact Hle |]. by apply fltb_fleb.
      * intros z Hz. apply elem_of_cons in Hz as [-> | Hz]; auto.
    + repeat split.
      * destruct Hin as [-> | Hin]; [by left | right; by right].
      * done.
      * intros z Hz. apply elem_of_cons in Hz as [-> | Hz]; auto.
        eapply fleb_trans; [exact Hle |]. by rewrite fleb_spec, Hyx.
Qed.

Lemma py_min_in (l : list float) (x : float) : py_min x l ∈ x :: l.
Proof.
  destruct (py_min_spec l x) as ([-> | H] & _); [left | by right].
Qed.

Lemma py_min_le (l : list float) (x y : float) :
  y ∈ x :: l → fleb (py_min x l) y = true.
Proof.
  destruct (py_min_spec l x) as (_ & Hx & Hall).
  intros Hy. apply elem_of_cons in Hy as [-> | Hy]; auto.
Qed.

End FloatOrder.

(** ** The subset-award optimiser *)

Lemma foldl_ext_in {A B} (f g : B → A → B) (l : list A) (b : B) :
  (∀ b x, x ∈ l → f b x = g b x) → foldl f b l = foldl g b l.
Proof.
  revert b. induction l as [|x l IH]; intros b H; simpl; [done |].
  rewrite H by left. apply IH. intros b' y Hy. apply H. by right.
Qed.

Section Optimiser.
Context {F : PyFloat} {Hord : PyFloatOrder F}.
Implicit Types (item_costs : gmap nat (gmap string float)) (iid : nat).

Lemma list_min_subset (l1 l2 : list float) (m : float) :
  (∀ v, v ∈ l1 → v ∈ l2) → list_min l1 = Some m →
  ∃ m', list_min l2 = Some m' ∧ fleb m' m = true.
Proof.
  intros Hsub Hm. destruct l1 as [|c cs]; [discriminate |].
  injection Hm as <-.
  pose proof (Hsub _ (py_min_in cs c)) as Hin.
  destruct l2 as [|d ds]; [inversion Hin |].
  exists (py_min d ds). split; [done |]. by apply py_min_le.
Qed.

Lemma list_min_same (l1 l2 : list float) :
  (∀ v, v ∈ l1 ↔ v ∈ l2) → list_min l1 = list_min l2.
Proof.
  intros Hsame.
  destruct (list_min l1) as [m1|] eqn:H1.
  - destruct (list_min_subset l1 l2 m1) as (m2 & H2 & Hle21);
      [intros v; apply Hsame | done |].
    destruct (list_min_subset l2 l1 m2) as (m1' & H1' & Hle12);
      [intros v; apply Hsame | done |].
    rewrite H1 in H1'. injection H1' as <-. rewrite H2. f_equal.
    by apply fleb_antisym.
  - destruct l1 as [|c cs]; [| discriminate].
    destruct l2 as [|d ds]; [done |].
    assert (d ∈ @nil float) as Hd by (apply Hsame; left). inversion Hd.
Qed.

Lemma elem_of_quotes item_costs iid (bidder_seq : list string) (v : float) :
  v ∈ map snd (costs_here item_costs iid bidder_seq) ↔
  ∃ bd, bd ∈ bidder_seq ∧ quote item_costs iid bd = Some v.
Proof.
  unfold costs_here. rewrite list_elem_of_In, in_map_iff. split.
  - intros ([bd v'] & <- & Hin). apply list_elem_of_In, list_elem_of_omap in Hin
      as (bd' & Hbd & Hq).
    destruct (quote item_costs iid bd') as [q|] eqn:Hquote; [| discriminate].
    injection Hq as <- <-. by exists bd'.
  - intros (bd & Hbd & Hq). exists (bd, v). split; [done |].
    apply list_elem_of_In, list_elem_of_omap. exists bd. by rewrite Hq.
Qed.

Lemma item_min_subset item_costs iid (s1 s2 : list string) (m : float) :
  (∀ bd, bd ∈ s1 → bd ∈ s2) → item_min item_costs iid s1 = Some m →
  ∃ m', item_min item_costs iid s2 = Some m' ∧ fleb m' m = true.
Proof.
  intros Hsub. apply list_min_subset. intros v.
  rewrite !elem_of_quotes. intros (bd & Hbd & Hq). exists bd. auto.
Qed.

Lemma item_min_same item_costs iid (s1 s2 : list string) :
  (∀ bd, bd ∈ s1 ↔ bd ∈ s2) → item_min item_costs iid s1 = item_min item_costs iid s2.
Proof.
  intros Hsame. apply list_min_same. intros v.
  rewrite !elem_of_quotes.
  split; intros (bd & Hbd & Hq); exists bd; split; auto; by apply Hsame.
Qed.

Lemma eval_step_item_min item_costs (bidder_seq : list string)
    (total : float) (covered : nat) (uncovered : list nat) iid :
  eval_step item_costs bidder_seq (total, covered, uncovered) iid =
  match item_min item_costs iid bidder_seq with
  | Some m => (fadd total m, S covered, uncovered)
  | None => (total, covered, uncovered ++ [iid])
  end.
Proof.
  unfold eval_step, item_min, list_min.
  by destruct (map snd (costs_here item_costs iid bidder_seq)).
Qed.

(** The result of [eval_subset] does not depend on the order in which the
    set of bidders is iterated. *)
Lemma eval_subset_iter_indep (it1 it2 : list string → list string)
    item_costs (item_ids : list nat) (combo : list string) :
  iterates_elements it1 → iterates_elements it2 →
  eval_subset it1 item_costs item_ids combo = eval_subset it2 item_costs item_ids combo.
Proof.
  intros H1 H2. unfold eval_subset. apply foldl_ext_in.
  intros [[t n] u] iid _. rewrite !eval_step_item_min.
  rewrite (item_min_same item_costs iid (it1 combo) (it2 combo)); [done |].
  intros bd. by rewrite (H1 combo bd), (H2 combo bd).
Qed.

End Optimiser.

(** *** Combinations *)

Lemma combinations_elem {A} (l : list A) (k : nat) (c : list A) :
  c ∈ combinations l k → ∀ x, x ∈ c → x ∈ l.
Proof.
  revert k c. induction l as [|y l IH]; intros [|k] c Hc x Hx; simpl in Hc.
  - apply list_elem_of_singleton in Hc as ->. inversion Hx.
  - inversion Hc.
  - apply list_elem_of_singleton in Hc as ->. inversion Hx.
  - apply elem_of_app in Hc as [Hc | Hc].
    + apply list_elem_of_In, in_map_iff in Hc as (c' & <- & Hc').
      apply elem_of_cons in Hx as [-> | Hx]; [left | right].
      eapply IH; [by apply list_elem_of_In |done].
    + right. by eapply IH.
Qed.

Lemma combinations_head {A} (l : list A) (k : nat) (c : list A) :
  c ∈ combinations l (S k) → ∃ y c', c = y :: c' ∧ y ∈ l.
Proof.
  revert c. induction l as [|x l IH]; intros c Hc; simpl in Hc.
  - inversion Hc.
  - apply elem_of_app in Hc as [Hc | Hc].
    + apply list_elem_of_In, in_map_iff in Hc as (c' & <- & _).
      exists x, c'. split; [done | left].
    + destruct (IH c Hc) as (y & c' & -> & Hy). exists y, c'. split; [done | by right].
Qed.

Lemma combinations_gt {A} (l : list A) (k : nat) :
  length l < k → combinations l k = [].
Proof.
  revert k. induction l as [|x l IH]; intros [|k] Hk; simpl in *; try lia; [done |].
  rewrite (IH k), (IH (S k)) by lia. done.
Qed.

Lemma combinations_all {A} (l : list A) : combinations l (length l) = [l].
Proof.
  induction l as [|x l IH]; simpl; [done |].
  by rewrite IH, combinations_gt by lia.
Qed.

Lemma combinations_nonempty {A} (l : list A) (k : nat) :
  k ≤ length l → combinations l k ≠ [].
Proof.
  revert k. induction l as [|x l IH]; intros [|k] Hk; simpl in *; try done; try lia.
  specialize (IH k ltac:(lia)).
  destruct (combinations l k); [done | discriminate].
Qed.

Lemma combinations_extend {A} (l : list A) (k k' : nat) (c : list A) :
  c ∈ combinations l k → k ≤ k' → k' ≤ length l →
  ∃ c', c' ∈ combinations l k' ∧ ∀ x, x ∈ c → x ∈ c'.
Proof.
  revert k k' c. induction l as [|y t IH]; intros k k' c Hc Hk Hk'.
  - simpl in Hk'. assert (k' = 0) as -> by lia. assert (k = 0) as -> by lia.
    by exists c.
  - destruct k as [|k0].
    + simpl in Hc. apply list_elem_of_singleton in Hc as ->.
      pose proof (combinations_nonempty (y :: t) k' Hk') as Hne.
      destruct (combinations (y :: t) k') as [|c' cs] eqn:Hcs; [done |].
      exists c'. split; [left |]. intros x Hx. inversion Hx.
    + destruct k' as [|k0']; [lia |]. simpl in Hc, Hk'. cbn [combinations].
      apply elem_of_app in Hc as [Hc | Hc].
      * apply list_elem_of_In, in_map_iff in Hc as (c0 & <- & Hc0).
        apply list_elem_of_In in Hc0.
        destruct (IH k0 k0' c0 Hc0) as (c0' & Hc0' & Hsub); [lia.. |].
        exists (y :: c0'). split.
        -- apply elem_of_app. left. apply list_elem_of_In, in_map_iff.
           exists c0'. by rewrite <- list_elem_of_In.
        -- intros x Hx. apply elem_of_cons in Hx as [-> | Hx]; [left | right; auto].
      * destruct (decide (S k0' ≤ length t)) as [Hle | Hgt].
        -- destruct (IH (S k0) (S k0') c Hc) as (c' & Hc' & Hsub); [lia.. |].
           exists c'. split; [| done]. apply elem_of_app. by right.
        -- assert (k0' = length t) as -> by lia. exists (y :: t). split.
           ++ rewrite combinations_all, combinations_gt by lia. left.
           ++ intros x Hx. right. by apply (combinations_elem t (S k0) c).
Qed.

Lemma lex_lt_map_cons (x : string) (cs : list (list string)) :
  StronglySorted lex_lt cs → StronglySorted lex_lt (map (cons x) cs).
Proof.
  induction 1 as [|c cs Hs IH Hall]; simpl; constructor; [done |].
  rewrite Forall_forall in Hall. apply Forall_forall. intros c' Hc'.
  apply list_elem_of_In, in_map_iff in Hc' as (c'' & <- & Hin).
  apply lex_lt_tail, Hall. by apply list_elem_of_In.
Qed.

(** [combinations] lists the combinations of a strictly increasing sequence
    in strictly increasing lexicographic order. *)
Lemma combinations_lex (l : list string) (k : nat) :
  StronglySorted (strict String.le) l → StronglySorted lex_lt (combinations l k).
Proof.
  intros Hl. revert k. induction Hl as [|x l Hs IH Hall]; intros [|k]; simpl.
  - repeat constructor.
  - constructor.
  - repeat constructor.
  - apply StronglySorted_app; repeat split.
    + intros c1 c2 Hc1 Hc2.
      apply list_elem_of_In, in_map_iff in Hc1 as (c1' & <- & _).
      apply combinations_head in Hc2 as (y & c2' & -> & Hy).
      apply lex_lt_head. rewrite Forall_forall in Hall. by apply Hall.
    + apply lex_lt_map_cons, IH.
    + apply IH.
Qed.

Lemma StronglySorted_strict {A} (R : relation A) `{!AntiSymm (=) R} (l : list A) :
  StronglySorted R l → NoDup l → StronglySorted (strict R) l.
Proof.
  induction 1 as [|x l Hs IH Hall]; intros Hnd; constructor.
  - apply IH. by apply NoDup_cons in Hnd as [_ ?].
  - apply NoDup_cons in Hnd as [Hx _].
    rewrite Forall_forall in Hall. apply Forall_forall. intros y Hy.
    split; [by apply Hall |].
    intros Hyx. assert (x = y) as -> by (apply (anti_symm R); auto). done.
Qed.

Lemma sorted_set_strict (S : gset string) :
  StronglySorted (strict String.le) (sorted_set S).
Proof.
  unfold sorted_set. apply StronglySorted_strict; [apply _ | |].
  - apply StronglySorted_merge_sort; apply _.
  - rewrite merge_sort_Permutation. apply NoDup_elements.
Qed.

(** *** The selection loop *)

Section Selection.
Context {F : PyFloat} {Hord : PyFloatOrder F}.
Variable set_iter : list string → list string.
Variable item_costs : gmap nat (gmap string float).
Variable item_ids : list nat.

Local Abbreviation cost := (subset_cost set_iter item_costs item_ids).
Local Abbreviation taken := (state_of set_iter item_costs item_ids).
Local Abbreviation step := (best_step set_iter item_costs item_ids).
Local Abbreviation covered_by := (covers item_costs).

Lemma best_step_unfold (st : best_state) (combo : list string) :
  step st combo =
  if match best_cost st with
     | None => true
     | Some bc => fltb (cost combo) bc
     end
  then taken combo else st.
Proof.
  unfold best_step, state_of, subset_cost, subset_covered.
  by destruct (eval_subset set_iter item_costs item_ids combo) as [[c n] u].
Qed.

Lemma best_fold_from (combos : list (list string)) (c0 : list string) :
  (foldl step (taken c0) combos = taken c0
   ∧ ∀ c', c' ∈ combos → fltb (cost c') (cost c0) = false)
  ∨ (∃ i c, combos !! i = Some c
       ∧ foldl step (taken c0) combos = taken c
       ∧ fltb (cost c) (cost c0) = true
       ∧ (∀ c', c' ∈ combos → fltb (cost c') (cost c) = false)
       ∧ (∀ j c', j < i → combos !! j = Some c' → fltb (cost c) (cost c') = true)).
Proof.
  revert c0. induction combos as [|x t IH]; intros c0.
  - left. split; [done |]. intros c' Hc'. inversion Hc'.
  - cbn [foldl]. rewrite best_step_unfold. cbn [state_of best_cost].
    destruct (fltb (cost x) (cost c0)) eqn:Hx.
    + destruct (IH x) as [[Heq Hall] | (i & c & Hi & Heq & Hlt & Hall & Hmin)].
      * right. exists 0, x. repeat split; auto.
        -- intros c' Hc'. apply elem_of_cons in Hc' as [-> | Hc']; auto.
           apply fltb_irrefl.
        -- intros j c' Hj. lia.
      * right. exists (S i), c. repeat split; auto.
        -- by apply (fltb_trans _ (cost x)).
        -- intros c' Hc'. apply elem_of_cons in Hc' as [-> | Hc']; auto.
           by apply fltb_asym.
        -- intros [|j] c' Hj Hc'; simpl in Hc'.
           ++ by injection Hc' as <-.
           ++ apply (Hmin j); [lia | done].
    + destruct (IH c0) as [[Heq Hall] | (i & c & Hi & Heq & Hlt & Hall & Hmin)].
      * left. split; [done |]. intros c' Hc'.
        apply elem_of_cons in Hc' as [-> | Hc']; auto.
      * right. exists (S i), c. repeat split; auto.
        -- intros c' Hc'. apply elem_of_cons in Hc' as [-> | Hc']; auto.
           apply fltb_asym. by apply (fltb_le_trans _ (cost c0)).
        -- intros [|j] c' Hj Hc'; simpl in Hc'.
           ++ injection Hc' as <-. by apply (fltb_le_trans _ (cost c0)).
           ++ apply (Hmin j); [lia | done].
Qed.

(** The loop keeps the first combination of least total cost. *)
Lemma best_fold_first_min (combos : list (list string)) :
  match combos with
  | [] => foldl step best_init combos = best_init
  | _ =>
      ∃ i c, combos !! i = Some c
        ∧ foldl step best_init combos = taken c
        ∧ (∀ c', c' ∈ combos → fltb (cost c') (cost c) = false)
        ∧ (∀ j c', j < i → combos !! j = Some c' → fltb (cost c) (cost c') = true)
  end.
Proof.
  destruct combos as [|x t]; [done |].
  cbn [foldl]. rewrite best_step_unfold. cbn [best_init best_cost].
  destruct (best_fold_from t x) as [[Heq Hall] | (i & c & Hi & Heq & Hlt & Hall & Hmin)].
  - exists 0, x. repeat split; auto.
    + intros c' Hc'. apply elem_of_cons in Hc' as [-> | Hc']; auto.
      apply fltb_irrefl.
    + intros j c' Hj. lia.
  - exists (S i), c. repeat split; auto.
    + intros c' Hc'. apply elem_of_cons in Hc' as [-> | Hc']; auto.
      by apply fltb_asym.
    + intros [|j] c' Hj Hc'; simpl in Hc'.
      * by injection Hc' as <-.
      * apply (Hmin j); [lia | done].
Qed.

(** *** Coverage and cost of a subset and of a superset *)

Lemma eval_fold_covered (bidder_seq : list string) (ids : list nat)
    (t : float) (n : nat) (u : list nat) :
  (foldl (eval_step item_costs bidder_seq) (t, n, u) ids).1.2 =
  n + length (List.filter (covered_by bidder_seq) ids).
Proof.
  revert t n u. induction ids as [|iid ids IH]; intros t n u.
  - simpl. lia.
  - cbn [foldl List.filter]. rewrite eval_step_item_min. unfold covers at 1.
    destruct (item_min item_costs iid bidder_seq); rewrite IH; simpl; lia.
Qed.

Lemma filter_count_pointwise {A} (f g : A → bool) (l : list A) :
  (∀ x, f x = true → g x = true) →
  length (List.filter f l) ≤ length (List.filter g l)
  ∧ (length (List.filter f l) = length (List.filter g l) →
     ∀ x, x ∈ l → g x = true → f x = true).
Proof.
  intros Hfg. induction l as [|y l [IHle IHeq]]; simpl.
  - split; [lia |]. intros _ x Hx. inversion Hx.
  - destruct (f y) eqn:Hf.
    + rewrite (Hfg y Hf). simpl. split; [lia |].
      intros Heq x Hx Hg. apply elem_of_cons in Hx as [-> | Hx]; [done |].
      apply IHeq; [lia | done..].
    + destruct (g y) eqn:Hg; simpl.
      * split; [lia |]. intros Heq. lia.
      * split; [lia |]. intros Heq x Hx Hgx.
        apply elem_of_cons in Hx as [-> | Hx]; [congruence |].
        by apply IHeq.
Qed.

Lemma eval_fold_cost_mono (small large : list string) (ids : list nat)
    (t1 t2 : float) (n1 n2 : nat) (u1 u2 : list nat) :
  (∀ bd, bd ∈ small → bd ∈ large) →
  (∀ iid, iid ∈ ids → covered_by large iid = true → covered_by small iid = true) →
  fleb t1 t2 = true →
  fleb (foldl (eval_step item_costs large) (t1, n1, u1) ids).1.1
       (foldl (eval_step item_costs small) (t2, n2, u2) ids).1.1 = true.
Proof.
  intros Hsub. revert t1 t2 n1 n2 u1 u2.
  induction ids as [|iid ids IH]; intros t1 t2 n1 n2 u1 u2 Hcov Hle; [done |].
  cbn [foldl]. rewrite !eval_step_item_min.
  assert (∀ i, i ∈ ids → covered_by large i = true → covered_by small i = true) as Hcov'.
  { intros i Hi. apply Hcov. by right. }
  destruct (item_min item_costs iid small) as [m|] eqn:Hsmall.
  - destruct (item_min_subset item_costs iid small large m Hsub Hsmall)
      as (m' & -> & Hm).
    apply IH; [done |]. by apply fadd_mono.
  - specialize (Hcov iid ltac:(left)). unfold covers in Hcov.
    rewrite Hsmall in Hcov.
    destruct (item_min item_costs iid large); [by discriminate Hcov |].
    by apply IH.
Qed.

Lemma subset_covered_mono (small large : list string) :
  iterates_elements set_iter →
  (∀ bd, bd ∈ small → bd ∈ large) →
  subset_covered set_iter item_costs item_ids small
  ≤ subset_covered set_iter item_costs item_ids large.
Proof.
  intros Hit Hsub. unfold subset_covered, eval_subset. rewrite !eval_fold_covered.
  apply (filter_count_pointwise (covered_by (set_iter small))
                                (covered_by (set_iter large))).
  unfold covers. intros iid.
  destruct (item_min item_costs iid (set_iter small)) as [m|] eqn:Hm; [| done].
  destruct (item_min_subset item_costs iid (set_iter small) (set_iter large) m)
    as (m' & -> & _); [| done..].
  intros bd. rewrite (Hit small bd), (Hit large bd). apply Hsub.
Qed.

(** A combination that covers as many items as a superset of it costs at
    least as much as the superset. *)
Lemma superset_costs_no_more (small large : list string) :
  iterates_elements set_iter →
  (∀ bd, bd ∈ small → bd ∈ large) →
  subset_covered set_iter item_costs item_ids small
    = subset_covered set_iter item_costs item_ids large →
  fleb (cost large) (cost small) = true.
Proof.
  intros Hit Hsub Hcov. unfold subset_cost, subset_covered, eval_subset in *.
  assert (∀ bd, bd ∈ set_iter small → bd ∈ set_iter large) as Hsub'.
  { intros bd. rewrite (Hit small bd), (Hit large bd). apply Hsub. }
  rewrite !eval_fold_covered in Hcov.
  apply eval_fold_cost_mono; [done | | apply fleb_refl].
  apply (filter_count_pointwise (covered_by (set_iter small)) (covered_by (set_iter large))).
  - unfold covers. intros iid.
    destruct (item_min item_costs iid (set_iter small)) as [m|] eqn:Hm; [| done].
    by destruct (item_min_subset item_costs iid _ _ m Hsub' Hm) as (m' & -> & _).
  - lia.
Qed.

End Selection.

(** *** The whole of [subset_enum] *)

Section SubsetEnum.
Context {F : PyFloat} {Hord : PyFloatOrder F}.

Lemma best_of_k_iter_indep (it1 it2 : list string → list string)
    (item_costs : gmap nat (gmap string float)) (item_ids : list nat)
    (all_bidders : list string) (k : nat) :
  iterates_elements it1 → iterates_elements it2 →
  best_of_k it1 item_costs item_ids all_bidders k
  = best_of_k it2 item_costs item_ids all_bidders k.
Proof.
  intros H1 H2. unfold best_of_k. apply foldl_ext_in. intros st combo _.
  unfold best_step. by rewrite (eval_subset_iter_indep it1 it2).
Qed.

Lemma subset_enum_iter_indep (it1 it2 : list string → list string)
    (items : list db_item) (bids : list bid_row) :
  iterates_elements it1 → iterates_elements it2 →
  subset_enum it1 items bids = subset_enum it2 items bids.
Proof.
  intros H1 H2. unfold subset_enum. destruct items as [|it0 items']; [done |].
  do 3 f_equal. apply foldl_ext_in. intros [results baseline] k _.
  unfold size_step. by rewrite (best_of_k_iter_indep it1 it2).
Qed.

Lemma subset_enum_Some (set_iter : list string → list string)
    (items : list db_item) (bids : list bid_row) (all : list string)
    (results : list size_result) :
  subset_enum set_iter items bids = Some (all, results) →
  all = all_bidders_of bids
  ∧ results
    = (foldl (size_step set_iter (build_item_costs bids) (map db_id items)
                        (all_bidders_of bids) items)
             ([], None) (seq 1 (length (all_bidders_of bids)))).1.
Proof.
  unfold subset_enum. destruct items as [|it0 items']; [discriminate |].
  by intros [= <- <-].
Qed.

Lemma size_fold_results (set_iter : list string → list string)
    (item_costs : gmap nat (gmap string float)) (item_ids : list nat)
    (all_bidders : list string) (items : list db_item) (ks : list nat)
    (results0 : list size_result) (baseline0 : option float) :
  ∃ new,
    (foldl (size_step set_iter item_costs item_ids all_bidders items)
           (results0, baseline0) ks).1 = results0 ++ new
    ∧ length new = length ks
    ∧ ∀ j r, new !! j = Some r →
        ∃ k, ks !! j = Some k ∧ res_k r = k
             ∧ res_best_subset r
               = best_subset (best_of_k set_iter item_costs item_ids all_bidders k)
             ∧ res_total_cost r
               = fround 2 <$> best_cost (best_of_k set_iter item_costs item_ids all_bidders k)
             ∧ res_items_covered r
               = best_covered (best_of_k set_iter item_costs item_ids all_bidders k).
Proof.
  revert results0 baseline0. induction ks as [|k ks IH]; intros results0 baseline0.
  - exists []. simpl. rewrite app_nil_r. repeat split; auto.
    intros j r Hj. discriminate.
  - cbn [foldl]. unfold size_step at 2.
    match goal with
    | |- context [foldl _ (?res ++ [?r], ?b) ks] =>
        destruct (IH (res ++ [r]) b) as (new & Heq & Hlen & Hnew);
        exists (r :: new)
    end.
    rewrite Heq, <- app_assoc. repeat split; simpl; auto.
    intros [|j] r' Hj; simpl in Hj.
    + injection Hj as <-. by exists k.
    + by apply Hnew.
Qed.

End SubsetEnum.

(** C8.  Two runs of [subset_enum] on the same rows, whatever the order in
    which each of them iterates over the sets of bidders, return the same
    answer.  The bidders are listed in strictly increasing order of their
    names, the combinations of each size in strictly increasing
    lexicographic order, and the result for size [k] holds the first
    combination of that enumeration whose total cost no other combination
    undercuts, with that cost rounded to two decimals: every combination
    before it costs strictly more. *)
Theorem subset_optimizer_is_deterministic_with_first_minimum :
  ∀ (F : PyFloat), PyFloatOrder F →
  ∀ (it1 it2 : list string → list string),
    iterates_elements it1 → iterates_elements it2 →
  ∀ (items : list db_item) (bids : list bid_row),
    let item_costs := build_item_costs bids in
    let item_ids := map db_id items in
    let all_bidders := all_bidders_of bids in
    subset_enum it1 items bids = subset_enum it2 items bids
    ∧ StronglySorted (strict String.le) all_bidders
    ∧ ∀ all results,
        subset_enum it1 items bids = Some (all, results) →
        all = all_bidders
        ∧ length results = length all_bidders
        ∧ ∀ i r, results !! i = Some r →
            let combos := combinations all_bidders (S i) in
            res_k r = S i
            ∧ StronglySorted lex_lt combos
            ∧ ∃ j c,
                combos !! j = Some c
                ∧ res_best_subset r = Some c
                ∧ res_total_cost r
                  = Some (fround 2 (subset_cost it1 item_costs item_ids c))
                ∧ (∀ c', c' ∈ combos →
                     fltb (subset_cost it1 item_costs item_ids c')
                          (subset_cost it1 item_costs item_ids c) = false)
                ∧ (∀ j' c', j' < j → combos !! j' = Some c' →
                     fltb (subset_cost it1 item_costs item_ids c)
                          (subset_cost it1 item_costs item_ids c') = true).
Proof.
  intros F Hord it1 it2 H1 H2 items bids item_costs item_ids all_bidders.
  split; [by apply subset_enum_iter_indep |].
  split; [apply sorted_set_strict |].
  intros all results Henum. apply subset_enum_Some in Henum as [-> ->].
  fold item_costs item_ids all_bidders.
  destruct (size_fold_results it1 item_costs item_ids all_bidders
              items (seq 1 (length all_bidders)) [] None)
    as (new & Heq & Hlen & Hnew).
  rewrite Heq. simpl app. rewrite length_seq in Hlen.
  split; [done |]. split; [done |].
  intros i r Hi combos. subst combos.
  destruct (Hnew i r Hi) as (k & Hk & Hrk & Hsub & Hcost & _).
  apply lookup_seq in Hk as [-> Hlt]. change (1 + i) with (S i) in *.
  split; [done |]. split; [apply combinations_lex, sorted_set_strict |].
  pose proof (best_fold_first_min it1 item_costs item_ids
                (combinations all_bidders (S i))) as Hbest.
  pose proof (combinations_nonempty all_bidders (S i) ltac:(lia)) as Hne.
  unfold best_of_k in Hsub, Hcost.
  destruct (combinations all_bidders (S i)) as [|c0 combos'] eqn:Hcombos; [done |].
  destruct Hbest as (j & c & Hj & Hfold & Hall & Hmin).
  exists j, c. rewrite Hfold in Hsub, Hcost.
  repeat split; auto.
Qed.

(** C2, as stated, fails: with two bidders that each quote one of two
    items, the best single bidder costs 10 (the other item is left out of
    the sum) and the two bidders together cost 110. *)
Lemma full_set_costs_more_than_single_bidder :
  ∃ r1 r2 c1 c2,
    subset_enum in_order two_items disjoint_bids = Some (["A"; "B"], [r1; r2])
    ∧ res_best_subset r1 = Some ["A"] ∧ res_total_cost r1 = Some c1
    ∧ res_best_subset r2 = Some ["A"; "B"] ∧ res_total_cost r2 = Some c2
    ∧ res_uncovered_count r1 = 1 ∧ res_uncovered_count r2 = 0
    ∧ fleb c2 c1 = false
    ∧ fltb c1 c2 = true.
Proof. do 4 eexists. repeat split; reflexivity. Qed.

(** C2, amended.  Take a size [k] from 1 to the number [n] of bidders at
    which the best combination covers as many items as all the bidders
    together.  Then the best total cost at every size from [k] to [n], and
    so at size [n], is at most the best total cost at size [k]. *)
Theorem best_cost_does_not_rise_from_a_fully_covering_size :
  ∀ (F : PyFloat), PyFloatOrder F →
  ∀ (set_iter : list string → list string), iterates_elements set_iter →
  ∀ (items : list db_item) (bids : list bid_row) (k k' : nat),
    let item_costs := build_item_costs bids in
    let item_ids := map db_id items in
    let all_bidders := all_bidders_of bids in
    let n := length all_bidders in
    let best_at := best_of_k set_iter item_costs item_ids all_bidders in
    1 ≤ k → k ≤ k' → k' ≤ n →
    best_covered (best_at k) = best_covered (best_at n) →
    ∃ cost_k' cost_k,
      best_cost (best_at k') = Some cost_k' ∧ best_cost (best_at k) = Some cost_k
      ∧ fleb cost_k' cost_k = true.
Proof.
  intros F Hord set_iter Hit items bids k k' item_costs item_ids all_bidders n
         best_at Hk1 Hkk' Hk'n Hcov.
  unfold best_at, best_of_k in *. unfold n in *.
  rewrite combinations_all in Hcov. cbn [foldl] in Hcov.
  rewrite best_step_unfold in Hcov. cbn [best_init best_cost] in Hcov.
  pose proof (best_fold_first_min set_iter item_costs item_ids
                (combinations all_bidders k)) as Hbest.
  pose proof (combinations_nonempty all_bidders k ltac:(lia)) as Hne.
  destruct (combinations all_bidders k) as [|c0 combos] eqn:Hcombos; [done |].
  destruct Hbest as (j & c & Hj & Hfold & _). rewrite Hfold in *.
  assert (c ∈ combinations all_bidders k) as Hc.
  { rewrite Hcombos. apply list_elem_of_lookup. by exists j. }
  destruct (combinations_extend all_bidders k k' c Hc Hkk' Hk'n) as (c' & Hc' & Hsub).
  pose proof (best_fold_first_min set_iter item_costs item_ids
                (combinations all_bidders k')) as Hbest'.
  destruct (combinations all_bidders k') as [|d0 combos'] eqn:Hcombos';
    [inversion Hc' |].
  destruct Hbest' as (j' & d & Hj' & Hfold' & Hall' & _). rewrite Hfold'.
  cbn [state_of best_cost best_covered] in *.
  do 2 eexists. split; [done |]. split; [done |].
  apply (fleb_trans _ (subset_cost set_iter item_costs item_ids c')).
  - by rewrite fleb_spec, (Hall' c' Hc').
  - apply superset_costs_no_more; [done.. |].
    pose proof (subset_covered_mono set_iter item_costs item_ids c c' Hit Hsub).
    pose proof (subset_covered_mono set_iter item_costs item_ids c' all_bidders Hit
                  (combinations_elem all_bidders k' c'
                     ltac:(rewrite Hcombos'; exact Hc'))).
    lia.
Qed.

Lemma in_order_iterates : iterates_elements in_order.
Proof. by intros l x. Qed.

Lemma reversed_iterates : iterates_elements reversed.
Proof.
  intros l x. unfold reversed. rewrite !list_elem_of_In. symmetry. apply in_rev.
Qed.

Lemma subset_optimizer_witness :
  PyFloatOrder exact_float
  ∧ iterates_elements in_order ∧ iterates_elements reversed
  ∧ (let item_costs := build_item_costs full_bids in
     let item_ids := map db_id two_items in
     let all_bidders := all_bidders_of full_bids in
     subset_enum in_order two_items full_bids = subset_enum reversed two_items full_bids
     ∧ StronglySorted (strict String.le) all_bidders
     ∧ ∀ all results,
         subset_enum in_order two_items full_bids = Some (all, results) →
         all = all_bidders
         ∧ length results = length all_bidders
         ∧ ∀ i r, results !! i = Some r →
             let combos := combinations all_bidders (S i) in
             res_k r = S i
             ∧ StronglySorted lex_lt combos
             ∧ ∃ j c,
                 combos !! j = Some c
                 ∧ res_best_subset r = Some c
                 ∧ res_total_cost r
                   = Some (fround 2 (subset_cost in_order item_costs item_ids c))
                 ∧ (∀ c', c' ∈ combos →
                      fltb (subset_cost in_order item_costs item_ids c')
                           (subset_cost in_order item_costs item_ids c) = false)
                 ∧ (∀ j' c', j' < j → combos !! j' = Some c' →
                      fltb (subset_cost in_order item_costs item_ids c)
                           (subset_cost in_order item_costs item_ids c') = true)).
Proof.
  split; [exact exact_float_order |].
  split; [exact in_order_iterates |].
  split; [exact reversed_iterates |].
  exact (subset_optimizer_is_deterministic_with_first_minimum
           exact_float exact_float_order in_order reversed
           in_order_iterates reversed_iterates two_items full_bids).
Defined.

Lemma best_cost_does_not_rise_witness :
  PyFloatOrder exact_float
  ∧ iterates_elements reversed
  ∧ (let item_costs := build_item_costs full_bids in
     let item_ids := map db_id two_items in
     let all_bidders := all_bidders_of full_bids in
     let n := length all_bidders in
     let best_at := best_of_k reversed item_costs item_ids all_bidders in
     1 ≤ 1 ∧ 1 ≤ 2 ∧ 2 ≤ n
     ∧ best_covered (best_at 1) = best_covered (best_at n)
     ∧ ∃ cost_k' cost_k,
         best_cost (best_at 2) = Some cost_k' ∧ best_cost (best_at 1) = Some cost_k
         ∧ fleb cost_k' cost_k = true).
Proof.
  split; [exact exact_float_order |].
  split; [exact reversed_iterates |].
  assert (2 ≤ length (all_bidders_of full_bids)) as Hn by (vm_compute; lia).
  assert (best_covered
            (best_of_k reversed (build_item_costs full_bids) (map db_id two_items)
                       (all_bidders_of full_bids) 1)
          = best_covered
              (best_of_k reversed (build_item_costs full_bids) (map db_id two_items)
                         (all_bidders_of full_bids)
                         (length (all_bidders_of full_bids)))) as Hcov
    by (vm_compute; reflexivity).
  split; [lia |]. split; [lia |]. split; [exact Hn |]. split; [exact Hcov |].
  exact (best_cost_does_not_rise_from_a_fully_covering_size
           exact_float exact_float_order reversed reversed_iterates
           two_items full_bids 1 2 (le_n 1) (le_S 1 1 (le_n 1)) Hn Hcov).
Defined.

(** The cost table of the scenario of the specification: the best single
    bidder is B at 14; both bidders together cost 8 + 5 = 13, a saving of
    7.14 per cent. *)
Example subset_enum_scenario :
  ∃ r1 r2 c1 c2 s,
    subset_enum in_order two_items full_bids = Some (["A"; "B"], [r1; r2])
    ∧ res_best_subset r1 = Some ["B"]
    ∧ res_total_cost r1 = Some c1 ∧ feqb c1 (num 14 0) = true
    ∧ res_best_subset r2 = Some ["A"; "B"]
    ∧ res_total_cost r2 = Some c2 ∧ feqb c2 (num 13 0) = true
    ∧ res_savings_vs_k1_pct r2 = Some s ∧ feqb s (num 714 2) = true.
Proof. do 5 eexists. repeat split; reflexivity. Qed.

(** ** The historical estimator *)

Section Estimates.
Context {F : PyFloat} {Hord : PyFloatOrder F}.

(** [hist_by_type.get(t, [])] is the rows of type [t], in their order. *)
Lemma hist_by_type_from (l : list hist_row) (m : gmap (option string) (list hist_row))
    (t : option string) :
  default [] (foldl group_step m l !! t) =
  default [] (m !! t) ++ List.filter (λ r, bool_decide (h_item_type r = t)) l.
Proof.
  revert m. induction l as [|row l IH]; intros m.
  - simpl. by rewrite app_nil_r.
  - cbn [foldl List.filter]. rewrite IH. unfold group_step.
    destruct (decide (h_item_type row = t)) as [Ht | Ht].
    + rewrite Ht, lookup_insert_eq, bool_decide_eq_true_2 by done. simpl.
      by rewrite <- app_assoc.
    + rewrite lookup_insert_ne, bool_decide_eq_false_2 by done. done.
Qed.

Lemma hist_by_type_lookup (hist_bids : list hist_row) (t : option string) :
  default [] (hist_by_type hist_bids !! t) =
  List.filter (λ r, bool_decide (h_item_type r = t)) hist_bids.
Proof. unfold hist_by_type. by rewrite hist_by_type_from, lookup_empty. Qed.

Lemma elem_of_scored_of (ttoks : gset string) (tsize : string)
    (candidates : list hist_row) (s : float) (c : hist_row) :
  (s, c) ∈ scored_of ttoks tsize candidates ↔
  c ∈ candidates ∧ s = score_of ttoks tsize c ∧ fleb (float_lit 25 2) s = true.
Proof.
  unfold scored_of. rewrite list_elem_of_In, filter_In, in_map_iff. simpl. split.
  - intros [(c' & [= <- <-] & Hin) Hs]. by rewrite list_elem_of_In.
  - intros (Hin & -> & Hs). split; [| done]. exists c. by rewrite <- list_elem_of_In.
Qed.

Lemma elem_of_insert_desc (x y : float * hist_row) (l : list (float * hist_row)) :
  y ∈ insert_desc x l ↔ y = x ∨ y ∈ l.
Proof.
  induction l as [|z l IH]; simpl.
  - rewrite list_elem_of_singleton. split; [by left | intros [H | H]; [done | inversion H]].
  - destruct (fltb z.1 x.1).
    + by rewrite elem_of_cons.
    + rewrite !elem_of_cons, IH. tauto.
Qed.

Lemma insert_desc_sorted (x : float * hist_row) (l : list (float * hist_row)) :
  StronglySorted not_below l → StronglySorted not_below (insert_desc x l).
Proof.
  induction 1 as [|z l Hs IH Hall]; simpl.
  - repeat constructor.
  - rewrite Forall_forall in Hall. destruct (fltb z.1 x.1) eqn:Hzx.
    + constructor; [by constructor; [| apply Forall_forall] |].
      apply Forall_forall. intros w Hw. unfold not_below.
      apply elem_of_cons in Hw as [-> | Hw]; [by apply fltb_asym |].
      specialize (Hall w Hw). unfold not_below in Hall.
      destruct (fltb x.1 w.1) eqn:Hxw; [| done].
      by rewrite (fltb_trans z.1 x.1 w.1) in Hall.
    + constructor; [done |]. apply Forall_forall. intros w Hw.
      apply elem_of_insert_desc in Hw as [-> | Hw]; [done | by apply Hall].
Qed.

Lemma sort_desc_spec (l : list (float * hist_row)) :
  StronglySorted not_below (sort_desc l) ∧ ∀ x, x ∈ sort_desc l ↔ x ∈ l.
Proof.
  unfold sort_desc.
  assert (∀ acc, StronglySorted not_below acc →
            StronglySorted not_below (foldl (λ acc x, insert_desc x acc) acc l)
            ∧ ∀ x, x ∈ foldl (λ acc x, insert_desc x acc) acc l ↔ x ∈ acc ∨ x ∈ l)
    as Hgen.
  { induction l as [|y l IH]; intros acc Hacc; simpl.
    - split; [done |]. intros x. split; [by left | intros [H | H]; [done | inversion H]].
    - destruct (IH (insert_desc y acc) (insert_desc_sorted y acc Hacc)) as [Hs Hin].
      split; [done |]. intros x. rewrite Hin, elem_of_insert_desc, elem_of_cons. tauto. }
  destruct (Hgen [] ltac:(constructor)) as [Hs Hin]. split; [done |].
  intros x. rewrite Hin. split; [intros [H | H]; [inversion H | done] | by right].
Qed.

(** The first of the sorted candidates has the greatest score. *)
Lemma sort_desc_head (l : list (float * hist_row)) (best : float * hist_row)
    (rest : list (float * hist_row)) :
  sort_desc l = best :: rest →
  best ∈ l ∧ ∀ sc, sc ∈ l → fleb sc.1 best.1 = true.
Proof.
  intros Hsort. destruct (sort_desc_spec l) as [Hs Hin]. rewrite Hsort in Hs, Hin.
  split; [apply Hin; left |].
  intros sc Hsc. apply Hin, elem_of_cons in Hsc as [-> | Hsc]; [apply fleb_refl |].
  apply StronglySorted_inv in Hs as [_ Hall]. rewrite Forall_forall in Hall.
  rewrite fleb_spec. by rewrite (Hall sc Hsc).
Qed.

Lemma dedup_fold_grows (l : list (float * hist_row))
    (seen : list (string * string * option string)) (kept : list (float * hist_row)) :
  ∃ more, (foldl dedup_step (seen, kept) l).2 = kept ++ more.
Proof.
  revert seen kept. induction l as [|sc l IH]; intros seen kept.
  - exists []. simpl. by rewrite app_nil_r.
  - cbn [foldl]. unfold dedup_step at 2. destruct (decide _); [apply IH |].
    destruct (IH (seen ++ [(h_rfq_id sc.2, h_bidder sc.2, h_specification sc.2)])
                 (kept ++ [sc])) as [more ->].
    exists (sc :: more). by rewrite <- app_assoc.
Qed.

Lemma dedup_cons (sc : float * hist_row) (l : list (float * hist_row)) :
  ∃ more, dedup (sc :: l) = sc :: more.
Proof.
  unfold dedup. cbn [foldl]. unfold dedup_step at 2.
  destruct (decide _) as [Hin | _]; [inversion Hin |].
  apply (dedup_fold_grows l _ [sc]).
Qed.

End Estimates.

(** C9.  For a target item, the candidates retained are the historical
    bids of the same item type whose score is at least 0.25.  When none is
    retained the entry of the item has confidence NONE, no matches and no
    estimate: its four estimate fields are [None].  Otherwise the entry is
    built on the best retained score, a retained score that no retained
    score exceeds: the confidence is HIGH when it is at least 0.55, MEDIUM
    when it is at least 0.30 and LOW otherwise, and the unit estimates are
    there. *)
Theorem estimator_confidence_follows_best_retained_score :
  ∀ (F : PyFloat), PyFloatOrder F →
  ∀ (hist_bids : list hist_row) (titem : db_item),
    let hist := hist_by_type hist_bids in
    let kept := retained hist titem in
    (∀ s c, (s, c) ∈ kept ↔
       c ∈ hist_bids ∧ h_item_type c = db_item_type titem
       ∧ s = score_of (_tokenise_spec (default "" (db_specification titem)))
                      (norm_size (db_size titem)) c
       ∧ fleb (float_lit 25 2) s = true)
    ∧ (kept = [] →
       ∃ e, estimate_item hist titem = Some e
            ∧ est_confidence e = NONE ∧ est_matches e = []
            ∧ est_unit_min e = None ∧ est_unit_mean e = None
            ∧ est_unit_max e = None ∧ est_ext_mean e = None)
    ∧ (kept ≠ [] →
       ∃ e best,
         estimate_item hist titem = Some e
         ∧ best ∈ kept ∧ (∀ sc, sc ∈ kept → fleb sc.1 best.1 = true)
         ∧ est_confidence e =
             (if fleb (float_lit 55 2) best.1 then HIGH
              else if fleb (float_lit 30 2) best.1 then MEDIUM
              else LOW)
         ∧ is_Some (est_unit_min e) ∧ is_Some (est_unit_mean e)
         ∧ is_Some (est_unit_max e)).
Proof.
  intros F Hord hist_bids titem hist kept. split; [| split].
  - intros s c. unfold kept, retained, hist. rewrite elem_of_scored_of.
    rewrite hist_by_type_lookup, list_elem_of_In, filter_In, bool_decide_eq_true.
    rewrite <- list_elem_of_In. tauto.
  - intros Hkept. exists (no_estimate titem). unfold estimate_item. fold kept.
    rewrite Hkept. repeat split.
    by destruct (default [] (hist !! db_item_type titem)).
  - intros Hkept. unfold estimate_item. fold kept.
    destruct (default [] (hist !! db_item_type titem)) as [|c0 cs] eqn:Hcands.
    { exfalso. apply Hkept. unfold kept, retained. by rewrite Hcands. }
    destruct (sort_desc kept) as [|best rest] eqn:Hsort.
    { exfalso. destruct kept as [|sc kept']; [done |].
      destruct (sort_desc_spec (sc :: kept')) as [_ Hin].
      rewrite Hsort in Hin. specialize (Hin sc). rewrite elem_of_nil in Hin.
      apply Hin. left. }
    destruct (sort_desc_head kept best rest Hsort) as [Hbest Hmax].
    destruct (dedup_cons best rest) as [more ->]. cbn [map].
    eexists _, best. split; [done |]. cbn. repeat split; auto.
Qed.

Lemma estimator_confidence_witness :
  PyFloatOrder exact_float
  ∧ (let hist := hist_by_type history in
     let kept := retained hist target_pipe in
     (∀ s c, (s, c) ∈ kept ↔
        c ∈ history ∧ h_item_type c = db_item_type target_pipe
        ∧ s = score_of (_tokenise_spec (default "" (db_specification target_pipe)))
                       (norm_size (db_size target_pipe)) c
        ∧ fleb (float_lit 25 2) s = true)
     ∧ (kept = [] →
        ∃ e, estimate_item hist target_pipe = Some e
             ∧ est_confidence e = NONE ∧ est_matches e = []
             ∧ est_unit_min e = None ∧ est_unit_mean e = None
             ∧ est_unit_max e = None ∧ est_ext_mean e = None)
     ∧ (kept ≠ [] →
        ∃ e best,
          estimate_item hist target_pipe = Some e
          ∧ best ∈ kept ∧ (∀ sc, sc ∈ kept → fleb sc.1 best.1 = true)
          ∧ est_confidence e =
              (if fleb (float_lit 55 2) best.1 then HIGH
               else if fleb (float_lit 30 2) best.1 then MEDIUM
               else LOW)
          ∧ is_Some (est_unit_min e) ∧ is_Some (est_unit_mean e)
          ∧ is_Some (est_unit_max e))).
Proof.
  split; [exact exact_float_order |].
  exact (estimator_confidence_follows_best_retained_score
           exact_float exact_float_order history target_pipe).
Defined.

(** The estimate for the pipe: the close match scores 4/5 + 0.20, the
    other pipe 2/6, the valve is of another type; the weighted mean of the
    two unit prices is 13.375. *)
Example estimate_of_target_pipe :
  map (@est_confidence exact_float) <$> estimate_rfq [target_pipe] history
    = Some [HIGH]
  ∧ map (λ e : @estimate exact_float, map md_bidder (est_matches e))
      <$> estimate_rfq [target_pipe] history
    = Some [["SMP"; "EDGEN"]]
  ∧ map (λ e : @estimate exact_float, Qcanon.this <$> est_unit_mean e)
      <$> estimate_rfq [target_pipe] history
    = Some [Some (Qcanon.this (num 13375 3))]
  ∧ map (λ sc, Qcanon.this sc.1) (retained (hist_by_type history) target_pipe)
    = [QArith_base.Qmake 1 1; QArith_base.Qmake 1 3].
Proof. repeat split; vm_compute; reflexivity. Qed.
(** ** More on combinations *)

Lemma elem_of_combinations {A} (l : list A) (k : nat) (c : list A) :
  c ∈ combinations l k ↔ c `sublist_of` l ∧ length c = k.
Proof.
  split.
  - revert k c. induction l as [|x l IH]; intros [|k] c Hc; simpl in Hc.
    + apply list_elem_of_singleton in Hc as ->. split; [constructor | done].
    + inversion Hc.
    + apply list_elem_of_singleton in Hc as ->. split; [apply sublist_nil_l | done].
    + apply elem_of_app in Hc as [Hc | Hc].
      * apply list_elem_of_In, in_map_iff in Hc as (c' & <- & Hc').
        apply list_elem_of_In, IH in Hc' as [Hsub <-].
        split; [by apply sublist_skip | done].
      * apply IH in Hc as [Hsub Hlen]. split; [by apply sublist_cons | done].
  - intros [Hsub <-]. induction Hsub as [|x c l Hsub IH|x c l Hsub IH].
    + left.
    + simpl. apply elem_of_app. left. apply list_elem_of_In, in_map_iff.
      exists c. by rewrite <- list_elem_of_In.
    + destruct c as [|y c]; simpl.
      * left.
      * apply elem_of_app. by right.
Qed.

Lemma length_combinations {A} (l : list A) (k : nat) :
  length (combinations l k) = choose (length l) k.
Proof.
  revert k. induction l as [|x l IH]; intros [|k]; simpl; try done.
  by rewrite length_app, length_map, !IH.
Qed.

Lemma NoDup_combinations {A} (l : list A) (k : nat) :
  NoDup l → NoDup (combinations l k).
Proof.
  intros Hl. revert k. induction Hl as [|x l Hx Hl IH]; intros [|k]; simpl.
  - apply NoDup_singleton.
  - constructor.
  - apply NoDup_singleton.
  - apply NoDup_app. repeat split.
    + apply (NoDup_fmap_2 (cons x)), IH.
    + intros c Hc1 Hc2. apply list_elem_of_In, in_map_iff in Hc1 as (c' & <- & _).
      apply combinations_head in Hc2 as (y & c'' & [= <- <-] & Hy). done.
    + apply IH.
Qed.

(** ** The results of [subset_enum]: shape, coverage and awards *)

Section Results.
Context {F : PyFloat}.

Lemma eval_fold_counts (item_costs : gmap nat (gmap string float))
    (bidder_seq : list string) (ids : list nat) (t : float) (n : nat) (u : list nat) :
  (foldl (eval_step item_costs bidder_seq) (t, n, u) ids).1.2
  + length (foldl (eval_step item_costs bidder_seq) (t, n, u) ids).2
  = n + length u + length ids.
Proof.
  revert t n u. induction ids as [|iid ids IH]; intros t n u.
  - simpl. lia.
  - cbn [foldl]. rewrite eval_step_item_min.
    destruct (item_min item_costs iid bidder_seq); rewrite IH; simpl;
      rewrite ?length_app; simpl; lia.
Qed.

Lemma best_fold_taken (set_iter : list string → list string)
    (item_costs : gmap nat (gmap string float)) (item_ids : list nat)
    (combos : list (list string)) (c0 : list string) :
  ∃ c, c ∈ c0 :: combos
       ∧ foldl (best_step set_iter item_costs item_ids)
               (state_of set_iter item_costs item_ids c0) combos
         = state_of set_iter item_costs item_ids c.
Proof.
  revert c0. induction combos as [|x t IH]; intros c0.
  - exists c0. split; [left | done].
  - cbn [foldl]. rewrite best_step_unfold. cbn [state_of best_cost].
    destruct (fltb _ _).
    + destruct (IH x) as (c & Hc & ->). exists c. split; [by right | done].
    + destruct (IH c0) as (c & Hc & ->). exists c. split; [| done].
      apply elem_of_cons in Hc as [-> | Hc]; [left | right; by right].
Qed.

Lemma best_of_k_taken (set_iter : list string → list string)
    (item_costs : gmap nat (gmap string float)) (item_ids : list nat)
    (all_bidders : list string) (k : nat) :
  k ≤ length all_bidders →
  ∃ c, c ∈ combinations all_bidders k
       ∧ best_of_k set_iter item_costs item_ids all_bidders k
         = state_of set_iter item_costs item_ids c.
Proof.
  intros Hk. unfold best_of_k.
  pose proof (combinations_nonempty all_bidders k Hk) as Hne.
  destruct (combinations all_bidders k) as [|x t]; [done |].
  cbn [foldl]. rewrite best_step_unfold. cbn [best_init best_cost].
  apply best_fold_taken.
Qed.

Lemma size_fold_fields (set_iter : list string → list string)
    (item_costs : gmap nat (gmap string float)) (item_ids : list nat)
    (all_bidders : list string) (items : list db_item) (ks : list nat)
    (results0 : list size_result) (baseline0 : option float) :
  ∃ new,
    (foldl (size_step set_iter item_costs item_ids all_bidders items)
           (results0, baseline0) ks).1 = results0 ++ new
    ∧ length new = length ks
    ∧ ∀ j r, new !! j = Some r →
        ∃ k, ks !! j = Some k ∧ res_k r = k
             ∧ let b := best_of_k set_iter item_costs item_ids all_bidders k in
               res_best_subset r = best_subset b
               ∧ res_items_covered r = best_covered b
               ∧ res_items_total r = length item_ids
               ∧ res_uncovered_count r = length (best_uncovered b)
               ∧ res_per_item r
                 = map (award_of item_costs (default [] (best_subset b))) items.
Proof.
  revert results0 baseline0. induction ks as [|k ks IH]; intros results0 baseline0.
  - exists []. simpl. rewrite app_nil_r. repeat split; auto.
    intros j r Hj. discriminate.
  - cbn [foldl]. unfold size_step at 2.
    match goal with
    | |- context [foldl _ (?res ++ [?r], ?b) ks] =>
        destruct (IH (res ++ [r]) b) as (new & Heq & Hlen & Hnew);
        exists (r :: new)
    end.
    rewrite Heq, <- app_assoc. repeat split; simpl; auto.
    intros [|j] r' Hj; simpl in Hj.
    + injection Hj as <-. by exists k.
    + by apply Hnew.
Qed.

Lemma covers_iter (set_iter : list string → list string)
    (item_costs : gmap nat (gmap string float)) (combo : list string) (iid : nat) :
  iterates_elements set_iter →
  covers item_costs (set_iter combo) iid = covers item_costs combo iid.
Proof.
  intros Hit. unfold covers, item_min, list_min.
  destruct (map snd (costs_here item_costs iid (set_iter combo))) as [|v vs] eqn:H1;
    destruct (map snd (costs_here item_costs iid combo)) as [|w ws] eqn:H2; try done.
  - assert (w ∈ map snd (costs_here item_costs iid (set_iter combo))) as Hw.
    { apply elem_of_quotes.
      assert (w ∈ map snd (costs_here item_costs iid combo)) as Hw'
        by (rewrite H2; left).
      apply elem_of_quotes in Hw' as (bd & Hbd & Hq). exists bd.
      split; [by apply Hit | done]. }
    rewrite H1 in Hw. inversion Hw.
  - assert (v ∈ map snd (costs_here item_costs iid combo)) as Hv.
    { apply elem_of_quotes.
      assert (v ∈ map snd (costs_here item_costs iid (set_iter combo))) as Hv'
        by (rewrite H1; left).
      apply elem_of_quotes in Hv' as (bd & Hbd & Hq). exists bd.
      split; [by apply Hit | done]. }
    rewrite H2 in Hv. inversion Hv.
Qed.

Lemma award_covered_covers (item_costs : gmap nat (gmap string float))
    (subset : list string) (it : db_item) :
  award_covered (award_of item_costs subset it) = covers item_costs subset (db_id it).
Proof.
  unfold award_of, covers, item_min, list_min.
  by destruct (costs_here item_costs (db_id it) subset).
Qed.

End Results.

(** Every result of [subset_enum], the one for size [k = i + 1] at index
    [i], names a best subset of exactly [k] bidders taken from the sorted
    bidder list in its order; its covered and uncovered counts add up to the
    number of items; and its breakdown has one entry per item, in the order
    of the items, of which as many are marked covered as the result counts
    as covered. *)
Theorem subset_enum_results_are_well_formed :
  ∀ (F : PyFloat) (set_iter : list string → list string)
    (items : list db_item) (bids : list bid_row)
    (all : list string) (results : list size_result),
    iterates_elements set_iter →
    subset_enum set_iter items bids = Some (all, results) →
    all = all_bidders_of bids
    ∧ length results = length all
    ∧ ∀ i r, results !! i = Some r →
        res_k r = S i
        ∧ (∃ c, res_best_subset r = Some c ∧ c `sublist_of` all ∧ length c = S i)
        ∧ res_items_total r = length items
        ∧ res_items_covered r + res_uncovered_count r = length items
        ∧ map award_item (res_per_item r) = items
        ∧ length (List.filter award_covered (res_per_item r)) = res_items_covered r.
Proof.
  intros F set_iter items bids all results Hit Henum.
  apply subset_enum_Some in Henum as [-> ->].
  destruct (size_fold_fields set_iter (build_item_costs bids) (map db_id items)
              (all_bidders_of bids) items (seq 1 (length (all_bidders_of bids))) [] None)
    as (new & Heq & Hlen & Hnew).
  rewrite Heq. simpl app. rewrite length_seq in Hlen.
  split; [done |]. split; [done |].
  intros i r Hi.
  destruct (Hnew i r Hi) as (k & Hk & Hrk & Hsub & Hcov & Htot & Hunc & Hper).
  apply lookup_seq in Hk as [-> Hlt]. change (1 + i) with (S i) in *.
  destruct (best_of_k_taken set_iter (build_item_costs bids) (map db_id items)
              (all_bidders_of bids) (S i) ltac:(lia)) as (c & Hc & Hbest).
  rewrite Hbest in *. cbn [state_of best_subset best_covered best_uncovered] in *.
  apply elem_of_combinations in Hc as [Hcsub Hclen].
  split; [done |]. split; [by exists c |].
  rewrite length_map in Htot. split; [done |]. split.
  - rewrite Hcov, Hunc. unfold subset_covered, eval_subset.
    rewrite eval_fold_counts. simpl. by rewrite length_map.
  - rewrite Hper. split.
    + rewrite map_map. simpl. clear. induction items as [|it its IH]; simpl; [done |].
      f_equal; [| done]. unfold award_of. by destruct (costs_here _ _ _).
    + rewrite Hcov. unfold subset_covered, eval_subset.
      rewrite eval_fold_covered. simpl. clear -Hit.
      induction items as [|it its IH]; simpl; [done |].
      rewrite award_covered_covers, (covers_iter set_iter) by done.
      destruct (covers _ _ _); simpl; by rewrite IH.
Qed.

Lemma subset_enum_results_witness :
  iterates_elements reversed
  ∧ ∃ all results,
      subset_enum reversed two_items disjoint_bids = Some (all, results)
      ∧ all = all_bidders_of disjoint_bids
      ∧ length results = length all
      ∧ ∀ i r, results !! i = Some r →
          res_k r = S i
          ∧ (∃ c, res_best_subset r = Some c ∧ c `sublist_of` all ∧ length c = S i)
          ∧ res_items_total r = length two_items
          ∧ res_items_covered r + res_uncovered_count r = length two_items
          ∧ map award_item (res_per_item r) = two_items
          ∧ length (List.filter award_covered (res_per_item r)) = res_items_covered r.
Proof.
  split; [exact reversed_iterates |].
  do 2 eexists. split; [reflexivity |].
  apply (subset_enum_results_are_well_formed exact_float reversed two_items
           disjoint_bids _ _ reversed_iterates).
  reflexivity.
Defined.

(** ** The per-item award *)

Section Awards.
Context {F : PyFloat} {Hord : PyFloatOrder F}.

(** A fold that keeps the running strict minimum of a key ends on the
    first element of least key. *)
Lemma fold_first_min {A} (key : A → float) (l : list A) (x : A) :
  let m := foldl (λ m y, if fltb (key y) (key m) then y else m) x l in
  ∃ i, (x :: l) !! i = Some m
       ∧ (∀ y, y ∈ x :: l → fltb (key y) (key m) = false)
       ∧ (∀ j y, j < i → (x :: l) !! j = Some y → fltb (key m) (key y) = true).
Proof.
  revert x. induction l as [|z l IH]; intros x; cbn zeta.
  - exists 0. repeat split; auto.
    + intros y Hy. apply list_elem_of_singleton in Hy as ->. apply fltb_irrefl.
    + intros j y Hj. lia.
  - cbn [foldl]. destruct (fltb (key z) (key x)) eqn:Hzx.
    + destruct (IH z) as (i & Hi & Hall & Hmin). cbn zeta in *.
      set (m := foldl _ z l) in *.
      exists (S i). repeat split; auto.
      * intros y Hy. apply elem_of_cons in Hy as [-> | Hy]; auto.
        apply fltb_asym. apply (fle_lt_trans _ (key z)); [| done].
        apply Hall. left.
      * intros [|j] y Hj Hy; simpl in Hy.
        -- injection Hy as <-. apply (fle_lt_trans _ (key z)); [| done].
           apply Hall. left.
        -- apply (Hmin j); [lia | done].
    + destruct (IH x) as (i & Hi & Hall & Hmin). cbn zeta in *.
      set (m := foldl _ x l) in *.
      destruct i as [|i].
      * injection Hi as Hm. exists 0. repeat split; auto.
        -- simpl. by rewrite <- Hm.
        -- intros y Hy. apply elem_of_cons in Hy as [-> | Hy]; [apply Hall; left |].
           apply elem_of_cons in Hy as [-> | Hy]; [by rewrite <- Hm |].
           apply Hall. by right.
        -- intros j y Hj. lia.
      * exists (S (S i)). repeat split; auto.
        -- intros y Hy. apply elem_of_cons in Hy as [-> | Hy]; [apply Hall; left |].
           apply elem_of_cons in Hy as [-> | Hy].
           ++ apply fltb_asym. apply (fltb_le_trans _ (key x)); [| done].
              apply (Hmin 0); [lia | done].
           ++ apply Hall. by right.
        -- intros [|[|j]] y Hj Hy; simpl in Hy.
           ++ injection Hy as <-. apply (Hmin 0); [lia | done].
           ++ injection Hy as <-. apply (fltb_le_trans _ (key x)); [| done].
              apply (Hmin 0); [lia | done].
           ++ apply (Hmin (S j)); [lia | done].
Qed.

Lemma elem_of_costs_here (item_costs : gmap nat (gmap string float)) (iid : nat)
    (bidder_seq : list string) (bd : string) (v : float) :
  (bd, v) ∈ costs_here item_costs iid bidder_seq ↔
  bd ∈ bidder_seq ∧ quote item_costs iid bd = Some v.
Proof.
  unfold costs_here. rewrite list_elem_of_omap. split.
  - intros (bd' & Hbd & Hq).
    destruct (quote item_costs iid bd') as [q|] eqn:Hquote; [| discriminate].
    injection Hq as <- <-. done.
  - intros [Hbd Hq]. exists bd. by rewrite Hq.
Qed.

Lemma costs_here_app (item_costs : gmap nat (gmap string float)) (iid : nat)
    (s1 s2 : list string) :
  costs_here item_costs iid (s1 ++ s2)
  = costs_here item_costs iid s1 ++ costs_here item_costs iid s2.
Proof. unfold costs_here. apply omap_app. Qed.

End Awards.

(** The breakdown entry of an item for a subset of bidders without
    repetition, as the best subsets are.  When no bidder of the subset quotes
    the item the entry is uncovered, with no winner, no cost and no quotes.
    Otherwise the winner is a bidder of the subset who quotes the item, the
    awarded cost is that quote rounded to four places, no bidder of the
    subset quotes less, and every bidder before the winner in the subset
    quotes strictly more: of two bidders with the same least quote the one
    first in name order wins. *)
Theorem award_goes_to_first_cheapest_bidder :
  ∀ (F : PyFloat) (Hord : PyFloatOrder F)
    (item_costs : gmap nat (gmap string float)) (subset : list string) (it : db_item),
    NoDup subset →
    let a := award_of item_costs subset it in
    award_item a = it
    ∧ map fst (all_quotes a) = map fst (costs_here item_costs (db_id it) subset)
    ∧ match awarded_to a with
      | None =>
          award_covered a = false ∧ awarded_cost a = None ∧ all_quotes a = []
          ∧ ∀ bd, bd ∈ subset → quote item_costs (db_id it) bd = None
      | Some w =>
          award_covered a = true ∧ w ∈ subset
          ∧ ∃ cost,
              quote item_costs (db_id it) w = Some cost
              ∧ awarded_cost a = Some (fround 4 cost)
              ∧ (w, fround 4 cost) ∈ all_quotes a
              ∧ (∀ bd c, bd ∈ subset → quote item_costs (db_id it) bd = Some c →
                         fleb cost c = true)
              ∧ (∀ pre post bd c, subset = pre ++ w :: post → bd ∈ pre →
                         quote item_costs (db_id it) bd = Some c → fltb cost c = true)
      end.
Proof.
  intros F Hord item_costs subset it Hnd a. subst a. unfold award_of.
  destruct (costs_here item_costs (db_id it) subset) as [|q qs] eqn:Hcosts.
  - cbn. repeat split; auto.
    intros bd Hbd. destruct (quote item_costs (db_id it) bd) as [v|] eqn:Hq; [| done].
    assert ((bd, v) ∈ costs_here item_costs (db_id it) subset) as Hin
      by by apply elem_of_costs_here.
    rewrite Hcosts in Hin. inversion Hin.
  - cbn [award_item awarded_to awarded_cost all_quotes award_covered].
    split; [done |]. split.
    { rewrite map_map. by apply map_ext. }
    unfold first_cheapest.
    destruct (fold_first_min snd qs q) as (i & Hi & Hall & Hmin). cbn zeta in *.
    set (m := foldl _ q qs) in *.
    assert (m ∈ costs_here item_costs (db_id it) subset) as Hm.
    { rewrite Hcosts. by eapply list_elem_of_lookup_2. }
    destruct m as [w cost] eqn:Hmw. apply elem_of_costs_here in Hm as [Hw Hq].
    split; [done |]. split; [done |]. exists cost.
    split; [done |]. split; [done |]. split; [| split].
    + apply list_elem_of_In. apply (in_map (λ p, (p.1, fround 4 p.2)) _ (w, cost)).
      apply list_elem_of_In. by eapply list_elem_of_lookup_2.
    + intros bd c Hbd Hc. rewrite fleb_spec. apply negb_true_iff.
      apply (Hall (bd, c)). rewrite <- Hcosts. by apply elem_of_costs_here.
    + intros pre post bd c Hsub Hbd Hc.
      assert (w ∉ pre) as Hpre.
      { rewrite Hsub in Hnd. apply NoDup_app in Hnd as (_ & Hdisj & _).
        intros Hin. apply (Hdisj w Hin). left. }
      assert ((bd, c) ∈ costs_here item_costs (db_id it) pre) as Hin
        by by apply elem_of_costs_here.
      apply list_elem_of_lookup in Hin as [j Hj].
      rewrite <- Hcosts, Hsub, costs_here_app in Hi, Hmin.
      destruct (decide (i < length (costs_here item_costs (db_id it) pre))) as [Hlt | Hge].
      * rewrite lookup_app_l in Hi by done.
        apply list_elem_of_lookup_2, elem_of_costs_here in Hi as [Hw' _]. done.
      * apply (Hmin j (bd, c)).
        -- apply lookup_lt_Some in Hj. lia.
        -- rewrite lookup_app_l; [done |]. by apply lookup_lt_Some in Hj.
Qed.

Lemma award_goes_to_first_cheapest_witness :
  PyFloatOrder exact_float
  ∧ NoDup ["A"; "B"]
  ∧ (let item_costs := build_item_costs full_bids in
     let subset := ["A"; "B"] in
     let it := plain_item 1 "1" in
     let a := award_of item_costs subset it in
     award_item a = it
     ∧ map fst (all_quotes a) = map fst (costs_here item_costs (db_id it) subset)
     ∧ match awarded_to a with
       | None =>
           award_covered a = false ∧ awarded_cost a = None ∧ all_quotes a = []
           ∧ ∀ bd, bd ∈ subset → quote item_costs (db_id it) bd = None
       | Some w =>
           award_covered a = true ∧ w ∈ subset
           ∧ ∃ cost,
               quote item_costs (db_id it) w = Some cost
               ∧ awarded_cost a = Some (fround 4 cost)
               ∧ (w, fround 4 cost) ∈ all_quotes a
               ∧ (∀ bd c, bd ∈ subset → quote item_costs (db_id it) bd = Some c →
                          fleb cost c = true)
               ∧ (∀ pre post bd c, subset = pre ++ w :: post → bd ∈ pre →
                          quote item_costs (db_id it) bd = Some c → fltb cost c = true)
       end).
Proof.
  assert (NoDup ["A"; "B"]) as Hnd.
  { apply (bool_decide_unpack (NoDup ["A"; "B"])). vm_compute. exact I. }
  split; [exact exact_float_order |]. split; [exact Hnd |].
  exact (award_goes_to_first_cheapest_bidder exact_float exact_float_order
           (build_item_costs full_bids) ["A"; "B"] (plain_item 1 "1") Hnd).
Defined.

(** ** The cost table *)

Section CostTable.
Context {F : PyFloat} {Hord : PyFloatOrder F}.

Lemma cost_step_quote (item_costs : gmap nat (gmap string float)) (b : bid_row)
    (iid : nat) (bd : string) :
  quote (cost_step item_costs b) iid bd =
  if decide (iid = b_item_id b ∧ bd = b_bidder b)
  then match effective_cost b with
       | Some cost => if fleb (float_of_Z 0) cost then Some cost
                      else quote item_costs iid bd
       | None => quote item_costs iid bd
       end
  else quote item_costs iid bd.
Proof.
  unfold quote, cost_step. cbn zeta.
  destruct (decide (iid = b_item_id b)) as [-> | Hne].
  - assert (∀ m, <[b_item_id b := m]> item_costs !! b_item_id b = Some m) as Hins
      by (intros m; apply lookup_insert_eq).
    assert (default ∅ (item_costs !! b_item_id b) !! bd
            = match item_costs !! b_item_id b with Some m => m !! bd | None => None end)
      as Hdef by (destruct (item_costs !! b_item_id b); [done | apply lookup_empty]).
    destruct (decide (bd = b_bidder b)) as [-> | Hbd].
    + rewrite decide_True by done.
      destruct (effective_cost b) as [cost|]; [destruct (fleb _ cost) |];
        rewrite Hins, ?lookup_insert_eq, ?Hdef; done.
    + rewrite decide_False by (intros [_ ?]; done).
      destruct (effective_cost b) as [cost|]; [destruct (fleb _ cost) |];
        rewrite Hins, ?lookup_insert_ne, ?Hdef by done; done.
  - rewrite decide_False by (intros [? _]; done).
    destruct (effective_cost b) as [cost|]; [destruct (fleb _ cost) |];
      rewrite lookup_insert_ne by done; done.
Qed.

Lemma build_item_costs_snoc (bids : list bid_row) (b : bid_row) :
  build_item_costs (bids ++ [b]) = cost_step (build_item_costs bids) b.
Proof. unfold build_item_costs. by rewrite foldl_app. Qed.

Lemma build_item_costs_quote (bids : list bid_row) (iid : nat) (bd : string) :
  quote (build_item_costs bids) iid bd = last (omap (sets_cost iid bd) bids).
Proof.
  induction bids as [|b bids IH] using rev_ind; [done |].
  rewrite build_item_costs_snoc, cost_step_quote, omap_app, IH.
  generalize (omap (sets_cost iid bd) bids). intros l.
  unfold sets_cost. simpl. destruct (decide _) as [Heq | Hne].
  - destruct (effective_cost b) as [cost|]; [destruct (fleb _ cost) |];
      rewrite ?last_snoc, ?app_nil_r; done.
  - by rewrite app_nil_r.
Qed.

End CostTable.

Lemma elem_of_sorted_set (S : gset string) (x : string) : x ∈ sorted_set S ↔ x ∈ S.
Proof. unfold sorted_set. by rewrite merge_sort_Permutation, elem_of_elements. Qed.

Lemma elem_of_all_bidders_of {F : PyFloat} (bids : list bid_row) (bd : string) :
  bd ∈ all_bidders_of bids ↔ ∃ b, b ∈ bids ∧ b_bidder b = bd.
Proof.
  unfold all_bidders_of. rewrite elem_of_sorted_set, elem_of_list_to_set.
  rewrite list_elem_of_In, in_map_iff. split.
  - intros (b & Hb & Hin). exists b. by rewrite list_elem_of_In.
  - intros (b & Hin & Hb). exists b. by rewrite <- list_elem_of_In.
Qed.

Lemma sets_cost_Some {F : PyFloat} (iid : nat) (bd : string) (b : bid_row) (c : float) :
  sets_cost iid bd b = Some c ↔
  b_item_id b = iid ∧ b_bidder b = bd ∧ effective_cost b = Some c
  ∧ fleb (float_of_Z 0) c = true.
Proof.
  unfold sets_cost. destruct (decide _) as [[-> ->] | Hne].
  - destruct (effective_cost b) as [cost|].
    + destruct (fleb (float_of_Z 0) cost) eqn:Hle.
      * split; [intros [= <-]; done | intros (_ & _ & [= <-] & _); done].
      * split; [done | intros (_ & _ & [= <-] & ?); congruence].
    + split; [done | intros (_ & _ & ? & _); done].
  - split; [done |]. intros (<- & <- & _). by destruct Hne.
Qed.

(** The cost table built in step 3 of [subset_enum] holds, for an item and
    a bidder, the cost of the last bid row of that item and bidder whose
    effective cost exists and is not negative, and nothing when there is no
    such row.  So a cost in the table is never negative, it is the
    effective cost of a row of the bids, and its bidder is one of
    [all_bidders]. *)
Theorem cost_table_holds_last_valid_cost :
  ∀ (F : PyFloat) (bids : list bid_row) (iid : nat) (bd : string),
    quote (build_item_costs bids) iid bd = last (omap (sets_cost iid bd) bids)
    ∧ ∀ c, quote (build_item_costs bids) iid bd = Some c →
        fleb (float_of_Z 0) c = true
        ∧ bd ∈ all_bidders_of bids
        ∧ ∃ b, b ∈ bids ∧ b_item_id b = iid ∧ b_bidder b = bd
               ∧ effective_cost b = Some c.
Proof.
  intros F bids iid bd. split; [apply build_item_costs_quote |].
  intros c. rewrite build_item_costs_quote. intros Hlast.
  assert (c ∈ omap (sets_cost iid bd) bids) as Hin.
  { apply last_Some in Hlast as [l' ->]. apply elem_of_app. right. left. }
  apply list_elem_of_omap in Hin as (b & Hb & Hs).
  apply sets_cost_Some in Hs as (Hi & Hbd & He & Hle).
  split; [done |]. split.
  - apply elem_of_all_bidders_of. by exists b.
  - by exists b.
Qed.

(** The bidders that [subset_enum] enumerates are the bidders of the bid
    rows, each once, and the loop for size [k] tries every choice of [k] of
    them exactly once, in their order: [choose n k] subsets for [n]
    bidders. *)
Theorem every_subset_of_k_bidders_is_tried_once :
  ∀ (F : PyFloat) (bids : list bid_row) (k : nat),
    let all_bidders := all_bidders_of bids in
    (∀ bd, bd ∈ all_bidders ↔ ∃ b, b ∈ bids ∧ b_bidder b = bd)
    ∧ NoDup all_bidders
    ∧ (∀ c, c ∈ combinations all_bidders k ↔
            c `sublist_of` all_bidders ∧ length c = k)
    ∧ NoDup (combinations all_bidders k)
    ∧ length (combinations all_bidders k) = choose (length all_bidders) k.
Proof.
  intros F bids k all_bidders. subst all_bidders.
  assert (NoDup (all_bidders_of bids)) as Hnd.
  { unfold all_bidders_of, sorted_set. rewrite merge_sort_Permutation.
    apply NoDup_elements. }
  split; [apply elem_of_all_bidders_of |]. split; [done |].
  split; [intros c; apply elem_of_combinations |].
  split; [by apply NoDup_combinations | apply length_combinations].
Qed.

(** ** The column maps of the two header formats *)

Lemma last_omap_snoc {A B} (g : A → option B) (l : list A) (c : A) :
  last (omap g (l ++ [c])) = match g c with Some y => Some y | None => last (omap g l) end.
Proof.
  rewrite omap_app. simpl. destruct (g c) as [y|].
  - apply last_snoc.
  - by rewrite app_nil_r.
Qed.

Lemma rfq_get_set (k k' : rfq_key) (i : nat) (m : rfq_cols) :
  rfq_get k (rfq_set k' i m) = if decide (k = k') then Some i else rfq_get k m.
Proof. by destruct k, k'. Qed.

Section ColumnMaps.
Context {F : PyFloat}.

Lemma rfq_role_key (h : pyval) (i : nat) (m : rfq_cols) :
  rfq_role h i m = (λ k, rfq_set k i m) <$> rfq_key_of h.
Proof.
  unfold rfq_role, rfq_key_of.
  repeat match goal with
         | |- context [if ?b then _ else _] => destruct b; [done |]
         end.
  done.
Qed.

Lemma format_b_step_unfold (m : rfq_cols) (bm : gmap string bidder_cols)
    (i : nat) (h : pyval) :
  format_b_step (m, bm) (i, h) =
  match compound_cell h with
  | Some (b, g) => (m, bidder_map_set b g i bm)
  | None =>
      (match (if is_none h then None else rfq_key_of h) with
       | Some k => rfq_set k i m
       | None => m
       end, bm)
  end.
Proof.
  unfold format_b_step, compound_cell. rewrite rfq_role_key.
  destruct (is_none h); [done |].
  destruct (match_compound _) as [[b|] [g|]]; try (by destruct (rfq_key_of h)).
  destruct (PyStr.nonempty b); [done | by destruct (rfq_key_of h)].
Qed.

Lemma bidder_map_set_get (name b : string) (f g : price_field) (i : nat)
    (bm : gmap string bidder_cols) :
  (bidder_map_set b g i bm !! name) ≫= cols_get f =
  if decide (b = name ∧ g = f) then Some i else (bm !! name) ≫= cols_get f.
Proof.
  unfold bidder_map_set. destruct (decide (b = name)) as [-> | Hb].
  - rewrite lookup_insert_eq. simpl. destruct (decide (g = f)) as [-> | Hg].
    + rewrite decide_True by done. apply cols_get_set_same.
    + rewrite decide_False by (intros [_ ?]; done).
      rewrite cols_get_set_other by done.
      destruct (bm !! name); [done | apply cols_get_empty].
  - rewrite lookup_insert_ne by done.
    by rewrite decide_False by (intros [? _]; done).
Qed.

Lemma format_b_fold (cs : list (nat * pyval)) (name : string) (f : price_field)
    (k : rfq_key) :
  let r := foldl format_b_step (rfq_empty, ∅) cs in
  (r.2 !! name) ≫= cols_get f = last (omap (compound_col name f) cs)
  ∧ rfq_get k r.1 = last (omap (rfq_col_b k) cs)
  ∧ map_Forall (λ n cols, PyStr.nonempty n = true
                          ∧ ∃ g, is_Some (cols_get g cols)) r.2.
Proof.
  induction cs as [|[i h] cs IH] using rev_ind; cbn zeta.
  - simpl. split; [| split]; [done | by destruct k | apply map_Forall_empty].
  - rewrite foldl_app. cbn [foldl].
    destruct (foldl format_b_step (rfq_empty, ∅) cs) as [m bm].
    destruct IH as (IHb & IHr & IHn). simpl in IHb, IHr, IHn.
    rewrite format_b_step_unfold, !last_omap_snoc.
    unfold compound_col at 1, rfq_col_b at 1. cbn [fst snd].
    destruct (compound_cell h) as [[b g]|] eqn:Hcell.
    + cbn [fst snd]. rewrite bidder_map_set_get, IHb, IHr.
      split; [by destruct (decide _) |].
      split; [by destruct (is_none h) |].
      unfold bidder_map_set. apply map_Forall_insert_2; [| done]. split.
      * unfold compound_cell in Hcell. destruct (is_none h); [done |].
        destruct (match_compound _) as [[b'|] [g'|]]; try done.
        destruct (PyStr.nonempty b') eqn:Hne; [| done]. by injection Hcell as <- <-.
      * exists g. rewrite cols_get_set_same. by eexists.
    + cbn [fst snd]. split; [done |]. split; [| done].
      destruct (is_none h); [done |].
      destruct (rfq_key_of h) as [k'|].
      * rewrite rfq_get_set, IHr. destruct (decide (k = k')) as [-> | Hk].
        -- by rewrite decide_True.
        -- rewrite decide_False; [done |]. intros [= <-]. done.
      * rewrite decide_False by done. done.
Qed.

Lemma format_ac_step_unfold (m : rfq_cols) (acc : list (nat * price_field))
    (i : nat) (h : pyval) :
  (format_ac_step (m, acc) (i, h)).1 =
  match (if is_none h then None else rfq_key_of h) with
  | Some k => rfq_set k i m
  | None => m
  end.
Proof.
  unfold format_ac_step. rewrite rfq_role_key.
  destruct (is_none h); [done |].
  destruct (rfq_key_of h); simpl; [done |].
  repeat match goal with
         | |- context [if ?b then _ else _] => destruct b; [done |]
         end.
  done.
Qed.

Lemma format_ac_fold (cs : list (nat * pyval)) (k : rfq_key) :
  rfq_get k (foldl format_ac_step (rfq_empty, []) cs).1 = last (omap (rfq_col_ac k) cs).
Proof.
  induction cs as [|[i h] cs IH] using rev_ind.
  - by destruct k.
  - rewrite foldl_app. cbn [foldl].
    destruct (foldl format_ac_step (rfq_empty, []) cs) as [m acc]. simpl in IH.
    rewrite format_ac_step_unfold, last_omap_snoc. unfold rfq_col_ac at 1. cbn [fst snd].
    destruct (is_none h); [done |].
    destruct (rfq_key_of h) as [k'|].
    + rewrite rfq_get_set, IH. destruct (decide (k = k')) as [-> | Hk].
      * by rewrite decide_True.
      * rewrite decide_False; [done |]. intros [= <-]. done.
    + by rewrite decide_False.
Qed.

End ColumnMaps.

(** In a compound header (format B) the price column [f] of a bidder is the
    last header cell that reads as that bidder and field, every RFQ column is
    the last header cell of its synonyms that is no compound price cell,
    and every bidder of the map has a name that is not empty and one column
    at least. *)
Theorem format_b_maps_hold_the_last_matching_columns :
  ∀ (F : PyFloat) (header_cols : list pyval) (name : string) (f : price_field)
    (k : rfq_key),
    let '(rfq_map, bidder_map) := _parse_format_b header_cols in
    (bidder_map !! name) ≫= cols_get f
      = last (omap (compound_col name f) (enumerate header_cols))
    ∧ rfq_get k rfq_map = last (omap (rfq_col_b k) (enumerate header_cols))
    ∧ map_Forall (λ n cols, PyStr.nonempty n = true
                            ∧ ∃ g, is_Some (cols_get g cols)) bidder_map.
Proof.
  intros F header_cols name f k. unfold _parse_format_b.
  pose proof (format_b_fold (enumerate header_cols) name f k) as H. cbn zeta in H.
  by destruct (foldl format_b_step (rfq_empty, ∅) (enumerate header_cols)).
Qed.

(** In formats A and C every RFQ column of the map is the last header cell
    of its synonyms: a later duplicate of a header replaces the earlier
    one. *)
Theorem format_ac_rfq_columns_are_the_last_matching :
  ∀ (F : PyFloat) (rows : list (list pyval)) (header_idx : nat)
    (header_cols : list pyval) (k : rfq_key),
    rfq_get k (_parse_format_ac rows header_idx header_cols).1
    = last (omap (rfq_col_ac k) (enumerate header_cols)).
Proof.
  intros F rows header_idx header_cols k. unfold _parse_format_ac, header_roles.
  pose proof (format_ac_fold (enumerate header_cols) k) as H.
  by destruct (foldl format_ac_step (rfq_empty, []) (enumerate header_cols)).
Qed.

(** ** The row of bidder names *)

Section NamesRow.
Context {F : PyFloat} {Hord : PyFloatOrder F}.

Lemma names_step_unfold (st : gmap nat string * float) (row : list pyval) :
  names_step st row =
  if qualifies row && fltb st.2 (row_score row)
  then (row_candidates row, row_score row) else st.
Proof.
  destruct st as [best sc]. unfold names_step, qualifies, row_score. cbn zeta.
  destruct (2 <=? size (row_candidates row)); [| done]. simpl.
  by destruct (fltb sc _).
Qed.

Lemma names_fold (rows : list (list pyval)) (st : gmap nat string * float) :
  (foldl names_step st rows = st
   ∧ ∀ row, row ∈ rows → qualifies row = true → fltb st.2 (row_score row) = false)
  ∨ (∃ i row, rows !! i = Some row ∧ qualifies row = true
       ∧ foldl names_step st rows = (row_candidates row, row_score row)
       ∧ fltb st.2 (row_score row) = true
       ∧ (∀ row', row' ∈ rows → qualifies row' = true →
            fltb (row_score row) (row_score row') = false)
       ∧ (∀ j row', j < i → rows !! j = Some row' → qualifies row' = true →
            fltb (row_score row') (row_score row) = true)).
Proof.
  revert st. induction rows as [|x t IH]; intros st.
  - left. split; [done |]. intros row Hrow. inversion Hrow.
  - cbn [foldl]. rewrite names_step_unfold.
    destruct (qualifies x) eqn:Hq; simpl.
    + destruct (fltb st.2 (row_score x)) eqn:Hx.
      * destruct (IH (row_candidates x, row_score x))
          as [[Heq Hall] | (i & c & Hi & Hqc & Heq & Hlt & Hall & Hmin)];
          simpl in *.
        -- right. exists 0, x. repeat split; auto.
           ++ intros row' Hrow' Hq'. apply elem_of_cons in Hrow' as [-> | Hrow']; auto.
              apply fltb_irrefl.
           ++ intros j row' Hj. lia.
        -- right. exists (S i), c. repeat split; auto.
           ++ by apply (fltb_trans _ (row_score x)).
           ++ intros row' Hrow' Hq'. apply elem_of_cons in Hrow' as [-> | Hrow']; auto.
              by apply fltb_asym.
           ++ intros [|j] row' Hj Hrow' Hq'; simpl in Hrow'.
              ** by injection Hrow' as <-.
              ** apply (Hmin j); [lia | done | done].
      * destruct (IH st) as [[Heq Hall] | (i & c & Hi & Hqc & Heq & Hlt & Hall & Hmin)].
        -- left. split; [done |]. intros row' Hrow' Hq'.
           apply elem_of_cons in Hrow' as [-> | Hrow']; auto.
        -- right. exists (S i), c. repeat split; auto.
           ++ intros row' Hrow' Hq'. apply elem_of_cons in Hrow' as [-> | Hrow']; auto.
              apply fltb_asym. by apply (fle_lt_trans _ st.2).
           ++ intros [|j] row' Hj Hrow' Hq'; simpl in Hrow'.
              ** injection Hrow' as <-. by apply (fle_lt_trans _ st.2).
              ** apply (Hmin j); [lia | done | done].
    + destruct (IH st) as [[Heq Hall] | (i & c & Hi & Hqc & Heq & Hlt & Hall & Hmin)].
      * left. split; [done |]. intros row' Hrow' Hq'.
        apply elem_of_cons in Hrow' as [-> | Hrow']; [congruence | auto].
      * right. exists (S i), c. repeat split; auto.
        -- intros row' Hrow' Hq'. apply elem_of_cons in Hrow' as [-> | Hrow'];
             [congruence | auto].
        -- intros [|j] row' Hj Hrow' Hq'; simpl in Hrow'.
           ++ injection Hrow' as <-. congruence.
           ++ apply (Hmin j); [lia | done | done].
Qed.

End NamesRow.

(** The bidder names of formats A and C are the candidates of one single row
    above the header: the first row of greatest score among the rows with
    two candidates or more, provided that score is above zero.  When no
    such row has a score above zero there are no names at all.  Names of
    different rows are never mixed. *)
Theorem bidder_names_are_the_candidates_of_the_first_best_row :
  ∀ (F : PyFloat) (Hord : PyFloatOrder F) (rows : list (list pyval)) (header_idx : nat),
    let names := _find_bidder_names_above rows header_idx in
    (names = ∅
     ∧ ∀ i row, i < header_idx → rows !! i = Some row → qualifies row = true →
         fltb (float_of_Z 0) (row_score row) = false)
    ∨ (∃ i row, i < header_idx ∧ rows !! i = Some row ∧ qualifies row = true
         ∧ names = row_candidates row
         ∧ 2 ≤ size names
         ∧ fltb (float_of_Z 0) (row_score row) = true
         ∧ (∀ j row', j < header_idx → rows !! j = Some row' → qualifies row' = true →
              fleb (row_score row') (row_score row) = true)
         ∧ (∀ j row', j < i → rows !! j = Some row' → qualifies row' = true →
              fltb (row_score row') (row_score row) = true)).
Proof.
  intros F Hord rows header_idx names. subst names. unfold _find_bidder_names_above.
  destruct (names_fold (take header_idx rows) (∅, float_of_Z 0))
    as [[Heq Hall] | (i & c & Hi & Hqc & Heq & Hlt & Hall & Hmin)]; rewrite Heq.
  - left. split; [done |]. intros i row Hi Hrow Hq. apply Hall; [| done].
    apply list_elem_of_lookup. exists i. by rewrite lookup_take_lt.
  - right. exists i, c. simpl in *.
    assert (i < header_idx) as Hlt'.
    { destruct (decide (i < header_idx)); [done |].
      rewrite lookup_take_ge in Hi by lia. done. }
    rewrite lookup_take_lt in Hi by done.
    repeat split; auto.
    + unfold qualifies in Hqc. by apply Nat.leb_le in Hqc.
    + intros j row' Hj Hrow' Hq'. rewrite fleb_spec. apply negb_true_iff.
      apply Hall; [| done]. apply list_elem_of_lookup. exists j.
      by rewrite lookup_take_lt.
    + intros j row' Hj Hrow' Hq'. apply (Hmin j); [done | | done].
      rewrite lookup_take_lt by lia. done.
Qed.

Lemma bidder_names_first_best_row_witness :
  PyFloatOrder exact_float
  ∧ (let names := _find_bidder_names_above bidder_row_rows 1 in
     (names = ∅
      ∧ ∀ i row, i < 1 → bidder_row_rows !! i = Some row → qualifies row = true →
          fltb (float_of_Z 0) (row_score row) = false)
     ∨ (∃ i row, i < 1 ∧ bidder_row_rows !! i = Some row ∧ qualifies row = true
          ∧ names = row_candidates row
          ∧ 2 ≤ size names
          ∧ fltb (float_of_Z 0) (row_score row) = true
          ∧ (∀ j row', j < 1 → bidder_row_rows !! j = Some row' →
               qualifies row' = true →
               fleb (row_score row') (row_score row) = true)
          ∧ (∀ j row', j < i → bidder_row_rows !! j = Some row' →
               qualifies row' = true →
               fltb (row_score row') (row_score row) = true))).
Proof.
  split; [exact exact_float_order |].
  exact (bidder_names_are_the_candidates_of_the_first_best_row
           exact_float exact_float_order bidder_row_rows 1).
Defined.
(** ** The outcomes of [parse_excel] *)

Section Outcomes.
Context {F : PyFloat}.











End Outcomes.


(** An int of 401 digits in the quantity column makes the parse raise; the
    ints that [float] converts end just below [2**1024 - 2**970]. *)
Example oversized_quantity_raises :
  parse_rows huge_quantity_rows "Bids" = Raised
  ∧ @_safe_float exact_float (PInt (2 ^ 1024 - 2 ^ 970)) = None
  ∧ @_safe_float exact_float (PInt (2 ^ 1024 - 2 ^ 970 - 1))
    = Some (Some (Exact.of_Z (2 ^ 1024 - 2 ^ 970 - 1))).
Proof. repeat split; vm_compute; reflexivity. Qed.

(** ** The tables of rfq_db.py *)

Lemma NoDup_map_filter {A B} (f : A → B) (p : A → bool) (l : list A) :
  NoDup (map f l) → NoDup (map f (List.filter p l)).
Proof.
  induction l as [|x l IH]; simpl; [done |].
  rewrite NoDup_cons. intros [Hx Hl]. destruct (p x); simpl; [| auto].
  apply NoDup_cons. split; [| auto].
  intros Hin. apply Hx. apply list_elem_of_In, in_map_iff in Hin as (y & Hy & Hin).
  apply filter_In in Hin as [Hin _]. apply list_elem_of_In, in_map_iff. by exists y.
Qed.

Lemma NoDup_map_inj_on {A B} (f : A → B) (l : list A) (x y : A) :
  NoDup (map f l) → x ∈ l → y ∈ l → f x = f y → x = y.
Proof.
  induction l as [|z l IH]; simpl; [intros _ H; inversion H |].
  rewrite NoDup_cons, !elem_of_cons. intros [Hz Hl] [-> | Hx] [-> | Hy] Heq; auto.
  - destruct Hz. rewrite Heq. apply list_elem_of_In, in_map. by apply list_elem_of_In.
  - destruct Hz. rewrite <- Heq. apply list_elem_of_In, in_map. by apply list_elem_of_In.
Qed.

Lemma elem_of_filter_bool {A} (p : A → bool) (l : list A) (x : A) :
  x ∈ List.filter p l ↔ x ∈ l ∧ p x = true.
Proof. by rewrite !list_elem_of_In, filter_In. Qed.

Lemma elem_of_map_iff {A B} (f : A → B) (l : list A) (y : B) :
  y ∈ map f l ↔ ∃ x, x ∈ l ∧ f x = y.
Proof.
  rewrite list_elem_of_In, in_map_iff. split.
  - intros (x & Hx & Hin). exists x. by rewrite list_elem_of_In.
  - intros (x & Hin & Hx). exists x. by rewrite <- list_elem_of_In.
Qed.

Lemma filter_filter_bool {A} (p q : A → bool) (l : list A) :
  (∀ x, x ∈ l → p x = true → q x = true) →
  List.filter p (List.filter q l) = List.filter p l.
Proof.
  intros H. induction l as [|x l IH]; simpl; [done |].
  destruct (q x) eqn:Hq; simpl.
  - destruct (p x); [f_equal |]; apply IH; intros y Hy; apply H; by right.
  - destruct (p x) eqn:Hp.
    + rewrite H in Hq; [done | left | done].
    + apply IH. intros y Hy. apply H. by right.
Qed.

Lemma filter_none_bool {A} (p : A → bool) (l : list A) :
  (∀ x, x ∈ l → p x = false) → List.filter p l = [].
Proof.
  intros H. induction l as [|x l IH]; simpl; [done |].
  rewrite H by left. apply IH. intros y Hy. apply H. by right.
Qed.

Lemma next_rowid_above (seq : nat) (ids : list nat) :
  seq < next_rowid seq ids ∧ ∀ id, id ∈ ids → id < next_rowid seq ids.
Proof.
  unfold next_rowid. split; [lia |]. intros id Hid.
  apply max_list_elem_of_le in Hid. lia.
Qed.

Section Tables.
Context {F : PyFloat}.

Lemma rfq_exists_spec (rfq_id : string) (db : database) :
  rfq_exists rfq_id db = true ↔ rfq_id ∈ map r_rfq_id (t_rfqs db).
Proof.
  unfold rfq_exists. rewrite existsb_exists, elem_of_map_iff. split.
  - intros (r & Hin & Heq). apply String.eqb_eq in Heq. exists r.
    by rewrite list_elem_of_In.
  - intros (r & Hin & Heq). exists r. rewrite <- list_elem_of_In.
    split; [done | by apply String.eqb_eq].
Qed.

Lemma rfq_exists_same_rfqs (rfq_id : string) (db db' : database) :
  t_rfqs db' = t_rfqs db → rfq_exists rfq_id db' = rfq_exists rfq_id db.
Proof. unfold rfq_exists. by intros ->. Qed.

(** *** DELETE *)

Lemma delete_rfq_absent (rfq_id : string) (db : database) :
  rfq_exists rfq_id (delete_rfq rfq_id db) = false.
Proof.
  unfold delete_rfq. destruct (rfq_exists rfq_id db) eqn:Hex; [| done].
  apply not_true_is_false. rewrite rfq_exists_spec. simpl.
  rewrite elem_of_map_iff. intros (r & Hin & Heq).
  apply elem_of_filter_bool in Hin as [_ Hne]. apply negb_true_iff in Hne.
  apply String.eqb_neq in Hne. done.
Qed.

Lemma delete_rfq_other (rfq_id other : string) (db : database) :
  other ≠ rfq_id →
  rfq_exists other (delete_rfq rfq_id db) = rfq_exists other db.
Proof.
  intros Hne. unfold delete_rfq. destruct (rfq_exists rfq_id db); [| done].
  apply eq_true_iff_eq. rewrite !rfq_exists_spec. simpl. rewrite !elem_of_map_iff.
  split.
  - intros (r & Hin & Heq). apply elem_of_filter_bool in Hin as [Hin _]. by exists r.
  - intros (r & Hin & Heq). exists r. split; [| done].
    apply elem_of_filter_bool. split; [done |].
    apply negb_true_iff, String.eqb_neq. congruence.
Qed.

Lemma delete_rfq_wf (rfq_id : string) (db : database) :
  db_wf db → db_wf (delete_rfq rfq_id db).
Proof.
  intros Hwf. pose proof (λ other, delete_rfq_other rfq_id other db) as Hother.
  unfold delete_rfq in *. revert Hother.
  destruct (rfq_exists rfq_id db) eqn:Hex; [| done]. intros Hother.
  destruct Hwf. split; simpl; try (by apply NoDup_map_filter); try done.
  - intros i Hi. apply elem_of_filter_bool in Hi as [Hi Hne].
    apply negb_true_iff, String.eqb_neq in Hne. rewrite Hother by done. auto.
  - intros b Hb. apply elem_of_filter_bool in Hb as [Hb Hne].
    apply andb_true_iff in Hne as [Hne _].
    apply negb_true_iff, String.eqb_neq in Hne. rewrite Hother by done. auto.
  - intros b Hb. apply elem_of_filter_bool in Hb as [Hb Hne].
    apply andb_true_iff in Hne as [Hne _].
    destruct (wf_bid_item0 b Hb) as (i & Hi & Hid & Hrfq). exists i.
    split; [| done]. apply elem_of_filter_bool. split; [done |]. by rewrite Hrfq.
  - intros b Hb. apply elem_of_filter_bool in Hb as [Hb _]. auto.
  - intros i Hi. apply elem_of_filter_bool in Hi as [Hi _]. auto.
  - intros b Hb. apply elem_of_filter_bool in Hb as [Hb _]. auto.
Qed.

Lemma delete_rfq_items (rfq_id other : string) (db : database) :
  items_of_rfq other (delete_rfq rfq_id db) =
  if String.eqb other rfq_id && rfq_exists rfq_id db then [] else items_of_rfq other db.
Proof.
  unfold items_of_rfq, delete_rfq.
  destruct (rfq_exists rfq_id db); [| by rewrite andb_false_r]. simpl.
  rewrite andb_true_r. destruct (String.eqb other rfq_id) eqn:Heq.
  - apply String.eqb_eq in Heq as ->. rewrite filter_none_bool; [done |].
    intros i Hi. apply elem_of_filter_bool in Hi as [_ Hi]. by apply negb_true_iff in Hi.
  - apply String.eqb_neq in Heq. rewrite filter_filter_bool; [done |].
    intros i _ Hi. apply String.eqb_eq in Hi. apply negb_true_iff, String.eqb_neq.
    congruence.
Qed.

Lemma delete_rfq_bids (rfq_id other : string) (db : database) :
  db_wf db →
  List.filter (λ b, String.eqb (bid_rfq_id b) other) (t_bids (delete_rfq rfq_id db)) =
  if String.eqb other rfq_id && rfq_exists rfq_id db then []
  else List.filter (λ b, String.eqb (bid_rfq_id b) other) (t_bids db).
Proof.
  intros Hwf. unfold delete_rfq.
  destruct (rfq_exists rfq_id db); [| by rewrite andb_false_r]. simpl.
  rewrite andb_true_r. destruct (String.eqb other rfq_id) eqn:Heq.
  - apply String.eqb_eq in Heq as ->. rewrite filter_none_bool; [done |].
    intros b Hb. apply elem_of_filter_bool in Hb as [_ Hb].
    apply andb_true_iff in Hb as [Hb _]. by apply negb_true_iff in Hb.
  - apply String.eqb_neq in Heq. rewrite filter_filter_bool; [done |].
    intros b Hb Hrfq. apply String.eqb_eq in Hrfq. apply andb_true_iff. split.
    + apply negb_true_iff, String.eqb_neq. congruence.
    + apply negb_true_iff, bool_decide_eq_false. rewrite elem_of_map_iff.
      intros (i & Hi & Hid). apply elem_of_filter_bool in Hi as [Hi Hirfq].
      apply String.eqb_eq in Hirfq.
      destruct (wf_bid_item db Hwf b Hb) as (i' & Hi' & Hid' & Hrfq').
      assert (i = i') as <-.
      { apply (NoDup_map_inj_on item_id (t_items db)); [apply Hwf | done | done |].
        congruence. }
      congruence.
Qed.

End Tables.

Lemma appended_refl {A} (l : list A) (P : A → Prop) : appended l l P.
Proof. exists []. by rewrite app_nil_r. Qed.

Lemma appended_trans {A} (l1 l2 l3 : list A) (P : A → Prop) :
  appended l1 l2 P → appended l2 l3 P → appended l1 l3 P.
Proof.
  intros (r1 & -> & H1) (r2 & -> & H2). exists (r1 ++ r2).
  rewrite app_assoc. split; [done | by apply Forall_app].
Qed.

Lemma appended_one {A} (l : list A) (x : A) (P : A → Prop) :
  P x → appended l (l ++ [x]) P.
Proof. intros Hx. exists [x]. split; [done | by apply Forall_singleton]. Qed.

Lemma appended_elem {A} (l l' : list A) (P : A → Prop) (x : A) :
  appended l l' P → x ∈ l → x ∈ l'.
Proof. intros (r & -> & _) Hx. apply elem_of_app. by left. Qed.

Lemma appended_filter {A} (l l' : list A) (P : A → Prop) (p : A → bool) :
  appended l l' P → (∀ x, P x → p x = false) → List.filter p l' = List.filter p l.
Proof.
  intros (r & -> & Hr) Hp. rewrite List.filter_app, (filter_none_bool p r).
  - by rewrite app_nil_r.
  - intros x Hx. apply Hp. rewrite Forall_forall in Hr. by apply Hr.
Qed.

Lemma next_rowid_bounded (seq : nat) (ids : list nat) :
  (∀ id, id ∈ ids → id ≤ seq) → next_rowid seq ids = S seq.
Proof.
  intros H. unfold next_rowid. f_equal. apply Nat.max_l.
  induction ids as [|x ids IH]; simpl; [lia |].
  apply Nat.max_lub; [apply H; left | apply IH; intros id Hid; apply H; by right].
Qed.

Section Operations.
Context {F : PyFloat}.

Lemma loads_into_refl (rfq_id : string) (db : database) : loads_into rfq_id db db.
Proof. split; try done; apply appended_refl. Qed.

Lemma loads_into_trans (rfq_id : string) (db1 db2 db3 : database) :
  loads_into rfq_id db1 db2 → loads_into rfq_id db2 db3 → loads_into rfq_id db1 db3.
Proof.
  intros [] []. split; try (etrans; done); by eapply appended_trans.
Qed.

Lemma loads_into_exists (rfq_id other : string) (db db' : database) :
  loads_into rfq_id db db' → rfq_exists other db' = rfq_exists other db.
Proof. intros []. by apply rfq_exists_same_rfqs. Qed.

(** *** INSERT INTO rfqs *)

Lemma insert_rfq_None (row : rfq_row) (db : database) :
  insert_rfq row db = None ↔ rfq_exists (r_rfq_id row) db = true.
Proof. unfold insert_rfq. by destruct (rfq_exists _ db). Qed.

Lemma insert_rfq_exists (row : rfq_row) (db db' : database) (other : string) :
  insert_rfq row db = Some db' →
  rfq_exists other db' = String.eqb (r_rfq_id row) other || rfq_exists other db.
Proof.
  unfold insert_rfq. destruct (rfq_exists _ db); [done |]. intros [= <-].
  unfold rfq_exists. simpl. rewrite existsb_app. simpl.
  rewrite orb_false_r. apply orb_comm.
Qed.

Lemma insert_rfq_wf (row : rfq_row) (db db' : database) :
  db_wf db → insert_rfq row db = Some db' → db_wf db'.
Proof.
  intros Hwf Hins. pose proof (insert_rfq_exists row db db') as Hex.
  unfold insert_rfq in *. destruct (rfq_exists (r_rfq_id row) db) eqn:Hno; [done |].
  injection Hins as <-. destruct Hwf. split; simpl; try done.
  - rewrite map_app. simpl. apply NoDup_app. split; [done |]. split.
    + intros x Hx Hx'. apply list_elem_of_singleton in Hx' as ->.
      apply rfq_exists_spec in Hx. congruence.
    + apply NoDup_singleton.
  - intros i Hi. rewrite (Hex _ eq_refl). apply orb_true_iff. right. auto.
  - intros b Hb. rewrite (Hex _ eq_refl). apply orb_true_iff. right. auto.
Qed.

(** *** INSERT INTO rfq_items *)

Lemma insert_item_Some (rfq_id : string) (it : item) (db : database) :
  rfq_exists rfq_id db = true →
  ∃ db', insert_item rfq_id it db
         = Some (next_rowid (seq_items db) (map item_id (t_items db)), db')
    ∧ t_rfqs db' = t_rfqs db
    ∧ t_items db' = t_items db ++
        [{| i_rfq_id := rfq_id;
            i_item := db_item_of (next_rowid (seq_items db) (map item_id (t_items db))) it |}]
    ∧ t_bidders db' = t_bidders db ∧ t_bids db' = t_bids db
    ∧ seq_items db' = next_rowid (seq_items db) (map item_id (t_items db))
    ∧ seq_bidders db' = seq_bidders db ∧ seq_bids db' = seq_bids db.
Proof.
  intros Hex. unfold insert_item. rewrite Hex. eexists. split; [done |]. by simpl.
Qed.

Lemma insert_item_wf (rfq_id : string) (it : item) (db db' : database) (id : nat) :
  db_wf db → insert_item rfq_id it db = Some (id, db') →
  db_wf db' ∧ loads_into rfq_id db db' ∧ id = S (seq_items db)
  ∧ seq_items db' = S (seq_items db)
  ∧ t_items db' = t_items db ++ [{| i_rfq_id := rfq_id; i_item := db_item_of id it |}]
  ∧ t_bidders db' = t_bidders db ∧ t_bids db' = t_bids db.
Proof.
  intros Hwf Hins. unfold insert_item in Hins.
  destruct (rfq_exists rfq_id db) eqn:Hex; [| done].
  rewrite (next_rowid_bounded (seq_items db) (map item_id (t_items db))) in Hins.
  2:{ intros x Hx. apply elem_of_map_iff in Hx as (i & Hi & <-). by apply Hwf. }
  injection Hins as <- <-. split; [| split]; [| | done].
  - destruct Hwf. split; simpl; try done.
    + rewrite map_app. simpl. apply NoDup_app. split; [done |]. split.
      * intros x Hx Hx'. apply list_elem_of_singleton in Hx' as ->.
        apply elem_of_map_iff in Hx as (i & Hi & Hid).
        apply wf_seq_items0 in Hi. unfold item_id in *. simpl in Hid. lia.
      * apply NoDup_singleton.
    + intros i Hi. apply elem_of_app in Hi as [Hi | Hi];
        [exact (wf_item_rfq0 i Hi) |].
      apply list_elem_of_singleton in Hi as ->. exact Hex.
    + intros b Hb. destruct (wf_bid_item0 b Hb) as (i & Hi & Hid). exists i.
      split; [| done]. apply elem_of_app. by left.
    + intros i Hi. apply elem_of_app in Hi as [Hi | Hi].
      * apply wf_seq_items0 in Hi. lia.
      * by apply list_elem_of_singleton in Hi as ->.
  - split; simpl; try done; try apply appended_refl; [| lia].
    by apply appended_one.
Qed.

(** *** get_or_create_bidder *)

Lemma find_name_Some (name : string) (l : list bidder_row) (row : bidder_row) :
  List.find (λ d, String.eqb (d_name d) name) l = Some row →
  row ∈ l ∧ d_name row = name.
Proof.
  intros H. apply find_some in H as [Hin Heq].
  split; [by apply list_elem_of_In | by apply String.eqb_eq].
Qed.

Lemma find_name_None (name : string) (l : list bidder_row) :
  List.find (λ d, String.eqb (d_name d) name) l = None ↔ name ∉ map d_name l.
Proof.
  split.
  - intros H Hin. apply elem_of_map_iff in Hin as (d & Hin & Hd).
    apply list_elem_of_In in Hin. apply (find_none _ _ H) in Hin.
    rewrite Hd, String.eqb_refl in Hin. done.
  - intros Hnot. destruct (find _ l) as [d|] eqn:Hf; [| done].
    apply find_name_Some in Hf as [Hin Hd]. destruct Hnot.
    apply elem_of_map_iff. by exists d.
Qed.

Lemma find_id_spec (l : list bidder_row) (id : nat) (row : bidder_row) :
  NoDup (map d_id l) → row ∈ l → d_id row = id →
  List.find (λ d, d_id d =? id) l = Some row.
Proof.
  intros Hnd Hin Hid. destruct (find _ l) as [d|] eqn:Hf.
  - apply find_some in Hf as [Hd Heq]. apply Nat.eqb_eq in Heq.
    f_equal. apply (NoDup_map_inj_on d_id l); [done | by apply list_elem_of_In | done |].
    congruence.
  - apply list_elem_of_In in Hin. apply (find_none _ _ Hf) in Hin.
    apply Nat.eqb_neq in Hin. done.
Qed.

Lemma get_or_create_bidder_spec (name : string) (db : database) :
  db_wf db →
  ∃ id db', get_or_create_bidder name db = Some (id, db')
    ∧ db_wf db'
    ∧ ({| d_id := id; d_name := name |} ∈ t_bidders db')
    ∧ t_rfqs db' = t_rfqs db ∧ t_items db' = t_items db ∧ t_bids db' = t_bids db
    ∧ seq_items db' = seq_items db ∧ seq_bids db' = seq_bids db
    ∧ seq_bidders db ≤ seq_bidders db'
    ∧ ((name ∈ map d_name (t_bidders db) ∧ db' = db)
       ∨ ((name ∉ map d_name (t_bidders db))
          ∧ id = S (seq_bidders db)
          ∧ t_bidders db' = t_bidders db ++ [{| d_id := id; d_name := name |}])).
Proof.
  intros Hwf. unfold get_or_create_bidder.
  destruct (find _ (t_bidders db)) as [row|] eqn:Hfind.
  - apply find_name_Some in Hfind as [Hin Hname].
    exists (d_id row), db. split; [done |]. split; [done |].
    split; [by destruct row; simpl in *; subst |].
    do 5 (split; [done |]). split; [done |]. left. split; [| done].
    apply elem_of_map_iff. by exists row.
  - apply find_name_None in Hfind as Hnot. unfold insert_bidder.
    assert (existsb (λ d, String.eqb (d_name d) name) (t_bidders db) = false) as ->.
    { apply not_true_is_false. rewrite existsb_exists. intros (d & Hd & Heq).
      apply String.eqb_eq in Heq. apply Hnot, elem_of_map_iff. exists d.
      by rewrite list_elem_of_In. }
    rewrite (next_rowid_bounded (seq_bidders db) (map d_id (t_bidders db))).
    2:{ intros x Hx. apply elem_of_map_iff in Hx as (d & Hd & <-). by apply Hwf. }
    eexists _, _. split; [done |]. simpl. split.
    + destruct Hwf. split; simpl; try done.
      * rewrite map_app. simpl. apply NoDup_app. split; [done |]. split.
        -- intros x Hx Hx'. apply list_elem_of_singleton in Hx' as ->.
           apply elem_of_map_iff in Hx as (d & Hd & Hid).
           apply wf_seq_bidders0 in Hd. lia.
        -- apply NoDup_singleton.
      * rewrite map_app. simpl. apply NoDup_app. split; [done |]. split.
        -- intros x Hx Hx'. by apply list_elem_of_singleton in Hx' as ->.
        -- apply NoDup_singleton.
      * intros b Hb. rewrite map_app. apply elem_of_app. left. auto.
      * intros d Hd. apply elem_of_app in Hd as [Hd | Hd].
        -- apply wf_seq_bidders0 in Hd. lia.
        -- by apply list_elem_of_singleton in Hd as ->.
    + split; [apply elem_of_app; right; left |].
      do 5 (split; [done |]). split; [lia |]. by right.
Qed.

(** *** INSERT INTO bids *)

Lemma insert_bid_spec (rfq_id : string) (item bidder : nat) (up ep : option float)
    (db : database) (i : item_row) :
  db_wf db → rfq_exists rfq_id db = true →
  i ∈ t_items db → item_id i = item → i_rfq_id i = rfq_id →
  bidder ∈ map d_id (t_bidders db) →
  ∃ db', insert_bid rfq_id item bidder up ep db = Some db'
    ∧ db_wf db'
    ∧ t_rfqs db' = t_rfqs db ∧ t_items db' = t_items db
    ∧ t_bidders db' = t_bidders db
    ∧ t_bids db' = t_bids db ++
        [{| bid_id := S (seq_bids db); bid_rfq_id := rfq_id; bid_item_id := item;
            bid_bidder_id := bidder; bid_unit := up ≫= sqlite_real;
            bid_ext := ep ≫= sqlite_real |}]
    ∧ seq_items db' = seq_items db ∧ seq_bidders db' = seq_bidders db
    ∧ seq_bids db' = S (seq_bids db).
Proof.
  intros Hwf Hex Hi Hid Hrfq Hbd. unfold insert_bid. rewrite Hex.
  rewrite (bool_decide_eq_true_2 (item ∈ map item_id (t_items db))).
  2:{ apply elem_of_map_iff. by exists i. }
  rewrite (bool_decide_eq_true_2 _ Hbd). simpl.
  rewrite (next_rowid_bounded (seq_bids db) (map bid_id (t_bids db))).
  2:{ intros x Hx. apply elem_of_map_iff in Hx as (b & Hb & <-). by apply Hwf. }
  eexists. split; [done |]. simpl. split; [| done].
  destruct Hwf. split; simpl; try done.
  - rewrite map_app. simpl. apply NoDup_app. split; [done |]. split.
    + intros x Hx Hx'. apply list_elem_of_singleton in Hx' as ->.
      apply elem_of_map_iff in Hx as (b & Hb & Hbid).
      apply wf_seq_bids0 in Hb. lia.
    + apply NoDup_singleton.
  - intros b Hb. apply elem_of_app in Hb as [Hb | Hb];
      [exact (wf_bid_rfq0 b Hb) |].
    apply list_elem_of_singleton in Hb as ->. exact Hex.
  - intros b Hb. apply elem_of_app in Hb as [Hb | Hb];
      [exact (wf_bid_item0 b Hb) |].
    apply list_elem_of_singleton in Hb as ->. by exists i.
  - intros b Hb. apply elem_of_app in Hb as [Hb | Hb];
      [exact (wf_bid_bidder0 b Hb) |].
    by apply list_elem_of_singleton in Hb as ->.
  - intros b Hb. apply elem_of_app in Hb as [Hb | Hb].
    + apply wf_seq_bids0 in Hb. lia.
    + by apply list_elem_of_singleton in Hb as ->.
Qed.

End Operations.

Lemma omap_ext_in {A B} (f g : A → option B) (l : list A) :
  (∀ x, x ∈ l → f x = g x) → omap f l = omap g l.
Proof.
  induction l as [|x l IH]; intros H; [done |].
  change (omap f (x :: l))
    with (match f x with Some y => y :: omap f l | None => omap f l end).
  change (omap g (x :: l))
    with (match g x with Some y => y :: omap g l | None => omap g l end).
  rewrite (H x) by left. rewrite IH; [done |]. intros y Hy. apply H. by right.
Qed.

Section Loading.
Context {F : PyFloat}.

Lemma bidder_name_stable (db db' : database) (b : bids_row) :
  db_wf db' → appended (t_bidders db) (t_bidders db') (λ _, True) →
  bid_bidder_id b ∈ map d_id (t_bidders db) →
  bidder_name db' b = bidder_name db b.
Proof.
  intros Hwf (rows & Heq & _) Hin. unfold bidder_name.
  apply elem_of_map_iff in Hin as (row & Hrow & Hid).
  pose proof (wf_bidder_key db' Hwf) as Hnd. rewrite Heq in *.
  rewrite (find_id_spec _ _ row Hnd); [| apply elem_of_app; by left | done].
  rewrite map_app in Hnd. apply NoDup_app in Hnd as [Hnd _].
  by rewrite (find_id_spec _ _ row Hnd).
Qed.

Lemma bids_with_names_grow (rfq_id : string) (db db' : database) (new : list bids_row) :
  db_wf db → db_wf db' → appended (t_bidders db) (t_bidders db') (λ _, True) →
  t_bids db' = t_bids db ++ new →
  bids_with_names rfq_id db' =
  bids_with_names rfq_id db ++
  omap (λ b, (λ name, {| rec_item_id := bid_item_id b; rec_bidder := name;
                         rec_unit_price := bid_unit b; rec_ext_price := bid_ext b |})
             <$> bidder_name db' b)
       (List.filter (λ b, String.eqb (bid_rfq_id b) rfq_id) new).
Proof.
  intros Hwf Hwf' Happ Hbids. unfold bids_with_names.
  rewrite Hbids, List.filter_app, omap_app. f_equal.
  apply omap_ext_in. intros b Hb. apply elem_of_filter_bool in Hb as [Hb _].
  rewrite (bidder_name_stable db db'); [done | done | done |].
  by apply Hwf.
Qed.

Lemma loads_into_bids_other (rfq_id other : string) (db db' : database) :
  db_wf db → db_wf db' → loads_into rfq_id db db' → other ≠ rfq_id →
  bids_with_names other db' = bids_with_names other db.
Proof.
  intros Hwf Hwf' Hli Hne. destruct (li_bids _ _ _ Hli) as (new & Hnew & Hall).
  rewrite (bids_with_names_grow other db db' new Hwf Hwf' (li_bidders _ _ _ Hli) Hnew).
  rewrite filter_none_bool; [by rewrite app_nil_r |].
  intros b Hb. rewrite Forall_forall in Hall. rewrite (Hall b Hb).
  apply String.eqb_neq. congruence.
Qed.

Lemma loads_into_items_other (rfq_id other : string) (db db' : database) :
  loads_into rfq_id db db' → other ≠ rfq_id →
  items_of_rfq other db' = items_of_rfq other db.
Proof.
  intros Hli Hne. unfold items_of_rfq. f_equal.
  apply (appended_filter _ _ _ _ (li_items _ _ _ Hli)).
  intros i ->. apply String.eqb_neq. congruence.
Qed.

Lemma quoted_records_app (item : nat) (l1 l2 : list (string * bid_value)) :
  quoted_records item (l1 ++ l2) = quoted_records item l1 ++ quoted_records item l2.
Proof. apply omap_app. Qed.

Lemma db_load_bid_spec (rfq_id : string) (item : nat) (db : database)
    (b : string * bid_value) (i : item_row) :
  db_wf db → rfq_exists rfq_id db = true →
  i ∈ t_items db → item_id i = item → i_rfq_id i = rfq_id →
  ∃ db', db_load_bid rfq_id item (Some db) b = Some db'
    ∧ db_wf db' ∧ loads_into rfq_id db db'
    ∧ t_items db' = t_items db ∧ seq_items db' = seq_items db
    ∧ bids_with_names rfq_id db'
      = bids_with_names rfq_id db ++ quoted_records item [b].
Proof.
  intros Hwf Hex Hi Hid Hrfq. unfold db_load_bid, quoted_records. simpl.
  destruct b as [name [up ep]]. simpl.
  assert (∀ up ep,
    ∃ db', ('(bidder, db1) ← get_or_create_bidder name db;
            insert_bid rfq_id item bidder up ep db1) = Some db'
      ∧ db_wf db' ∧ loads_into rfq_id db db'
      ∧ t_items db' = t_items db ∧ seq_items db' = seq_items db
      ∧ bids_with_names rfq_id db'
        = bids_with_names rfq_id db ++
          [record_of item name
             (stored_bid {| bid_unit_price := up; bid_ext_price := ep |})])
    as Hins.
  { clear up ep. intros up ep.
    destruct (get_or_create_bidder_spec name db Hwf)
      as (bidder & db1 & -> & Hwf1 & Hrow & Hr1 & Hi1 & Hb1 & Hsi1 & Hsb1 & Hsd1 & Hcase).
    simpl.
    assert (appended (t_bidders db) (t_bidders db1) (λ _, True)) as Happ1.
    { destruct Hcase as [[_ ->] | (_ & _ & ->)]; [apply appended_refl |].
      by apply appended_one. }
    destruct (insert_bid_spec rfq_id item bidder up ep db1 i)
      as (db' & -> & Hwf' & Hr' & Hi' & Hd' & Hb' & Hsi' & Hsd' & Hsb'); try done.
    { by rewrite (rfq_exists_same_rfqs rfq_id db db1). }
    { by rewrite Hi1. }
    { apply elem_of_map_iff. by eexists. }
    exists db'. split; [done |]. split; [done |].
    assert (appended (t_bidders db) (t_bidders db') (λ _, True)) as Happ'
      by by rewrite Hd'.
    split; [| split; [congruence | split; [congruence |]]].
    - split; try congruence; try lia; try done.
      + rewrite Hi', Hi1. apply appended_refl.
      + rewrite Hb', Hb1. by apply appended_one.
    - rewrite (bids_with_names_grow rfq_id db db'
                 [{| bid_id := S (seq_bids db1); bid_rfq_id := rfq_id;
                     bid_item_id := item; bid_bidder_id := bidder;
                     bid_unit := up ≫= sqlite_real;
                     bid_ext := ep ≫= sqlite_real |}] Hwf Hwf' Happ');
        [| by rewrite Hb', Hb1].
      f_equal. simpl. rewrite String.eqb_refl. simpl.
      unfold bidder_name. simpl.
      rewrite (find_id_spec _ _ {| d_id := bidder; d_name := name |});
        [done | apply Hwf' | by rewrite Hd' | done]. }
  destruct up as [u|], ep as [e|]; try apply Hins.
  exists db. split; [done |]. split; [done |]. split; [apply loads_into_refl |].
  by rewrite app_nil_r.
Qed.

Lemma db_load_bids_spec (rfq_id : string) (item : nat) (l : list (string * bid_value))
    (db : database) (i : item_row) :
  db_wf db → rfq_exists rfq_id db = true →
  i ∈ t_items db → item_id i = item → i_rfq_id i = rfq_id →
  ∃ db', foldl (db_load_bid rfq_id item) (Some db) l = Some db'
    ∧ db_wf db' ∧ loads_into rfq_id db db'
    ∧ t_items db' = t_items db ∧ seq_items db' = seq_items db
    ∧ bids_with_names rfq_id db'
      = bids_with_names rfq_id db ++ quoted_records item l.
Proof.
  revert db. induction l as [|b l IH]; intros db Hwf Hex Hi Hid Hrfq.
  - exists db. simpl. split; [done |]. split; [done |].
    split; [apply loads_into_refl |]. by rewrite app_nil_r.
  - cbn [foldl].
    destruct (db_load_bid_spec rfq_id item db b i Hwf Hex Hi Hid Hrfq)
      as (db1 & -> & Hwf1 & Hli1 & Hi1 & Hs1 & Hn1).
    destruct (IH db1) as (db' & -> & Hwf' & Hli' & Hi' & Hs' & Hn'); try done.
    { by rewrite (loads_into_exists rfq_id rfq_id db db1). }
    { by rewrite Hi1. }
    exists db'. split; [done |]. split; [done |].
    split; [by eapply loads_into_trans |].
    split; [congruence |]. split; [congruence |].
    rewrite Hn', Hn1, <- app_assoc. f_equal.
    change (b :: l) with ([b] ++ l). by rewrite quoted_records_app.
Qed.

End Loading.

Section LoadingItems.
Context {F : PyFloat}.
Variable dict_items : gmap string bid_value → list (string * bid_value).

Lemma items_of_rfq_snoc (rfq_id : string) (db db' : database) (row : db_item) :
  t_items db' = t_items db ++ [{| i_rfq_id := rfq_id; i_item := row |}] →
  items_of_rfq rfq_id db' = items_of_rfq rfq_id db ++ [row].
Proof.
  intros Heq. unfold items_of_rfq. rewrite Heq, List.filter_app, map_app. simpl.
  by rewrite String.eqb_refl.
Qed.

Lemma db_load_item_spec (rfq_id : string) (it : item) (db : database) :
  db_wf db → rfq_exists rfq_id db = true →
  ∃ db', db_load_item dict_items rfq_id (Some db) it = Some db'
    ∧ db_wf db' ∧ loads_into rfq_id db db'
    ∧ seq_items db' = S (seq_items db)
    ∧ items_of_rfq rfq_id db'
      = items_of_rfq rfq_id db ++ [db_item_of (S (seq_items db)) it]
    ∧ bids_with_names rfq_id db'
      = bids_with_names rfq_id db
        ++ quoted_records (S (seq_items db)) (dict_items (bids it)).
Proof.
  intros Hwf Hex. unfold db_load_item. simpl.
  destruct (insert_item_Some rfq_id it db Hex) as (db1 & Hins & _).
  rewrite Hins. simpl.
  destruct (insert_item_wf rfq_id it db db1 _ Hwf Hins)
    as (Hwf1 & Hli1 & Hid & Hs1 & Hi1 & Hd1 & Hb1).
  rewrite Hid in *.
  destruct (db_load_bids_spec rfq_id (S (seq_items db)) (dict_items (bids it)) db1
              {| i_rfq_id := rfq_id; i_item := db_item_of (S (seq_items db)) it |})
    as (db' & -> & Hwf' & Hli' & Hi' & Hs' & Hn'); try done.
  { by rewrite (loads_into_exists rfq_id rfq_id db db1). }
  { rewrite Hi1. apply elem_of_app. right. left. }
  exists db'. split; [done |]. split; [done |].
  split; [by eapply loads_into_trans |]. split; [congruence |]. split.
  - apply items_of_rfq_snoc. congruence.
  - rewrite Hn'. f_equal. unfold bids_with_names.
    rewrite Hb1. apply omap_ext_in. intros b Hb.
    apply elem_of_filter_bool in Hb as [Hb _].
    rewrite (bidder_name_stable db db1); [done | done | by rewrite Hd1; apply appended_refl |].
    by apply Hwf.
Qed.

Lemma db_load_items_spec (rfq_id : string) (its : list item) (db : database) :
  db_wf db → rfq_exists rfq_id db = true →
  ∃ db', foldl (db_load_item dict_items rfq_id) (Some db) its = Some db'
    ∧ db_wf db' ∧ loads_into rfq_id db db'
    ∧ seq_items db' = seq_items db + length its
    ∧ items_of_rfq rfq_id db'
      = items_of_rfq rfq_id db
        ++ imap (λ j it, db_item_of (S (seq_items db) + j) it) its
    ∧ bids_with_names rfq_id db'
      = bids_with_names rfq_id db
        ++ concat (imap (λ j it, quoted_records (S (seq_items db) + j)
                                                (dict_items (bids it))) its).
Proof.
  revert db. induction its as [|it its IH]; intros db Hwf Hex.
  - exists db. simpl. split; [done |]. split; [done |].
    split; [apply loads_into_refl |]. rewrite !app_nil_r, Nat.add_0_r. done.
  - cbn [foldl].
    destruct (db_load_item_spec rfq_id it db Hwf Hex)
      as (db1 & -> & Hwf1 & Hli1 & Hs1 & Hi1 & Hn1).
    destruct (IH db1) as (db' & -> & Hwf' & Hli' & Hs' & Hi' & Hn'); [done | |].
    { by rewrite (loads_into_exists rfq_id rfq_id db db1). }
    exists db'. split; [done |]. split; [done |].
    split; [by eapply loads_into_trans |].
    split; [simpl; lia |]. rewrite Hi', Hn', Hi1, Hn1, Hs1, <- !app_assoc.
    simpl. rewrite !Nat.add_0_r. split; f_equal; f_equal.
    + apply imap_ext. intros j x _. simpl. f_equal. lia.
    + f_equal. apply imap_ext. intros j x _. simpl. f_equal. lia.
Qed.

End LoadingItems.

Lemma concat_imap_perm {A B} (f g : nat → A → list B) (l : list A) :
  (∀ j x, f j x ≡ₚ g j x) → concat (imap f l) ≡ₚ concat (imap g l).
Proof.
  revert f g. induction l as [|x l IH]; intros f g H; simpl; [done |].
  apply Permutation_app; [apply H |]. apply IH. intros j y. apply H.
Qed.

Section LoadItemsModel.
Context {F : PyFloat}.

Lemma load_bids_app (item_id : nat) (l : list (string * bid_value))
    (tbl : list bid_record) :
  map stored_record (foldl (load_bid item_id) tbl l)
  = map stored_record tbl ++ quoted_records item_id l.
Proof.
  revert tbl. induction l as [|[name [up ep]] l IH]; intros tbl.
  - simpl. by rewrite app_nil_r.
  - cbn [foldl]. rewrite IH. unfold load_bid, quoted_records. simpl.
    destruct up, ep; simpl; rewrite ?map_app, <- ?app_assoc; done.
Qed.

Lemma load_items_app (its : list item) (next_id : nat) (tbl : list bid_record) :
  map stored_record (load_items next_id its tbl) =
  map stored_record tbl
  ++ concat (imap (λ j it, quoted_records (next_id + j) (map_to_list (bids it))) its).
Proof.
  revert next_id tbl. induction its as [|it its IH]; intros next_id tbl.
  - simpl. by rewrite app_nil_r.
  - simpl. rewrite IH. unfold load_item_bids. rewrite load_bids_app, <- app_assoc.
    rewrite Nat.add_0_r. do 3 f_equal. apply imap_ext. intros j x _. simpl.
    f_equal. lia.
Qed.

Lemma quoted_records_perm (item : nat) (l1 l2 : list (string * bid_value)) :
  l1 ≡ₚ l2 → quoted_records item l1 ≡ₚ quoted_records item l2.
Proof.
  intros H. unfold quoted_records. induction H; simpl.
  - done.
  - destruct (bid_unit_price x.2), (bid_ext_price x.2); by rewrite ?IHPermutation.
  - destruct (bid_unit_price x.2), (bid_ext_price x.2),
      (bid_unit_price y.2), (bid_ext_price y.2); try done; apply perm_swap.
  - by etrans.
Qed.

Lemma loaded_bids_perm (dict_items : gmap string bid_value → list (string * bid_value))
    (its : list item) (next_id : nat) :
  yields_entries dict_items →
  concat (imap (λ j it, quoted_records (next_id + j) (dict_items (bids it))) its)
  ≡ₚ map stored_record (load_items next_id its []).
Proof.
  intros Hd. rewrite load_items_app. simpl. apply concat_imap_perm.
  intros j it. apply quoted_records_perm, Hd.
Qed.

End LoadItemsModel.

Section LoaderWhole.
Context {F : PyFloat}.

Lemma empty_db_wf : db_wf empty_db.
Proof.
  split; simpl; try apply NoDup_nil_2; intros x Hx; inversion Hx.
Qed.

Lemma wf_rfq_absent (rfq_id : string) (db : database) :
  db_wf db → rfq_exists rfq_id db = false →
  items_of_rfq rfq_id db = [] ∧ bids_with_names rfq_id db = [].
Proof.
  intros Hwf Hno. unfold items_of_rfq, bids_with_names.
  rewrite !filter_none_bool; [done | |].
  - intros b Hb. apply not_true_is_false. intros Heq. apply String.eqb_eq in Heq.
    apply (wf_bid_rfq db Hwf) in Hb. congruence.
  - intros i Hi. apply not_true_is_false. intros Heq. apply String.eqb_eq in Heq.
    apply (wf_item_rfq db Hwf) in Hi. congruence.
Qed.

Lemma filter_rfqs_snoc (rfq_id : string) (row : rfq_row) (l : list rfq_row) :
  r_rfq_id row = rfq_id →
  (∀ r, r ∈ l → r_rfq_id r ≠ rfq_id) →
  List.filter (λ r, String.eqb (r_rfq_id r) rfq_id) (l ++ [row]) = [row].
Proof.
  intros Hrow Hl. rewrite List.filter_app, filter_none_bool.
  - simpl. by rewrite Hrow, String.eqb_refl.
  - intros r Hr. apply String.eqb_neq. by apply Hl.
Qed.

Lemma load_parsed_rfq_spec
    (dict_items : gmap string bid_value → list (string * bid_value))
    (rfq_id : string)
    (creator station project rfq_date source_file sheet_name : option string)
    (parsed_items : list item) (is_potential : bool) (notes : option string)
    (now : string) (db : database) :
  db_wf db →
  let row := rfq_row_of rfq_id creator station project rfq_date source_file
                        sheet_name is_potential notes now in
  ∃ db2 db',
    insert_rfq row (delete_rfq rfq_id db) = Some db2
    ∧ load_parsed_rfq dict_items rfq_id creator station project rfq_date source_file
                      sheet_name parsed_items is_potential notes now db = Some db'
    ∧ db_wf db2 ∧ db_wf db' ∧ loads_into rfq_id db2 db'
    ∧ t_rfqs db2 = t_rfqs (delete_rfq rfq_id db) ++ [row]
    ∧ t_items db2 = t_items (delete_rfq rfq_id db)
    ∧ t_bidders db2 = t_bidders db
    ∧ t_bids db2 = t_bids (delete_rfq rfq_id db)
    ∧ seq_items db2 = seq_items db ∧ seq_bidders db2 = seq_bidders db
    ∧ seq_bids db2 = seq_bids db
    ∧ seq_items db' = seq_items db + length parsed_items
    ∧ items_of_rfq rfq_id db'
      = imap (λ j it, db_item_of (S (seq_items db) + j) it) parsed_items
    ∧ bids_with_names rfq_id db'
      = concat (imap (λ j it, quoted_records (S (seq_items db) + j)
                                              (dict_items (bids it))) parsed_items).
Proof.
  intros Hwf row. unfold load_parsed_rfq. fold row.
  pose proof (delete_rfq_wf rfq_id db Hwf) as Hwf1.
  pose proof (delete_rfq_absent rfq_id db) as Hno.
  assert (t_bidders (delete_rfq rfq_id db) = t_bidders db
          ∧ seq_items (delete_rfq rfq_id db) = seq_items db
          ∧ seq_bidders (delete_rfq rfq_id db) = seq_bidders db
          ∧ seq_bids (delete_rfq rfq_id db) = seq_bids db) as (Hd1 & Hs1 & Hs2 & Hs3).
  { unfold delete_rfq. by destruct (rfq_exists rfq_id db). }
  destruct (insert_rfq row (delete_rfq rfq_id db)) as [db2|] eqn:Hins.
  2:{ apply insert_rfq_None in Hins. simpl in Hins. congruence. }
  pose proof (insert_rfq_wf _ _ _ Hwf1 Hins) as Hwf2.
  pose proof (insert_rfq_exists _ _ _ rfq_id Hins) as Hex2.
  simpl in Hex2. rewrite String.eqb_refl in Hex2. simpl in Hex2.
  assert (t_rfqs db2 = t_rfqs (delete_rfq rfq_id db) ++ [row]
          ∧ t_items db2 = t_items (delete_rfq rfq_id db)
          ∧ t_bidders db2 = t_bidders (delete_rfq rfq_id db)
          ∧ t_bids db2 = t_bids (delete_rfq rfq_id db)
          ∧ seq_items db2 = seq_items (delete_rfq rfq_id db)
          ∧ seq_bidders db2 = seq_bidders (delete_rfq rfq_id db)
          ∧ seq_bids db2 = seq_bids (delete_rfq rfq_id db))
    as (Hr2 & Hi2 & Hd2 & Hb2 & Hsi2 & Hsd2 & Hsb2).
  { unfold insert_rfq in Hins. destruct (rfq_exists _ _); [done |].
    by injection Hins as <-. }
  simpl.
  destruct (db_load_items_spec dict_items rfq_id parsed_items db2 Hwf2 Hex2)
    as (db' & Hload & Hwf' & Hli & Hs' & Hi' & Hn').
  exists db2, db'. split; [done |]. split; [done |].
  do 3 (split; [done |]). split; [done |]. split; [done |].
  split; [congruence |]. split; [done |].
  do 3 (split; [congruence |]). split; [congruence |].
  destruct (wf_rfq_absent rfq_id _ Hwf1 Hno) as [Hitems Hbids].
  assert (items_of_rfq rfq_id db2 = [] ∧ bids_with_names rfq_id db2 = [])
    as [Hitems2 Hbids2].
  { unfold items_of_rfq, bids_with_names, bidder_name in *.
    by rewrite Hi2, Hb2, Hd2. }
  rewrite Hi', Hn', Hitems2, Hbids2. simpl. rewrite Hsi2, Hs1. done.
Qed.

End LoaderWhole.

Lemma fresh_db_wf : db_wf fresh_db.
Proof. apply empty_db_wf. Qed.

Lemma loaded_db_wf : db_wf loaded_db.
Proof.
  unfold loaded_db.
  destruct (load_parsed_rfq_spec map_to_list "ME0003" (Some "AUDUBON") (Some "St105")
              None (Some "2025-11-10") (Some "bids.xlsx") (Some "Bids")
              (items_of (parse_rows gasket_rows "Bids")) false None
              "2025-11-11 08:00:00" fresh_db fresh_db_wf)
    as (db2 & db' & _ & -> & _ & Hwf & _).
  exact Hwf.
Qed.

(** A NaN bound to a REAL column comes back as NULL, a zero as 0.0. *)
Lemma sqlite_real_cases {F : PyFloat} (x : float) :
  (feqb x x = false → sqlite_real x = None)
  ∧ (feqb x x = true → feqb x (float_of_Z 0) = true →
     sqlite_real x = Some (float_of_Z 0))
  ∧ (feqb x x = true → feqb x (float_of_Z 0) = false → sqlite_real x = Some x).
Proof. unfold sqlite_real. repeat split; by intros ->; try intros ->. Qed.

(** A bid whose only price is NaN passes the test of the loader and is
    stored with two NULLs. *)
Lemma nan_price_is_stored_as_null {F : PyFloat} (item_id : nat) (b : string) (x : float) :
  feqb x x = false →
  map stored_record
      (load_bid item_id [] (b, {| bid_unit_price := Some x; bid_ext_price := None |}))
  = [{| rec_item_id := item_id; rec_bidder := b;
        rec_unit_price := None; rec_ext_price := None |}].
Proof. intros Hnan. unfold load_bid, stored_record, sqlite_real. simpl. by rewrite Hnan. Qed.

Lemma load_parsed_rfq_content :
  ∀ (F : PyFloat) (dict_items : gmap string bid_value → list (string * bid_value))
    (rfq_id : string)
    (creator station project rfq_date source_file sheet_name : option string)
    (parsed_items : list item) (is_potential : bool) (notes : option string)
    (now : string) (db : database),
    yields_entries dict_items → db_wf db →
    ∃ db',
      load_parsed_rfq dict_items rfq_id creator station project rfq_date source_file
                      sheet_name parsed_items is_potential notes now db = Some db'
      ∧ db_wf db'
      ∧ List.filter (λ r, String.eqb (r_rfq_id r) rfq_id) (t_rfqs db')
        = [rfq_row_of rfq_id creator station project rfq_date source_file
                      sheet_name is_potential notes now]
      ∧ items_of_rfq rfq_id db'
        = imap (λ j it, db_item_of (S (seq_items db) + j) it) parsed_items
      ∧ (∀ i, i ∈ t_items db → item_id i ≤ seq_items db)
      ∧ bids_with_names rfq_id db'
        ≡ₚ map stored_record (load_items (S (seq_items db)) parsed_items []).
Proof.
  intros F dict_items rfq_id creator station project rfq_date source_file sheet_name
    parsed_items is_potential notes now db Hd Hwf.
  destruct (load_parsed_rfq_spec dict_items rfq_id creator station project rfq_date
              source_file sheet_name parsed_items is_potential notes now db Hwf)
    as (db2 & db' & Hins & Hload & Hwf2 & Hwf' & Hli & Hr2 & _ & _ & _ & _ & _ & _
        & _ & Hitems & Hbids).
  exists db'. split; [done |]. split; [done |]. split; [| split; [done | split]].
  - rewrite (li_rfqs _ _ _ Hli), Hr2. apply filter_rfqs_snoc; [done |].
    intros r Hr Heq. pose proof (delete_rfq_absent rfq_id db) as Hno.
    apply not_true_iff_false in Hno. apply Hno, rfq_exists_spec.
    apply elem_of_map_iff. by exists r.
  - apply Hwf.
  - rewrite Hbids. by apply loaded_bids_perm.
Qed.

(** On consistent tables [load_parsed_rfq] never raises and leaves the
    tables consistent.  Afterwards the RFQ has exactly one row, the one
    given; its items are the parsed items in their order, with new keys
    that follow the largest key the item table ever held; and its bids,
    joined with the bidders' names, are the rows that the loader inserts
    for the items, one for each bidder of which a price is not [None],
    whatever the order in which the bids of an item are visited.  A
    quantity and a price are there as SQLite gives a bound float back
    ([sqlite_real]): NULL for NaN, 0.0 for either zero, the float itself
    otherwise; so a bid whose only price is NaN has a row with two
    NULLs. *)
Theorem load_parsed_rfq_stores_the_items_and_the_quoted_bids :
  ∀ (F : PyFloat) (dict_items : gmap string bid_value → list (string * bid_value))
    (rfq_id : string)
    (creator station project rfq_date source_file sheet_name : option string)
    (parsed_items : list item) (is_potential : bool) (notes : option string)
    (now : string) (db : database),
    yields_entries dict_items → db_wf db →
    ∃ db',
      load_parsed_rfq dict_items rfq_id creator station project rfq_date source_file
                      sheet_name parsed_items is_potential notes now db = Some db'
      ∧ db_wf db'
      ∧ List.filter (λ r, String.eqb (r_rfq_id r) rfq_id) (t_rfqs db')
        = [rfq_row_of rfq_id creator station project rfq_date source_file
                      sheet_name is_potential notes now]
      ∧ items_of_rfq rfq_id db'
        = imap (λ j it, db_item_of (S (seq_items db) + j) it) parsed_items
      ∧ (∀ i, i ∈ t_items db → item_id i ≤ seq_items db)
      ∧ bids_with_names rfq_id db'
        ≡ₚ map stored_record (load_items (S (seq_items db)) parsed_items []).
Proof.
  intros F dict_items rfq_id creator station project rfq_date source_file sheet_name
    parsed_items is_potential notes now db Hd Hwf.
  by apply load_parsed_rfq_content.
Qed.

Lemma load_parsed_rfq_stores_witness :
  yields_entries (@map_to_list string (@bid_value exact_float) _ _)
  ∧ db_wf loaded_db
  ∧ ∃ db',
      load_parsed_rfq map_to_list "ME0003" (Some "AUDUBON") (Some "St105") None
                      (Some "2025-11-10") (Some "bids.xlsx") (Some "Bids")
                      (items_of (parse_rows gasket_rows "Bids")) false None
                      "2025-11-11 08:00:00" loaded_db = Some db'
      ∧ db_wf db'
      ∧ List.filter (λ r, String.eqb (r_rfq_id r) "ME0003") (t_rfqs db')
        = [rfq_row_of "ME0003" (Some "AUDUBON") (Some "St105") None
                      (Some "2025-11-10") (Some "bids.xlsx") (Some "Bids") false None
                      "2025-11-11 08:00:00"]
      ∧ items_of_rfq "ME0003" db'
        = imap (λ j it, db_item_of (S (seq_items loaded_db) + j) it)
               (items_of (parse_rows gasket_rows "Bids"))
      ∧ (∀ i, i ∈ t_items loaded_db →
              item_id i ≤ seq_items loaded_db)
      ∧ bids_with_names "ME0003" db'
        ≡ₚ map stored_record
               (load_items (S (seq_items loaded_db))
                           (items_of (parse_rows gasket_rows "Bids")) []).
Proof.
  assert (yields_entries (@map_to_list string (@bid_value exact_float) _ _)) as Hd
    by (intros m; reflexivity).
  split; [exact Hd |]. split; [exact loaded_db_wf |].
  exact (load_parsed_rfq_stores_the_items_and_the_quoted_bids
           exact_float map_to_list "ME0003" (Some "AUDUBON") (Some "St105") None
           (Some "2025-11-10") (Some "bids.xlsx") (Some "Bids")
           (items_of (parse_rows gasket_rows "Bids")) false None
           "2025-11-11 08:00:00" loaded_db Hd loaded_db_wf).
Defined.

Section Frame.
Context {F : PyFloat}.

Lemma delete_rfq_bids_with_names (rfq_id other : string) (db : database) :
  db_wf db →
  bids_with_names other (delete_rfq rfq_id db) =
  if String.eqb other rfq_id && rfq_exists rfq_id db then []
  else bids_with_names other db.
Proof.
  intros Hwf. unfold bids_with_names. rewrite (delete_rfq_bids rfq_id other db Hwf).
  destruct (String.eqb other rfq_id && rfq_exists rfq_id db); [done |].
  apply omap_ext_in. intros b _. unfold bidder_name, delete_rfq.
  by destruct (rfq_exists rfq_id db).
Qed.

Lemma delete_rfq_rows (rfq_id other : string) (db : database) :
  other ≠ rfq_id →
  List.filter (λ r, String.eqb (r_rfq_id r) other) (t_rfqs (delete_rfq rfq_id db))
  = List.filter (λ r, String.eqb (r_rfq_id r) other) (t_rfqs db).
Proof.
  intros Hne. unfold delete_rfq. destruct (rfq_exists rfq_id db); [| done]. simpl.
  apply filter_filter_bool. intros r _ Hr. apply String.eqb_eq in Hr.
  apply negb_true_iff, String.eqb_neq. congruence.
Qed.

Lemma find_name_spec (l : list bidder_row) (name : string) (row : bidder_row) :
  NoDup (map d_name l) → row ∈ l → d_name row = name →
  List.find (λ d, String.eqb (d_name d) name) l = Some row.
Proof.
  intros Hnd Hin Hname. destruct (find _ l) as [d|] eqn:Hf.
  - apply find_name_Some in Hf as [Hd Heq]. f_equal.
    apply (NoDup_map_inj_on d_name l); [done | done | done | congruence].
  - apply find_name_None in Hf. destruct Hf. apply elem_of_map_iff. by exists row.
Qed.

End Frame.

Lemma load_parsed_rfq_frame :
  ∀ (F : PyFloat) (dict_items : gmap string bid_value → list (string * bid_value))
    (rfq_id : string)
    (creator station project rfq_date source_file sheet_name : option string)
    (parsed_items : list item) (is_potential : bool) (notes : option string)
    (now : string) (db : database),
    db_wf db →
    ∃ db',
      load_parsed_rfq dict_items rfq_id creator station project rfq_date source_file
                      sheet_name parsed_items is_potential notes now db = Some db'
      ∧ (∀ other, other ≠ rfq_id →
           List.filter (λ r, String.eqb (r_rfq_id r) other) (t_rfqs db')
           = List.filter (λ r, String.eqb (r_rfq_id r) other) (t_rfqs db)
           ∧ items_of_rfq other db' = items_of_rfq other db
           ∧ bids_with_names other db' = bids_with_names other db)
      ∧ (∃ new, t_bidders db' = t_bidders db ++ new)
      ∧ seq_items db ≤ seq_items db'
      ∧ seq_bidders db ≤ seq_bidders db'
      ∧ seq_bids db ≤ seq_bids db'.
Proof.
  intros F dict_items rfq_id creator station project rfq_date source_file sheet_name
    parsed_items is_potential notes now db Hwf.
  destruct (load_parsed_rfq_spec dict_items rfq_id creator station project rfq_date
              source_file sheet_name parsed_items is_potential notes now db Hwf)
    as (db2 & db' & Hins & Hload & Hwf2 & Hwf' & Hli & Hr2 & Hi2 & Hd2 & Hb2 & Hsi2
        & Hsd2 & Hsb2 & _).
  exists db'. split; [done |]. split; [| split; [| split; [| split]]].
  - intros other Hne.
    assert (String.eqb other rfq_id = false) as Hneb by by apply String.eqb_neq.
    split; [| split].
    + rewrite (li_rfqs _ _ _ Hli), Hr2, List.filter_app. simpl.
      rewrite String.eqb_sym, Hneb, app_nil_r. by apply delete_rfq_rows.
    + rewrite (loads_into_items_other rfq_id other db2 db' Hli Hne).
      pose proof (delete_rfq_items rfq_id other db) as Hdel.
      rewrite Hneb in Hdel. simpl in Hdel. rewrite <- Hdel.
      unfold items_of_rfq. by rewrite Hi2.
    + rewrite (loads_into_bids_other rfq_id other db2 db' Hwf2 Hwf' Hli Hne).
      pose proof (delete_rfq_bids_with_names rfq_id other db Hwf) as Hdel.
      rewrite Hneb in Hdel. simpl in Hdel. rewrite <- Hdel.
      unfold bids_with_names, bidder_name. rewrite Hb2, Hd2.
      apply omap_ext_in. intros b _. unfold delete_rfq.
      by destruct (rfq_exists rfq_id db).
  - destruct (li_bidders _ _ _ Hli) as (new & Hnew & _). exists new. congruence.
  - pose proof (li_seq_items _ _ _ Hli). lia.
  - pose proof (li_seq_bidders _ _ _ Hli). lia.
  - pose proof (li_seq_bids _ _ _ Hli). lia.
Qed.

(** Loading an RFQ touches no other RFQ: for every other RFQ the row, the
    items and the bids with their bidders' names are as before.  No bidder
    is removed or renumbered, new bidders come after the old ones, and no
    key sequence goes down. *)
Theorem load_parsed_rfq_leaves_the_other_rfqs_alone :
  ∀ (F : PyFloat) (dict_items : gmap string bid_value → list (string * bid_value))
    (rfq_id : string)
    (creator station project rfq_date source_file sheet_name : option string)
    (parsed_items : list item) (is_potential : bool) (notes : option string)
    (now : string) (db : database),
    db_wf db →
    ∃ db',
      load_parsed_rfq dict_items rfq_id creator station project rfq_date source_file
                      sheet_name parsed_items is_potential notes now db = Some db'
      ∧ (∀ other, other ≠ rfq_id →
           List.filter (λ r, String.eqb (r_rfq_id r) other) (t_rfqs db')
           = List.filter (λ r, String.eqb (r_rfq_id r) other) (t_rfqs db)
           ∧ items_of_rfq other db' = items_of_rfq other db
           ∧ bids_with_names other db' = bids_with_names other db)
      ∧ (∃ new, t_bidders db' = t_bidders db ++ new)
      ∧ seq_items db ≤ seq_items db'
      ∧ seq_bidders db ≤ seq_bidders db'
      ∧ seq_bids db ≤ seq_bids db'.
Proof.
  intros F dict_items rfq_id creator station project rfq_date source_file sheet_name
    parsed_items is_potential notes now db Hwf.
  by apply load_parsed_rfq_frame.
Qed.

Lemma load_parsed_rfq_frame_witness :
  db_wf loaded_db
  ∧ ∃ db',
      load_parsed_rfq map_to_list "ME0004" (Some "AUDUBON") (Some "St105") None
                      (Some "2025-11-10") (Some "bids.xlsx") (Some "Bids")
                      (items_of (parse_rows gasket_rows "Bids")) false None
                      "2025-11-11 08:00:00" loaded_db = Some db'
      ∧ (∀ other, other ≠ "ME0004" →
           List.filter (λ r, String.eqb (r_rfq_id r) other) (t_rfqs db')
           = List.filter (λ r, String.eqb (r_rfq_id r) other)
                         (t_rfqs loaded_db)
           ∧ items_of_rfq other db' = items_of_rfq other loaded_db
           ∧ bids_with_names other db' = bids_with_names other loaded_db)
      ∧ (∃ new, t_bidders db' = t_bidders loaded_db ++ new)
      ∧ seq_items loaded_db ≤ seq_items db'
      ∧ seq_bidders loaded_db ≤ seq_bidders db'
      ∧ seq_bids loaded_db ≤ seq_bids db'.
Proof.
  split; [exact loaded_db_wf |].
  exact (load_parsed_rfq_leaves_the_other_rfqs_alone
           exact_float map_to_list "ME0004" (Some "AUDUBON") (Some "St105") None
           (Some "2025-11-10") (Some "bids.xlsx") (Some "Bids")
           (items_of (parse_rows gasket_rows "Bids")) false None
           "2025-11-11 08:00:00" loaded_db loaded_db_wf).
Defined.

(** [delete_rfq] on consistent tables removes the RFQ with its items and
    its bids and nothing else: the tables stay consistent, every other RFQ
    keeps its row, its items and its bids, the bidders and the key
    sequences are untouched, and deleting once more changes nothing. *)
Theorem delete_rfq_removes_the_rfq_and_nothing_else :
  ∀ (F : PyFloat) (rfq_id : string) (db : database),
    db_wf db →
    let db' := delete_rfq rfq_id db in
    db_wf db'
    ∧ rfq_exists rfq_id db' = false
    ∧ items_of_rfq rfq_id db' = []
    ∧ (∀ b, b ∈ t_bids db' → bid_rfq_id b ≠ rfq_id)
    ∧ (∀ other, other ≠ rfq_id →
         rfq_exists other db' = rfq_exists other db
         ∧ List.filter (λ r, String.eqb (r_rfq_id r) other) (t_rfqs db')
           = List.filter (λ r, String.eqb (r_rfq_id r) other) (t_rfqs db)
         ∧ items_of_rfq other db' = items_of_rfq other db
         ∧ bids_with_names other db' = bids_with_names other db)
    ∧ t_bidders db' = t_bidders db
    ∧ seq_items db' = seq_items db
    ∧ seq_bidders db' = seq_bidders db
    ∧ seq_bids db' = seq_bids db
    ∧ delete_rfq rfq_id db' = db'.
Proof.
  intros F rfq_id db Hwf db'. subst db'.
  pose proof (delete_rfq_wf rfq_id db Hwf) as Hwf'.
  pose proof (delete_rfq_absent rfq_id db) as Hno.
  split; [done |]. split; [done |].
  split; [apply (wf_rfq_absent rfq_id _ Hwf' Hno) |]. split.
  { intros b Hb Heq. apply (wf_bid_rfq _ Hwf') in Hb. congruence. }
  split.
  { intros other Hne.
    assert (String.eqb other rfq_id = false) as Hneb by by apply String.eqb_neq.
    split; [by apply delete_rfq_other |]. split; [by apply delete_rfq_rows |].
    rewrite delete_rfq_items, delete_rfq_bids_with_names by done.
    by rewrite Hneb. }
  unfold delete_rfq at 1 2 3 4.
  split; [by destruct (rfq_exists rfq_id db) |].
  split; [by destruct (rfq_exists rfq_id db) |].
  split; [by destruct (rfq_exists rfq_id db) |].
  split; [by destruct (rfq_exists rfq_id db) |].
  unfold delete_rfq at 1. by rewrite Hno.
Qed.

Lemma delete_rfq_witness :
  db_wf loaded_db
  ∧ (let db' := delete_rfq "ME0003" loaded_db in
     db_wf db'
     ∧ rfq_exists "ME0003" db' = false
     ∧ items_of_rfq "ME0003" db' = []
     ∧ (∀ b, b ∈ t_bids db' → bid_rfq_id b ≠ "ME0003")
     ∧ (∀ other, other ≠ "ME0003" →
          rfq_exists other db' = rfq_exists other loaded_db
          ∧ List.filter (λ r, String.eqb (r_rfq_id r) other) (t_rfqs db')
            = List.filter (λ r, String.eqb (r_rfq_id r) other)
                          (t_rfqs loaded_db)
          ∧ items_of_rfq other db' = items_of_rfq other loaded_db
          ∧ bids_with_names other db' = bids_with_names other loaded_db)
     ∧ t_bidders db' = t_bidders loaded_db
     ∧ seq_items db' = seq_items loaded_db
     ∧ seq_bidders db' = seq_bidders loaded_db
     ∧ seq_bids db' = seq_bids loaded_db
     ∧ delete_rfq "ME0003" db' = db').
Proof.
  split; [exact loaded_db_wf |].
  exact (delete_rfq_removes_the_rfq_and_nothing_else
           exact_float "ME0003" loaded_db loaded_db_wf).
Defined.

(** [get_or_create_bidder] on consistent tables never raises.  It returns
    the key of the row of the name, adds that row only when the name is
    new, leaves every other row of every table as it is, and asked again
    gives the same key without changing the tables. *)
Theorem get_or_create_bidder_is_idempotent :
  ∀ (F : PyFloat) (name : string) (db : database),
    db_wf db →
    ∃ id db',
      get_or_create_bidder name db = Some (id, db')
      ∧ db_wf db'
      ∧ get_or_create_bidder name db' = Some (id, db')
      ∧ (∀ d, d ∈ t_bidders db' ↔
              d ∈ t_bidders db ∨ d = {| d_id := id; d_name := name |})
      ∧ (name ∈ map d_name (t_bidders db) → db' = db)
      ∧ ((name ∉ map d_name (t_bidders db)) → ∀ d, d ∈ t_bidders db → d_id d < id)
      ∧ t_rfqs db' = t_rfqs db ∧ t_items db' = t_items db ∧ t_bids db' = t_bids db.
Proof.
  intros F name db Hwf.
  destruct (get_or_create_bidder_spec name db Hwf)
    as (id & db' & Hget & Hwf' & Hrow & Hr & Hi & Hb & _ & _ & _ & Hcase).
  exists id, db'. split; [done |]. split; [done |]. split; [| split; [| split; [| split]]].
  - unfold get_or_create_bidder.
    by rewrite (find_name_spec _ name {| d_id := id; d_name := name |});
      [| apply Hwf' | |].
  - intros d. destruct Hcase as [[_ ->] | (_ & _ & ->)].
    + split; [by left | intros [H | ->]; done].
    + rewrite elem_of_app, list_elem_of_singleton. done.
  - intros Hin. destruct Hcase as [[_ ->] | (Hnot & _)]; done.
  - intros Hnot d Hd. destruct Hcase as [[Hin _] | (_ & -> & _)]; [done |].
    apply (wf_seq_bidders db Hwf) in Hd. lia.
  - done.
Qed.

Lemma get_or_create_bidder_witness :
  db_wf loaded_db
  ∧ ∃ id db',
      get_or_create_bidder "WHITCO" loaded_db = Some (id, db')
      ∧ db_wf db'
      ∧ get_or_create_bidder "WHITCO" db' = Some (id, db')
      ∧ (∀ d, d ∈ t_bidders db' ↔
              d ∈ t_bidders loaded_db
              ∨ d = {| d_id := id; d_name := "WHITCO" |})
      ∧ ("WHITCO" ∈ map d_name (t_bidders loaded_db) → db' = loaded_db)
      ∧ (("WHITCO" ∉ map d_name (t_bidders loaded_db)) →
         ∀ d, d ∈ t_bidders loaded_db → d_id d < id)
      ∧ t_rfqs db' = t_rfqs loaded_db
      ∧ t_items db' = t_items loaded_db
      ∧ t_bids db' = t_bids loaded_db.
Proof.
  split; [exact loaded_db_wf |].
  exact (get_or_create_bidder_is_idempotent exact_float "WHITCO" loaded_db loaded_db_wf).
Defined.

(** A workbook loaded, read back and deleted. *)
Example load_and_delete_scenario :
  map r_rfq_id (t_rfqs loaded_db) = ["ME0003"]
  ∧ map (λ it, (db_id it, db_item_number it, db_item_type it))
        (items_of_rfq "ME0003" loaded_db)
    = [(1, Some "1", Some "GASKET")]
  ∧ map (λ r, (rec_item_id r, rec_bidder r)) (bids_with_names "ME0003" loaded_db)
    = [(1, "WHITCO")]
  ∧ get_all_bidders loaded_db = ["WHITCO"]
  ∧ t_items (delete_rfq "ME0003" loaded_db) = []
  ∧ t_bids (delete_rfq "ME0003" loaded_db) = []
  ∧ get_all_bidders (delete_rfq "ME0003" loaded_db) = ["WHITCO"]
  ∧ seq_items (delete_rfq "ME0003" loaded_db) = 1.
Proof. repeat split; vm_compute; reflexivity. Qed.

(** ** More on the estimator *)

Section Matches.
Context {F : PyFloat}.

Lemma insert_desc_perm (x : float * hist_row) (l : list (float * hist_row)) :
  insert_desc x l ≡ₚ x :: l.
Proof.
  induction l as [|y l IH]; simpl; [done |].
  destruct (fltb y.1 x.1); [done |]. rewrite IH. apply perm_swap.
Qed.

Lemma sort_desc_perm (l : list (float * hist_row)) : sort_desc l ≡ₚ l.
Proof.
  unfold sort_desc.
  assert (∀ acc, foldl (λ acc x, insert_desc x acc) acc l ≡ₚ acc ++ l) as H.
  { induction l as [|x l IH]; intros acc; simpl; [by rewrite app_nil_r |].
    rewrite IH, insert_desc_perm. apply Permutation_middle. }
  apply (H []).
Qed.

Lemma dedup_fold_spec (l : list (float * hist_row))
    (kept : list (float * hist_row)) :
  NoDup (map match_key kept) →
  ∃ more,
    foldl dedup_step (map match_key kept, kept) l
    = (map match_key (kept ++ more), kept ++ more)
    ∧ NoDup (map match_key (kept ++ more))
    ∧ (∀ sc, sc ∈ l → match_key sc ∈ map match_key (kept ++ more))
    ∧ (∀ sc', sc' ∈ more →
         (match_key sc' ∉ map match_key kept)
         ∧ ∃ l1 l2, l = l1 ++ sc' :: l2
                    ∧ ∀ sc, sc ∈ l1 → match_key sc ≠ match_key sc').
Proof.
  revert kept. induction l as [|x l IH]; intros kept Hnd.
  - exists []. rewrite app_nil_r. simpl. split; [done |]. split; [done |].
    split; intros sc Hsc; inversion Hsc.
  - cbn [foldl]. unfold dedup_step at 2. fold (match_key x).
    destruct (decide (match_key x ∈ map match_key kept)) as [Hin | Hnot].
    + destruct (IH kept Hnd) as (more & Heq & Hnd' & Hall & Hfirst).
      exists more. split; [done |]. split; [done |]. split.
      * intros sc Hsc. apply elem_of_cons in Hsc as [-> | Hsc]; [| by apply Hall].
        rewrite map_app. apply elem_of_app. by left.
      * intros sc' Hsc'. destruct (Hfirst sc' Hsc') as (Hk & l1 & l2 & -> & Hl1).
        split; [done |]. exists (x :: l1), l2. split; [done |].
        intros sc Hsc. apply elem_of_cons in Hsc as [-> | Hsc]; [| by apply Hl1].
        intros Heq'. apply Hk. by rewrite <- Heq'.
    + assert (NoDup (map match_key (kept ++ [x]))) as Hnd1.
      { rewrite map_app. simpl. apply NoDup_app. split; [done |]. split.
        - intros k Hk Hk'. by apply list_elem_of_singleton in Hk' as ->.
        - apply NoDup_singleton. }
      destruct (IH (kept ++ [x]) Hnd1) as (more & Heq & Hnd' & Hall & Hfirst).
      exists (x :: more).
      replace (kept ++ x :: more) with ((kept ++ [x]) ++ more)
        by by rewrite <- app_assoc.
      split; [by rewrite <- Heq, map_app |]. split; [done |]. split.
      * intros sc Hsc. apply elem_of_cons in Hsc as [-> | Hsc]; [| by apply Hall].
        rewrite !map_app. apply elem_of_app. left. apply elem_of_app. right. left.
      * intros sc' Hsc'. apply elem_of_cons in Hsc' as [-> | Hsc'].
        -- split; [done |]. exists [], l. split; [done |]. intros sc Hsc. inversion Hsc.
        -- destruct (Hfirst sc' Hsc') as (Hk & l1 & l2 & -> & Hl1).
           rewrite map_app in Hk. split.
           ++ intros Hin. apply Hk. apply elem_of_app. by left.
           ++ exists (x :: l1), l2. split; [done |].
              intros sc Hsc. apply elem_of_cons in Hsc as [-> | Hsc]; [| by apply Hl1].
              intros Heq'. apply Hk. apply elem_of_app. right. rewrite <- Heq'. left.
Qed.

Lemma dedup_spec (l : list (float * hist_row)) :
  NoDup (map match_key (dedup l))
  ∧ (∀ sc, sc ∈ l → match_key sc ∈ map match_key (dedup l))
  ∧ (∀ sc', sc' ∈ dedup l →
       ∃ l1 l2, l = l1 ++ sc' :: l2 ∧ ∀ sc, sc ∈ l1 → match_key sc ≠ match_key sc').
Proof.
  unfold dedup.
  destruct (dedup_fold_spec l [] (NoDup_nil_2)) as (more & Heq & Hnd & Hall & Hfirst).
  simpl in *. rewrite Heq. simpl. split; [done |]. split; [done |].
  intros sc' Hsc'. by destruct (Hfirst sc' Hsc') as [_ H].
Qed.

Lemma estimate_item_Some (hist : gmap (option string) (list hist_row))
    (titem : db_item) :
  ∃ e, estimate_item hist titem = Some e
    ∧ est_item e = titem
    ∧ ((retained hist titem = []
        ∧ e = no_estimate titem)
       ∨ (retained hist titem ≠ []
          ∧ est_confidence e ≠ NONE
          ∧ est_matches e ≠ []
          ∧ length (est_matches e) ≤ 8
          ∧ length (est_matches e) ≤ length (retained hist titem)
          ∧ is_Some (est_unit_min e) ∧ is_Some (est_unit_mean e)
          ∧ is_Some (est_unit_max e))).
Proof.
  unfold estimate_item.
  destruct (default [] (hist !! db_item_type titem)) as [|c0 cs] eqn:Hcands.
  { exists (no_estimate titem). split; [done |]. split; [done |]. left.
    split; [| done]. unfold retained. by rewrite Hcands. }
  destruct (sort_desc (retained hist titem)) as [|best rest] eqn:Hsort.
  { exists (no_estimate titem). split; [done |]. split; [done |]. left.
    split; [| done]. apply Permutation_nil. symmetry.
    rewrite <- Hsort. by rewrite sort_desc_perm. }
  pose proof (sort_desc_perm (retained hist titem)) as Hperm. rewrite Hsort in Hperm.
  destruct (dedup_spec (best :: rest)) as (Hnd & _ & _).
  destruct (dedup_cons best rest) as [more Hded]. rewrite Hded in *. cbn [map].
  eexists. split; [done |]. cbn. split; [done |]. right.
  split; [intros Hnil; rewrite Hnil in Hperm; symmetry in Hperm;
          by apply Permutation_nil_cons in Hperm |].
  split; [unfold confidence_of; by repeat destruct (fleb _ _) |].
  split; [done |]. split; [rewrite length_take; lia |].
  split; [| by repeat split; eexists].
  rewrite length_take, length_map, <- (Permutation_length Hperm). cbn [length].
  assert (length (dedup (best :: rest)) ≤ length (best :: rest)) as Hlen;
    [| rewrite Hded in Hlen; cbn [length] in Hlen; lia].
  apply sublist_length.
  clear. unfold dedup.
  assert (∀ l seen kept, ∃ more,
            (foldl dedup_step (seen, kept) l).2 = kept ++ more ∧ more `sublist_of` l)
    as H.
  { induction l as [|x l IH]; intros seen kept.
    - exists []. by rewrite app_nil_r.
    - cbn [foldl]. unfold dedup_step at 2. destruct (decide _).
      + destruct (IH seen kept) as (more & -> & Hsub). exists more.
        split; [done | by apply sublist_cons].
      + destruct (IH (seen ++ [(h_rfq_id x.2, h_bidder x.2, h_specification x.2)])
                     (kept ++ [x])) as (more & -> & Hsub).
        exists (x :: more). split; [by rewrite <- app_assoc | by apply sublist_skip]. }
  destruct (H (best :: rest) [] []) as (more & -> & Hsub). done.
Qed.

End Matches.

(** [estimate_rfq] answers 404 only for an RFQ without items; otherwise the
    list of estimates has exactly one entry for each target item, in the
    order of the items: no item is passed over, the [continue] on an empty
    price list is never taken.  An entry has confidence NONE exactly when
    no historical bid is retained for the item, and then it has no matches
    and no estimate; otherwise it has between one and eight matches and
    its three unit estimates. *)
Theorem estimate_rfq_has_one_entry_per_item :
  ∀ (F : PyFloat) (target_items : list db_item) (hist_bids : list hist_row),
    match estimate_rfq target_items hist_bids with
    | None => target_items = []
    | Some estimates =>
        target_items ≠ []
        ∧ map est_item estimates = target_items
        ∧ ∀ e, e ∈ estimates →
            let kept := retained (hist_by_type hist_bids) (est_item e) in
            (est_confidence e = NONE ↔ kept = [])
            ∧ (kept = [] → e = no_estimate (est_item e))
            ∧ (kept ≠ [] →
               1 ≤ length (est_matches e) ≤ 8
               ∧ length (est_matches e) ≤ length kept
               ∧ is_Some (est_unit_min e) ∧ is_Some (est_unit_mean e)
               ∧ is_Some (est_unit_max e))
    end.
Proof.
  intros F target_items hist_bids. unfold estimate_rfq.
  destruct target_items as [|t0 ts]; [done |]. split; [done |].
  generalize (t0 :: ts). intros target. split.
  - induction target as [|t target IH]; [done |].
    change (omap ?f (t :: target))
      with (match f t with Some y => y :: omap f target | None => omap f target end).
    destruct (estimate_item_Some (hist_by_type hist_bids) t) as (e & -> & He & _).
    simpl. by rewrite He, IH.
  - intros e He.
    apply list_elem_of_omap in He as (t & Ht & He).
    destruct (estimate_item_Some (hist_by_type hist_bids) t)
      as (e' & He' & Hitem & Hcase).
    rewrite He in He'. injection He' as <-. rewrite Hitem.
    destruct Hcase as [[Hnil ->] | (Hne & Hconf & Hm & H8 & Hlen & Hmin & Hmean & Hmax)].
    + simpl. rewrite Hnil. done.
    + split; [split; intros; done |]. split; [done |]. intros _.
      split; [| done]. split; [| done]. destruct (est_matches e); [done | simpl; lia].
Qed.

Section BestPerKey.
Context {F : PyFloat} {Hord : PyFloatOrder F}.

Lemma dedup_sorted_best (l : list (float * hist_row)) :
  StronglySorted not_below l →
  ∀ sc, sc ∈ l →
    ∃ sc', sc' ∈ dedup l ∧ match_key sc' = match_key sc ∧ fleb sc.1 sc'.1 = true.
Proof.
  intros Hs sc Hsc. destruct (dedup_spec l) as (Hnd & Hall & Hfirst).
  specialize (Hall sc Hsc). apply elem_of_map_iff in Hall as (sc' & Hsc' & Hkey).
  exists sc'. split; [done |]. split; [done |].
  destruct (Hfirst sc' Hsc') as (l1 & l2 & -> & Hl1).
  apply elem_of_app in Hsc as [Hsc | Hsc]; [by destruct (Hl1 sc Hsc) |].
  apply elem_of_cons in Hsc as [-> | Hsc]; [apply fleb_refl |].
  apply StronglySorted_app_1_r, StronglySorted_cons in Hs as [Hall _].
  rewrite Forall_forall in Hall. specialize (Hall sc Hsc). unfold not_below in Hall.
  by rewrite fleb_spec, Hall.
Qed.

End BestPerKey.

(** The matches kept for an item, after the sort by score and the
    de-duplication: they are matches that were scored, no two of them share
    the RFQ, the bidder and the specification, and for every scored match
    the kept match of the same RFQ, bidder and specification has a score
    that is not lower; the kept matches are still in the order of
    descending score. *)
Theorem kept_matches_are_the_best_of_each_key :
  ∀ (F : PyFloat) (Hord : PyFloatOrder F) (scored : list (float * hist_row)),
    let kept := dedup (sort_desc scored) in
    NoDup (map match_key kept)
    ∧ (∀ sc, sc ∈ kept → sc ∈ scored)
    ∧ (∀ sc, sc ∈ scored →
         ∃ sc', sc' ∈ kept ∧ match_key sc' = match_key sc ∧ fleb sc.1 sc'.1 = true)
    ∧ StronglySorted not_below kept.
Proof.
  intros F Hord scored kept. subst kept.
  destruct (sort_desc_spec scored) as [Hs Hin].
  destruct (dedup_spec (sort_desc scored)) as (Hnd & Hall & Hfirst).
  split; [done |]. split; [| split].
  - intros sc Hsc. apply Hin. destruct (Hfirst sc Hsc) as (l1 & l2 & -> & _).
    apply elem_of_app. right. left.
  - intros sc Hsc. apply dedup_sorted_best; [done | by apply Hin].
  - assert (∀ l, StronglySorted not_below l → StronglySorted not_below (dedup l)) as Hsub.
    { clear. intros l Hl. unfold dedup.
      assert (∀ l seen kept,
                StronglySorted not_below (kept ++ l) →
                StronglySorted not_below (foldl dedup_step (seen, kept) l).2) as H.
      { clear. induction l as [|x l IH]; intros seen kept Hs.
        - simpl. by rewrite app_nil_r in Hs.
        - cbn [foldl]. unfold dedup_step at 2. destruct (decide _).
          + apply IH. apply StronglySorted_app in Hs as (Hcross & Hk & Hl).
            apply StronglySorted_cons in Hl as [_ Hl].
            apply StronglySorted_app. split; [| done].
            intros a Ha b Hb. apply Hcross; [done | by right].
          + apply IH. by rewrite <- app_assoc. }
      by apply (H l [] []). }
    by apply Hsub.
Qed.

Lemma kept_matches_witness :
  PyFloatOrder exact_float
  ∧ (let scored := retained (hist_by_type history) target_pipe in
     let kept := dedup (sort_desc scored) in
     NoDup (map match_key kept)
     ∧ (∀ sc, sc ∈ kept → sc ∈ scored)
     ∧ (∀ sc, sc ∈ scored →
          ∃ sc', sc' ∈ kept ∧ match_key sc' = match_key sc ∧ fleb sc.1 sc'.1 = true)
     ∧ StronglySorted not_below kept).
Proof.
  split; [exact exact_float_order |].
  exact (kept_matches_are_the_best_of_each_key exact_float exact_float_order
           (retained (hist_by_type history) target_pipe)).
Defined.

(** ** The tokens of a specification *)

Lemma split_runs_spec (p : ascii → bool) (l cur : list ascii) (skipping : bool)
    (r : list ascii) :
  r ≠ [] → (skipping = true → cur = []) →
  r ∈ PyStr.split_runs p cur skipping l ↔
  (∃ a post, l = a ++ post ∧ r = rev cur ++ a ∧ Forall (λ c, p c = false) a
             ∧ (post = [] ∨ ∃ c post', post = c :: post' ∧ p c = true))
  ∨ (∃ pre c post, l = pre ++ [c] ++ r ++ post ∧ p c = true
                   ∧ Forall (λ c, p c = false) r
                   ∧ (post = [] ∨ ∃ c' post', post = c' :: post' ∧ p c' = true)).
Proof.
  intros Hr. revert cur skipping. induction l as [|c t IH]; intros cur skipping Hsk.
  - simpl. rewrite list_elem_of_singleton. split.
    + intros ->. left. exists [], [].
      split; [done |]. split; [by rewrite app_nil_r |]. split; [done | by left].
    + intros [(a & post & Hl & -> & _) | (pre & c & post & Hl & _)].
      * symmetry in Hl. apply app_eq_nil in Hl as [-> _]. by rewrite app_nil_r.
      * by destruct pre.
  - cbn [PyStr.split_runs]. destruct (p c) eqn:Hc.
    + assert ((∃ pre c0 post, c :: t = pre ++ [c0] ++ r ++ post ∧ p c0 = true
                 ∧ Forall (λ c, p c = false) r
                 ∧ (post = [] ∨ ∃ c' post', post = c' :: post' ∧ p c' = true))
              ↔ r ∈ PyStr.split_runs p [] true t) as Hrest.
      { rewrite (IH [] true) by done. simpl. split.
        - intros (pre & c0 & post & Hl & Hc0 & Hnd & Hpost).
          destruct pre as [|x pre]; simpl in Hl; injection Hl as -> ->.
          + left. by exists r, post.
          + right. by exists pre, c0, post.
        - intros [(a & post & -> & -> & Hnd & Hpost)
                 | (pre & c0 & post & -> & Hc0 & Hnd & Hpost)].
          + by exists [], c, post.
          + by exists (c :: pre), c0, post. }
      assert ((∃ a post, c :: t = a ++ post ∧ r = rev cur ++ a
                 ∧ Forall (λ c, p c = false) a
                 ∧ (post = [] ∨ ∃ c post', post = c :: post' ∧ p c = true))
              ↔ r = rev cur) as Hfirst.
      { split.
        - intros (a & post & Hl & -> & Hnd & _). destruct a as [|x a].
          + by rewrite app_nil_r.
          + simpl in Hl. injection Hl as <- _. apply Forall_cons in Hnd as [Hx _].
            congruence.
        - intros ->. exists [], (c :: t). rewrite app_nil_r.
          split; [done |]. split; [done |]. split; [done |]. right. by exists c, t. }
      destruct skipping.
      * rewrite (Hsk eq_refl) in *. rewrite <- Hrest, Hfirst. simpl.
        split; [by right | intros [-> | H]; done].
      * rewrite elem_of_cons, <- Hrest, Hfirst. done.
    + rewrite (IH (c :: cur) false) by done. simpl. split.
      * intros [(a & post & -> & -> & Hnd & Hpost)
               | (pre & c0 & post & -> & Hc0 & Hnd & Hpost)].
        -- left. exists (c :: a), post. rewrite <- app_assoc.
           split; [done |]. split; [done |]. split; [| done].
           by apply Forall_cons.
        -- right. by exists (c :: pre), c0, post.
      * intros [(a & post & Hl & -> & Hnd & Hpost)
               | (pre & c0 & post & Hl & Hc0 & Hnd & Hpost)].
        -- destruct a as [|x a]; simpl in Hl.
           ++ destruct Hpost as [-> | (c' & post' & -> & Hc')]; [done |].
              injection Hl as <- _. congruence.
           ++ injection Hl as <- ->. apply Forall_cons in Hnd as [_ Hnd].
              left. exists a, post. by rewrite <- app_assoc.
        -- destruct pre as [|x pre]; simpl in Hl; injection Hl as -> ->.
           ++ congruence.
           ++ right. by exists pre, c0, post.
Qed.

Lemma split_runs_maximal (p : ascii → bool) (l r : list ascii) :
  r ≠ [] → r ∈ PyStr.split_runs p [] false l ↔ maximal_run p l r.
Proof.
  intros Hr. rewrite split_runs_spec by done. unfold maximal_run. simpl. split.
  - intros [(a & post & -> & -> & Hnd & Hpost)
           | (pre & c & post & -> & Hc & Hnd & Hpost)].
    + exists [], post. split; [done |]. split; [done |]. split; [by left | done].
    + exists (pre ++ [c]), post. rewrite <- app_assoc.
      split; [done |]. split; [done |]. split; [right; by exists pre, c | done].
  - intros (pre & post & -> & Hnd & [-> | (pre' & c & -> & Hc)] & Hpost).
    + left. by exists r, post.
    + right. exists pre', c, post. by rewrite <- app_assoc.
Qed.

Lemma of_chars_chars (s : string) : PyStr.of_chars (PyStr.chars s) = s.
Proof. apply string_of_list_ascii_of_string. Qed.

Lemma chars_of_chars (l : list ascii) : PyStr.chars (PyStr.of_chars l) = l.
Proof. apply list_ascii_of_string_of_list_ascii. Qed.

Lemma mem_spec (x : string) (S : list string) : PyStr.mem x S = true ↔ x ∈ S.
Proof.
  unfold PyStr.mem. rewrite existsb_exists. split.
  - intros (y & Hy & Heq). apply String.eqb_eq in Heq as ->. by apply list_elem_of_In.
  - intros Hx. exists x. split; [by apply list_elem_of_In | apply String.eqb_refl].
Qed.

Lemma upper_char_not_lower (c : ascii) : PyStr.is_lower (PyStr.upper_char c) = false.
Proof. destruct c as [[] [] [] [] [] [] [] []]; vm_compute; reflexivity. Qed.

Lemma upper_lower_char (c : ascii) :
  PyStr.upper_char (PyStr.lower_char c) = PyStr.upper_char c.
Proof. destruct c as [[] [] [] [] [] [] [] []]; vm_compute; reflexivity. Qed.

Lemma upper_upper_char (c : ascii) :
  PyStr.upper_char (PyStr.upper_char c) = PyStr.upper_char c.
Proof. destruct c as [[] [] [] [] [] [] [] []]; vm_compute; reflexivity. Qed.

Lemma nonempty_of_chars_map (f : ascii → ascii) (s : string) :
  PyStr.nonempty (PyStr.of_chars (map f (PyStr.chars s))) = PyStr.nonempty s.
Proof. by destruct s. Qed.

(** The tokens of a specification are exactly the pieces of its upper-case
    text between runs of the delimiters (white space, comma, slash,
    brackets, hyphen) that have two characters or more and are none of the
    seven stop words.  So a token holds no delimiter and none of the
    letters a to z; and the tokens of an ASCII text do not depend on its
    case (outside ASCII they can: lower-casing, then upper-casing, does not
    always give back the upper-case text). *)
Theorem tokens_are_the_long_pieces_between_delimiters :
  ∀ (spec t : string),
    (t ∈ _tokenise_spec spec ↔
       2 ≤ PyStr.len t ∧ (t ∉ stop_words)
       ∧ maximal_run spec_delimiter (PyStr.chars (PyStr.upper spec)) (PyStr.chars t))
    ∧ (t ∈ _tokenise_spec spec →
         Forall (λ c, spec_delimiter c = false ∧ PyStr.is_lower c = false)
                (PyStr.chars t))
    ∧ (ascii_text spec →
         _tokenise_spec (PyStr.lower spec) = _tokenise_spec spec
         ∧ _tokenise_spec (PyStr.upper spec) = _tokenise_spec spec).
Proof.
  intros spec t.
  assert (t ∈ _tokenise_spec spec ↔
            2 ≤ PyStr.len t ∧ (t ∉ stop_words)
            ∧ maximal_run spec_delimiter (PyStr.chars (PyStr.upper spec))
                          (PyStr.chars t)) as Hiff.
  { unfold _tokenise_spec. destruct (PyStr.nonempty spec) eqn:Hne; cbn [negb].
    - rewrite elem_of_list_to_set, elem_of_filter_bool, andb_true_iff.
      rewrite Nat.leb_le, negb_true_iff, <- not_true_iff_false, mem_spec.
      rewrite elem_of_map_iff. fold stop_words. split.
      + intros [(r & Hr & <-) [Hlen Hskip]]. split; [done |]. split; [done |].
        rewrite chars_of_chars. apply split_runs_maximal; [| done].
        intros ->. unfold PyStr.len in Hlen. simpl in Hlen. lia.
      + intros (Hlen & Hskip & Hrun). split; [| done].
        exists (PyStr.chars t). split; [| apply of_chars_chars].
        apply split_runs_maximal; [| done].
        intros Hnil. unfold PyStr.len in Hlen. rewrite Hnil in Hlen. simpl in Hlen. lia.
    - destruct spec; [| done]. split; [intros H; inversion H |].
      intros (Hlen & _ & pre & post & Heq & _). exfalso.
      change (PyStr.chars (PyStr.upper "")) with (@nil ascii) in Heq.
      symmetry in Heq. apply app_eq_nil in Heq as [_ Heq].
      apply app_eq_nil in Heq as [Heq _]. unfold PyStr.len in Hlen.
      rewrite Heq in Hlen. simpl in Hlen. lia. }
  split; [done |]. split; [| intros _; split].
  - intros Ht. apply Hiff in Ht as (_ & _ & pre & post & Heq & Hnd & _).
    apply Forall_forall. intros c Hc. split.
    + rewrite Forall_forall in Hnd. by apply Hnd.
    + assert (c ∈ PyStr.chars (PyStr.upper spec)) as Hin.
      { rewrite Heq. apply elem_of_app. right. apply elem_of_app. by left. }
      unfold PyStr.upper in Hin. rewrite chars_of_chars in Hin.
      apply elem_of_map_iff in Hin as (c0 & _ & <-). apply upper_char_not_lower.
  - unfold _tokenise_spec. unfold PyStr.lower at 1. rewrite nonempty_of_chars_map.
    destruct (PyStr.nonempty spec); [| done]. cbn [negb]. do 4 f_equal.
    unfold PyStr.upper, PyStr.lower. rewrite !chars_of_chars, map_map.
    apply map_ext. intros c. apply upper_lower_char.
  - unfold _tokenise_spec. unfold PyStr.upper at 1. rewrite nonempty_of_chars_map.
    destruct (PyStr.nonempty spec); [| done]. cbn [negb]. do 4 f_equal.
    unfold PyStr.upper. rewrite !chars_of_chars, map_map.
    apply map_ext. intros c. apply upper_upper_char.
Qed.

(** ** The item and description columns of a parsed sheet *)

Lemma matches_Void_left (s : Re.regex) (l : list ascii) :
  Re.matches_chars (Re.Cat Re.Void s) l = false.
Proof. induction l as [|c l IH]; [done | exact IH]. Qed.

Lemma is_infix_underscore (l : list ascii) :
  PyStr.is_infix ["_"%char] l = false → "_"%char ∉ l.
Proof.
  induction l as [|c l IH]; intros H Hin; [inversion Hin |].
  simpl in H. apply orb_false_iff in H as [Hc Hl].
  apply elem_of_cons in Hin as [<- | Hin]; [done | by apply IH].
Qed.

Lemma lower_char_underscore (c : ascii) :
  c = "_"%char → PyStr.lower_char c = "_"%char.
Proof. by intros ->. Qed.

Lemma lower_char_space (c : ascii) :
  PyStr.is_space (PyStr.lower_char c) = PyStr.is_space c.
Proof. destruct c as [[] [] [] [] [] [] [] []]; vm_compute; reflexivity. Qed.

Lemma replace_gt_space (c : ascii) :
  PyStr.is_space (if PyStr.ceqb c ">" then "."%char else c) = PyStr.is_space c.
Proof. destruct c as [[] [] [] [] [] [] [] []]; vm_compute; reflexivity. Qed.

Lemma words_go_length (f : ascii → ascii) (l cur : list ascii) :
  (∀ c, PyStr.is_space (f c) = PyStr.is_space c) →
  length (PyStr.words_go (map f cur) (map f l)) = length (PyStr.words_go cur l).
Proof.
  intros Hf. revert cur. induction l as [|c l IH]; intros cur; simpl.
  - by destruct cur.
  - rewrite Hf. destruct (PyStr.is_space c).
    + destruct cur; simpl; [apply (IH []) | f_equal; apply (IH [])].
    + apply (IH (c :: cur)).
Qed.

Lemma split_length_map (f : ascii → ascii) (s : string) :
  (∀ c, PyStr.is_space (f c) = PyStr.is_space c) →
  length (PyStr.split (PyStr.of_chars (map f (PyStr.chars s))))
  = length (PyStr.split s).
Proof.
  intros Hf. unfold PyStr.split. rewrite !length_map, chars_of_chars.
  apply (words_go_length f _ [] Hf).
Qed.

Section Located.
Context {F : PyFloat}.

Lemma lazy_prefix_None (rest pre : list ascii) :
  "_"%char ∉ rest → lazy_prefix pre rest = None.
Proof.
  revert pre. induction rest as [|c t IH]; intros pre Hnot; [done |].
  cbn [lazy_prefix].
  assert (Re.matches_chars after_prefix (c :: t) = false) as Hm.
  { change after_prefix
      with (Re.Cat (Re.Cls (PyStr.ceqb "_"))
                   (Re.seq [price_words Re.lit_i; Re.eol])).
    cbn [Re.matches_chars Re.deriv Re.nullable].
    destruct (PyStr.ceqb "_" c) eqn:Hc.
    - apply Ascii.eqb_eq in Hc as <-. destruct Hnot. left.
    - apply matches_Void_left. }
  rewrite Hm.
  assert (lazy_prefix (c :: pre) t = None) as ->.
  { apply IH. intros Hin. apply Hnot. by right. }
  destruct pre; by destruct (PyStr.ceqb c "010").
Qed.

(** A header cell whose lower-case text has no underscore, fewer than
    three words and none of the price suffixes is no compound price cell. *)
Lemma match_compound_plain (s syn : string) :
  PyStr.lower s = syn →
  (∀ s', match_unit_suffix s' syn UNIT_PRICE_SYNONYMS (None, None) = (None, None)) →
  (∀ s', match_ext_suffix s' syn EXT_PRICE_SYNONYMS (None, None) = (None, None)) →
  PyStr.contains "_" syn = false →
  length (PyStr.split syn) < 3 →
  match_compound s = (None, None).
Proof.
  intros Hlow Hunit Hext Hus Hwords. unfold match_compound. cbn zeta.
  rewrite Hlow, Hunit. cbn [no_bidder fst]. rewrite Hext. cbn [no_bidder fst].
  assert (match_regex s (None, None) = (None, None)) as ->.
  { unfold match_regex, match_underscore_regex. rewrite lazy_prefix_None; [done |].
    intros Hin. apply is_infix_underscore in Hus. apply Hus.
    rewrite <- Hlow. unfold PyStr.lower. rewrite chars_of_chars.
    apply elem_of_map_iff. by exists "_"%char. }
  cbn [no_bidder fst]. unfold match_spaced. cbn zeta.
  assert (length (PyStr.split (PyStr.replace_char ">" "." s)) = length (PyStr.split syn))
    as Hlen.
  { unfold PyStr.replace_char.
    rewrite (split_length_map (λ c, if PyStr.ceqb c ">" then "."%char else c))
      by apply replace_gt_space.
    rewrite <- Hlow. unfold PyStr.lower. symmetry.
    apply split_length_map, lower_char_space. }
  rewrite Hlen. by rewrite (proj2 (Nat.leb_gt _ _) Hwords).
Qed.

Lemma norm_not_none (h : pyval) :
  is_none h = false → _norm h = PyStr.lower (PyStr.strip (py_str h)).
Proof. by destruct h. Qed.

Lemma item_or_desc_cell (h : pyval) :
  _matches h ITEM_NUM_SYNONYMS = true ∨ _matches h DESC_SYNONYMS = true →
  is_none h = false ∧ compound_cell h = None
  ∧ rfq_key_of h = (if _matches h ITEM_NUM_SYNONYMS then Some k_item_num
                    else Some k_description).
Proof.
  intros Hm.
  assert (is_none h = false) as Hnone.
  { destruct h; try done. destruct Hm as [Hm | Hm]; vm_compute in Hm; discriminate. }
  split; [done |]. split.
  - unfold compound_cell. rewrite Hnone.
    assert (_norm h ∈ ITEM_NUM_SYNONYMS ++ DESC_SYNONYMS) as Hin.
    { apply elem_of_app. destruct Hm as [Hm | Hm]; [left | right]; by apply mem_spec. }
    rewrite (norm_not_none h Hnone) in Hin.
    change (ITEM_NUM_SYNONYMS ++ DESC_SYNONYMS)
      with ["item #"; "item#"; "item no"; "item no."; "item number"; "line no";
            "line no."; "description"; "desc"] in Hin.
    rewrite (match_compound_plain (PyStr.strip (py_str h))
               (PyStr.lower (PyStr.strip (py_str h)))); [done | done | | | |];
      revert Hin; generalize (PyStr.lower (PyStr.strip (py_str h))); intros syn Hin;
      repeat (apply elem_of_cons in Hin as [-> | Hin];
              [first [ intros s'; vm_compute; reflexivity
                     | apply Nat.ltb_lt; vm_compute; reflexivity
                     | vm_compute; reflexivity ] |]);
      inversion Hin.
  - unfold rfq_key_of. destruct (_matches h ITEM_NUM_SYNONYMS) eqn:Hitem; [done |].
    destruct Hm as [Hm | Hm]; [done |]. by rewrite Hm.
Qed.

Lemma last_omap_is_Some {A B} (f : A → option B) (l : list A) (x : A) :
  x ∈ l → is_Some (f x) → is_Some (last (omap f l)).
Proof.
  intros Hx [y Hy]. apply last_is_Some. intros Hnil.
  assert (y ∈ omap f l) as Hin by (apply list_elem_of_omap; by exists x).
  rewrite Hnil in Hin. inversion Hin.
Qed.

Lemma header_columns_located (header_cols : list pyval) :
  is_header_row header_cols = true →
  ∀ k, k = k_item_num ∨ k = k_description →
    is_Some (last (omap (rfq_col_b k) (enumerate header_cols)))
    ∧ is_Some (last (omap (rfq_col_ac k) (enumerate header_cols))).
Proof.
  intros Hrow k Hk. apply is_header_row_spec in Hrow as [(c & Hc & Hci) (d & Hd & Hdi)].
  assert (∃ h, h ∈ header_cols ∧ is_none h = false ∧ compound_cell h = None
               ∧ rfq_key_of h = Some k) as (h & Hh & Hnone & Hcell & Hkey).
  { destruct Hk as [-> | ->].
    - exists c. split; [done |].
      destruct (item_or_desc_cell c (or_introl Hci)) as (H1 & H2 & H3).
      by rewrite Hci in H3.
    - destruct (_matches d ITEM_NUM_SYNONYMS) eqn:Hitem.
      + (* a cell cannot match both *)
        exfalso. apply mem_spec in Hitem. apply mem_spec in Hdi.
        unfold _matches in *. revert Hitem Hdi. generalize (_norm d). intros s Hitem Hdi.
        repeat (apply elem_of_cons in Hdi as [-> | Hdi];
                [by apply mem_spec in Hitem; vm_compute in Hitem |]).
        inversion Hdi.
      + exists d. split; [done |].
        destruct (item_or_desc_cell d (or_intror Hdi)) as (H1 & H2 & H3).
        by rewrite Hitem in H3. }
  apply list_elem_of_lookup in Hh as [i Hi].
  assert ((i, h) ∈ enumerate header_cols) as Hin.
  { apply elem_of_enumerate_from. by exists i. }
  split; apply (last_omap_is_Some _ _ (i, h) Hin).
  - unfold rfq_col_b. simpl. rewrite Hnone, Hcell, decide_True by done. by eexists.
  - unfold rfq_col_ac. simpl. rewrite Hnone, decide_True by done. by eexists.
Qed.

Lemma sorted_names_nil (m : gmap string bidder_cols) : sorted_names m = [] ↔ m = ∅.
Proof.
  split.
  - intros Hnil. apply map_eq. intros b. rewrite lookup_empty.
    destruct (m !! b) as [v|] eqn:Hb; [| done].
    assert (b ∈ sorted_names m) as Hin by (apply elem_of_sorted_names; by exists v).
    rewrite Hnil in Hin. inversion Hin.
  - intros ->. unfold sorted_names. by rewrite map_to_list_empty.
Qed.

End Located.

(** Whenever a sheet is parsed its item-number and description columns have
    been located: a header row holds both, and in either header format the
    two cells are taken as RFQ columns.  So the warnings about a missing
    item or description column are never given; the only warning there can
    be is the one for no bidders, given exactly when the list of bidders is
    empty. *)
Theorem parsed_sheet_has_item_and_description_columns :
  ∀ (F : PyFloat) (rows : list (list pyval)) (sheet_name : string) (r : parsed),
    parse_rows rows sheet_name = Parsed r →
    is_Some (col_item_num (parsed_rfq_map r))
    ∧ is_Some (col_description (parsed_rfq_map r))
    ∧ ambiguities r
      = (if decide (bidders r = []) then ["No bidders detected automatically."] else []).
Proof.
  intros F rows sheet_name r. unfold parse_rows.
  destruct rows as [|row0 rows']; [discriminate |].
  destruct (_find_header_row (row0 :: rows')) as [[header_idx header_cols]|] eqn:Hfind;
    [| discriminate].
  unfold _find_header_row in Hfind. apply find_header_from_Some in Hfind as (j & _ & _ & Hrow & _).
  pose proof (header_columns_located header_cols Hrow) as Hloc.
  assert (∀ (fmt : sheet_format) (rfq_map : rfq_cols) (bidder_map : gmap string bidder_cols)
            (its : list item),
            is_Some (col_item_num rfq_map) → is_Some (col_description rfq_map) →
            Parsed {| format := fmt; parsed_sheet := sheet_name;
                      bidders := sorted_names bidder_map;
                      items := its;
                      ambiguities :=
                        (if decide (bidder_map = ∅)
                         then ["No bidders detected automatically."] else [])
                        ++ (if has_key (col_item_num rfq_map) then []
                            else ["Could not locate Item # column."])
                        ++ (if has_key (col_description rfq_map) then []
                            else ["Could not locate Description column."]);
                      parsed_rfq_map := rfq_map |} = Parsed r →
            is_Some (col_item_num (parsed_rfq_map r))
            ∧ is_Some (col_description (parsed_rfq_map r))
            ∧ ambiguities r
              = (if decide (bidders r = [])
                 then ["No bidders detected automatically."] else [])) as Hgen.
  { intros fmt rfq_map bidder_map its [i Hi] [d Hd] [= <-]. simpl.
    rewrite Hi, Hd. simpl. split; [by eexists |]. split; [by eexists |].
    rewrite app_nil_r.
    destruct (decide (bidder_map = ∅)) as [-> | Hne].
    - by rewrite decide_True by by apply sorted_names_nil.
    - rewrite decide_False; [done |]. intros Hnil. by apply sorted_names_nil in Hnil. }
  destruct (_detect_format_b header_cols).
  - pose proof (format_b_fold (enumerate header_cols) "" unit_price k_item_num) as Hi.
    pose proof (format_b_fold (enumerate header_cols) "" unit_price k_description) as Hd.
    cbn zeta in Hi, Hd. unfold _parse_format_b.
    destruct (foldl format_b_step (rfq_empty, ∅) (enumerate header_cols))
      as [rfq_map bidder_map].
    destruct Hi as (_ & Hi & _). destruct Hd as (_ & Hd & _). simpl in Hi, Hd.
    destruct (parse_items rfq_map bidder_map _) as [its|]; [| discriminate].
    apply Hgen.
    + rewrite Hi. apply (Hloc k_item_num). by left.
    + rewrite Hd. apply (Hloc k_description). by right.
  - pose proof (format_ac_fold (enumerate header_cols) k_item_num) as Hi.
    pose proof (format_ac_fold (enumerate header_cols) k_description) as Hd.
    unfold _parse_format_ac, header_roles.
    destruct (foldl format_ac_step (rfq_empty, []) (enumerate header_cols))
      as [rfq_map col_roles].
    simpl in Hi, Hd.
    destruct (parse_items rfq_map _ _) as [its|]; [| discriminate].
    apply Hgen.
    + rewrite Hi. apply (Hloc k_item_num). by left.
    + rewrite Hd. apply (Hloc k_description). by right.
Qed.

Lemma parsed_sheet_columns_witness :
  ∃ r, parse_rows unquoted_rows "Bids" = Parsed r
       ∧ is_Some (col_item_num (parsed_rfq_map r))
       ∧ is_Some (col_description (parsed_rfq_map r))
       ∧ ambiguities r
         = (if decide (bidders r = [])
            then ["No bidders detected automatically."] else []).
Proof.
  eexists. split; [reflexivity |].
  apply (parsed_sheet_has_item_and_description_columns exact_float unquoted_rows "Bids").
  reflexivity.
Defined.

(** ** The type and the specification of an item *)

Lemma lstrip_by_suffix (p : ascii → bool) (l : list ascii) :
  ∃ pre, l = pre ++ PyStr.lstrip_by p l ∧ Forall (λ c, p c = true) pre
         ∧ match PyStr.lstrip_by p l with [] => True | c :: _ => p c = false end.
Proof.
  induction l as [|c l (pre & Heq & Hpre & Hhead)]; simpl.
  - by exists [].
  - destruct (p c) eqn:Hc.
    + exists (c :: pre). simpl. rewrite <- Heq. by repeat split; [apply Forall_cons |].
    + exists []. by repeat split.
Qed.

Lemma strip_chars_spec (l : list ascii) :
  ∃ pre post, l = pre ++ PyStr.strip_chars l ++ post
    ∧ Forall (λ c, PyStr.is_space c = true) pre
    ∧ Forall (λ c, PyStr.is_space c = true) post
    ∧ match PyStr.strip_chars l with [] => True | c :: _ => PyStr.is_space c = false end
    ∧ match last (PyStr.strip_chars l) with None => True
                                         | Some c => PyStr.is_space c = false end.
Proof.
  unfold PyStr.strip_chars, PyStr.rstrip_by.
  destruct (lstrip_by_suffix PyStr.is_space l) as (pre & Hl & Hpre & Hhead).
  set (m := PyStr.lstrip_by PyStr.is_space l) in *.
  destruct (lstrip_by_suffix PyStr.is_space (rev m)) as (post & Hm & Hpost & Hlast).
  set (k := PyStr.lstrip_by PyStr.is_space (rev m)) in *.
  assert (m = rev k ++ rev post) as Hmk.
  { rewrite <- rev_app_distr, <- Hm. by rewrite rev_involutive. }
  exists pre, (rev post). split; [by rewrite <- Hmk |].
  split; [done |]. split; [by apply Forall_rev |]. split.
  - destruct (rev k) as [|c t] eqn:Hk; [done |]. rewrite Hmk in Hhead. done.
  - destruct k as [|c t]; [done |]. simpl. by rewrite last_snoc.
Qed.

Lemma strip_chars_elem (l : list ascii) (c : ascii) :
  c ∈ PyStr.strip_chars l → c ∈ l.
Proof.
  destruct (strip_chars_spec l) as (pre & post & Heq & _). intros Hc.
  rewrite Heq. apply elem_of_app. right. apply elem_of_app. by left.
Qed.

Lemma split1_chars_spec (sep : ascii) (l : list ascii) :
  match PyStr.split1_chars sep l with
  | (a, Some b) => l = a ++ sep :: b ∧ sep ∉ a
  | (a, None) => l = a ∧ sep ∉ a
  end.
Proof.
  induction l as [|c l IH]; simpl.
  - split; [done | intros H; inversion H].
  - destruct (PyStr.ceqb c sep) eqn:Hc.
    + apply Ascii.eqb_eq in Hc as ->. split; [done | intros H; inversion H].
    + apply Ascii.eqb_neq in Hc. destruct (PyStr.split1_chars sep l) as [a [b|]].
      * destruct IH as [-> Hnot]. split; [done |].
        intros Hin. apply elem_of_cons in Hin as [-> | Hin]; done.
      * destruct IH as [-> Hnot]. split; [done |].
        intros Hin. apply elem_of_cons in Hin as [-> | Hin]; done.
Qed.

Lemma take_until_spec (p : ascii → bool) (l : list ascii) :
  l = PyStr.take_until p l ++ PyStr.drop_until p l
  ∧ Forall (λ c, p c = false) (PyStr.take_until p l)
  ∧ match PyStr.drop_until p l with [] => True | c :: _ => p c = true end.
Proof.
  induction l as [|c l (Heq & Hall & Hhead)]; simpl; [done |].
  destruct (p c) eqn:Hc; simpl; [done |].
  split; [by rewrite <- Heq |]. split; [by apply Forall_cons | done].
Qed.

Lemma upper_char_comma (c : ascii) :
  PyStr.upper_char c = ","%char → c = ","%char.
Proof. destruct c as [[] [] [] [] [] [] [] []]; vm_compute; congruence. Qed.

Lemma upper_char_space (c : ascii) :
  PyStr.is_space (PyStr.upper_char c) = PyStr.is_space c.
Proof. destruct c as [[] [] [] [] [] [] [] []]; vm_compute; reflexivity. Qed.

Lemma is_infix_single (x : ascii) (l : list ascii) :
  PyStr.is_infix [x] l = true ↔ x ∈ l.
Proof.
  induction l as [|c l IH]; simpl.
  - split; [done | intros H; inversion H].
  - rewrite orb_true_iff, IH, andb_true_r, elem_of_cons. unfold PyStr.ceqb.
    rewrite Ascii.eqb_eq. split; intros [H | H]; auto.
Qed.

(** The type and the specification that [_extract_type_spec] reads off a
    description.  Both are empty for an empty description.  Otherwise, with
    a comma in the stripped text, the text is [a , b] with no comma in [a],
    the type is [a] stripped and upper-cased and the specification is [b]
    stripped; without a comma the type is the first word, upper-cased, and
    the specification the rest, stripped.  In every case the type has no
    lower-case letter and no comma, and without a comma in the text it has
    no white space either. *)
Theorem type_is_the_text_before_the_first_comma_or_space :
  ∀ (F : PyFloat) (description : pyval),
    let d := PyStr.strip (py_str description) in
    let ty := (_extract_type_spec description).1 in
    let spec := (_extract_type_spec description).2 in
    (truthy description = false → ty = "" ∧ spec = "")
    ∧ (truthy description = true → PyStr.contains "," d = true →
       ∃ a b, PyStr.chars d = a ++ ","%char :: b ∧ (","%char ∉ a)
              ∧ ty = PyStr.upper (PyStr.strip (PyStr.of_chars a))
              ∧ spec = PyStr.strip (PyStr.of_chars b))
    ∧ (truthy description = true → PyStr.contains "," d = false →
       ∃ w rest, PyStr.chars d = w ++ rest
                 ∧ Forall (λ c, PyStr.is_space c = false) w
                 ∧ match rest with [] => True | c :: _ => PyStr.is_space c = true end
                 ∧ ty = PyStr.upper (PyStr.of_chars w)
                 ∧ spec = PyStr.strip (PyStr.of_chars rest))
    ∧ Forall (λ c, PyStr.is_lower c = false ∧ c ≠ ","%char) (PyStr.chars ty)
    ∧ (PyStr.contains "," d = false →
       Forall (λ c, PyStr.is_space c = false) (PyStr.chars ty)).
Proof.
  intros F description d ty spec.
  assert (∀ s, Forall (λ c, PyStr.is_lower c = false) (PyStr.chars (PyStr.upper s)))
    as Hupper.
  { intros s. unfold PyStr.upper. rewrite chars_of_chars. apply Forall_forall.
    intros c Hc. apply elem_of_map_iff in Hc as (c0 & _ & <-).
    apply upper_char_not_lower. }
  assert (∀ s, ","%char ∉ PyStr.chars s → ","%char ∉ PyStr.chars (PyStr.upper s))
    as Hcomma.
  { intros s Hs Hin. unfold PyStr.upper in Hin. rewrite chars_of_chars in Hin.
    apply elem_of_map_iff in Hin as (c0 & Hc0 & Hup).
    apply upper_char_comma in Hup as ->. done. }
  assert (∀ s, Forall (λ c, PyStr.is_space c = false) (PyStr.chars s) →
               Forall (λ c, PyStr.is_space c = false) (PyStr.chars (PyStr.upper s)))
    as Hspace.
  { intros s Hs. unfold PyStr.upper. rewrite chars_of_chars.
    rewrite Forall_forall in *. intros c Hc.
    apply elem_of_map_iff in Hc as (c0 & Hc0 & <-). rewrite upper_char_space. auto. }
  assert (∀ s, PyStr.strip (PyStr.of_chars (PyStr.chars s)) = PyStr.strip s) as Hoc
    by (intros s; by rewrite of_chars_chars).
  subst ty spec. unfold _extract_type_spec. fold d.
  destruct (truthy description) eqn:Htruthy; simpl.
  2:{ split; [done |]. split; [done |]. split; [done |]. split; [constructor | constructor]. }
  split; [done |].
  destruct (PyStr.contains "," d) eqn:Hcontains.
  - unfold PyStr.split1.
    pose proof (split1_chars_spec "," (PyStr.chars d)) as Hsplit.
    destruct (PyStr.split1_chars "," (PyStr.chars d)) as [a [b|]].
    + destruct Hsplit as [Heq Hnot]. simpl.
      split; [intros _ _; by exists a, b |]. split; [done |]. split; [| done].
      apply Forall_forall. intros c Hc. split.
      * specialize (Hupper (PyStr.strip (PyStr.of_chars a))).
        rewrite Forall_forall in Hupper. by apply Hupper.
      * intros ->. revert Hc. apply Hcomma. unfold PyStr.strip.
        rewrite !chars_of_chars. intros Hin. by apply strip_chars_elem in Hin.
    + exfalso. destruct Hsplit as [Heq Hnot]. apply Hnot. rewrite <- Heq.
      by apply is_infix_single.
  - assert (","%char ∉ PyStr.chars d) as Hno.
    { intros Hin. apply is_infix_single in Hin. unfold PyStr.contains in Hcontains.
      simpl in Hcontains. congruence. }
    unfold PyStr.split_ws1. cbn zeta.
    assert (PyStr.lstrip_by PyStr.is_space (PyStr.chars d) = PyStr.chars d) as Hl.
    { unfold d, PyStr.strip. rewrite chars_of_chars.
      destruct (strip_chars_spec (PyStr.chars (py_str description)))
        as (_ & _ & _ & _ & _ & Hhead & _).
      destruct (PyStr.strip_chars _) as [|c t]; [done |]. simpl. by rewrite Hhead. }
    rewrite Hl.
    destruct (take_until_spec PyStr.is_space (PyStr.chars d)) as (Heq & Hw & Hrest).
    set (w := PyStr.take_until PyStr.is_space (PyStr.chars d)) in *.
    set (rest := PyStr.drop_until PyStr.is_space (PyStr.chars d)) in *.
    assert (PyStr.upper (PyStr.strip (PyStr.of_chars w)) = PyStr.upper (PyStr.of_chars w)
            ∧ Forall (λ c, PyStr.is_space c = false)
                     (PyStr.chars (PyStr.upper (PyStr.of_chars w)))
            ∧ (","%char ∉ PyStr.chars (PyStr.upper (PyStr.of_chars w))))
      as (Hstripw & Hspw & Hcw).
    { split; [| split].
      - f_equal. unfold PyStr.strip. rewrite chars_of_chars. f_equal.
        unfold PyStr.strip_chars, PyStr.rstrip_by.
        assert (∀ l, Forall (λ c, PyStr.is_space c = false) l →
                     PyStr.lstrip_by PyStr.is_space l = l) as Hid.
        { intros [|c l] Hall; [done |]. apply Forall_cons in Hall as [Hc _].
          simpl. by rewrite Hc. }
        rewrite (Hid w Hw), (Hid (rev w)) by by apply Forall_rev.
        apply rev_involutive.
      - apply Hspace. by rewrite chars_of_chars.
      - apply Hcomma. rewrite chars_of_chars. intros Hin. apply Hno.
        rewrite Heq. apply elem_of_app. by left. }
    assert (PyStr.strip (PyStr.of_chars (PyStr.lstrip_by PyStr.is_space rest))
            = PyStr.strip (PyStr.of_chars rest)) as Hstriprest.
    { unfold PyStr.strip. rewrite !chars_of_chars. f_equal.
      unfold PyStr.strip_chars. f_equal.
      destruct (lstrip_by_suffix PyStr.is_space rest) as (pre & Hr & _ & Hh).
      destruct (PyStr.lstrip_by PyStr.is_space rest) as [|c t]; [done |].
      simpl. by rewrite Hh. }
    assert (∀ ty0 spec0,
              ty0 = PyStr.upper (PyStr.of_chars w) →
              spec0 = PyStr.strip (PyStr.of_chars rest) →
              (true = true → false = true → ∃ a b, PyStr.chars d = a ++ ","%char :: b
                 ∧ (","%char ∉ a)
                 ∧ ty0 = PyStr.upper (PyStr.strip (PyStr.of_chars a))
                 ∧ spec0 = PyStr.strip (PyStr.of_chars b))
              ∧ (true = true → false = false →
                 ∃ w0 rest0, PyStr.chars d = w0 ++ rest0
                   ∧ Forall (λ c, PyStr.is_space c = false) w0
                   ∧ match rest0 with [] => True | c :: _ => PyStr.is_space c = true end
                   ∧ ty0 = PyStr.upper (PyStr.of_chars w0)
                   ∧ spec0 = PyStr.strip (PyStr.of_chars rest0))
              ∧ Forall (λ c, PyStr.is_lower c = false ∧ c ≠ ","%char) (PyStr.chars ty0)
              ∧ (false = false →
                 Forall (λ c, PyStr.is_space c = false) (PyStr.chars ty0))) as Hgoal.
    { intros ty0 spec0 -> ->. split; [done |].
      split; [intros _ _; by exists w, rest |]. split; [| done].
      apply Forall_forall. intros c Hc. split.
      - specialize (Hupper (PyStr.of_chars w)). rewrite Forall_forall in Hupper. auto.
      - by intros ->. }
    destruct w as [|w0 w'] eqn:Hweq.
    + (* the stripped text is empty *)
      apply Hgoal; [done |]. simpl in Heq. fold rest in Heq.
      assert (rest = []) as ->; [| done].
      destruct rest as [|c t]; [done |]. exfalso.
      assert (PyStr.lstrip_by PyStr.is_space (c :: t) = c :: t) as Hl'
        by by rewrite <- Heq.
      simpl in Hl'. rewrite Hrest in Hl'.
      destruct (lstrip_by_suffix PyStr.is_space t) as (pre & Ht & _).
      apply (f_equal length) in Hl'. rewrite Ht in Hl' at 2.
      simpl in Hl'. rewrite length_app in Hl'. lia.
    + destruct (PyStr.lstrip_by PyStr.is_space rest) as [|r0 r'] eqn:Hlr.
      * apply Hgoal; [by rewrite <- Hstripw | by rewrite <- Hstriprest].
      * apply Hgoal; [by rewrite <- Hstripw | by rewrite <- Hstriprest].
Qed.

(** ** The route that loads a workbook *)

Section RouteLoad.
Context {F : PyFloat}.




End RouteLoad.



(** The request is answered with the stripped id, the one item of the
    largest unskipped sheet and its one bidder; the reload gives the item
    the key after the one of the first load. *)
Example load_rfq_scenario :
  (load_rfq map_to_list one_workbook "2025-11-12 09:00:00" load_me0003 loaded_db).1
  = Loaded "ME0003" 1 ["WHITCO"]
  ∧ map db_id
        (items_of_rfq "ME0003"
           (load_rfq map_to_list one_workbook "2025-11-12 09:00:00"
                     load_me0003 loaded_db).2)
    = [2]
  ∧ map r_source_file
        (t_rfqs (load_rfq map_to_list one_workbook "2025-11-12 09:00:00"
                          load_me0003 loaded_db).2)
    = [Some "bids.xlsx"].
Proof. repeat split; vm_compute; reflexivity. Qed.

(** ** The metadata in a file name *)

(** The example of the docstring, a lower-case prefix with single-digit
    month and day, a station with an underscore, and three names that do not
    fit. *)
Example filename_metadata_scenarios :
  _parse_filename_metadata "St105_ME0003_AUDUBON_11-10-2025.xlsx"
  = Some {| m_station := "St105"; m_project := "ME0003"; m_creator := "AUDUBON";
            m_rfq_date := "2025-11-10"; m_rfq_id := "ME0003" |}
  ∧ _parse_filename_metadata "st7 _ ME1 _ AUD _ 1-2-2025.xlsx"
    = Some {| m_station := "St7"; m_project := "ME1"; m_creator := "AUD";
              m_rfq_date := "2025-01-02"; m_rfq_id := "ME1" |}
  ∧ _parse_filename_metadata "St1_2_ME_AUD_1-2-2025.xlsx"
    = Some {| m_station := "St1_2"; m_project := "ME"; m_creator := "AUD";
              m_rfq_date := "2025-01-02"; m_rfq_id := "ME" |}
  ∧ _parse_filename_metadata "St105_ME0003_AUDUBON_11-10-25.xlsx" = None
  ∧ _parse_filename_metadata "St105_ME0003_11-10-2025.xlsx" = None
  ∧ _parse_filename_metadata "Station105_ME0003_AUDUBON_11-10-2025" 
    = Some {| m_station := "Station105"; m_project := "ME0003"; m_creator := "AUDUBON";
              m_rfq_date := "2025-11-10"; m_rfq_id := "ME0003" |}.
Proof. repeat split; vm_compute; reflexivity. Qed.

(** ** Regular expressions: what the matcher decides *)

Lemma matches_Void (l : list ascii) : Re.matches_chars Re.Void l = false.
Proof. induction l as [|c l IH]; [done | exact IH]. Qed.

Lemma matches_Eps (l : list ascii) : Re.matches_chars Re.Eps l = true ↔ l = [].
Proof.
  destruct l as [|c l]; [done |]. simpl. rewrite matches_Void. done.
Qed.

Lemma matches_Cls (p : ascii → bool) (l : list ascii) :
  Re.matches_chars (Re.Cls p) l = true ↔ ∃ c, l = [c] ∧ p c = true.
Proof.
  destruct l as [|c l]; simpl.
  - split; [done | intros (c & H & _); done].
  - destruct (p c) eqn:Hc.
    + rewrite matches_Eps. split.
      * intros ->. by exists c.
      * intros (c' & [= -> ->] & _). done.
    + rewrite matches_Void. split; [done |]. intros (c' & [= -> ->] & Hc'). congruence.
Qed.

Lemma matches_Alt (r s : Re.regex) (l : list ascii) :
  Re.matches_chars (Re.Alt r s) l = Re.matches_chars r l || Re.matches_chars s l.
Proof. revert r s. induction l as [|c l IH]; intros r s; [done | apply IH]. Qed.

Lemma matches_Cat (r s : Re.regex) (l : list ascii) :
  Re.matches_chars (Re.Cat r s) l = true ↔
  ∃ a b, l = a ++ b ∧ Re.matches_chars r a = true ∧ Re.matches_chars s b = true.
Proof.
  revert r. induction l as [|c l IH]; intros r.
  - simpl. rewrite andb_true_iff. split.
    + intros [Hr Hs]. by exists [], [].
    + intros (a & b & Hl & Hr & Hs). symmetry in Hl.
      apply app_eq_nil in Hl as [-> ->]. done.
  - cbn [Re.matches_chars Re.deriv].
    assert (Re.matches_chars (Re.Cat (Re.deriv c r) s) l = true ↔
            ∃ a b, c :: l = (c :: a) ++ b ∧ Re.matches_chars r (c :: a) = true
                   ∧ Re.matches_chars s b = true) as Hstep.
    { rewrite IH. split; intros (a & b & Hl & Hr & Hs); exists a, b.
      - by subst.
      - by injection Hl as ->. }
    destruct (Re.nullable r) eqn:Hnull.
    + rewrite matches_Alt, orb_true_iff, Hstep. split.
      * intros [(a & b & Hl & Hr & Hs) | Hs].
        -- by exists (c :: a), b.
        -- by exists [], (c :: l).
      * intros ([|c' a] & b & Hl & Hr & Hs).
        -- right. simpl in Hl. by subst.
        -- left. injection Hl as <- ->. by exists a, b.
    + rewrite Hstep. split.
      * intros (a & b & Hl & Hr & Hs). by exists (c :: a), b.
      * intros ([|c' a] & b & Hl & Hr & Hs).
        -- simpl in Hr. congruence.
        -- injection Hl as <- ->. by exists a, b.
Qed.

Lemma matches_Cat_intro (r s : Re.regex) (a b : list ascii) :
  Re.matches_chars r a = true → Re.matches_chars s b = true →
  Re.matches_chars (Re.Cat r s) (a ++ b) = true.
Proof. intros Hr Hs. apply matches_Cat. by exists a, b. Qed.

Lemma matches_Star_Cls (p : ascii → bool) (l : list ascii) :
  Re.matches_chars (Re.Star (Re.Cls p)) l = true ↔ Forall (λ c, p c = true) l.
Proof.
  induction l as [|c l IH]; [done |].
  cbn [Re.matches_chars Re.deriv]. rewrite Forall_cons, <- IH, matches_Cat. split.
  - intros (a & b & -> & Ha & Hb). destruct (p c); [| by rewrite matches_Void in Ha].
    apply matches_Eps in Ha as ->. done.
  - intros [-> Hl]. by exists [], l.
Qed.

Lemma matches_plus_Cls (p : ascii → bool) (l : list ascii) :
  Re.matches_chars (Re.plus (Re.Cls p)) l = true ↔
  l ≠ [] ∧ Forall (λ c, p c = true) l.
Proof.
  unfold Re.plus. rewrite matches_Cat. split.
  - intros (a & b & -> & Ha & Hb). apply matches_Cls in Ha as (c & -> & Hc).
    apply matches_Star_Cls in Hb. split; [done | by apply Forall_cons].
  - intros [Hne Hall]. destruct l as [|c l]; [done |].
    apply Forall_cons in Hall as [Hc Hl]. exists [c], l. split; [done |].
    split; [apply matches_Cls; by exists c | by apply matches_Star_Cls].
Qed.

(** ** The greedy group *)

Lemma greedy_prefix_None (p : ascii → bool) (after : Re.regex)
    (rest pre : list ascii) :
  (∀ x r, rest = x ++ r → Forall (λ c, p c = true) x → pre ≠ [] ∨ x ≠ [] →
          Re.matches_chars after r = false) →
  greedy_prefix p after pre rest = None.
Proof.
  revert pre. induction rest as [|c t IH]; intros pre H.
  - cbn [greedy_prefix]. destruct pre as [|c0 pre]; [done |].
    by rewrite (H [] []); [| | constructor | left].
  - cbn [greedy_prefix].
    assert ((if match pre with [] => false | _ => Re.matches_chars after (c :: t) end
             then Some (rev pre, c :: t) else None) = None) as Hhere.
    { destruct pre as [|c0 pre]; [done |].
      by rewrite (H [] (c :: t)); [| | constructor | left]. }
    rewrite Hhere. destruct (p c) eqn:Hc; [| done].
    rewrite IH; [done |]. intros x r -> Hx _.
    apply (H (c :: x) r); [done | by apply Forall_cons | by right].
Qed.

Lemma greedy_prefix_Some (p : ascii → bool) (after : Re.regex)
    (w r pre : list ascii) :
  Forall (λ c, p c = true) w → pre ≠ [] ∨ w ≠ [] →
  Re.matches_chars after r = true →
  (∀ x r', r = x ++ r' → x ≠ [] → Forall (λ c, p c = true) x →
           Re.matches_chars after r' = false) →
  greedy_prefix p after pre (w ++ r) = Some (rev pre ++ w, r).
Proof.
  revert pre. induction w as [|c w IH]; intros pre Hw Hne Hr Hlonger.
  - rewrite app_nil_r. cbn [app].
    assert ((if match pre with [] => false | _ => Re.matches_chars after r end
             then Some (rev pre, r) else None) = Some (rev pre, r)) as Hhere.
    { destruct pre as [|c0 pre]; [by destruct Hne |]. by rewrite Hr. }
    destruct r as [|c t]; [exact Hhere |]. cbn [greedy_prefix].
    destruct (p c) eqn:Hc; [| exact Hhere].
    rewrite greedy_prefix_None; [exact Hhere |].
    intros x r' -> Hx _. apply (Hlonger (c :: x) r'); [done | done |].
    by apply Forall_cons.
  - apply Forall_cons in Hw as [Hc Hw]. cbn [app greedy_prefix]. rewrite Hc.
    rewrite (IH (c :: pre)); [| done | by left | done | done].
    cbn [rev]. by rewrite <- app_assoc.
Qed.

(** ** A file name of the pattern *)

Lemma plain_char_facts (c : ascii) :
  is_letter c || PyStr.is_digit c = true →
  is_word c = true ∧ PyStr.is_space c = false ∧ PyStr.ceqb "_" c = false
  ∧ PyStr.ceqb c "-" = false ∧ PyStr.ceqb "." c = false ∧ PyStr.ceqb "/" c = false
  ∧ PyStr.ceqb "010" c = false.
Proof.
  destruct c as [[] [] [] [] [] [] [] []]; vm_compute; intros H;
    first [discriminate H | repeat split].
Qed.

Lemma underscores_app (a b : list ascii) :
  underscores (a ++ b) = underscores a + underscores b.
Proof. unfold underscores. by rewrite List.filter_app, length_app. Qed.

Lemma underscores_none (l : list ascii) :
  Forall (λ c, PyStr.ceqb "_" c = false) l → underscores l = 0.
Proof.
  unfold underscores. induction 1 as [|c l Hc _ IH]; [done |].
  cbn [List.filter]. rewrite Hc. exact IH.
Qed.

Lemma underscores_cons (l : list ascii) : underscores ("_"%char :: l) = S (underscores l).
Proof. done. Qed.

Lemma underscores_other (c : ascii) (l : list ascii) :
  PyStr.ceqb "_" c = false → underscores (c :: l) = underscores l.
Proof. intros Hc. unfold underscores. cbn [List.filter]. by rewrite Hc. Qed.

Lemma sep_underscore (a : list ascii) :
  Re.matches_chars sep_re a = true → 1 ≤ underscores a.
Proof.
  change sep_re
    with (Re.Cat spaces_re (Re.Cat (Re.Cls (PyStr.ceqb "_")) spaces_re)).
  intros H. apply matches_Cat in H as (a1 & a23 & -> & _ & H).
  apply matches_Cat in H as (a2 & a3 & -> & H & _).
  apply matches_Cls in H as (c & -> & Hc). apply Ascii.eqb_eq in Hc as <-.
  rewrite underscores_app. simpl. rewrite underscores_cons. lia.
Qed.

Lemma after_creator_underscores (l : list ascii) :
  Re.matches_chars after_creator l = true → 1 ≤ underscores l.
Proof.
  change after_creator with (Re.Cat sep_re (Re.Cat date_re Re.eol)).
  intros H. apply matches_Cat in H as (a & b & -> & Ha & _).
  apply sep_underscore in Ha. rewrite underscores_app. lia.
Qed.

Lemma after_rfq_id_underscores (l : list ascii) :
  Re.matches_chars after_rfq_id l = true → 2 ≤ underscores l.
Proof.
  change after_rfq_id with (Re.Cat sep_re (Re.Cat word_re after_creator)).
  intros H. apply matches_Cat in H as (a & b & -> & Ha & H).
  apply matches_Cat in H as (w & c & -> & _ & Hc).
  apply sep_underscore in Ha. apply after_creator_underscores in Hc.
  rewrite !underscores_app. lia.
Qed.

Lemma after_station_underscores (l : list ascii) :
  Re.matches_chars after_station l = true → 3 ≤ underscores l.
Proof.
  change after_station with (Re.Cat sep_re (Re.Cat word_re after_rfq_id)).
  intros H. apply matches_Cat in H as (a & b & -> & Ha & H).
  apply matches_Cat in H as (w & c & -> & _ & Hc).
  apply sep_underscore in Ha. apply after_rfq_id_underscores in Hc.
  rewrite !underscores_app. lia.
Qed.

(** After a part that ends before an underscore no longer part will do:
    too few underscores would be left. *)
Lemma no_longer_group (after : Re.regex) (k : nat) (r : list ascii) :
  (∀ l, Re.matches_chars after l = true → k ≤ underscores l) →
  underscores ("_"%char :: r) = k →
  ∀ x r', "_"%char :: r = x ++ r' → x ≠ [] → Re.matches_chars after r' = false.
Proof.
  intros Hafter Hk x r' Heq Hx. destruct x as [|c x]; [done |].
  injection Heq as <- ->. apply not_true_is_false. intros Hm.
  apply Hafter in Hm. rewrite underscores_cons, underscores_app in Hk. lia.
Qed.

Lemma matches_digits12 (l : list ascii) :
  digit_run 1 2 l → Re.matches_chars digits12_re l = true.
Proof.
  intros [Hlen Hall]. unfold digits12_re, Re.opt. apply matches_Cat.
  destruct l as [|a [|b [|c l]]]; simpl in Hlen; try lia.
  - apply Forall_cons in Hall as [Ha _]. exists [a], []. split; [done |].
    split; [apply matches_Cls; by exists a | done].
  - apply Forall_cons in Hall as [Ha Hall]. apply Forall_cons in Hall as [Hb _].
    exists [a], [b]. split; [done |]. split; [apply matches_Cls; by exists a |].
    rewrite matches_Alt. apply orb_true_iff. right. apply matches_Cls. by exists b.
Qed.

Lemma matches_date (m d y : list ascii) :
  digit_run 1 2 m → digit_run 1 2 d → digit_run 4 4 y →
  Re.matches_chars (Re.Cat date_re Re.eol) (m ++ "-"%char :: d ++ "-"%char :: y) = true.
Proof.
  intros Hm Hd [Hlen Hy].
  destruct y as [|y1 [|y2 [|y3 [|y4 [|y5 y]]]]]; simpl in Hlen; try lia.
  apply Forall_cons in Hy as [H1 Hy]. apply Forall_cons in Hy as [H2 Hy].
  apply Forall_cons in Hy as [H3 Hy]. apply Forall_cons in Hy as [H4 _].
  assert (∀ c, PyStr.is_digit c = true → Re.matches_chars digit_re [c] = true) as Hdig.
  { intros c Hc. apply matches_Cls. by exists c. }
  assert (Re.matches_chars (Re.Cls (PyStr.ceqb "-")) ["-"%char] = true) as Hdash by done.
  change date_re
    with (Re.Cat digits12_re
            (Re.Cat (Re.Cls (PyStr.ceqb "-"))
               (Re.Cat digits12_re
                  (Re.Cat (Re.Cls (PyStr.ceqb "-"))
                     (Re.Cat digit_re (Re.Cat digit_re (Re.Cat digit_re digit_re))))))).
  assert (m ++ "-"%char :: d ++ "-"%char :: [y1; y2; y3; y4]
          = (m ++ ["-"%char] ++ d ++ ["-"%char] ++ [y1] ++ [y2] ++ [y3] ++ [y4]) ++ [])
    as -> by (by rewrite app_nil_r).
  apply matches_Cat_intro; [| done].
  repeat (apply matches_Cat_intro; [first [by apply matches_digits12 | done | by apply Hdig] |]).
  by apply Hdig.
Qed.

Lemma skip_sep_underscore (w : list ascii) :
  match w with [] => True | c :: _ => PyStr.is_space c = false end →
  skip_sep ("_"%char :: w) = Some w.
Proof.
  intros Hw. unfold skip_sep. simpl. destruct w as [|c w]; [done |].
  simpl. by rewrite Hw.
Qed.

Lemma rstrip_by_last (p : ascii → bool) (l : list ascii) (c : ascii) :
  p c = false → PyStr.rstrip_by p (l ++ [c]) = l ++ [c].
Proof.
  intros Hc. unfold PyStr.rstrip_by. rewrite rev_app_distr. simpl. rewrite Hc.
  simpl. by rewrite rev_involutive.
Qed.

Lemma split_char_none (sep : ascii) (a cur : list ascii) :
  Forall (λ c, PyStr.ceqb c sep = false) a →
  split_char sep cur a = [rev cur ++ a].
Proof.
  revert cur. induction a as [|c a IH]; intros cur Ha; simpl.
  - by rewrite app_nil_r.
  - apply Forall_cons in Ha as [Hc Ha]. rewrite Hc, IH by done.
    simpl. by rewrite <- app_assoc.
Qed.

Lemma split_char_app (sep : ascii) (a b cur : list ascii) :
  Forall (λ c, PyStr.ceqb c sep = false) a →
  split_char sep cur (a ++ sep :: b) = (rev cur ++ a) :: split_char sep [] b.
Proof.
  revert cur. induction a as [|c a IH]; intros cur Ha; simpl.
  - unfold PyStr.ceqb. by rewrite Ascii.eqb_refl, app_nil_r.
  - apply Forall_cons in Ha as [Hc Ha]. rewrite Hc, IH by done.
    simpl. by rewrite <- app_assoc.
Qed.

Lemma int_of_digit_run (lo hi : nat) (l : list ascii) :
  1 ≤ lo → digit_run lo hi l → int_of_digits l = Some (digits_nat l).
Proof.
  intros Hlo [Hlen Hall]. unfold int_of_digits.
  destruct l as [|c l]; [simpl in Hlen; lia |].
  assert (forallb PyStr.is_digit (c :: l) = true) as ->; [| done].
  apply forallb_forall. intros x Hx. rewrite Forall_forall in Hall.
  by apply Hall, list_elem_of_In.
Qed.

Lemma split1_chars_app (sep : ascii) (a b : list ascii) :
  Forall (λ c, PyStr.ceqb c sep = false) a →
  PyStr.split1_chars sep (a ++ sep :: b) = (a, Some b).
Proof.
  induction a as [|c a IH]; intros Ha; simpl.
  - unfold PyStr.ceqb. by rewrite Ascii.eqb_refl.
  - apply Forall_cons in Ha as [Hc Ha]. by rewrite Hc, IH.
Qed.

Lemma take_until_all (p : ascii → bool) (l : list ascii) :
  Forall (λ c, p c = false) l → PyStr.take_until p l = l.
Proof.
  induction 1 as [|c l Hc _ IH]; simpl; [done |]. by rewrite Hc, IH.
Qed.

Lemma splitext_root_plain (name ext : list ascii) (c : ascii) :
  Forall (λ c, PyStr.ceqb "." c = false ∧ PyStr.ceqb "/" c = false) ext →
  Forall (λ c, PyStr.ceqb "/" c = false) name →
  c ∈ name → PyStr.ceqb "." c = false →
  splitext_root (PyStr.of_chars (name ++ "."%char :: ext)) = PyStr.of_chars name.
Proof.
  intros Hext Hname Hc Hdot. unfold splitext_root.
  rewrite chars_of_chars, rev_app_distr. cbn [rev]. rewrite <- app_assoc. cbn [app].
  rewrite split1_chars_app.
  2:{ apply Forall_rev. eapply Forall_impl; [exact Hext |].
      intros x [Hx _]. unfold PyStr.ceqb in *. by rewrite Ascii.eqb_sym. }
  assert (existsb (PyStr.ceqb "/") (rev ext) = false) as ->.
  { apply not_true_is_false. intros H. apply existsb_exists in H as (x & Hx & Hsl).
    apply in_rev, list_elem_of_In in Hx. rewrite Forall_forall in Hext.
    destruct (Hext x Hx). congruence. }
  rewrite take_until_all by by apply Forall_rev.
  assert (forallb (PyStr.ceqb ".") (rev name) = false) as ->.
  { apply not_true_is_false. intros H. rewrite forallb_forall in H.
    rewrite (H c) in Hdot; [done |]. by apply -> in_rev; apply list_elem_of_In. }
  by rewrite rev_involutive.
Qed.

Lemma plain_word_facts (w : list ascii) :
  plain_word w →
  Forall (λ c, is_word c = true) w ∧ underscores w = 0
  ∧ Forall (λ c, PyStr.ceqb "/" c = false) w
  ∧ match w with [] => True | c :: _ => PyStr.is_space c = false end.
Proof.
  intros [Hne Hall]. split; [| split; [| split]].
  - eapply Forall_impl; [exact Hall |]. intros c Hc. by apply plain_char_facts.
  - apply underscores_none. eapply Forall_impl; [exact Hall |].
    intros c Hc. by apply plain_char_facts.
  - eapply Forall_impl; [exact Hall |]. intros c Hc. by apply plain_char_facts.
  - destruct w as [|c w]; [done |]. apply Forall_cons in Hall as [Hc _].
    by apply plain_char_facts.
Qed.

Lemma digit_run_facts (lo hi : nat) (l : list ascii) :
  digit_run lo hi l →
  Forall (λ c, PyStr.ceqb c "-" = false) l ∧ underscores l = 0
  ∧ Forall (λ c, PyStr.ceqb "/" c = false) l
  ∧ Forall (λ c, PyStr.ceqb "010" c = false) l
  ∧ match l with [] => True | c :: _ => PyStr.is_space c = false end.
Proof.
  intros [_ Hall].
  assert (Forall (λ c, is_letter c || PyStr.is_digit c = true) l) as Hplain.
  { eapply Forall_impl; [exact Hall |]. intros c Hc. simpl in Hc. rewrite Hc.
    by rewrite orb_true_r. }
  split; [| split; [| split; [| split]]].
  - eapply Forall_impl; [exact Hplain |]. intros c Hc. by apply plain_char_facts.
  - apply underscores_none. eapply Forall_impl; [exact Hplain |].
    intros c Hc. by apply plain_char_facts.
  - eapply Forall_impl; [exact Hplain |]. intros c Hc. by apply plain_char_facts.
  - eapply Forall_impl; [exact Hplain |]. intros c Hc. by apply plain_char_facts.
  - destruct l as [|c l]; [done |]. apply Forall_cons in Hplain as [Hc _].
    by apply plain_char_facts.
Qed.

(** A group of letters and digits in front of an underscore is taken
    whole, and no further. *)
Lemma greedy_plain_word (after : Re.regex) (k : nat) (w r : list ascii) :
  plain_word w →
  Re.matches_chars after ("_"%char :: r) = true →
  (∀ l, Re.matches_chars after l = true → k ≤ underscores l) →
  underscores ("_"%char :: r) = k →
  greedy_prefix is_word after [] (w ++ "_"%char :: r) = Some (w, "_"%char :: r).
Proof.
  intros Hw Hr Hafter Hk.
  destruct (plain_word_facts w Hw) as (Hall & _).
  apply (greedy_prefix_Some is_word after w ("_"%char :: r) []); [done | | done |].
  - right. by destruct Hw.
  - intros x r' Heq Hx _. by apply (no_longer_group after k r Hafter Hk x r').
Qed.

(** The metadata of a file name [St<station>_<rfq>_<creator>_<m>-<d>-<y>.<ext>]
    whose station, RFQ id and creator are non-empty runs of letters and
    digits, whose month and day have one or two digits and whose year has
    four: the station with "St" in front whatever the case of the first two
    letters, the RFQ id as id and as project, the creator, and the date as
    year-month-day, zero-padded to four, two and two digits.  The extension
    (any text without dot and slash) is dropped. *)
Theorem file_name_of_the_pattern_gives_its_metadata :
  ∀ (s t : ascii) (station rfq creator m d y ext : list ascii),
    (s = "S" ∨ s = "s")%char → (t = "T" ∨ t = "t")%char →
    plain_word station → plain_word rfq → plain_word creator →
    digit_run 1 2 m → digit_run 1 2 d → digit_run 4 4 y →
    Forall (λ c, c ≠ "."%char ∧ c ≠ "/"%char) ext →
    _parse_filename_metadata
      (PyStr.of_chars
         (s :: t :: station ++ "_"%char :: rfq ++ "_"%char :: creator ++ "_"%char
            :: m ++ "-"%char :: d ++ "-"%char :: y ++ "."%char :: ext))
    = Some {| m_station := "St" +:+ PyStr.of_chars station;
              m_project := PyStr.of_chars rfq;
              m_creator := PyStr.of_chars creator;
              m_rfq_date := zero_pad 4 (digits_nat y) +:+ "-"
                            +:+ zero_pad 2 (digits_nat m) +:+ "-"
                            +:+ zero_pad 2 (digits_nat d);
              m_rfq_id := PyStr.of_chars rfq |}.
Proof.
  intros s t station rfq creator m d y ext Hs Ht Hst Hrf Hcr Hm Hd Hy Hext.
  destruct (plain_word_facts _ Hst) as (_ & _ & Hst_sl & _).
  destruct (plain_word_facts _ Hrf) as (_ & Hrf_u & Hrf_sl & Hrf_sp).
  destruct (plain_word_facts _ Hcr) as (Hcr_w & Hcr_u & Hcr_sl & Hcr_sp).
  destruct (digit_run_facts _ _ _ Hm) as (Hm_d & Hm_u & Hm_sl & _ & Hm_sp).
  destruct (digit_run_facts _ _ _ Hd) as (Hd_d & Hd_u & Hd_sl & _ & _).
  destruct (digit_run_facts _ _ _ Hy) as (Hy_d & Hy_u & Hy_sl & Hy_nl & _).
  set (date := m ++ "-"%char :: d ++ "-"%char :: y).
  set (rest3 := "_"%char :: date).
  set (rest2 := "_"%char :: creator ++ rest3).
  set (rest1 := "_"%char :: rfq ++ rest2).
  assert (s :: t :: station ++ "_"%char :: rfq ++ "_"%char :: creator ++ "_"%char
            :: m ++ "-"%char :: d ++ "-"%char :: y ++ "."%char :: ext
          = (s :: t :: station ++ rest1) ++ "."%char :: ext) as ->.
  { subst rest1 rest2 rest3 date. cbn [app].
    by rewrite <- ?app_assoc, <- ?app_comm_cons, <- ?app_assoc, <- ?app_comm_cons,
               <- ?app_assoc, <- ?app_comm_cons, <- ?app_assoc, <- ?app_comm_cons,
               <- ?app_assoc, <- ?app_comm_cons, <- ?app_assoc. }
  assert (underscores date = 0) as Hdate_u.
  { subst date. rewrite underscores_app, underscores_other, underscores_app,
      underscores_other by done. lia. }
  assert (Re.matches_chars sep_re ["_"%char] = true) as Hsep by done.
  assert (Re.matches_chars after_creator rest3 = true) as H3.
  { change after_creator with (Re.Cat sep_re (Re.Cat date_re Re.eol)).
    apply (matches_Cat_intro _ _ ["_"%char] date); [done |]. by apply matches_date. }
  assert (Re.matches_chars after_rfq_id rest2 = true) as H2.
  { change after_rfq_id with (Re.Cat sep_re (Re.Cat word_re after_creator)).
    apply (matches_Cat_intro _ _ ["_"%char] (creator ++ rest3)); [done |].
    apply matches_Cat_intro; [| done]. apply matches_plus_Cls. by destruct Hcr. }
  assert (Re.matches_chars after_station rest1 = true) as H1.
  { change after_station with (Re.Cat sep_re (Re.Cat word_re after_rfq_id)).
    apply (matches_Cat_intro _ _ ["_"%char] (rfq ++ rest2)); [done |].
    apply matches_Cat_intro; [| done]. apply matches_plus_Cls.
    destruct (plain_word_facts _ Hrf) as (Hw & _). by destruct Hrf. }
  assert (underscores rest3 = 1) as Hu3.
  { subst rest3. rewrite underscores_cons. lia. }
  assert (underscores rest2 = 2) as Hu2.
  { subst rest2. rewrite underscores_cons, underscores_app. lia. }
  assert (underscores rest1 = 3) as Hu1.
  { subst rest1. rewrite underscores_cons, underscores_app. lia. }
  unfold _parse_filename_metadata.
  rewrite (splitext_root_plain (s :: t :: station ++ rest1) ext s).
  2:{ eapply Forall_impl; [exact Hext |]. intros c [Hdot Hsl].
      split; apply Ascii.eqb_neq; congruence. }
  2:{ repeat apply Forall_cons_2; try (by destruct Hs as [-> | ->]);
        try (by destruct Ht as [-> | ->]).
      apply Forall_app_2; [done |]. subst rest1 rest2 rest3 date.
      repeat first [apply Forall_cons_2; [done |] | apply Forall_app_2; [done |]].
      done. }
  2:{ by left. }
  2:{ by destruct Hs as [-> | ->]. }
  rewrite chars_of_chars.
  assert ((PyStr.ceqb s "S" || PyStr.ceqb s "s") && (PyStr.ceqb t "T" || PyStr.ceqb t "t")
          = true) as -> by (by destruct Hs as [-> | ->], Ht as [-> | ->]).
  change (station ++ rest1) with (station ++ "_"%char :: rfq ++ rest2).
  rewrite (greedy_plain_word after_station 3 station (rfq ++ rest2) Hst H1
             after_station_underscores Hu1).
  cbn [mbind option_bind]. rewrite (skip_sep_underscore (rfq ++ rest2)).
  2:{ destruct rfq as [|c rfq]; [by destruct Hrf | done]. }
  cbn [mbind option_bind].
  change (rfq ++ rest2) with (rfq ++ "_"%char :: creator ++ rest3).
  rewrite (greedy_plain_word after_rfq_id 2 rfq (creator ++ rest3) Hrf H2
             after_rfq_id_underscores Hu2).
  cbn [mbind option_bind]. rewrite (skip_sep_underscore (creator ++ rest3)).
  2:{ destruct creator as [|c creator]; [by destruct Hcr | done]. }
  cbn [mbind option_bind].
  change (creator ++ rest3) with (creator ++ "_"%char :: date).
  rewrite (greedy_plain_word after_creator 1 creator date Hcr H3
             after_creator_underscores Hu3).
  cbn [mbind option_bind]. rewrite (skip_sep_underscore date).
  2:{ subst date. destruct m as [|c m]; [destruct Hm as [Hlen _]; simpl in Hlen; lia | done]. }
  cbn [mbind option_bind].
  assert (PyStr.rstrip_by (PyStr.ceqb "010") date = date) as ->.
  { destruct Hy as [Hlen _].
    destruct y as [|y1 [|y2 [|y3 [|y4 [|y5 y]]]]]; simpl in Hlen; try lia.
    apply Forall_cons in Hy_nl as [_ Hy_nl]. apply Forall_cons in Hy_nl as [_ Hy_nl].
    apply Forall_cons in Hy_nl as [_ Hy_nl]. apply Forall_cons in Hy_nl as [Hc _].
    subst date.
    assert (m ++ "-"%char :: d ++ "-"%char :: [y1; y2; y3; y4]
            = (m ++ "-"%char :: d ++ "-"%char :: [y1; y2; y3]) ++ [y4]) as ->
      by (by rewrite <- ?app_assoc, <- ?app_comm_cons, <- ?app_assoc, <- ?app_comm_cons).
    by apply rstrip_by_last. }
  subst date. rewrite (split_char_app "-" m), (split_char_app "-" d),
    (split_char_none "-" y) by done.
  cbn [rev app].
  rewrite (int_of_digit_run 1 2 m), (int_of_digit_run 1 2 d), (int_of_digit_run 4 4 y)
    by (done || lia).
  done.
Qed.

Lemma file_name_metadata_witness :
  plain_word (PyStr.chars "105") ∧ plain_word (PyStr.chars "ME0003")
  ∧ plain_word (PyStr.chars "AUDUBON")
  ∧ digit_run 1 2 (PyStr.chars "11") ∧ digit_run 1 2 (PyStr.chars "10")
  ∧ digit_run 4 4 (PyStr.chars "2025")
  ∧ _parse_filename_metadata
      (PyStr.of_chars
         ("S"%char :: "t"%char :: PyStr.chars "105" ++ "_"%char :: PyStr.chars "ME0003"
            ++ "_"%char :: PyStr.chars "AUDUBON" ++ "_"%char :: PyStr.chars "11"
            ++ "-"%char :: PyStr.chars "10" ++ "-"%char :: PyStr.chars "2025"
            ++ "."%char :: PyStr.chars "xlsx"))
    = Some {| m_station := "St" +:+ PyStr.of_chars (PyStr.chars "105");
              m_project := PyStr.of_chars (PyStr.chars "ME0003");
              m_creator := PyStr.of_chars (PyStr.chars "AUDUBON");
              m_rfq_date := zero_pad 4 (digits_nat (PyStr.chars "2025")) +:+ "-"
                            +:+ zero_pad 2 (digits_nat (PyStr.chars "11")) +:+ "-"
                            +:+ zero_pad 2 (digits_nat (PyStr.chars "10"));
              m_rfq_id := PyStr.of_chars (PyStr.chars "ME0003") |}.
Proof.
  assert (plain_word (PyStr.chars "105")) as H1
    by (split; [done | repeat constructor]).
  assert (plain_word (PyStr.chars "ME0003")) as H2
    by (split; [done | repeat constructor]).
  assert (plain_word (PyStr.chars "AUDUBON")) as H3
    by (split; [done | repeat constructor]).
  assert (digit_run 1 2 (PyStr.chars "11")) as H4
    by (split; [simpl; lia | repeat constructor]).
  assert (digit_run 1 2 (PyStr.chars "10")) as H5
    by (split; [simpl; lia | repeat constructor]).
  assert (digit_run 4 4 (PyStr.chars "2025")) as H6
    by (split; [simpl; lia | repeat constructor]).
  repeat (split; [assumption |]).
  apply (file_name_of_the_pattern_gives_its_metadata "S" "t"); try assumption.
  - by left.
  - by right.
  - repeat constructor; discriminate.
Defined.

(** ** The similarity of two token sets *)

(** [_jaccard] does not depend on the order of its arguments and is 0.0
    when either set is empty.  For two non-empty sets the union is not
    empty, so the guard [if union else 0.0] never takes its second branch:
    the result is [len(a & b) / len(a | b)], a quotient of a count by a
    count that is at least as large and positive. *)
Theorem jaccard_is_symmetric_and_never_divides_by_zero :
  ∀ (F : PyFloat) (a b : gset string),
    _jaccard a b = _jaccard b a
    ∧ (a = ∅ ∨ b = ∅ → _jaccard a b = float_of_Z 0)
    ∧ (a ≠ ∅ → b ≠ ∅ →
       0 < size (a ∪ b)
       ∧ size (a ∩ b) ≤ size (a ∪ b)
       ∧ _jaccard a b
         = fdiv (float_of_Z (Z.of_nat (size (a ∩ b))))
                (float_of_Z (Z.of_nat (size (a ∪ b))))).
Proof.
  intros F a b. split; [| split].
  - unfold _jaccard.
    assert (b ∩ a = a ∩ b) as ->
      by (apply set_eq; intros x; rewrite !elem_of_intersection; tauto).
    assert (b ∪ a = a ∪ b) as ->
      by (apply set_eq; intros x; rewrite !elem_of_union; tauto).
    by destruct (decide (a = ∅)), (decide (b = ∅)).
  - unfold _jaccard. intros [-> | ->]; [done |]. by destruct (decide (a = ∅)).
  - intros Ha Hb.
    assert (0 < size (a ∪ b)) as Hpos.
    { destruct (size (a ∪ b)) eqn:Hsize; [| lia].
      apply size_empty_iff in Hsize. apply leibniz_equiv in Hsize.
      apply empty_union_L in Hsize as [? _]. done. }
    split; [done |]. split.
    + apply subseteq_size. intros x Hx. apply elem_of_intersection in Hx as [Hx _].
      by apply elem_of_union_l.
    + unfold _jaccard. destruct (decide (a = ∅)); [done |].
      destruct (decide (b = ∅)); [done |].
      destruct (size (a ∪ b) =? 0) eqn:Hz; [apply Nat.eqb_eq in Hz; lia | done].
Qed.
